(* ===== verification/_CoqProject ===== *)
-Q . S2P
Prelude.v
Text.v
Types_util.v
Headers_util.v
Processor.v
Checksum.v
TestPackets.v
NatEngine.v
NatTable.v
NatProofs.v
NatReply.v
NatSeqlock.v
Rings.v
SpscConc.v
Double.v
Telemetry.v
TxFrame.v
DhcpEngine.v
DhcpProofs.v
DhcpWire.v
Scheduler.v
Config.v
SelfTest.v
Network_util.v
NetworkConfig.v
ProcNet.v
ForwardingState.v
Forward.v
Workers.v
SnapshotConc.v
StopTokens.v
QosService.v
RawSocket.v
Descriptors.v
Collector.v
HostInfo.v
NumPad.v
Dashboard.v
Paint.v
Widgets.v
StyleSheet.v
App.v
Main.v
Threads.v
ControlPlane.v
System.v
EndToEnd.v
Books.v
Leases.v
Window.v
Ownership.v
