(* ===== verification/Prelude.v ===== *)
(** * A verification of the gaming traffic prioritizer

    ** The program

    The program is a two-port software router with traffic prioritisation. Two data-plane
    cores move Ethernet frames between a WAN and a LAN interface, each with a receive thread
    that copies frames from the kernel's packet ring into a frame queue, and a processing
    thread that parses each frame, runs it through a pipeline (DHCP interception, network
    address translation, Ethernet rewrite, classification and routing) and sends it, at once
    or through a token-bucket shaper. Around the data plane, a control plane answers DHCP
    requests, refreshes the L2 snapshot from [/proc/net], follows the WAN address, applies
    rate limits set in a graphical dashboard and collects telemetry.

    ** Which file models what

    Foundations.
    - [Prelude]: machine words, byte-level loads and stores, tactics ([wordlia], [divlia],
      [bool2prop]), the hint database [words], shared lemmas.
    - [Text], [Types_util]: decimal printing, [from_chars], [inet_pton], the IPv4 and MAC
      types ([Types_util.cpp], [Types_util.hpp], [Config.hpp]).
    - [Double]: binary64 arithmetic as rounding of rationals, for the token bucket.
    - [Telemetry], [TxFrame]: the telemetry singleton ([Telemetry.hpp]) and the world the
      program runs in: clock, replies of [send(2)], frames on the wire, telemetry; the
      non-blocking send loop ([TxFrameOutput_util.cpp]).

    Packets.
    - [Headers_util]: header layouts, [ParsedPacket::parse] ([Headers_util.hpp]).
    - [Processor]: flow keys and the heuristic classifier ([Processor.hpp]).
    - [Checksum]: incremental and full Internet checksums ([NatEngine.cpp],
      [SelfTest.cpp]).
    - [TestPackets]: the packet builders of [SelfTest.cpp], used by the witnesses.

    Address translation ([NatEngine.cpp], [NatEngine.hpp]).
    - [NatEngine]: the engine's tables and both entry points; [NatTable]: the table
      invariants; [NatProofs]: what translation does to a packet and to the tables;
      [NatReply]: replies reach the inside host; [NatSeqlock]: the sequence locks on
      sessions, load by load and store by store, under interleaving.

    Queues.
    - [Rings]: [SpscRingBuffer] and [ZeroAllocRingBuffer], the class [Fifo] and its laws
      [FifoLaws], which both implement; [SpscConc]: the SPSC ring with one producer and
      one consumer thread interleaved.

    Shaping ([Scheduler_util.hpp], [Scheduler_util.cpp]).
    - [Scheduler]: modules [TokenBucket] and [Shaper], runs of the shaper and their
      invariants; [QosService]: [QosController::tick1Hz] and its handshake with the
      dashboard.

    DHCP ([DhcpEngine.cpp], [DhcpEngine.hpp]).
    - [DhcpEngine]: pool, leases, option parser, responses, background loop; [DhcpProofs]:
      lease table and exclusive grants; [DhcpWire]: the wire format.

    Configuration and addressing.
    - [Config]: the configuration file ([Config.cpp]); [Network_util], [ProcNet]: subnet
      arithmetic, interface requests, the [/proc/net] readers ([Network_util.cpp]);
      [NetworkConfig]: LAN addressing, the WAN tracker, the DHCP router refresh
      ([NetworkConfig.cpp], parts of [ControlPlane.cpp] and [ParameterServices.cpp]).

    The data plane and the application ([App.cpp]).
    - [RawSocket]: the kernel receive ring ([RawSocket_util.cpp]); [ForwardingState]: the
      double-buffered L2 snapshot ([ForwardingState_util.cpp]); [SnapshotConc]: its refresh
      store by store and its lookups load by load, interleaved; [Forward]: event registry,
      pipeline steps, packet consumer, worker rounds; [Workers]: the two threads of a
      worker, interleaved; [StopTokens]: shutdown of thread groups; [Descriptors]: every
      descriptor and mapping the program opens, over system calls that may fail
      ([RawSocket_util.cpp], eventfds of [App.cpp] and [ControlPlane.cpp], helpers of
      [Network_util.cpp], [SystemOptimizer_util.cpp]); [App]: construction, [init],
      [start], [stop] ([App.cpp], [Lifecycle.hpp]).
    - [Collector], [HostInfo]: CPU load, device table, host information
      ([ParameterServices.cpp]); [SelfTest], [HostInfo]: the built-in tests
      ([SelfTest.cpp]), run on the models.

    The dashboard ([GUI/Dashboard.cpp]).
    - [NumPad]: the keypad and the address editor; [Dashboard]: DHCP dialog, QoS page,
      plots, overview and device pages, the 60 Hz timer; [Paint]: the drawing commands of
      the switch, the tabs and the plots; [Widgets]: the widget trees the constructors
      build, with sizes, texts and the slot each widget is connected to; [StyleSheet]: the
      rules of [GUI/StyleSheet.hpp].

    The program as a whole.
    - [ControlPlane]: the state the application owns, the six services and the control
      thread of [ControlPlane.cpp] with their loops, the data plane's and the GUI's actions
      on it, and [boot]; [System]: the invariant of all reachable states; [EndToEnd]: a
      packet and its reply through the running program; [Books]: where every frame of both
      directions and every DHCP answer ends, summed over a run; [Leases]: the requests and
      grants of the DHCP server over a run; [Window]: the window over that
      state: what can be touched, what each touch does; [Main]: [main.cpp] and the shutdown
      dialog, as an interleaving of the threads that save and stop; [Threads]: every thread
      start and scheduling call, interleaved ([SystemOptimizer_util.cpp] and the places that
      start threads); [Ownership]: who holds sockets, mappings and eventfds from [App::App]
      to [App::~App], over the system calls of [Descriptors].

    ** How the code is represented

    A component's state is a record with the fields of the class; an operation is a
    function from the old state to the result and the new state. A packet is its bytes plus
    the offsets of the headers found by the parser: in-place rewriting is a sequence of
    loads and stores on the byte list. Unsigned integers are [Z] with the wrap of their
    width written out; addresses and ports in network byte order are the little-endian
    value of their bytes, as on the target. Effects go through [World]. The kernel's
    interface requests are the operations of a record [Kernel] that the addressing theorems
    quantify over; every theorem with such a parameter has a witness at a concrete kernel.
    System calls that only succeed or fail consume the plan of a [Process], which also
    holds the open descriptors. Qt's conversions between text and numbers are the
    operations of a record [Qt]; what the program relies on is the class [QtLaws], with the
    instance [qt_digits]; its rectangles are the record [Rects] with the class [RectLaws]
    and the instance [rects_z]. A user is a sequence of key presses and clicks.

    ** What the theorems show

    - NAT (C1-C4, C14): after an outbound packet, replies from the addressed host are
      delivered to the sender while the session is alive and ports last; an inbound packet
      is accepted only through the live session its destination port leads to, and goes to
      that session's host; outbound packets carry the WAN address and an external port that
      the tables record for their flow; ports and slots correspond one to one; checksums
      that were valid stay valid, except a TCP or echo checksum of zero.
    - DHCP (C5, C6, C20, C21): in the running program requests are answered in order and,
      between two changes of the pool, an acknowledged address is not given to another
      client before its lease is over; pool addresses are distinct and in range, the option parser
      terminates and loads only the message and one byte past it, which does not influence
      its result, and the responses are well-formed answers, field by field and option by
      option.
    - Shaper (C7, C8): the bytes sent since construction are bounded by the burst
      and what the elapsed time earns, up to an explicit rounding error; accepted packets
      leave once and in order. That draining ends is a lemma, and part of C40.
    - Data plane (C9, C10, C18, C19, C30): what becomes of a packet, that rounds end with
      the queue empty and all packets accounted for, the next hop of the rewritten frame,
      publication of snapshots, draining of the receive ring and the state of its slots.
    - Concurrency (C11, C12, C13, C28, C29, C34, C36, C37): no torn session is used, the
      SPSC ring is a queue under interleaving, shutdown returns, no half-built snapshot is
      used, no rate limit of the dashboard is lost, threads keep to their processors and
      priorities, the program ends having saved what the user asked for, if the user makes
      one choice, a worker loses no frame and no wake-up and counts its drops.
    - Packets (C15-C17): checksum update against full recomputation, parser in bounds,
      classifier against its specification.
    - Addressing (C25, C26), files (C31, C32); the addresses after [init] are the
      lemma [init_addresses] of [App].
    - Resources (C22, C38): no descriptor or mapping leaks, whichever system call fails; each
      has one holder, and what a running thread uses is open, with the exceptions stated.
    - Dashboard (C23, C33, C35, C39): what is painted stays inside its widget and shows its
      state, the keypad returns what it shows, window and program stay in step and each touch
      has the effect written down for its widget, the pool dialog stores only what the
      engine accepts.
    - Composition (C24, C27, C40): a reply to a translated packet reaches the inside host,
      whatever the program does in between, under the conditions of C1 and with a kernel
      and a shaper that take the frame; every frame received and every answer of the DHCP
      server is on the wire, in a queue, under a counter, or in the one place no counter
      shows; in every state reachable from a successful start
      all component invariants hold together and agree with each other, and every event can
      be taken once its thread is there and the kernel has answered its sends.

    ** Fuel and bounds

    A loop that is not structural takes fuel, and the theorems about it include that the
    fuel the model passes is enough: checksum folding 3 rounds (two folds bring a 32-bit
    sum below 2^16, the third round sees it), the DHCP option loop one more than the
    message length (each round advances), shaper draining one more than the queued packets,
    a worker round one more than the frame queue's capacity, the receive ring one more than
    its slots, prefix counting 33 rounds, line loops one more than the file's bytes (each
    line consumes one), decimal printing 20 digits (enough for 64 bits). The loops of the
    program with a constant bound keep it: 32 session probes, 8 read attempts, 512 tries of
    the ICMP identifier allocator. Where the program blocks on the kernel (a send
    interrupted by a signal is repeated) the theorem names the replies needed.

    ** What is not modelled

    - Weak memory: interleavings are sequentially consistent. The accesses concerned are
      acquire and release in the source; the plain accesses inside the sequence lock are
      data races in the C++ memory model.
    - Binary64 overflow, subnormals, NaN: see [Double].
    - Preemption inside operations under a mutex or spin lock, which are one step here. In
      [System] the processing of a frame, a service's tick and a GUI handler are one step
      each; the accesses shared between threads are interleaved in [NatSeqlock],
      [SpscConc], [SnapshotConc], [QosService], [StopTokens], [Workers] and [Main].
    - Widget geometry (the layouts' work), cursor shapes, size policies, fonts, event
      delivery inside Qt, console output: no program state depends on them.

    ** What is left

    Nothing of the plan. Calls of the DHCP engine exclude each other by its mutex and its
    request queue is the ring of [SpscConc], so whole calls, as in [System], are its
    interleavings. *)
From Stdlib Require Import ZArith Lia.
From stdpp Require Import base list gmap strings numbers.
#[global] Open Scope Z_scope.

(** Comparisons stay folded under simplification, so that [bool2prop] sees them. *)
#[global] Arguments Nat.leb : simpl never.
#[global] Arguments Nat.ltb : simpl never.
#[global] Arguments Nat.eqb : simpl never.
#[global] Arguments Z.eqb : simpl never.
#[global] Arguments Z.ltb : simpl never.
#[global] Arguments Z.leb : simpl never.

(** * Machine words

    An unsigned w-bit integer is a [Z] in [0, 2^w); arithmetic that can leave
    the range is followed by the wrap of its type. *)
Definition u8 (x : Z) : Z := x mod 256.
Definition u16 (x : Z) : Z := x mod 65536.
Definition u32 (x : Z) : Z := x mod 4294967296.
Definition u64 (x : Z) : Z := x mod 18446744073709551616.

Definition is_u8 (x : Z) : Prop := 0 <= x < 256.
Definition is_u16 (x : Z) : Prop := 0 <= x < 65536.
Definition is_u32 (x : Z) : Prop := 0 <= x < 4294967296.

#[global] Instance is_u8_dec x : Decision (is_u8 x).
Proof. unfold is_u8. apply _. Defined.
#[global] Instance is_u16_dec x : Decision (is_u16 x).
Proof. unfold is_u16. apply _. Defined.
#[global] Instance is_u32_dec x : Decision (is_u32 x).
Proof. unfold is_u32. apply _. Defined.

(** [lia] on goals with [/] and [mod] by constants. *)
Ltac divlia := Z.to_euclidean_division_equations; lia.

(** Opens the word predicates and solves the remaining arithmetic. *)
Ltac wordlia := unfold is_u8, is_u16, is_u32, u8, u16, u32, u64 in *; divlia.

Create HintDb words.
Create Rewrite HintDb bits.
Create Rewrite HintDb buflen.
Create Rewrite HintDb buf.

Lemma u8_range x : is_u8 (u8 x).
Proof. wordlia. Qed.
Lemma u16_range x : is_u16 (u16 x).
Proof. wordlia. Qed.
Lemma u32_range x : is_u32 (u32 x).
Proof. wordlia. Qed.
Lemma u8_id x : is_u8 x -> u8 x = x.
Proof. apply Z.mod_small. Qed.
Lemma u16_id x : is_u16 x -> u16 x = x.
Proof. apply Z.mod_small. Qed.
Lemma u32_id x : is_u32 x -> u32 x = x.
Proof. apply Z.mod_small. Qed.
#[export] Hint Resolve u8_range u16_range u32_range : words.

(** Masks and shifts as remainders and quotients, the form [divlia] reads. *)
Lemma land_255 x : Z.land x 255 = x mod 256.
Proof. exact (Z.land_ones x 8 ltac:(lia)). Qed.
Lemma land_15 x : Z.land x 15 = x mod 16.
Proof. exact (Z.land_ones x 4 ltac:(lia)). Qed.
Lemma land_31 x : Z.land x 31 = x mod 32.
Proof. exact (Z.land_ones x 5 ltac:(lia)). Qed.
Lemma land_1 x : Z.land x 1 = x mod 2.
Proof. exact (Z.land_ones x 1 ltac:(lia)). Qed.
Lemma land_65535 x : Z.land x 65535 = x mod 65536.
Proof. exact (Z.land_ones x 16 ltac:(lia)). Qed.
Lemma shr_8 x : Z.shiftr x 8 = x / 256.
Proof. exact (Z.shiftr_div_pow2 x 8 ltac:(lia)). Qed.
Lemma shr_16 x : Z.shiftr x 16 = x / 65536.
Proof. exact (Z.shiftr_div_pow2 x 16 ltac:(lia)). Qed.
Lemma shr_24 x : Z.shiftr x 24 = x / 16777216.
Proof. exact (Z.shiftr_div_pow2 x 24 ltac:(lia)). Qed.
Lemma shl_8 x : Z.shiftl x 8 = x * 256.
Proof. exact (Z.shiftl_mul_pow2 x 8 ltac:(lia)). Qed.
Lemma lnot_val x : Z.lnot x = - x - 1.
Proof. unfold Z.lnot. lia. Qed.
#[export] Hint Rewrite land_255 land_15 land_31 land_1 land_65535 shr_8 shr_16
  shr_24 shl_8 lnot_val : bits.

(** A disjoint [lor] is a sum. *)
Lemma lor_add_disjoint k a b :
  0 <= k -> 0 <= a < 2 ^ k -> Z.lor (b * 2 ^ k) a = b * 2 ^ k + a.
Proof.
  intros Hk Ha. pose proof (Z.add_lor_land (b * 2 ^ k) a) as E.
  enough (Z.land (b * 2 ^ k) a = 0) by lia.
  apply Z.bits_inj'. intros i Hi. rewrite Z.land_spec, Z.bits_0.
  destruct (Z.lt_ge_cases i k).
  - rewrite Z.mul_pow2_bits_low by lia. done.
  - rewrite <- (Z.mod_small a (2 ^ k)) by lia.
    rewrite Z.mod_pow2_bits_high by lia. apply andb_false_r.
Qed.

(** ** Byte order (the target, a Cortex-A72, is little endian) *)
Definition bswap16 (x : Z) : Z :=
  Z.lor (u16 (Z.shiftl x 8)) (Z.shiftr x 8).
Definition bswap32 (x : Z) : Z :=
  bswap16 (u16 x) * 65536 + bswap16 (x / 65536).

Abbreviation ntohs := bswap16.
Abbreviation htons := bswap16.
Abbreviation ntohl := bswap32.
Abbreviation htonl := bswap32.

Lemma bswap16_val x : is_u16 x -> bswap16 x = (x mod 256) * 256 + x / 256.
Proof.
  intros Hx. unfold bswap16. rewrite shl_8, shr_8.
  replace (u16 (x * 256)) with ((x mod 256) * 2 ^ 8) by wordlia.
  apply lor_add_disjoint; wordlia.
Qed.
Lemma bswap16_range x : is_u16 x -> is_u16 (bswap16 x).
Proof. intros Hx. rewrite bswap16_val by done. wordlia. Qed.
#[export] Hint Resolve bswap16_range : words.
Lemma bswap16_invol x : is_u16 x -> bswap16 (bswap16 x) = x.
Proof. intros Hx. rewrite !bswap16_val by auto using bswap16_range. wordlia. Qed.
Lemma bswap16_inj x y : is_u16 x -> is_u16 y -> bswap16 x = bswap16 y -> x = y.
Proof. intros Hx Hy E. rewrite <- (bswap16_invol x), E, bswap16_invol by done. done. Qed.
Lemma bswap16_0 x : is_u16 x -> bswap16 x = 0 <-> x = 0.
Proof. intros Hx. rewrite bswap16_val by done. wordlia. Qed.

Lemma bswap32_halves x : is_u32 x ->
  bswap32 x = bswap16 (x mod 65536) * 65536 + bswap16 (x / 65536) /\
  is_u16 (x mod 65536) /\ is_u16 (x / 65536).
Proof. intros Hx. unfold bswap32, u16. split; [done|wordlia]. Qed.
Lemma bswap32_range x : is_u32 x -> is_u32 (bswap32 x).
Proof.
  intros Hx. destruct (bswap32_halves x Hx) as (-> & Ha & Hb).
  apply bswap16_range in Ha, Hb. wordlia.
Qed.
#[export] Hint Resolve bswap32_range : words.
Lemma bswap32_invol x : is_u32 x -> bswap32 (bswap32 x) = x.
Proof.
  intros Hx. destruct (bswap32_halves x Hx) as (E & Ha & Hb).
  pose proof (bswap16_range _ Ha). pose proof (bswap16_range _ Hb).
  rewrite E at 1. unfold bswap32 at 1. unfold u16.
  replace ((bswap16 (x mod 65536) * 65536 + bswap16 (x / 65536)) mod 65536)
    with (bswap16 (x / 65536)) by wordlia.
  replace ((bswap16 (x mod 65536) * 65536 + bswap16 (x / 65536)) / 65536)
    with (bswap16 (x mod 65536)) by wordlia.
  rewrite !bswap16_invol by done. wordlia.
Qed.
Lemma bswap32_inj x y : is_u32 x -> is_u32 y -> bswap32 x = bswap32 y -> x = y.
Proof. intros Hx Hy E. rewrite <- (bswap32_invol x), E, bswap32_invol by done. done. Qed.

(** * Byte buffers

    The program overlays packed structs on raw frames with [reinterpret_cast];
    here a frame is its list of bytes and every field is a load or store at
    an offset, so overlapping views alias exactly as they do in memory. *)
Definition rd (b : list Z) (o : nat) : Z := nth o b 0.
Definition put8 (b : list Z) (o : nat) (v : Z) : list Z := <[o := u8 v]> b.
Definition get16 (b : list Z) (o : nat) : Z := rd b o + 256 * rd b (S o).
Definition put16 (b : list Z) (o : nat) (v : Z) : list Z :=
  put8 (put8 b o v) (S o) (v / 256).
Definition get32 (b : list Z) (o : nat) : Z :=
  get16 b o + 65536 * get16 b (S (S o)).
Definition put32 (b : list Z) (o : nat) (v : Z) : list Z :=
  put16 (put16 b o (u16 v)) (S (S o)) (v / 65536).
(** [memcpy] of [src] to offset [o]. *)
Fixpoint copy_to (b : list Z) (o : nat) (src : list Z) : list Z :=
  match src with
  | [] => b
  | x :: src' => copy_to (put8 b o x) (S o) src'
  end.
(** [n] bytes read from offset [o]. *)
Definition slice (b : list Z) (o n : nat) : list Z := map (rd b) (seq o n).

Definition bytes_ok (b : list Z) : Prop := Forall is_u8 b.

(** The same as a test, to evaluate on concrete frames. *)
Definition bytes_okb (b : list Z) : bool := forallb (fun x => (0 <=? x) && (x <? 256)) b.
Lemma bytes_okb_ok b : bytes_okb b = true -> bytes_ok b.
Proof.
  unfold bytes_okb, bytes_ok. rewrite forallb_forall, List.Forall_forall.
  intros H x Hx. specialize (H x Hx). apply andb_true_iff in H as [H1 H2].
  unfold is_u8. apply Z.leb_le in H1. apply Z.ltb_lt in H2. lia.
Qed.

Lemma length_put8 b o v : length (put8 b o v) = length b.
Proof. apply length_insert. Qed.
Lemma length_put16 b o v : length (put16 b o v) = length b.
Proof. unfold put16. by rewrite !length_put8. Qed.
Lemma length_put32 b o v : length (put32 b o v) = length b.
Proof. unfold put32. by rewrite !length_put16. Qed.
Lemma length_copy_to b o src : length (copy_to b o src) = length b.
Proof. revert b o. induction src; intros; simpl; [done|]. by rewrite IHsrc, length_put8. Qed.
Lemma length_slice b o n : length (slice b o n) = n.
Proof. unfold slice. by rewrite length_map, length_seq. Qed.
#[export] Hint Rewrite length_put8 length_put16 length_put32 length_copy_to
  length_slice : buflen.

Lemma rd_put8_eq b o v : (o < length b)%nat -> rd (put8 b o v) o = u8 v.
Proof.
  intros Ho. unfold rd, put8. rewrite nth_lookup, list_lookup_insert_eq by done. done.
Qed.
Lemma rd_put8_ne b o v i : o <> i -> rd (put8 b o v) i = rd b i.
Proof. intros Ho. unfold rd, put8. by rewrite !nth_lookup, list_lookup_insert_ne. Qed.
Lemma rd_ge b i : (length b <= i)%nat -> rd b i = 0.
Proof. apply nth_overflow. Qed.

(** Solves the in-bounds and disjointness side conditions of the store lemmas. *)
Ltac buflia := autorewrite with buflen in *; lia.

(** Reads after stores, by position. *)
Ltac rdsimp := repeat
  first [rewrite rd_put8_eq by buflia | rewrite rd_put8_ne by buflia].

Lemma get16_put16_eq b o v :
  (S o < length b)%nat -> is_u16 v -> get16 (put16 b o v) o = v.
Proof. intros Ho Hv. unfold get16, put16. rdsimp. wordlia. Qed.
Lemma get16_put16_ne b o v i :
  (S i < o \/ S o < i)%nat -> get16 (put16 b o v) i = get16 b i.
Proof. intros Ho. unfold get16, put16. by rdsimp. Qed.
Lemma rd_put16_ne b o v i :
  (i < o \/ S o < i)%nat -> rd (put16 b o v) i = rd b i.
Proof. intros Ho. unfold put16. by rdsimp. Qed.
Lemma rd_put32_ne b o v i :
  (i < o \/ 3 + o < i)%nat -> rd (put32 b o v) i = rd b i.
Proof. intros Ho. unfold put32, put16. by rdsimp. Qed.
Lemma get16_put32_ne b o v i :
  (S i < o \/ 3 + o < i)%nat -> get16 (put32 b o v) i = get16 b i.
Proof. intros Ho. unfold get16. by rewrite !rd_put32_ne by lia. Qed.
Lemma get16_put8_ne b o v i :
  (S i < o \/ o < i)%nat -> get16 (put8 b o v) i = get16 b i.
Proof. intros Ho. unfold get16. by rdsimp. Qed.
Lemma get32_put32_eq b o v :
  (3 + o < length b)%nat -> is_u32 v -> get32 (put32 b o v) o = v.
Proof.
  intros Ho Hv. unfold get32, put32.
  rewrite get16_put16_ne by lia. rewrite !get16_put16_eq by first [buflia | wordlia]. wordlia.
Qed.
Lemma get32_put32_ne b o v i :
  (3 + i < o \/ 3 + o < i)%nat -> get32 (put32 b o v) i = get32 b i.
Proof. intros Ho. unfold get32. by rewrite !get16_put32_ne by lia. Qed.
Lemma get32_put16_ne b o v i :
  (3 + i < o \/ S o < i)%nat -> get32 (put16 b o v) i = get32 b i.
Proof. intros Ho. unfold get32. by rewrite !get16_put16_ne by lia. Qed.
Lemma get32_put8_ne b o v i :
  (3 + i < o \/ o < i)%nat -> get32 (put8 b o v) i = get32 b i.
Proof. intros Ho. unfold get32. by rewrite !get16_put8_ne by lia. Qed.

(** Loads after stores: the equal case needs the value in range, the disjoint
    case only positions. *)
Ltac bufsimp := repeat first
  [ rewrite get16_put16_eq by first [buflia | auto with words]
  | rewrite get32_put32_eq by first [buflia | auto with words]
  | rewrite get16_put16_ne by buflia | rewrite get16_put32_ne by buflia
  | rewrite get16_put8_ne by buflia
  | rewrite get32_put32_ne by buflia | rewrite get32_put16_ne by buflia
  | rewrite get32_put8_ne by buflia
  | rewrite rd_put16_ne by buflia | rewrite rd_put32_ne by buflia
  | rewrite rd_put8_eq by buflia | rewrite rd_put8_ne by buflia ].

Lemma bytes_ok_rd b i : bytes_ok b -> is_u8 (rd b i).
Proof.
  intros Hb. destruct (decide (i < length b)%nat) as [Hi|Hi].
  - unfold rd. rewrite nth_lookup. destruct (lookup_lt_is_Some_2 b i Hi) as [x Hx].
    rewrite Hx. exact (Forall_lookup_1 _ _ _ _ Hb Hx).
  - rewrite rd_ge by lia. wordlia.
Qed.
Lemma bytes_ok_put8 b o v : bytes_ok b -> bytes_ok (put8 b o v).
Proof. intros Hb. by apply Forall_insert; [|apply u8_range]. Qed.
Lemma bytes_ok_put16 b o v : bytes_ok b -> bytes_ok (put16 b o v).
Proof. intros Hb. unfold put16. by do 2 apply bytes_ok_put8. Qed.
Lemma bytes_ok_put32 b o v : bytes_ok b -> bytes_ok (put32 b o v).
Proof. intros Hb. unfold put32. by do 2 apply bytes_ok_put16. Qed.
Lemma bytes_ok_copy_to b o src : bytes_ok b -> bytes_ok (copy_to b o src).
Proof. revert b o. induction src; intros; simpl; auto using bytes_ok_put8. Qed.
Lemma bytes_ok_slice b o n : bytes_ok b -> bytes_ok (slice b o n).
Proof.
  intros Hb. unfold slice, bytes_ok. apply List.Forall_map, Forall_true.
  intros i. by apply bytes_ok_rd.
Qed.
Lemma get16_range b o : bytes_ok b -> is_u16 (get16 b o).
Proof.
  intros Hb. unfold get16.
  pose proof (bytes_ok_rd b o Hb). pose proof (bytes_ok_rd b (S o) Hb). wordlia.
Qed.
Lemma get32_range b o : bytes_ok b -> is_u32 (get32 b o).
Proof.
  intros Hb. unfold get32.
  pose proof (get16_range b o Hb). pose proof (get16_range b (S (S o)) Hb). wordlia.
Qed.
#[export] Hint Resolve bytes_ok_rd bytes_ok_put8 bytes_ok_put16 bytes_ok_put32
  bytes_ok_copy_to bytes_ok_slice get16_range get32_range : words.

(** The big-endian reading of the two bytes at [o]: the value a 16-bit field
    has on the wire. *)
Definition be16 (b : list Z) (o : nat) : Z := 256 * rd b o + rd b (S o).
Lemma ntohs_get16 b o : bytes_ok b -> ntohs (get16 b o) = be16 b o.
Proof.
  intros Hb. rewrite bswap16_val by auto with words. unfold get16, be16.
  pose proof (bytes_ok_rd b o Hb). pose proof (bytes_ok_rd b (S o) Hb). wordlia.
Qed.
Lemma be16_put16_eq b o v :
  (S o < length b)%nat -> is_u16 v -> be16 (put16 b o v) o = ntohs v.
Proof. intros Ho Hv. rewrite bswap16_val by done. unfold be16, put16. rdsimp. wordlia. Qed.
Lemma be16_put16_ne b o v i :
  (S i < o \/ S o < i)%nat -> be16 (put16 b o v) i = be16 b i.
Proof. intros Ho. unfold be16. by rewrite !rd_put16_ne by lia. Qed.

(** ** [memcpy] *)
Lemma rd_copy_to_ne b o src i :
  (i < o \/ o + length src <= i)%nat -> rd (copy_to b o src) i = rd b i.
Proof.
  revert b o. induction src as [|x src IH]; intros b o Hi; [done|].
  simpl in *. rewrite IH by lia. rewrite rd_put8_ne by lia. done.
Qed.
Lemma rd_copy_to b o src i :
  (o + length src <= length b)%nat -> (o <= i < o + length src)%nat ->
  rd (copy_to b o src) i = u8 (rd src (i - o)).
Proof.
  revert b o. induction src as [|x src IH]; intros b o Hb Hi; simpl in *; [lia|].
  destruct (decide (i = o)) as [->|Hne].
  - rewrite rd_copy_to_ne by lia. rewrite rd_put8_eq by lia. by rewrite Nat.sub_diag.
  - rewrite IH by buflia. by replace (i - o)%nat with (S (i - S o)) by lia.
Qed.
Lemma slice_copy_to b o src :
  (o + length src <= length b)%nat -> bytes_ok src ->
  slice (copy_to b o src) o (length src) = src.
Proof.
  intros Hb Hs. apply nth_ext with 0 0; [by rewrite length_slice|].
  intros i Hi. rewrite length_slice in Hi. unfold slice.
  rewrite (nth_indep _ 0 (rd (copy_to b o src) 0)) by (rewrite length_map, length_seq; lia).
  rewrite map_nth, seq_nth by done. rewrite rd_copy_to by lia.
  replace (o + i - o)%nat with i by lia. apply u8_id. by apply bytes_ok_rd.
Qed.

(** * Fixed-size arrays as finite maps with the element type's initial value

    [std::array<T, N>] indexed by values that the code keeps below [N]; an
    element never written holds its default member initialiser. *)
Section Arrays.
Context {K A : Type} `{Countable K} (d : A).
Definition aget (m : gmap K A) (k : K) : A := default d (m !! k).
Definition aset (m : gmap K A) (k : K) (v : A) : gmap K A := <[k := v]> m.
Lemma aget_set_eq m k v : aget (aset m k v) k = v.
Proof. unfold aget, aset. by rewrite lookup_insert_eq. Qed.
Lemma aget_set_ne m k j v : k <> j -> aget (aset m k v) j = aget m j.
Proof. intros Hk. unfold aget, aset. by rewrite lookup_insert_ne. Qed.
Lemma aget_set m k j v :
  aget (aset m k v) j = if decide (k = j) then v else aget m j.
Proof. case_decide as E; [subst; apply aget_set_eq|by apply aget_set_ne]. Qed.
Lemma aget_empty k : aget ∅ k = d.
Proof. unfold aget. by rewrite lookup_empty. Qed.
End Arrays.

(** * Small generic facts *)

(** Case analysis on the innermost conditional of the goal. *)
Ltac case_if :=
  match goal with
  | |- context [if ?c then _ else _] =>
      lazymatch c with
      | context [if _ then _ else _] => fail
      | _ => destruct c eqn:?
      end
  end.

(** Evaluates comparisons of literals, which simplification leaves folded. *)
Ltac ground_eqb := repeat match goal with
  | |- context [Z.eqb ?a ?b] => let r := eval vm_compute in (Z.eqb a b) in
      lazymatch r with true => idtac | false => idtac end; change (Z.eqb a b) with r
  | H : context [Z.eqb ?a ?b] |- _ => let r := eval vm_compute in (Z.eqb a b) in
      lazymatch r with true => idtac | false => idtac end; change (Z.eqb a b) with r in H
  end; cbv iota in *; cbn [orb andb negb] in *.

(** Boolean comparisons of hypotheses and goal as propositions. *)
Ltac bool2prop := repeat match goal with
  | H : (_ && _) = true |- _ => apply andb_true_iff in H as [? ?]
  | H : (_ && _) = false |- _ => apply andb_false_iff in H
  | H : (_ || _) = true |- _ => apply orb_true_iff in H
  | H : (_ || _) = false |- _ => apply orb_false_iff in H as [? ?]
  | H : negb _ = true |- _ => apply negb_true_iff in H
  | H : negb _ = false |- _ => apply negb_false_iff in H
  | H : (_ =? _) = true |- _ => apply Z.eqb_eq in H
  | H : (_ =? _) = false |- _ => apply Z.eqb_neq in H
  | H : (_ <? _) = true |- _ => apply Z.ltb_lt in H
  | H : (_ <? _) = false |- _ => apply Z.ltb_ge in H
  | H : (_ <=? _) = true |- _ => apply Z.leb_le in H
  | H : (_ <=? _) = false |- _ => apply Z.leb_gt in H
  | H : (_ >? _) = true |- _ => apply Z.gtb_lt in H
  | H : (_ >=? _) = true |- _ => apply Z.geb_le in H
  | H : Nat.eqb _ _ = true |- _ => apply Nat.eqb_eq in H
  | H : Nat.eqb _ _ = false |- _ => apply Nat.eqb_neq in H
  | H : Nat.ltb _ _ = true |- _ => apply Nat.ltb_lt in H
  | H : Nat.ltb _ _ = false |- _ => apply Nat.ltb_ge in H
  | H : Nat.leb _ _ = true |- _ => apply Nat.leb_le in H
  | H : Nat.leb _ _ = false |- _ => apply Nat.leb_gt in H
  end.

(** Splits boolean hypotheses completely and closes by arithmetic. *)
Ltac boollia := bool2prop; destruct_or?; bool2prop; try done; try (exfalso; lia); try lia.

(** Reachability: an invariant that holds initially and is kept by every step
    holds in every reachable state (the induction every step relation of the
    development uses). *)
Lemma rtc_invariant {S : Type} (R : relation S) (P : S -> Prop) s s' :
  (forall a b, P a -> R a b -> P b) -> P s -> rtc R s s' -> P s'.
Proof. intros Hstep Hs Hr. induction Hr; eauto. Qed.
