(* ===== verification/Text.v ===== *)
(** Text facilities of the C and C++ libraries that the program uses, on byte
    strings: decimal printing ([std::format "{}"], [%u]), [std::from_chars],
    C-string truncation and [inet_pton(AF_INET)]. *)
From Stdlib Require Import ZArith Lia Ascii String.
From stdpp Require Import base list strings numbers.
From S2P Require Import Prelude.

(** The bytes of a string literal. *)
Definition str (s : string) : list Z :=
  map (fun c => Z.of_N (N_of_ascii c)) (list_ascii_of_string s).

(** The bytes of a buffer up to its first NUL ([const char*] view). *)
Fixpoint cstr (b : list Z) : list Z :=
  match b with
  | [] => []
  | c :: b' => if c =? 0 then [] else c :: cstr b'
  end.

Definition is_digit (c : Z) : bool := (48 <=? c) && (c <=? 57).

(** Decimal printing of an unsigned value; [fuel] bounds the digits (20 are
    enough for every 64-bit value). *)
Fixpoint dec_fuel (fuel : nat) (n : Z) : list Z :=
  match fuel with
  | O => []
  | S f => if n <? 10 then [n + 48] else dec_fuel f (n / 10) ++ [n mod 10 + 48]
  end.
Definition dec (n : Z) : list Z := dec_fuel 20 n.

(** [std::from_chars] to [uint32_t], base 10: the longest digit prefix is
    converted; without a digit, or beyond the type, the target keeps its
    value. No sign and no leading space is accepted. *)
Fixpoint digit_prefix (s : list Z) : list Z :=
  match s with
  | [] => []
  | c :: s' => if is_digit c then c :: digit_prefix s' else []
  end.
Definition digits_value (ds : list Z) : Z :=
  fold_left (fun v c => v * 10 + (c - 48)) ds 0.
Definition from_chars_u32 (s : list Z) (v0 : Z) : Z :=
  let ds := digit_prefix s in
  if bool_decide (ds = []) then v0
  else if digits_value ds <? 4294967296 then digits_value ds else v0.

(** [inet_pton(AF_INET, s, &a)]: the octets collected so far in wire order,
    the octet being read and whether a digit of it was seen. *)
Record pton_state := Pton { p_done : list Z; p_cur : Z; p_saw : bool }.
Definition pton_step (st : pton_state) (c : Z) : option pton_state :=
  if is_digit c then
    let nv := p_cur st * 10 + (c - 48) in
    if p_saw st && (p_cur st =? 0) then None
    else if nv >? 255 then None
    else if negb (p_saw st) && (4 <=? length (p_done st))%nat then None
    else Some (Pton (p_done st) nv true)
  else if (c =? 46) && p_saw st then
    if (3 <=? length (p_done st))%nat then None
    else Some (Pton (p_done st ++ [p_cur st]) 0 false)
  else None.
Fixpoint pton_run (s : list Z) (st : pton_state) : option pton_state :=
  match s with
  | [] => Some st
  | c :: s' => match pton_step st c with
               | Some st' => pton_run s' st'
               | None => None
               end
  end.
(** The address as the four bytes of [in_addr], in memory order. *)
Definition inet_pton (s : list Z) : option (list Z) :=
  match pton_run s (Pton [] 0 false) with
  | Some st => if p_saw st && (length (p_done st) =? 3)%nat
               then Some (p_done st ++ [p_cur st]) else None
  | None => None
  end.

(** ** Lemmas *)
Lemma cstr_no_nul s : Forall (fun c => c <> 0) s -> cstr s = s.
Proof.
  induction 1 as [|c s Hc Hs IH]; simpl; [done|].
  destruct (Z.eqb_spec c 0); [done|]. by rewrite IH.
Qed.

Lemma dec_fuel_small f n : 0 <= n < 10 -> dec_fuel (S f) n = [n + 48].
Proof. intros Hn. simpl. by destruct (Z.ltb_spec n 10); [|lia]. Qed.
Lemma dec_fuel_step f n :
  10 <= n -> dec_fuel (S f) n = dec_fuel f (n / 10) ++ [n mod 10 + 48].
Proof. intros Hn. simpl. by destruct (Z.ltb_spec n 10); [lia|]. Qed.

(** The value read back from the digits printed, and that they are digits. *)
Lemma digits_value_app l1 l2 :
  digits_value (l1 ++ l2) =
  fold_left (fun v c => v * 10 + (c - 48)) l2 (digits_value l1).
Proof. apply fold_left_app. Qed.
Lemma dec_fuel_value f n :
  0 <= n < 10 ^ Z.of_nat (S f) -> digits_value (dec_fuel (S f) n) = n.
Proof.
  revert n. induction f as [|f IH]; intros n Hn.
  - change (10 ^ Z.of_nat 1) with 10 in Hn. rewrite dec_fuel_small by done.
    unfold digits_value. simpl. lia.
  - destruct (Z.lt_ge_cases n 10).
    + rewrite dec_fuel_small by lia. unfold digits_value. simpl. lia.
    + rewrite dec_fuel_step by done. rewrite digits_value_app, IH.
      * simpl. divlia.
      * rewrite (Nat2Z.inj_succ (S f)), Z.pow_succ_r in Hn by lia.
        split; [divlia|]. apply Z.div_lt_upper_bound; lia.
Qed.
Lemma dec_fuel_digits f n : 0 <= n -> Forall (fun c => is_digit c = true) (dec_fuel f n).
Proof.
  revert n. induction f as [|f IH]; intros n Hn; simpl; [done|].
  destruct (Z.ltb_spec n 10).
  - constructor; [|done]. unfold is_digit. lia.
  - apply Forall_app; split; [apply IH; divlia|]. constructor; [|done].
    unfold is_digit. divlia.
Qed.
Lemma dec_fuel_nonempty f n : dec_fuel (S f) n <> [].
Proof. simpl. case_if; [done|]. by destruct (dec_fuel f (n / 10)). Qed.
Lemma dec_digits n : 0 <= n -> Forall (fun c => is_digit c = true) (dec n).
Proof. apply dec_fuel_digits. Qed.
Lemma digit_range c : is_digit c = true -> 48 <= c <= 57.
Proof. unfold is_digit. lia. Qed.

Lemma digit_prefix_app ds rest :
  Forall (fun c => is_digit c = true) ds ->
  (forall c r, rest = c :: r -> is_digit c = false) ->
  digit_prefix (ds ++ rest) = ds.
Proof.
  intros Hds Hr. induction Hds as [|c ds Hc Hds IH]; simpl.
  - destruct rest as [|c r]; simpl; [done|]. by rewrite (Hr c r).
  - by rewrite Hc, IH.
Qed.

(** Printing then [from_chars] gives the value back, for every [uint32_t]. *)
Lemma from_chars_dec n v0 : is_u32 n -> from_chars_u32 (dec n) v0 = n.
Proof.
  intros Hn. unfold from_chars_u32.
  assert (digit_prefix (dec n) = dec n) as ->.
  { rewrite <- (app_nil_r (dec n)) at 1.
    apply digit_prefix_app; [apply dec_digits; wordlia|done]. }
  rewrite bool_decide_eq_false_2 by apply dec_fuel_nonempty.
  assert (digits_value (dec n) = n) as ->.
  { apply dec_fuel_value. change (10 ^ Z.of_nat 20) with 100000000000000000000. wordlia. }
  destruct (Z.ltb_spec n 4294967296); [done|wordlia].
Qed.

(** ** [inet_pton] on a printed octet *)
Lemma dec_octet v : 0 <= v < 256 ->
  (v < 10 /\ dec v = [v + 48]) \/
  (10 <= v < 100 /\ dec v = [v / 10 + 48; v mod 10 + 48]) \/
  (100 <= v /\ dec v = [v / 10 / 10 + 48; v / 10 mod 10 + 48; v mod 10 + 48]).
Proof.
  intros Hv. unfold dec.
  destruct (Z.lt_ge_cases v 10); [left; by rewrite dec_fuel_small by lia|right].
  destruct (Z.lt_ge_cases v 100); [left|right]; (split; [lia|]).
  - rewrite dec_fuel_step, dec_fuel_small by divlia. done.
  - rewrite !dec_fuel_step, dec_fuel_small by divlia. done.
Qed.
Lemma dec_octet_length v : 0 <= v < 256 -> (1 <= length (dec v) <= 3)%nat.
Proof. intros Hv. destruct (dec_octet v Hv) as [[_ ->]|[[_ ->]|[_ ->]]]; simpl; lia. Qed.

Lemma pton_step_digit ds v d saw :
  0 <= d <= 9 -> (length ds < 4)%nat -> (saw = true -> v <> 0) -> v * 10 + d <= 255 ->
  pton_step (Pton ds v saw) (d + 48) = Some (Pton ds (v * 10 + d) true).
Proof.
  intros Hd Hl Hs Hv. unfold pton_step. cbn [p_done p_cur p_saw].
  assert (is_digit (d + 48) = true) as -> by (unfold is_digit; lia).
  replace (d + 48 - 48) with d by lia.
  assert (saw && (v =? 0) = false) as ->.
  { destruct saw; [|done]. simpl. apply Z.eqb_neq. auto. }
  destruct (Z.gtb_spec (v * 10 + d) 255); [lia|].
  destruct (Nat.leb_spec 4 (length ds)); [lia|]. by rewrite andb_false_r.
Qed.
Lemma pton_run_octet ds v rest :
  0 <= v < 256 -> (length ds < 4)%nat ->
  pton_run (dec v ++ rest) (Pton ds 0 false) = pton_run rest (Pton ds v true).
Proof.
  intros Hv Hl. destruct (dec_octet v Hv) as [[Hr ->]|[[Hr ->]|[Hr ->]]]; simpl;
    rewrite !pton_step_digit by (try done; divlia); repeat f_equal; divlia.
Qed.
Lemma pton_run_dot ds v rest :
  (length ds < 3)%nat ->
  pton_run (46 :: rest) (Pton ds v true) = pton_run rest (Pton (ds ++ [v]) 0 false).
Proof.
  intros Hl. cbn [pton_run]. unfold pton_step. cbn [p_done p_cur p_saw andb].
  change (is_digit 46) with false. change (46 =? 46) with true. cbn [andb].
  by destruct (Nat.leb_spec 3 (length ds)); [lia|].
Qed.
Lemma inet_pton_quad a b c d :
  is_u8 a -> is_u8 b -> is_u8 c -> is_u8 d ->
  inet_pton (dec a ++ [46] ++ dec b ++ [46] ++ dec c ++ [46] ++ dec d)
  = Some [a; b; c; d].
Proof.
  intros Ha Hb Hc Hd. unfold inet_pton.
  rewrite pton_run_octet by first [done | simpl; lia].
  simpl app. rewrite pton_run_dot by (simpl; lia).
  rewrite pton_run_octet by first [done | simpl; lia]. rewrite pton_run_dot by (simpl; lia).
  rewrite pton_run_octet by first [done | simpl; lia]. rewrite pton_run_dot by (simpl; lia).
  rewrite <- (app_nil_r (dec d)), pton_run_octet by first [done | simpl; lia]. done.
Qed.

(** Every address [inet_pton] accepts is four bytes. *)
Lemma pton_step_inv st c st' :
  Forall is_u8 (p_done st) -> is_u8 (p_cur st) -> pton_step st c = Some st' ->
  Forall is_u8 (p_done st') /\ is_u8 (p_cur st').
Proof.
  intros Hd Hc. unfold pton_step.
  destruct (is_digit c) eqn:Ec.
  - apply digit_range in Ec. rewrite Z.gtb_ltb.
    repeat case_if; intros; simplify_eq/=. bool2prop. split; [done|wordlia].
  - repeat case_if; intros; simplify_eq/=. split; [|wordlia].
    apply Forall_app; split; [done|]. by constructor.
Qed.
Lemma inet_pton_bytes s bs : inet_pton s = Some bs -> length bs = 4%nat /\ bytes_ok bs.
Proof.
  unfold inet_pton. assert (forall st st', Forall is_u8 (p_done st) -> is_u8 (p_cur st) ->
    pton_run s st = Some st' -> Forall is_u8 (p_done st') /\ is_u8 (p_cur st')) as Hrun.
  { induction s as [|c s IH]; intros st st' Hd Hc; simpl; [by intros [= <-]|].
    destruct (pton_step st c) as [st1|] eqn:E; [|done].
    destruct (pton_step_inv _ _ _ Hd Hc E). by apply IH. }
  destruct (pton_run s _) as [st|] eqn:E; [|done].
  destruct (Hrun (Pton [] 0 false) st (Forall_nil_2 _) ltac:(simpl; wordlia) E) as [Hd Hc].
  case_if; [|done]. intros [= <-]. bool2prop. rewrite length_app. split; [simpl; lia|].
  apply Forall_app; split; [done|]. by constructor.
Qed.
