(* ===== verification/Types_util.v ===== *)
(** IPv4 addresses ([Types_util.hpp], [Types_util.cpp]) and their textual form
    ([Config::parse_ip_str], [Config::ip_to_str] of [Config.hpp]).

    [IPv4Net] and [IPv4Host] are wrappers of a [uint32_t]; both are a [Z] here,
    and the functions that convert between the orders keep the source's names. *)
From Stdlib Require Import ZArith Lia.
From stdpp Require Import base list numbers.
From S2P Require Import Prelude Text.

Definition to_host (net : Z) : Z := ntohl net.
Definition to_net (host : Z) : Z := htonl host.

(** [try_parse_ipv4]: [Some] of the address where the source fills [out] and
    returns true; a null pointer is [None] of the argument. *)
Definition try_parse_ipv4 (s : option (list Z)) : option Z :=
  match s with
  | None => None
  | Some s => match inet_pton (cstr s) with
              | Some bs => Some (get32 bs 0)
              | None => None
              end
  end.

Definition parse_ipv4 (s : list Z) : Z := default 0 (try_parse_ipv4 (Some s)).

(** [pool_advance]: the sum wraps at 32 bits. *)
Definition pool_advance (base_net offset : Z) : Z :=
  to_net (u32 (to_host base_net + offset)).

Inductive ip_error := EmptyIPv4 | TooLongIPv4 | InvalidIPv4.
#[global] Instance ip_error_eq_dec : EqDecision ip_error.
Proof. solve_decision. Defined.

(** [Config::parse_ip_str]: the copy to [buf] ends the string at an embedded NUL. *)
Definition parse_ip_str (ip_sv : list Z) : ip_error + Z :=
  if (length ip_sv =? 0)%nat then inl EmptyIPv4
  else if (15 <? length ip_sv)%nat then inl TooLongIPv4
  else match inet_pton (cstr ip_sv) with
       | Some bs => inr (get32 bs 0)
       | None => inl InvalidIPv4
       end.

(** [Config::ip_to_str] *)
Definition ip_to_str (v : Z) : list Z :=
  dec (Z.land v 255) ++ [46] ++ dec (Z.land (Z.shiftr v 8) 255) ++ [46] ++
  dec (Z.land (Z.shiftr v 16) 255) ++ [46] ++ dec (Z.land (Z.shiftr v 24) 255).

(** ** Lemmas *)
Lemma to_host_to_net h : is_u32 h -> to_host (to_net h) = h.
Proof. apply bswap32_invol. Qed.

Lemma pool_advance_host base off :
  is_u32 base -> 0 <= off -> to_host base + off < 4294967296 ->
  to_host (pool_advance base off) = to_host base + off.
Proof.
  intros Hb Ho Hs. pose proof (bswap32_range _ Hb). unfold pool_advance, to_host, to_net in *.
  rewrite u32_id by wordlia. apply bswap32_invol. wordlia.
Qed.

Lemma pool_advance_inj base i j :
  is_u32 base -> 0 <= i -> 0 <= j ->
  to_host base + i < 4294967296 -> to_host base + j < 4294967296 ->
  pool_advance base i = pool_advance base j -> i = j.
Proof.
  intros Hb Hi Hj Hbi Hbj E. apply (f_equal to_host) in E.
  rewrite !pool_advance_host in E by done. lia.
Qed.

Lemma pool_advance_range base off : is_u32 (pool_advance base off).
Proof. apply bswap32_range. apply u32_range. Qed.

Lemma cstr_ip_to_str v : is_u32 v -> cstr (ip_to_str v) = ip_to_str v.
Proof.
  intros Hv. apply cstr_no_nul. unfold ip_to_str.
  assert (forall n, 0 <= n -> Forall (fun c => c <> 0) (dec n)) as Hd.
  { intros n Hn. eapply Forall_impl; [|exact (dec_digits n Hn)]. simpl.
    intros c Hc%digit_range. lia. }
  autorewrite with bits.
  repeat apply Forall_app_2; try (apply Hd; divlia); by constructor.
Qed.

Lemma get32_octets v : is_u32 v ->
  get32 [v mod 256; v / 256 mod 256; v / 65536 mod 256; v / 16777216 mod 256] 0 = v.
Proof. intros Hv. unfold get32, get16, rd. simpl. wordlia. Qed.

Lemma ip_to_str_length v : is_u32 v -> (7 <= length (ip_to_str v) <= 15)%nat.
Proof.
  intros Hv. unfold ip_to_str. autorewrite with bits. rewrite !length_app. simpl.
  pose proof (dec_octet_length (v mod 256) ltac:(divlia)).
  pose proof (dec_octet_length (v / 256 mod 256) ltac:(divlia)).
  pose proof (dec_octet_length (v / 65536 mod 256) ltac:(divlia)).
  pose proof (dec_octet_length (v / 16777216 mod 256) ltac:(divlia)). lia.
Qed.

(** Addresses read from text fit 32 bits. *)
Lemma parse_ip_str_range s a : parse_ip_str s = inr a -> is_u32 a.
Proof.
  unfold parse_ip_str. repeat case_if; try done.
  destruct (inet_pton (cstr s)) as [bs|] eqn:E; [|done].
  intros [= <-]. apply get32_range. exact (proj2 (inet_pton_bytes _ _ E)).
Qed.
Lemma parse_ipv4_range s : is_u32 (parse_ipv4 s).
Proof.
  unfold parse_ipv4, try_parse_ipv4.
  destruct (inet_pton (cstr s)) as [bs|] eqn:E; simpl; [|wordlia].
  apply get32_range. exact (proj2 (inet_pton_bytes _ _ E)).
Qed.

(** An address printed with [ip_to_str] is read back by [parse_ip_str]. *)
Lemma parse_ip_to_str v : is_u32 v -> parse_ip_str (ip_to_str v) = inr v.
Proof.
  intros Hv. pose proof (ip_to_str_length v Hv) as Hl. unfold parse_ip_str.
  destruct (Nat.eqb_spec (length (ip_to_str v)) 0); [lia|].
  destruct (Nat.ltb_spec 15 (length (ip_to_str v))); [lia|].
  rewrite cstr_ip_to_str by done. unfold ip_to_str. autorewrite with bits.
  rewrite inet_pton_quad by wordlia. by rewrite get32_octets.
Qed.
