(* ===== verification/Headers_util.v ===== *)
(** Wire headers and the packet parser ([Headers_util.hpp]).

    A packed struct is a module of field offsets; a pointer to a header is the
    offset of its first byte in the frame, [None] for [nullptr]. *)
From Stdlib Require Import ZArith Lia.
From stdpp Require Import base list numbers.
From S2P Require Import Prelude.

Definition eth_proto_wire_to_host (be : Z) : Z :=
  u16 (Z.lor (Z.shiftl be 8) (Z.shiftr be 8)).

Inductive Priority := High | Normal.
#[global] Instance Priority_eq_dec : EqDecision Priority.
Proof. solve_decision. Defined.
(** The underlying value of the enumeration, used as an array index. *)
Definition prio_index (p : Priority) : nat := match p with High => 0 | Normal => 1 end.

Module EthernetHeader.
Definition dest := 0%nat.
Definition src := 6%nat.
Definition proto := 12%nat.
Definition size := 14%nat.
End EthernetHeader.

Module IPv4Header.
Definition ver_ihl := 0%nat.
Definition tos := 1%nat.
Definition tot_len := 2%nat.
Definition id := 4%nat.
Definition frag_off := 6%nat.
Definition ttl := 8%nat.
Definition protocol := 9%nat.
Definition check := 10%nat.
Definition saddr := 12%nat.
Definition daddr := 16%nat.
Definition size := 20%nat.
End IPv4Header.

Module UDPHeader.
Definition source := 0%nat.
Definition dest := 2%nat.
Definition len := 4%nat.
Definition check := 6%nat.
Definition size := 8%nat.
End UDPHeader.

Module TCPHeader.
Definition source := 0%nat.
Definition dest := 2%nat.
Definition seq := 4%nat.
Definition ack_seq := 8%nat.
Definition res1_doff_flags := 12%nat.
Definition window := 14%nat.
Definition check := 16%nat.
Definition urg_ptr := 18%nat.
Definition size := 20%nat.
End TCPHeader.

Module IcmpEchoHeader.
Definition type := 0%nat.
Definition code := 1%nat.
Definition check := 2%nat.
Definition id := 4%nat.
Definition sequence := 6%nat.
Definition size := 8%nat.
End IcmpEchoHeader.

Record ParsedPacket := MkParsed {
  raw_span : list Z;
  eth : option nat;
  ipv4 : option nat;
  l4_protocol : Z;
  ihl : nat;
  l4_offset : nat;
  l4_header : option nat
}.

(** The bytes behind the span change in place; the pointers stay. *)
Definition with_span (p : ParsedPacket) (b : list Z) : ParsedPacket :=
  MkParsed b (eth p) (ipv4 p) (l4_protocol p) (ihl p) (l4_offset p) (l4_header p).

Definition udp (p : ParsedPacket) : option nat :=
  if l4_protocol p =? 17 then l4_header p else None.
Definition tcp (p : ParsedPacket) : option nat :=
  if l4_protocol p =? 6 then l4_header p else None.
Definition icmp_echo (p : ParsedPacket) : option nat :=
  if l4_protocol p =? 1 then l4_header p else None.
Definition is_valid_ipv4 (p : ParsedPacket) : bool :=
  match ipv4 p with Some _ => true | None => false end.

Definition parse (span : list Z) : ParsedPacket :=
  if (length span <? EthernetHeader.size)%nat then MkParsed span None None 0 0 0 None
  else if negb (eth_proto_wire_to_host (get16 span EthernetHeader.proto) =? 2048)
  then MkParsed span (Some 0%nat) None 0 0 0 None
  else if (length span <? EthernetHeader.size + IPv4Header.size)%nat
  then MkParsed span (Some 0%nat) None 0 0 0 None
  else
    let ip := EthernetHeader.size in
    let ihl := Z.to_nat (Z.land (rd span (ip + IPv4Header.ver_ihl)) 15 * 4) in
    let l4_offset := (EthernetHeader.size + ihl)%nat in
    if (length span <? l4_offset)%nat
    then MkParsed span (Some 0%nat) (Some ip) 0 ihl l4_offset None
    else
      let proto := rd span (ip + IPv4Header.protocol) in
      let hdr :=
        if (proto =? 17) && (l4_offset + UDPHeader.size <=? length span)%nat
        then Some l4_offset
        else if (proto =? 6) && (l4_offset + TCPHeader.size <=? length span)%nat
        then Some l4_offset
        else if (proto =? 1) && (l4_offset + IcmpEchoHeader.size <=? length span)%nat
        then Some l4_offset
        else None in
      MkParsed span (Some 0%nat) (Some ip) proto ihl l4_offset hdr.

(** ** Lemmas *)
Lemma eth_proto_ntohs x : is_u16 x -> eth_proto_wire_to_host x = ntohs x.
Proof.
  intros Hx. unfold eth_proto_wire_to_host. rewrite bswap16_val by done.
  rewrite shl_8, shr_8. change (x * 256) with (x * 2 ^ 8).
  rewrite lor_add_disjoint by wordlia. wordlia.
Qed.

(** The transport header parse returns is the one at [14 + IHL * 4], and it is
    returned only for the three protocols the program rewrites. *)
Definition l4_size (proto : Z) : nat :=
  if proto =? 17 then UDPHeader.size
  else if proto =? 6 then TCPHeader.size else IcmpEchoHeader.size.

Lemma parse_span b : raw_span (parse b) = b.
Proof. unfold parse. by repeat case_if. Qed.

Lemma parse_ipv4_some b o : ipv4 (parse b) = Some o ->
  o = 14%nat /\ eth (parse b) = Some 0%nat /\ (34 <= length b)%nat /\
  ihl (parse b) = Z.to_nat (rd b 14 mod 16 * 4) /\
  l4_offset (parse b) = (14 + ihl (parse b))%nat.
Proof.
  unfold parse, EthernetHeader.size, IPv4Header.size. cbv zeta.
  repeat case_if; intros; simplify_eq/=; bool2prop; rewrite land_15; auto with lia.
Qed.

Lemma parse_l4_some b o : l4_header (parse b) = Some o ->
  ipv4 (parse b) = Some 14%nat /\ o = l4_offset (parse b) /\
  l4_protocol (parse b) = rd b 23 /\
  (rd b 23 = 17 \/ rd b 23 = 6 \/ rd b 23 = 1) /\
  (o + l4_size (rd b 23) <= length b)%nat.
Proof.
  unfold parse, l4_size. cbv zeta.
  change (EthernetHeader.size + IPv4Header.protocol)%nat with 23%nat.
  repeat case_if; intros; simplify_eq/=; bool2prop;
    repeat match goal with H : rd b 23 = _ |- _ => rewrite H in * end;
    simpl in *; repeat split; try done; auto with lia.
Qed.

(** Rewriting a frame in place, outside the bytes the parser reads, leaves the pointers
    right: parsing the new bytes gives them again. *)
Definition laid_out_as (b b' : list Z) : Prop :=
  length b' = length b /\ forall i, (12 <= i < 24)%nat -> rd b' i = rd b i.
Lemma parse_laid_out b b' : laid_out_as b b' -> parse b' = with_span (parse b) b'.
Proof.
  intros [Hl Hr]. unfold parse, get16, EthernetHeader.size, EthernetHeader.proto, IPv4Header.size,
    IPv4Header.ver_ihl, IPv4Header.protocol. cbv zeta.
  rewrite Hl, !(Hr 12%nat), !(Hr 13%nat), !(Hr (14 + 0)%nat), !(Hr (14 + 9)%nat) by lia. by repeat case_if.
Qed.

(** Read access to the fields through the parsed packet is inside the span. *)
Lemma parse_l4_ptr b o : udp (parse b) = Some o \/ tcp (parse b) = Some o \/
  icmp_echo (parse b) = Some o -> l4_header (parse b) = Some o.
Proof. unfold udp, tcp, icmp_echo. repeat case_if; intros [?|[?|?]]; done. Qed.

(** A frame long enough for its headers is parsed completely. *)
Lemma parse_complete b proto :
  bytes_ok b -> (34 <= length b)%nat -> be16 b 12 = 2048 ->
  rd b 23 = proto -> proto = 17 \/ proto = 6 \/ proto = 1 ->
  (14 + Z.to_nat (rd b 14 mod 16 * 4) + l4_size proto <= length b)%nat ->
  parse b = MkParsed b (Some 0%nat) (Some 14%nat) proto
              (Z.to_nat (rd b 14 mod 16 * 4))
              (14 + Z.to_nat (rd b 14 mod 16 * 4))
              (Some (14 + Z.to_nat (rd b 14 mod 16 * 4))%nat).
Proof.
  intros Hb Hl He <- Hp Hs. unfold parse.
  rewrite eth_proto_ntohs, ntohs_get16 by auto with words.
  unfold EthernetHeader.proto, EthernetHeader.size, IPv4Header.size,
    IPv4Header.ver_ihl, IPv4Header.protocol. cbv zeta. rewrite He, land_15.
  change (2048 =? 2048) with true. cbn [negb].
  destruct (Nat.ltb_spec (length b) 14); [lia|].
  destruct (Nat.ltb_spec (length b) (14 + 20)); [lia|].
  change (14 + 0)%nat with 14%nat. change (14 + 9)%nat with 23%nat.
  destruct (Nat.ltb_spec (length b) (14 + Z.to_nat (rd b 14 mod 16 * 4))); [lia|].
  f_equal. unfold UDPHeader.size, TCPHeader.size, IcmpEchoHeader.size.
  destruct Hp as [Hp|[Hp|Hp]]; rewrite Hp in Hs |- *;
    unfold l4_size, UDPHeader.size, TCPHeader.size, IcmpEchoHeader.size in Hs;
    simpl in Hs; repeat case_if; boollia.
Qed.

(** C16: every header pointer that [parse] hands out covers its whole struct
    inside the span: the Ethernet header, the fixed IPv4 header, and for UDP,
    TCP and ICMP the fixed transport header at [14 + IHL * 4]. Every field
    access of the pipeline goes through these pointers, so this is the bounds
    safety of the zero-copy views, for every frame whatsoever. *)
Theorem parse_in_bounds (b : list Z) :
  (eth (parse b) <> None -> (EthernetHeader.size <= length b)%nat) /\
  (forall o, ipv4 (parse b) = Some o -> (o + IPv4Header.size <= length b)%nat) /\
  (forall o, udp (parse b) = Some o -> (o + UDPHeader.size <= length b)%nat) /\
  (forall o, tcp (parse b) = Some o -> (o + TCPHeader.size <= length b)%nat) /\
  (forall o, icmp_echo (parse b) = Some o -> (o + IcmpEchoHeader.size <= length b)%nat).
Proof.
  split; [unfold parse; repeat case_if; simpl; bool2prop; done|].
  split. { intros o Ho%parse_ipv4_some. unfold IPv4Header.size. lia. }
  unfold udp, tcp, icmp_echo.
  split; [|split]; intros o; case_if; try done; bool2prop;
    match goal with E : l4_protocol _ = _ |- _ => revert E end;
    intros E (_ & _ & Hp & _ & Hs)%parse_l4_some;
    rewrite <- Hp, E in Hs; exact Hs.
Qed.
