(* ===== verification/Processor.v ===== *)
(** Flow identity and the heuristic classifier ([Processor.hpp]). *)
From Stdlib Require Import ZArith Lia.
From stdpp Require Import base list gmap numbers.
From S2P Require Import Prelude Headers_util.

Definition net16_to_host (be : Z) : Z := u16 (Z.lor (Z.shiftl be 8) (Z.shiftr be 8)).

(** All fields in network byte order. *)
Record FlowKey := MkFlowKey { saddr : Z; daddr : Z; sport : Z; dport : Z }.
#[global] Instance FlowKey_eq_dec : EqDecision FlowKey.
Proof. solve_decision. Defined.
Definition FlowKey0 : FlowKey := MkFlowKey 0 0 0 0.

(** * HeuristicProcessor

    [threshold] is [Config::LARGE_PACKET_THRESHOLD_BYTES]. *)
Module HeuristicProcessor.
Definition by_size (threshold : Z) (p : ParsedPacket) : Priority :=
  if Z.of_nat (length (raw_span p)) <? threshold then High else Normal.

Definition handle_udp (threshold : Z) (p : ParsedPacket) : Priority :=
  match udp p with
  | None => Normal
  | Some u =>
      let dport := net16_to_host (get16 (raw_span p) (u + UDPHeader.dest)) in
      let sport := net16_to_host (get16 (raw_span p) (u + UDPHeader.source)) in
      if (dport =? 53) || (sport =? 53) then High else by_size threshold p
  end.
Definition handle_tcp (threshold : Z) (p : ParsedPacket) : Priority := by_size threshold p.
Definition handle_icmp (threshold : Z) (p : ParsedPacket) : Priority := High.
Definition handle_default (threshold : Z) (p : ParsedPacket) : Priority := by_size threshold p.

(** The table the constructor builds: filled with the default handler, then
    three entries overwritten. *)
Definition protocol_handlers : gmap Z (Z -> ParsedPacket -> Priority) :=
  aset (aset (aset ∅ 17 handle_udp) 6 handle_tcp) 1 handle_icmp.

Definition process (threshold : Z) (p : ParsedPacket) : Priority :=
  if negb (is_valid_ipv4 p) then Normal
  else aget handle_default protocol_handlers (l4_protocol p) threshold p.
End HeuristicProcessor.

(** ** Lemmas *)
Lemma net16_to_host_ntohs x : is_u16 x -> net16_to_host x = ntohs x.
Proof. apply eth_proto_ntohs. Qed.

(** The classification, on the bytes of the frame: what the wire format says of
    each lane, with no reference to the parser. *)
Definition classify_frame (threshold : Z) (b : list Z) : Priority :=
  let l4 := (14 + Z.to_nat (rd b 14 mod 16 * 4))%nat in
  let small := if Z.of_nat (length b) <? threshold then High else Normal in
  if (length b <? 34)%nat || negb (be16 b 12 =? 2048) then Normal
  else if (length b <? l4)%nat then small
  else if rd b 23 =? 1 then High
  else if rd b 23 =? 17 then
    if (length b <? l4 + 8)%nat then Normal
    else if (be16 b l4 =? 53) || (be16 b (l4 + 2) =? 53) then High else small
  else small.


