(* ===== verification/Checksum.v ===== *)
(** Internet checksums: the incremental update of [NatEngine.cpp] (RFC 1624) and
    the full computations of [SelfTest.cpp], over one's complement arithmetic.

    Sums of 16-bit words with end-around carry are sums modulo 65535; [x =1 y] is
    that congruence and the development rewrites with it. *)
From Stdlib Require Import ZArith Lia Setoid Morphisms.
From stdpp Require Import base list numbers.
From S2P Require Import Prelude.

Definition ceq (x y : Z) : Prop := x mod 65535 = y mod 65535.
Declare Scope checksum_scope.
Delimit Scope checksum_scope with checksum.
Notation "x =1 y" := (ceq x y) (at level 70) : checksum_scope.
#[local] Open Scope checksum_scope.

(** * The code *)
(** RFC 1624: fields in network byte order, 32-bit accumulator. *)
Definition update_checksum_16 (check old_val new_val : Z) : Z :=
  let sum := u32 (Z.land (Z.lnot (ntohs check)) 65535
                  + Z.land (Z.lnot (ntohs old_val)) 65535 + ntohs new_val) in
  let sum := u32 (Z.land sum 65535 + Z.shiftr sum 16) in
  htons (u16 (Z.lnot (u32 (sum + Z.shiftr sum 16)))).

Definition update_checksum_32 (check old_val new_val : Z) : Z :=
  let check := update_checksum_16 check (Z.land old_val 65535) (Z.land new_val 65535) in
  update_checksum_16 check (Z.shiftr old_val 16) (Z.shiftr new_val 16).

(** [while (sum >> 16) sum = (sum & 0xFFFF) + (sum >> 16)]; three tests of the
    condition are enough for a 32-bit sum ([fold_carries_returns]). *)
Fixpoint fold_carries (fuel : nat) (sum : Z) : option Z :=
  match fuel with
  | O => None
  | S f => if Z.shiftr sum 16 =? 0 then Some sum
           else fold_carries f (u32 (Z.land sum 65535 + Z.shiftr sum 16))
  end.
Definition CARRY_FUEL : nat := 3.

(** [n] words from offset [o]: the body of the summing loops. *)
Fixpoint sum_words (b : list Z) (o n : nat) (sum : Z) : Z :=
  match n with
  | O => sum
  | S n' => sum_words b (o + 2) n'
              (u32 (sum + Z.lor (u32 (Z.shiftl (rd b o) 8)) (rd b (S o))))
  end.

Definition fold_ip_header_checksum (b : list Z) (ip : nat) : option Z :=
  match fold_carries CARRY_FUEL (sum_words b ip 10 0) with
  | Some sum => Some (u16 (Z.land (Z.lnot sum) 65535))
  | None => None
  end.

Definition fold_icmp_checksum (b : list Z) (icmp icmp_len : nat) : option Z :=
  let sum := sum_words b icmp (icmp_len / 2) 0 in
  let sum := if Nat.odd icmp_len
             then u32 (sum + u32 (Z.shiftl (rd b (icmp + (icmp_len - 1))) 8)) else sum in
  match fold_carries CARRY_FUEL sum with
  | Some sum => Some (u16 (Z.land (Z.lnot sum) 65535))
  | None => None
  end.

(** * One's complement congruence *)
#[global] Instance ceq_equiv : Equivalence ceq.
Proof. split; [intros x; done|intros x y; by symmetry|intros x y z; unfold ceq; congruence]. Qed.
#[global] Instance ceq_dec x y : Decision (ceq x y).
Proof. unfold ceq. apply _. Defined.
#[global] Instance ceq_add : Proper (ceq ==> ceq ==> ceq) Z.add.
Proof. intros a b H c d H'. unfold ceq in *. by rewrite Zplus_mod, H, H', <- Zplus_mod. Qed.
#[global] Instance ceq_sub : Proper (ceq ==> ceq ==> ceq) Z.sub.
Proof. intros a b H c d H'. unfold ceq in *. by rewrite Zminus_mod, H, H', <- Zminus_mod. Qed.
#[global] Instance ceq_opp : Proper (ceq ==> ceq) Z.opp.
Proof. intros a b H. rewrite <- !Z.sub_0_l. by rewrite H. Qed.

Lemma ceq_intro k x y : x = y + k * 65535 -> x =1 y.
Proof. intros ->. unfold ceq. apply Z_mod_plus_full. Qed.

(** A word with its carries folded in is congruent to the word. *)
Lemma ceq_fold x : x mod 65536 + x / 65536 =1 x.
Proof. apply (ceq_intro (- (x / 65536))). wordlia. Qed.

(** ** The incremental update *)
Lemma update_checksum_16_range c m m' : is_u16 (update_checksum_16 c m m').
Proof. unfold update_checksum_16. apply bswap16_range, u16_range. Qed.

Lemma not16 x : is_u16 x -> Z.land (Z.lnot x) 65535 = 65535 - x.
Proof. intros Hx. rewrite land_65535, lnot_val. wordlia. Qed.

(** The new checksum absorbs the change of the field. *)
Lemma update_checksum_16_spec c m m' : is_u16 c -> is_u16 m -> is_u16 m' ->
  ntohs (update_checksum_16 c m m') + ntohs m' =1 ntohs c + ntohs m.
Proof.
  intros Hc Hm Hm'. apply bswap16_range in Hc, Hm, Hm'. unfold update_checksum_16.
  rewrite bswap16_invol by apply u16_range. rewrite !not16 by done.
  revert Hc Hm Hm'. generalize (ntohs c) as x, (ntohs m) as y, (ntohs m') as z. intros x y z Hx Hy Hz.
  autorewrite with bits.
  set (s := u32 (65535 - x + (65535 - y) + z)).
  assert (s = 131070 - x - y + z) as Hs by (subst s; wordlia). clearbody s. subst s.
  set (s := 131070 - x - y + z). set (s1 := u32 (s mod 65536 + s / 65536)).
  assert (s1 = s mod 65536 + s / 65536) as Hs1 by (subst s1 s; wordlia).
  assert (s1 =1 s) as E by (rewrite Hs1; apply ceq_fold).
  assert (0 <= s1 < 65538) by (subst s; wordlia). clearbody s1. clear Hs1.
  assert (u16 (- u32 (s1 + s1 / 65536) - 1) =1 - s1) as ->.
  { destruct (Z.lt_ge_cases s1 65536).
    - apply (ceq_intro 1). wordlia.
    - apply (ceq_intro 2). wordlia. }
  rewrite E. apply (ceq_intro (-2)). subst s. lia.
Qed.

Lemma update_checksum_32_range c m m' : is_u16 (update_checksum_32 c m m').
Proof. apply update_checksum_16_range. Qed.
#[export] Hint Resolve update_checksum_16_range update_checksum_32_range : words.

(** The two halves of an address, as they lie on the wire. *)
Definition word_sum32 (v : Z) : Z := ntohs (u16 v) + ntohs (v / 65536).

Lemma update_checksum_32_spec c m m' : is_u16 c -> is_u32 m -> is_u32 m' ->
  ntohs (update_checksum_32 c m m') + word_sum32 m' =1 ntohs c + word_sum32 m.
Proof.
  intros Hc Hm Hm'. unfold update_checksum_32, word_sum32, u16. autorewrite with bits.
  set (c1 := update_checksum_16 c _ _).
  assert (is_u16 c1) as Hc1 by apply update_checksum_16_range.
  pose proof (update_checksum_16_spec c (m mod 65536) (m' mod 65536) Hc
    ltac:(wordlia) ltac:(wordlia)) as E1.
  pose proof (update_checksum_16_spec c1 (m / 65536) (m' / 65536) Hc1
    ltac:(wordlia) ltac:(wordlia)) as E2. fold c1 in E1.
  rewrite (Z.add_comm (ntohs (m' mod 65536))), Z.add_assoc, E2.
  rewrite <- Z.add_assoc, (Z.add_comm (ntohs (m / 65536))), Z.add_assoc, E1.
  by rewrite Z.add_assoc.
Qed.

(** ** Sums over a range of a frame

    The one's complement sum of the [n] bytes from offset [o], in 16-bit words of
    network byte order, an odd last byte padded with zero. *)
Fixpoint csum (b : list Z) (o n : nat) : Z :=
  match n with
  | O => 0
  | S O => 256 * rd b o
  | S (S n') => be16 b o + csum b (o + 2) n'
  end.

(** Induction by words. *)
Lemma pairs_ind (P : nat -> Prop) :
  P 0%nat -> P 1%nat -> (forall n, P n -> P (S (S n))) -> forall n, P n.
Proof.
  intros H0 H1 Hs n. enough (P n /\ P (S n)) by tauto.
  induction n as [|n [IH1 IH2]]; auto.
Qed.

Lemma csum_ext b b' o n : (forall i, (o <= i < o + n)%nat -> rd b i = rd b' i) ->
  csum b o n = csum b' o n.
Proof.
  revert o. induction n as [| |n IH] using pairs_ind; intros o H; cbn [csum]; [done| |].
  - rewrite H by lia. done.
  - unfold be16. rewrite !H by lia. rewrite IH by (intros; apply H; lia). done.
Qed.

Lemma csum_nonneg b o n : bytes_ok b -> 0 <= csum b o n <= 65535 * Z.of_nat n.
Proof.
  intros Hb. revert o. induction n as [| |n IH] using pairs_ind; intros o; cbn [csum]; [lia| |];
    unfold be16; pose proof (bytes_ok_rd b o Hb); pose proof (bytes_ok_rd b (S o) Hb);
    [|specialize (IH (o + 2)%nat)]; unfold is_u8 in *; lia.
Qed.

Lemma csum_put16_out b p v o n : (p + 2 <= o \/ o + n <= p)%nat ->
  csum (put16 b p v) o n = csum b o n.
Proof. intros H. apply csum_ext. intros i Hi. apply rd_put16_ne. lia. Qed.

Lemma csum_put16_in b o n k v :
  (S (o + 2 * k) < length b)%nat -> (2 * k + 2 <= n)%nat -> is_u16 v ->
  csum (put16 b (o + 2 * k) v) o n = csum b o n - be16 b (o + 2 * k) + ntohs v.
Proof.
  revert o k. induction n as [| |n IH] using pairs_ind; intros o k Hl Hn Hv; try lia.
  cbn [csum]. destruct k as [|k].
  - rewrite Nat.mul_0_r, Nat.add_0_r in *. rewrite be16_put16_eq by done.
    rewrite csum_put16_out by lia. lia.
  - replace (o + 2 * S k)%nat with ((o + 2) + 2 * k)%nat in * by lia.
    rewrite be16_put16_ne by lia. rewrite IH by (first [done|lia]). lia.
Qed.

(** A store at a known position, in the form the rewriting of headers uses. *)
Lemma csum_put16 b o n p v : (o <= p)%nat -> Nat.even (p - o) = true ->
  (S p < length b)%nat -> (p + 2 <= o + n)%nat -> is_u16 v ->
  csum (put16 b p v) o n = csum b o n - be16 b p + ntohs v.
Proof.
  intros Ho He Hl Hn Hv. apply Nat.even_spec in He as [k Hk].
  replace p with (o + 2 * k)%nat in * by lia. apply csum_put16_in; first [done|lia].
Qed.

Lemma csum_put32 b o n p v : (o <= p)%nat -> Nat.even (p - o) = true ->
  (p + 3 < length b)%nat -> (p + 4 <= o + n)%nat -> is_u32 v ->
  csum (put32 b p v) o n = csum b o n - (be16 b p + be16 b (p + 2)) + word_sum32 v.
Proof.
  intros Ho He Hl Hn Hv. unfold put32, word_sum32.
  replace (S (S p)) with (p + 2)%nat by lia.
  rewrite (csum_put16 _ o n (p + 2)); try lia; [| |buflia|wordlia].
  - rewrite csum_put16 by first [done|lia|apply u16_range].
    rewrite be16_put16_ne by lia. lia.
  - replace (p + 2 - o)%nat with (S (S (p - o))) by lia. exact He.
Qed.
Lemma csum_put32_out b p v o n : (p + 4 <= o \/ o + n <= p)%nat ->
  csum (put32 b p v) o n = csum b o n.
Proof. intros H. unfold put32. by rewrite !csum_put16_out by lia. Qed.

Lemma word_sum32_get b o : bytes_ok b -> word_sum32 (get32 b o) = be16 b o + be16 b (o + 2).
Proof.
  intros Hb. unfold word_sum32, get32. rewrite <- !ntohs_get16 by done.
  replace (S (S o)) with (o + 2)%nat by lia.
  pose proof (get16_range b o Hb). pose proof (get16_range b (o + 2) Hb).
  f_equal; f_equal; wordlia.
Qed.

(** ** Full computation *)
Lemma fold_carries_returns s : is_u32 s ->
  exists r, fold_carries CARRY_FUEL s = Some r /\ is_u16 r /\ r =1 s /\ (r = 0 <-> s = 0).
Proof.
  intros Hs. unfold CARRY_FUEL. cbn [fold_carries]. autorewrite with bits.
  destruct (Z.eqb_spec (s / 65536) 0); [exists s; split_and!; [done|wordlia|done|done]|].
  assert (s <> 0) by wordlia. pose proof (ceq_fold s) as E1. set (s1 := s mod 65536 + s / 65536) in *.
  assert (u32 s1 = s1 /\ 0 < s1 <= 131070) as [-> Hs1] by (subst s1; wordlia).
  destruct (Z.eqb_spec (s1 / 65536) 0); [exists s1; split_and!; [done|wordlia|done|lia]|].
  pose proof (ceq_fold s1) as E2. set (s2 := s1 mod 65536 + s1 / 65536) in *.
  assert (u32 s2 = s2 /\ 0 < s2 < 65536) as [-> Hs2] by (subst s2; wordlia).
  destruct (Z.eqb_spec (s2 / 65536) 0); [|wordlia].
  exists s2. split_and!; [done|wordlia|by rewrite E2|lia].
Qed.

Lemma be_word b o : bytes_ok b -> Z.lor (u32 (Z.shiftl (rd b o) 8)) (rd b (S o)) = be16 b o.
Proof.
  intros Hb. pose proof (bytes_ok_rd b o Hb). pose proof (bytes_ok_rd b (S o) Hb).
  rewrite shl_8. rewrite u32_id by wordlia. change 256 with (2 ^ 8).
  rewrite lor_add_disjoint by wordlia. unfold be16. lia.
Qed.

Lemma sum_words_spec b o n s : bytes_ok b -> 0 <= s ->
  s + 65535 * Z.of_nat (2 * n) < 4294967296 -> sum_words b o n s = s + csum b o (2 * n).
Proof.
  intros Hb. revert o s. induction n as [|n IH]; intros o s Hs Hn; [simpl; lia|].
  replace (2 * S n)%nat with (S (S (2 * n))) in * by lia. cbn [sum_words csum].
  rewrite be_word by done. pose proof (csum_nonneg b o 2 Hb) as Hc. cbn [csum] in Hc.
  rewrite u32_id by (unfold is_u32; lia). rewrite IH by lia. lia.
Qed.

(** The value to store: its sum with the words it was computed over is zero. *)
Lemma fold_ip_header_checksum_spec b ip : bytes_ok b ->
  exists c, fold_ip_header_checksum b ip = Some c /\ is_u16 c /\ c + csum b ip 20 =1 0.
Proof.
  intros Hb. unfold fold_ip_header_checksum. rewrite sum_words_spec by (simpl; lia || done).
  pose proof (csum_nonneg b ip 20 Hb) as Hc. change (2 * 10)%nat with 20%nat.
  destruct (fold_carries_returns (0 + csum b ip 20)) as (r & -> & Hr & E & _);
    [unfold is_u32; lia|].
  eexists. split; [done|]. rewrite not16 by done. rewrite u16_id by wordlia.
  split; [wordlia|]. rewrite Z.add_0_l in E. rewrite <- E. apply (ceq_intro 1). lia.
Qed.

Lemma csum_SS b o n : csum b o (S (S n)) = be16 b o + csum b (o + 2) n.
Proof. done. Qed.
Lemma csum_odd b o k : csum b o (S (2 * k)) = csum b o (2 * k) + 256 * rd b (o + 2 * k).
Proof.
  revert o. induction k as [|k IH]; intros o; [by rewrite Nat.mul_0_r, Nat.add_0_r|].
  replace (2 * S k)%nat with (S (S (2 * k))) by lia.
  rewrite !csum_SS, IH. replace (o + 2 + 2 * k)%nat with (o + S (S (2 * k)))%nat by lia. lia.
Qed.

Lemma fold_icmp_checksum_spec b icmp n : bytes_ok b -> Z.of_nat n <= 32768 ->
  exists c, fold_icmp_checksum b icmp n = Some c /\ is_u16 c /\ c + csum b icmp n =1 0.
Proof.
  intros Hb Hn. unfold fold_icmp_checksum.
  assert (n = 2 * (n / 2) + if Nat.odd n then 1 else 0)%nat as En
    by (rewrite (Nat.div_mod_eq n 2) at 1; rewrite <- Nat.bit0_mod, Nat.bit0_odd;
        by destruct (Nat.odd n)).
  set (k := (n / 2)%nat) in *. clearbody k.
  assert (Z.of_nat (2 * k) <= 32768) by (destruct (Nat.odd n); lia).
  rewrite sum_words_spec by (done || lia). rewrite Z.add_0_l.
  assert ((if Nat.odd n then u32 (csum b icmp (2 * k) + u32 (Z.shiftl (rd b (icmp + (n - 1))) 8))
           else csum b icmp (2 * k)) = csum b icmp n) as ->.
  { destruct (Nat.odd n); [|by rewrite En, Nat.add_0_r].
    replace n with (S (2 * k)) by lia. rewrite csum_odd.
    replace (icmp + (S (2 * k) - 1))%nat with (icmp + 2 * k)%nat by lia.
    pose proof (bytes_ok_rd b (icmp + 2 * k) Hb). pose proof (csum_nonneg b icmp (2 * k) Hb).
    rewrite shl_8. unfold is_u8 in *. rewrite !u32_id by (unfold is_u32; rewrite ?u32_id; wordlia).
    lia. }
  pose proof (csum_nonneg b icmp n Hb).
  destruct (fold_carries_returns (csum b icmp n)) as (r & -> & Hr & E & _); [unfold is_u32; lia|].
  eexists. split; [done|]. rewrite not16 by done. rewrite u16_id by wordlia.
  split; [wordlia|]. rewrite <- E. apply (ceq_intro 1). lia.
Qed.

(** C15: the incremental update agrees with recomputing the checksum. Take any range
    of a frame (a header, or a header with its payload) whose one's complement sum,
    checksum included, is zero, as a receiver tests; replace a 16-bit field of it
    by any value and the checksum by [update_checksum_16] of it: the sum is
    still zero. So no arithmetic on the rest of the packet is ever needed. *)
Theorem update_checksum_valid (b : list Z) (o n field check : nat) (v : Z)
    (Hb : bytes_ok b) (Hv : is_u16 v) (Hn : (o + n <= length b)%nat)
    (Hf : (o <= field)%nat /\ Nat.even (field - o) = true /\ (field + 2 <= o + n)%nat)
    (Hc : (o <= check)%nat /\ Nat.even (check - o) = true /\ (check + 2 <= o + n)%nat)
    (Hne : check <> field) (Hvalid : csum b o n =1 0) :
  let b' := put16 (put16 b check (update_checksum_16 (get16 b check) (get16 b field) v)) field v in
  csum b' o n =1 0 /\ get16 b' field = v.
Proof.
  intros b'. destruct Hf as (Hf1 & Hf2 & Hf3), Hc as (Hc1 & Hc2 & Hc3).
  assert (field + 2 <= check \/ check + 2 <= field)%nat as Hd.
  { apply Nat.even_spec in Hf2 as [k1 ?], Hc2 as [k2 ?]. lia. }
  split; [|subst b'; rewrite get16_put16_eq by first [buflia|done]; done].
  pose proof (update_checksum_16_spec (get16 b check) (get16 b field) v
    ltac:(auto with words) ltac:(auto with words) Hv) as E.
  subst b'. rewrite csum_put16 by first [done|buflia].
  rewrite csum_put16 by first [done|buflia|auto with words].
  rewrite be16_put16_ne by lia. rewrite !ntohs_get16 in E by done.
  match goal with |- context [ntohs (update_checksum_16 ?c ?m ?v)] =>
    set (c' := ntohs (update_checksum_16 c m v)) in * end.
  replace (csum b o n - be16 b check + c' - be16 b field + ntohs v)
    with (csum b o n + ((c' + ntohs v) - (be16 b check + be16 b field))) by lia.
  rewrite E, Z.sub_diag, Z.add_0_r. exact Hvalid.
Qed.

Lemma update_checksum_valid_witness :
  let b := [69; 0; 0; 28; 0; 0; 0; 0; 64; 1; 168; 197; 192; 168; 1; 100; 8; 8; 8; 8] in
  csum b 0 20 =1 0 /\
  csum (put16 (put16 b 10 (update_checksum_16 (get16 b 10) (get16 b 12) 10)) 12 10) 0 20 =1 0.
Proof.
  intros b. assert (csum b 0 20 =1 0) as Hb by (vm_compute; reflexivity).
  split; [exact Hb|].
  apply (update_checksum_valid b 0 20 12 10 10 (bytes_okb_ok b eq_refl)); try exact Hb;
    unfold is_u16; cbn; try split; try split; (lia || reflexivity).
Defined.
