(* ===== verification/TestPackets.v ===== *)
(** The packet builders of the self test ([SelfTest.cpp]). Besides the self test
    itself, the witnesses of the NAT and DHCP theorems run on these frames. *)
From Stdlib Require Import ZArith Lia.
From stdpp Require Import base list numbers.
From S2P Require Import Prelude Headers_util Checksum.

Definition zeros (n : nat) : list Z := replicate n 0.

(** Ethernet + IPv4 + UDP headers, no checksums. *)
Definition make_udp_pkt (sip dip sport dport : Z) : list Z :=
  let buf := zeros 42 in
  let buf := put16 buf EthernetHeader.proto (htons 2048) in
  let buf := put8 buf (14 + IPv4Header.ver_ihl) 69 in
  let buf := put8 buf (14 + IPv4Header.protocol) 17 in
  let buf := put16 buf (14 + IPv4Header.tot_len) (htons 28) in
  let buf := put32 buf (14 + IPv4Header.saddr) sip in
  let buf := put32 buf (14 + IPv4Header.daddr) dip in
  let buf := put16 buf (34 + UDPHeader.source) (htons sport) in
  let buf := put16 buf (34 + UDPHeader.dest) (htons dport) in
  put16 buf (34 + UDPHeader.len) (htons 8).

Definition make_tcp_pkt (sip dip sport dport flags : Z) : list Z :=
  let buf := zeros 54 in
  let buf := put16 buf EthernetHeader.proto (htons 2048) in
  let buf := put8 buf (14 + IPv4Header.ver_ihl) 69 in
  let buf := put8 buf (14 + IPv4Header.protocol) 6 in
  let buf := put16 buf (14 + IPv4Header.tot_len) (htons 40) in
  let buf := put32 buf (14 + IPv4Header.saddr) sip in
  let buf := put32 buf (14 + IPv4Header.daddr) dip in
  let buf := put16 buf (34 + TCPHeader.source) (htons sport) in
  let buf := put16 buf (34 + TCPHeader.dest) (htons dport) in
  put16 buf (34 + TCPHeader.res1_doff_flags) (htons flags).

(** The echo frames of [test_nat]: [type] 8 for the request, 0 for the reply;
    [id_nbo] as stored. Both checksums are filled in. *)
Definition make_icmp_pkt (type sip dip id_nbo : Z) : option (list Z) :=
  let buf := zeros 42 in
  let buf := put16 buf EthernetHeader.proto (htons 2048) in
  let buf := put8 buf (14 + IPv4Header.ver_ihl) 69 in
  let buf := put8 buf (14 + IPv4Header.protocol) 1 in
  let buf := put16 buf (14 + IPv4Header.tot_len) (htons 28) in
  let buf := put16 buf (14 + IPv4Header.frag_off) 0 in
  let buf := put8 buf (14 + IPv4Header.ttl) 64 in
  let buf := put32 buf (14 + IPv4Header.saddr) sip in
  let buf := put32 buf (14 + IPv4Header.daddr) dip in
  let buf := put16 buf (14 + IPv4Header.check) 0 in
  match fold_ip_header_checksum buf 14 with
  | None => None
  | Some c =>
      let buf := put16 buf (14 + IPv4Header.check) (htons c) in
      let buf := put8 buf (34 + IcmpEchoHeader.type) type in
      let buf := put8 buf (34 + IcmpEchoHeader.code) 0 in
      let buf := put16 buf (34 + IcmpEchoHeader.check) 0 in
      let buf := put16 buf (34 + IcmpEchoHeader.id) id_nbo in
      let buf := put16 buf (34 + IcmpEchoHeader.sequence) (htons 1) in
      match fold_icmp_checksum buf 34 8 with
      | None => None
      | Some k => Some (put16 buf (34 + IcmpEchoHeader.check) (htons k))
      end
  end.

Module DhcpWireHeader.
Definition op := 0%nat.
Definition htype := 1%nat.
Definition hlen := 2%nat.
Definition hops := 3%nat.
Definition xid := 4%nat.
Definition secs := 8%nat.
Definition flags := 10%nat.
Definition ciaddr := 12%nat.
Definition yiaddr := 16%nat.
Definition siaddr := 20%nat.
Definition giaddr := 24%nat.
Definition chaddr := 28%nat.
Definition sname := 44%nat.
Definition file := 108%nat.
Definition magic_cookie := 236%nat.
Definition size := 240%nat.
End DhcpWireHeader.

(** The 512-byte buffer and the length of the packet in it. *)
Definition make_dhcp_discover : list Z * nat :=
  let buf := zeros 512 in
  let buf := put16 buf EthernetHeader.proto (htons 2048) in
  let buf := put8 buf (14 + IPv4Header.ver_ihl) 69 in
  let buf := put8 buf (14 + IPv4Header.protocol) 17 in
  let buf := put32 buf (14 + IPv4Header.saddr) 0 in
  let buf := put32 buf (14 + IPv4Header.daddr) 4294967295 in
  let buf := put16 buf (34 + UDPHeader.source) (htons 68) in
  let buf := put16 buf (34 + UDPHeader.dest) (htons 67) in
  let buf := put8 buf (42 + DhcpWireHeader.op) 1 in
  let buf := put8 buf (42 + DhcpWireHeader.htype) 1 in
  let buf := put8 buf (42 + DhcpWireHeader.hlen) 6 in
  let buf := put32 buf (42 + DhcpWireHeader.xid) (htonl 3735928559) in
  let buf := put32 buf (42 + DhcpWireHeader.magic_cookie) (htonl 1669485411) in
  let buf := copy_to buf (42 + DhcpWireHeader.chaddr) [170; 187; 204; 221; 238; 255] in
  let opt := (42 + DhcpWireHeader.size)%nat in
  let buf := put8 (put8 (put8 buf opt 53) (opt + 1) 1) (opt + 2) 1 in
  let buf := put8 buf (opt + 3) 255 in
  let opt := (opt + 4)%nat in
  let buf := put16 buf (34 + UDPHeader.len) (htons (u16 (Z.of_nat (opt - 34)))) in
  let buf := put16 buf (14 + IPv4Header.tot_len) (htons (u16 (Z.of_nat (opt - 14)))) in
  (buf, opt).
