(* ===== verification/NatEngine.v ===== *)
(** Network address translation ([NatEngine.hpp], [NatEngine.cpp]).

    The engine's state is one record; an operation maps the state and the parsed
    packet to the result, the new state and the packet with its bytes rewritten
    in place, load by load and store by store. *)
From Stdlib Require Import ZArith Lia.
From stdpp Require Import base list gmap numbers.
From S2P Require Import Prelude Headers_util Processor Checksum.

Record NatSession := MkNatSession {
  ns_seq : Z; ns_key : FlowKey; ns_external_port : Z; ns_last_active_tick : Z; ns_active : bool }.
Definition NatSession0 : NatSession := MkNatSession 0 FlowKey0 0 0 false.

Record IcmpEchoSession := MkIcmpSession {
  is_seq : Z; is_saddr : Z; is_remote : Z; is_int_id : Z; is_ext_id : Z;
  is_last_active_tick : Z; is_active : bool }.
Definition IcmpEchoSession0 : IcmpEchoSession := MkIcmpSession 0 0 0 0 0 0 false.

Definition MAX_SESSIONS : Z := 65536.
Definition MAX_ICMP_SESSIONS : Z := 4096.

Module NatEngine.
Record t := Mk {
  sessions : gmap Z NatSession;
  port_to_index : gmap Z Z;
  icmp_sessions : gmap Z IcmpEchoSession;
  icmp_id_to_index : gmap Z Z;
  port_cursor : Z;
  icmp_id_cursor : Z;
  wan_ip_nbo : Z;
  current_tick : Z }.

(** Array reads; the constructor fills both index tables with -1. *)
Definition session (e : t) (i : Z) : NatSession := aget NatSession0 (sessions e) i.
Definition port_index (e : t) (p : Z) : Z := aget (-1) (port_to_index e) p.
Definition icmp_session (e : t) (i : Z) : IcmpEchoSession :=
  aget IcmpEchoSession0 (icmp_sessions e) i.
Definition icmp_index (e : t) (p : Z) : Z := aget (-1) (icmp_id_to_index e) p.

Definition set_session (e : t) (i : Z) (s : NatSession) : t :=
  Mk (aset (sessions e) i s) (port_to_index e) (icmp_sessions e) (icmp_id_to_index e)
     (port_cursor e) (icmp_id_cursor e) (wan_ip_nbo e) (current_tick e).
Definition set_port_index (e : t) (p i : Z) : t :=
  Mk (sessions e) (aset (port_to_index e) p i) (icmp_sessions e) (icmp_id_to_index e)
     (port_cursor e) (icmp_id_cursor e) (wan_ip_nbo e) (current_tick e).
Definition set_port_cursor (e : t) (c : Z) : t :=
  Mk (sessions e) (port_to_index e) (icmp_sessions e) (icmp_id_to_index e)
     c (icmp_id_cursor e) (wan_ip_nbo e) (current_tick e).
Definition set_icmp_session (e : t) (i : Z) (s : IcmpEchoSession) : t :=
  Mk (sessions e) (port_to_index e) (aset (icmp_sessions e) i s) (icmp_id_to_index e)
     (port_cursor e) (icmp_id_cursor e) (wan_ip_nbo e) (current_tick e).
Definition set_icmp_index (e : t) (p i : Z) : t :=
  Mk (sessions e) (port_to_index e) (icmp_sessions e) (aset (icmp_id_to_index e) p i)
     (port_cursor e) (icmp_id_cursor e) (wan_ip_nbo e) (current_tick e).
Definition set_icmp_cursor (e : t) (c : Z) : t :=
  Mk (sessions e) (port_to_index e) (icmp_sessions e) (icmp_id_to_index e)
     (port_cursor e) c (wan_ip_nbo e) (current_tick e).

Definition make : t := Mk ∅ ∅ ∅ ∅ 10000 25000 0 0.

Definition set_wan_ip (ip : Z) (e : t) : t :=
  Mk (sessions e) (port_to_index e) (icmp_sessions e) (icmp_id_to_index e)
     (port_cursor e) (icmp_id_cursor e) ip (current_tick e).
Definition wan_ip_snapshot (e : t) : Z := wan_ip_nbo e.
Definition tick (e : t) : t :=
  Mk (sessions e) (port_to_index e) (icmp_sessions e) (icmp_id_to_index e)
     (port_cursor e) (icmp_id_cursor e) (wan_ip_nbo e) (u32 (current_tick e + 1)).

(** [compare_exchange_strong] on an index entry; its result is discarded. *)
Definition cas_port_index (e : t) (p expect v : Z) : t :=
  if port_index e p =? expect then set_port_index e p v else e.
Definition cas_icmp_index (e : t) (p expect v : Z) : t :=
  if icmp_index e p =? expect then set_icmp_index e p v else e.

(** ** FNV-1a over the bytes of the fields in memory order *)
Definition fnv_byte (h byte : Z) : Z := u32 (Z.lxor h byte * 16777619).
Definition bytes16 (v : Z) : list Z := [u8 v; u8 (v / 256)].
Definition bytes32 (v : Z) : list Z := bytes16 (u16 v) ++ bytes16 (v / 65536).
Definition hash_flow (k : FlowKey) : Z :=
  fold_left fnv_byte (bytes32 (saddr k) ++ bytes32 (daddr k) ++ bytes16 (sport k)
                      ++ bytes16 (dport k)) 2166136261.
Definition hash_icmp_flow (sa da id_nbo : Z) : Z :=
  fold_left fnv_byte (bytes32 sa ++ bytes32 da ++ bytes16 id_nbo) 2166136261.

(** ** TCP and UDP, outbound *)
(** Taking over the slot [idx]: the branch of the probe loop for a slot that is
    inactive or expired. *)
Definition claim_session (idx : Z) (key : FlowKey) (tick : Z) (e : t) : Z * t :=
  let sess := session e idx in
  let e1 := if ns_active sess
            then cas_port_index e (ntohs (ns_external_port sess)) idx (-1) else e in
  let ext_nbo := htons (port_cursor e1) in
  let cursor := u16 (port_cursor e1 + 1) in
  let e2 := set_port_cursor e1 (if 60000 <? cursor then 10000 else cursor) in
  let e3 := set_session e2 idx
              (MkNatSession (u32 (u32 (ns_seq sess + 1) + 1)) key ext_nbo tick true) in
  (ext_nbo, set_port_index e3 (ntohs ext_nbo) idx).

(** [tick - last_active_tick > 300], unsigned. *)
Definition expired (tick last : Z) : bool := 300 <? u32 (tick - last).

(** The probe loop: [n] slots left to try, starting with [h + i]. The first
    result is [ext_port], 0 when no slot could be used. *)
Fixpoint probe_session (n : nat) (i h : Z) (key : FlowKey) (tick : Z) (e : t) : Z * t :=
  match n with
  | O => (0, e)
  | S n' =>
      let idx := (h + i) mod MAX_SESSIONS in
      let sess := session e idx in
      if negb (ns_active sess) || expired tick (ns_last_active_tick sess)
      then claim_session idx key tick e
      else if decide (ns_key sess = key)
      then (ns_external_port sess,
            set_session e idx (MkNatSession (ns_seq sess) (ns_key sess)
                                 (ns_external_port sess) tick (ns_active sess)))
      else probe_session n' (i + 1) h key tick e
  end.
Definition PROBES : nat := 32.

(** The tail of both directions: checksums first, then the address and the
    port. [addr] and [port] are the offsets of the fields replaced. *)
Definition rewrite_tuple (b : list Z) (ip addr port check : nat) (new_ip new_port : Z) : list Z :=
  let ipc := (ip + IPv4Header.check)%nat in
  let b := put16 b ipc (update_checksum_32 (get16 b ipc) (get32 b addr) new_ip) in
  let b := if get16 b check =? 0 then b
           else
             let b := put16 b check (update_checksum_32 (get16 b check) (get32 b addr) new_ip) in
             put16 b check (update_checksum_16 (get16 b check) (get16 b port) new_port) in
  put16 (put32 b addr new_ip) port new_port.

(** The pointers to source port, destination port and checksum. *)
Definition l4_ports (proto : Z) (p : ParsedPacket) : option (nat * nat * nat) :=
  if proto =? 17
  then match udp p with
       | Some u => Some (u + UDPHeader.source, u + UDPHeader.dest, u + UDPHeader.check)%nat
       | None => None
       end
  else match tcp p with
       | Some c => Some (c + TCPHeader.source, c + TCPHeader.dest, c + TCPHeader.check)%nat
       | None => None
       end.

(** ** ICMP echo *)
Fixpoint alloc_icmp_loop (n : nat) (e : t) : Z * t :=
  match n with
  | O => (0, e)
  | S n' =>
      let host := icmp_id_cursor e in
      let cursor := u16 (icmp_id_cursor e + 1) in
      let e1 := set_icmp_cursor e (if 60000 <? cursor then 10000 else cursor) in
      let idx := icmp_index e1 host in
      if idx <? 0 then (htons host, e1)
      else if (idx <? MAX_ICMP_SESSIONS) && negb (is_active (icmp_session e1 idx))
      then (htons host, cas_icmp_index e1 host idx (-1))
      else alloc_icmp_loop n' e1
  end.
Definition alloc_external_icmp_id (e : t) : Z * t := alloc_icmp_loop 512 e.

(** The branch of the ICMP probe loop for a slot that is free or expired; 0 when
    no identifier could be allocated. *)
Definition claim_icmp (idx sa da id_nbo tick : Z) (e : t) : Z * t :=
  let sess := icmp_session e idx in
  let seq1 := u32 (is_seq sess + 1) in
  let e1 := if is_active sess
            then set_icmp_session (cas_icmp_index e (ntohs (is_ext_id sess)) idx (-1)) idx
                   (MkIcmpSession seq1 (is_saddr sess) (is_remote sess) (is_int_id sess)
                      (is_ext_id sess) (is_last_active_tick sess) false)
            else set_icmp_session e idx
                   (MkIcmpSession seq1 (is_saddr sess) (is_remote sess) (is_int_id sess)
                      (is_ext_id sess) (is_last_active_tick sess) (is_active sess)) in
  let '(new_ext, e2) := alloc_external_icmp_id e1 in
  let s := icmp_session e2 idx in
  let seq2 := u32 (is_seq s + 1) in
  if new_ext =? 0
  then (0, set_icmp_session e2 idx
             (MkIcmpSession seq2 (is_saddr s) (is_remote s) (is_int_id s) (is_ext_id s)
                (is_last_active_tick s) (is_active s)))
  else (new_ext, set_icmp_session (set_icmp_index e2 (ntohs new_ext) idx) idx
                   (MkIcmpSession seq2 sa da id_nbo new_ext tick true)).

Fixpoint probe_icmp (n : nat) (i h sa da id_nbo tick : Z) (e : t) : Z * t :=
  match n with
  | O => (0, e)
  | S n' =>
      let idx := (h + i) mod MAX_ICMP_SESSIONS in
      let sess := icmp_session e idx in
      if negb (is_active sess) || expired tick (is_last_active_tick sess)
      then claim_icmp idx sa da id_nbo tick e
      else if (is_saddr sess =? sa) && (is_remote sess =? da) && (is_int_id sess =? id_nbo)
      then (is_ext_id sess,
            set_icmp_session e idx
              (MkIcmpSession (is_seq sess) (is_saddr sess) (is_remote sess) (is_int_id sess)
                 (is_ext_id sess) tick (is_active sess)))
      else probe_icmp n' (i + 1) h sa da id_nbo tick e
  end.

Definition rewrite_icmp (b : list Z) (ip addr icmp : nat) (new_ip new_id : Z) : list Z :=
  let ipc := (ip + IPv4Header.check)%nat in
  let chk := (icmp + IcmpEchoHeader.check)%nat in
  let old_id := get16 b (icmp + IcmpEchoHeader.id) in
  let b := put16 b ipc (update_checksum_32 (get16 b ipc) (get32 b addr) new_ip) in
  let b := if get16 b chk =? 0 then b
           else put16 b chk (update_checksum_16 (get16 b chk) old_id new_id) in
  put16 (put32 b addr new_ip) (icmp + IcmpEchoHeader.id) new_id.

Definition process_outbound_icmp (e : t) (p : ParsedPacket) : bool * t * ParsedPacket :=
  match ipv4 p with
  | None => (false, e, p)
  | Some ip =>
      let b := raw_span p in
      let wan_ip := wan_ip_nbo e in
      if wan_ip =? 0 then (false, e, p)
      else match icmp_echo p with
      | None => (false, e, p)
      | Some icmp =>
          if negb (Z.land (ntohs (get16 b (ip + IPv4Header.frag_off))) 16383 =? 0)
          then (false, e, p)
          else if negb (rd b (icmp + IcmpEchoHeader.type) =? 8)
                  || negb (rd b (icmp + IcmpEchoHeader.code) =? 0)
          then (false, e, p)
          else
            let id_nbo := get16 b (icmp + IcmpEchoHeader.id) in
            let sa := get32 b (ip + IPv4Header.saddr) in
            let da := get32 b (ip + IPv4Header.daddr) in
            let h := hash_icmp_flow sa da id_nbo mod MAX_ICMP_SESSIONS in
            let '(ext_nbo, e') := probe_icmp PROBES 0 h sa da id_nbo (current_tick e) e in
            if ext_nbo =? 0 then (false, e', p)
            else (true, e', with_span p
                   (rewrite_icmp b ip (ip + IPv4Header.saddr) icmp wan_ip ext_nbo))
      end
  end.

Definition process_outbound (e : t) (p : ParsedPacket) : bool * t * ParsedPacket :=
  match ipv4 p with
  | None => (false, e, p)
  | Some ip =>
      let b := raw_span p in
      let wan_ip := wan_ip_nbo e in
      let proto := rd b (ip + IPv4Header.protocol) in
      if wan_ip =? 0 then (false, e, p)
      else if proto =? 1 then process_outbound_icmp e p
      else if negb (proto =? 6) && negb (proto =? 17) then (false, e, p)
      else match l4_ports proto p with
      | None => (false, e, p)
      | Some (sport_ptr, dport_ptr, check_ptr) =>
          let key := MkFlowKey (get32 b (ip + IPv4Header.saddr)) (get32 b (ip + IPv4Header.daddr))
                       (get16 b sport_ptr) (get16 b dport_ptr) in
          let h := hash_flow key mod MAX_SESSIONS in
          let '(ext_port, e') := probe_session PROBES 0 h key (current_tick e) e in
          if ext_port =? 0 then (false, e', p)
          else (true, e', with_span p
                 (rewrite_tuple b ip (ip + IPv4Header.saddr) sport_ptr check_ptr wan_ip ext_port))
      end
  end.

(** ** Inbound: the lock-free session read

    One attempt of the reader, as the values its loads return: the sequence
    number before, the fields, the sequence number after. *)
Record observation := MkObs { o_s0 : Z; o_act : bool; o_key : FlowKey; o_port : Z; o_s1 : Z }.
Inductive read_result := Resolved (ip port : Z) | Rejected.

Definition read_attempt (remote_ip remote_port ext_port : Z) (o : observation) :
  option read_result :=
  if Z.land (o_s0 o) 1 =? 1 then None
  else if negb (o_s0 o =? o_s1 o) || (Z.land (o_s1 o) 1 =? 1) then None
  else if negb (o_act o) then Some Rejected
  else if negb (daddr (o_key o) =? remote_ip) || negb (dport (o_key o) =? remote_port)
          || negb (o_port o =? ext_port) then Some Rejected
  else Some (Resolved (saddr (o_key o)) (sport (o_key o))).
(** The retry loop over the observations of its attempts; exhausted attempts
    leave [resolved] false. *)
Fixpoint read_session (remote_ip remote_port ext_port : Z) (os : list observation) : read_result :=
  match os with
  | [] => Rejected
  | o :: os' => match read_attempt remote_ip remote_port ext_port o with
                | Some r => r
                | None => read_session remote_ip remote_port ext_port os'
                end
  end.
Definition ATTEMPTS : nat := 8.
(** What the loads see while no other thread writes. *)
Definition observe (s : NatSession) : observation :=
  MkObs (ns_seq s) (ns_active s) (ns_key s) (ns_external_port s) (ns_seq s).

Record icmp_observation := MkIcmpObs {
  io_s0 : Z; io_act : bool; io_remote : Z; io_saddr : Z; io_int_id : Z; io_ext_id : Z; io_s1 : Z }.
Definition read_icmp_attempt (remote ext_id : Z) (o : icmp_observation) : option read_result :=
  if Z.land (io_s0 o) 1 =? 1 then None
  else if negb (io_s0 o =? io_s1 o) || (Z.land (io_s1 o) 1 =? 1) then None
  else if negb (io_act o) then Some Rejected
  else if negb (io_remote o =? remote) || negb (io_ext_id o =? ext_id) then Some Rejected
  else Some (Resolved (io_saddr o) (io_int_id o)).
Fixpoint read_icmp_session (remote ext_id : Z) (os : list icmp_observation) : read_result :=
  match os with
  | [] => Rejected
  | o :: os' => match read_icmp_attempt remote ext_id o with
                | Some r => r
                | None => read_icmp_session remote ext_id os'
                end
  end.
Definition observe_icmp (s : IcmpEchoSession) : icmp_observation :=
  MkIcmpObs (is_seq s) (is_active s) (is_remote s) (is_saddr s) (is_int_id s) (is_ext_id s) (is_seq s).

Definition process_inbound_icmp (e : t) (p : ParsedPacket) : bool * t * ParsedPacket :=
  match ipv4 p with
  | None => (false, e, p)
  | Some ip =>
      let b := raw_span p in
      if negb (get32 b (ip + IPv4Header.daddr) =? wan_ip_nbo e) then (false, e, p)
      else match icmp_echo p with
      | None => (false, e, p)
      | Some icmp =>
          if negb (Z.land (ntohs (get16 b (ip + IPv4Header.frag_off))) 16383 =? 0)
          then (false, e, p)
          else if negb (rd b (icmp + IcmpEchoHeader.type) =? 0)
                  || negb (rd b (icmp + IcmpEchoHeader.code) =? 0)
          then (false, e, p)
          else
            let id := get16 b (icmp + IcmpEchoHeader.id) in
            let idx := icmp_index e (ntohs id) in
            if (idx <? 0) || (MAX_ICMP_SESSIONS <=? idx) then (false, e, p)
            else
              let s := icmp_session e idx in
              match read_icmp_session (get32 b (ip + IPv4Header.saddr)) id
                      (replicate ATTEMPTS (observe_icmp s)) with
              | Rejected => (false, e, p)
              | Resolved int_sa int_id =>
                  (true,
                   set_icmp_session e idx
                     (MkIcmpSession (is_seq s) (is_saddr s) (is_remote s) (is_int_id s)
                        (is_ext_id s) (current_tick e) (is_active s)),
                   with_span p (rewrite_icmp b ip (ip + IPv4Header.daddr) icmp int_sa int_id))
              end
      end
  end.

Definition process_inbound (e : t) (p : ParsedPacket) : bool * t * ParsedPacket :=
  match ipv4 p with
  | None => (false, e, p)
  | Some ip =>
      let b := raw_span p in
      let proto := rd b (ip + IPv4Header.protocol) in
      if proto =? 1 then process_inbound_icmp e p
      else if negb (proto =? 6) && negb (proto =? 17) then (false, e, p)
      else if negb (get32 b (ip + IPv4Header.daddr) =? wan_ip_nbo e) then (false, e, p)
      else match l4_ports proto p with
      | None => (false, e, p)
      | Some (sport_ptr, dport_ptr, check_ptr) =>
          let dport_nbo := get16 b dport_ptr in
          let idx := port_index e (ntohs dport_nbo) in
          if (idx <? 0) || (MAX_SESSIONS <=? idx) then (false, e, p)
          else
            let s := session e idx in
            match read_session (get32 b (ip + IPv4Header.saddr)) (get16 b sport_ptr) dport_nbo
                    (replicate ATTEMPTS (observe s)) with
            | Rejected => (false, e, p)
            | Resolved int_ip int_port =>
                (true,
                 set_session e idx
                   (MkNatSession (ns_seq s) (ns_key s) (ns_external_port s) (current_tick e)
                      (ns_active s)),
                 with_span p
                   (rewrite_tuple b ip (ip + IPv4Header.daddr) dport_ptr check_ptr int_ip int_port))
            end
      end
  end.
End NatEngine.
