(* ===== verification/NatTable.v ===== *)
(** The session tables of the NAT engine: invariants of the TCP/UDP and ICMP
    tables, kept by every operation. *)
From Stdlib Require Import ZArith Lia.
From stdpp Require Import base list gmap numbers.
From S2P Require Import Prelude Headers_util Processor Checksum NatEngine.
Import NatEngine.

(** External ports and ICMP identifiers are drawn from this range. *)
Definition ext_range (p : Z) : Prop := 10000 <= p <= 60000.
Lemma ext_range_u16 p : ext_range p -> is_u16 p.
Proof. unfold ext_range. wordlia. Qed.
#[export] Hint Resolve ext_range_u16 : words.

Definition next_cursor (c : Z) : Z := if 60000 <? u16 (c + 1) then 10000 else u16 (c + 1).
Lemma next_cursor_range c : ext_range c -> ext_range (next_cursor c).
Proof.
  unfold ext_range, next_cursor. intros Hc. rewrite u16_id by wordlia. case_if; boollia.
Qed.
Lemma ext_nonzero p : ext_range p -> htons p <> 0.
Proof. intros Hp E. apply (bswap16_0 p (ext_range_u16 p Hp)) in E. unfold ext_range in Hp. lia. Qed.

Definition even_seq (s : Z) : Prop := is_u32 s /\ Z.land s 1 = 0.
Lemma even_seq_step s : even_seq s -> even_seq (u32 (u32 (s + 1) + 1)).
Proof. unfold even_seq. rewrite !land_1. intros [H1 H2]. split; wordlia. Qed.

(** * TCP and UDP sessions

    [K] is what is known of the keys of the live sessions. *)
Section TcpTable.
Context (K : FlowKey -> Prop).

Record tcp_ok (e : t) : Prop := {
  tcp_cursor : ext_range (port_cursor e);
  tcp_index : forall p, port_index e p <> -1 ->
    is_u16 p /\ 0 <= port_index e p < MAX_SESSIONS /\
    ns_active (session e (port_index e p)) = true /\
    ns_external_port (session e (port_index e p)) = htons p;
  tcp_live : forall i, ns_active (session e i) = true ->
    0 <= i < MAX_SESSIONS /\ K (ns_key (session e i)) /\
    exists q, ext_range q /\ ns_external_port (session e i) = htons q;
  tcp_seq : forall i, even_seq (ns_seq (session e i)) }.

Lemma make_tcp_ok : tcp_ok make.
Proof.
  split.
  - unfold ext_range. simpl. lia.
  - intros p. unfold port_index. simpl. rewrite aget_empty. done.
  - intros i. unfold session. simpl. by rewrite aget_empty.
  - intros i. unfold session. simpl. rewrite aget_empty. change (even_seq 0).
    split; [wordlia|done].
Qed.

(** The live session that a port points to is the only one it can point to. *)
Lemma tcp_index_port e p : tcp_ok e -> port_index e p <> -1 ->
  p = ntohs (ns_external_port (session e (port_index e p))).
Proof.
  intros He Hp. destruct (tcp_index e He p Hp) as (Hu & _ & _ & ->).
  by rewrite bswap16_invol.
Qed.

Lemma session_set e i s j : session (set_session e i s) j = if decide (i = j) then s else session e j.
Proof. apply aget_set. Qed.
Lemma port_index_set e p i q : port_index (set_port_index e p i) q = if decide (p = q) then i else port_index e q.
Proof. apply aget_set. Qed.

(** The state after a claim, entry by entry. *)
Lemma claim_view e idx key tk r e' : tcp_ok e -> 0 <= idx < MAX_SESSIONS ->
  claim_session idx key tk e = (r, e') ->
  r = htons (port_cursor e) /\
  port_cursor e' = next_cursor (port_cursor e) /\
  (forall j, session e' j = if decide (idx = j)
     then MkNatSession (u32 (u32 (ns_seq (session e idx) + 1) + 1)) key r tk true
     else session e j) /\
  (forall p, port_index e' p = if decide (port_cursor e = p) then idx
     else if decide (port_index e p = idx) then -1 else port_index e p) /\
  icmp_sessions e' = icmp_sessions e /\ icmp_id_to_index e' = icmp_id_to_index e /\
  icmp_id_cursor e' = icmp_id_cursor e /\ wan_ip_nbo e' = wan_ip_nbo e /\
  current_tick e' = current_tick e.
Proof.
  intros He Hi. unfold claim_session.
  set (e1 := if ns_active (session e idx) then _ else e).
  assert (sessions e1 = sessions e /\ port_cursor e1 = port_cursor e /\
    icmp_sessions e1 = icmp_sessions e /\ icmp_id_to_index e1 = icmp_id_to_index e /\
    icmp_id_cursor e1 = icmp_id_cursor e /\ wan_ip_nbo e1 = wan_ip_nbo e /\
    current_tick e1 = current_tick e) as (Es & Ec & Hframe).
  { subst e1. unfold cas_port_index. repeat case_if; done. }
  assert (forall p, port_index e1 p = if decide (port_index e p = idx) then -1 else port_index e p)
    as Hidx.
  { intros p. destruct (decide (port_index e p = idx)) as [E|E].
    - pose proof (tcp_index e He p ltac:(lia)) as (_ & _ & Ha & _).
      pose proof (tcp_index_port e p He ltac:(lia)) as Hp. rewrite E in Ha, Hp.
      subst e1. rewrite Ha. unfold cas_port_index. rewrite <- Hp, E, Z.eqb_refl.
      rewrite port_index_set. by rewrite decide_True.
    - subst e1. unfold cas_port_index. repeat case_if; try done. bool2prop.
      rewrite port_index_set. case_decide; [by subst|done]. }
  intros [= <- <-]. rewrite Ec. split; [done|]. split; [done|].
  rewrite bswap16_invol by (apply ext_range_u16, He).
  split.
  { intros j. unfold session at 1. cbn [sessions set_port_index set_session set_port_cursor].
    rewrite aget_set, Es. done. }
  split; [|exact Hframe]. intros p. rewrite port_index_set. case_decide; [done|]. apply Hidx.
Qed.

Lemma claim_ok e idx key tk r e' : tcp_ok e -> 0 <= idx < MAX_SESSIONS -> K key ->
  claim_session idx key tk e = (r, e') -> tcp_ok e'.
Proof.
  intros He Hi Hk Hc.
  destruct (claim_view _ _ _ _ _ _ He Hi Hc) as (-> & Ecur & Es & Ep & _). split.
  - rewrite Ecur. apply next_cursor_range, He.
  - intros p. rewrite Ep. case_decide as E1.
    + intros _. subst p. rewrite Es, decide_True by done. simpl.
      split; [apply ext_range_u16, He|]. by split.
    + case_decide as E2; [done|]. intros Hp. rewrite Es, decide_False by congruence.
      by apply tcp_index.
  - intros i. rewrite Es. case_decide as E; [|by apply tcp_live].
    intros _. subst i. split; [done|]. split; [done|]. exists (port_cursor e). split; [apply He|done].
  - intros i. rewrite Es. case_decide as E; [|by apply tcp_seq]. simpl. apply even_seq_step, He.
Qed.

(** Refreshing the tick of a session changes nothing else. *)
Definition touch (e : t) (i tk : Z) : t :=
  let s := session e i in
  set_session e i (MkNatSession (ns_seq s) (ns_key s) (ns_external_port s) tk (ns_active s)).

Lemma touch_view e i tk j :
  ns_active (session (touch e i tk) j) = ns_active (session e j) /\
  ns_key (session (touch e i tk) j) = ns_key (session e j) /\
  ns_external_port (session (touch e i tk) j) = ns_external_port (session e j) /\
  ns_seq (session (touch e i tk) j) = ns_seq (session e j) /\
  ns_last_active_tick (session (touch e i tk) j)
    = (if decide (i = j) then tk else ns_last_active_tick (session e j)).
Proof. unfold touch. rewrite session_set. case_decide; [by subst|done]. Qed.

Lemma touch_ok e i tk : tcp_ok e -> tcp_ok (touch e i tk).
Proof.
  intros [Hc Hp Hl Hs]. split; [done|..].
  - intros p. change (port_index (touch e i tk) p) with (port_index e p). intros H.
    destruct (touch_view e i tk (port_index e p)) as (-> & _ & -> & _). by apply Hp.
  - intros j. destruct (touch_view e i tk j) as (-> & -> & -> & _). apply Hl.
  - intros j. destruct (touch_view e i tk j) as (_ & _ & _ & -> & _). apply Hs.
Qed.

(** What the probe loop can do. *)
Lemma probe_session_cases n i h key tk e r e' :
  probe_session n i h key tk e = (r, e') ->
  (r = 0 /\ e' = e) \/
  (exists idx, 0 <= idx < MAX_SESSIONS /\
     (ns_active (session e idx) = false \/ expired tk (ns_last_active_tick (session e idx)) = true) /\
     claim_session idx key tk e = (r, e')) \/
  (exists idx, 0 <= idx < MAX_SESSIONS /\ ns_active (session e idx) = true /\
     ns_key (session e idx) = key /\ r = ns_external_port (session e idx) /\ e' = touch e idx tk).
Proof.
  revert i. induction n as [|n IH]; intros i; simpl; [intros [= <- <-]; by left|].
  set (idx := (h + i) mod MAX_SESSIONS).
  assert (0 <= idx < MAX_SESSIONS) by (apply Z.mod_pos_bound; done).
  destruct (negb (ns_active (session e idx)) || _) eqn:E1.
  { intros Hc. right; left. exists idx. split; [done|]. split; [|done]. by boollia; [left|right]. }
  bool2prop. case_decide as E2.
  - intros [= <- <-]. right; right. exists idx. done.
  - apply IH.
Qed.

Lemma probe_session_ok n i h key tk e r e' : tcp_ok e -> K key ->
  probe_session n i h key tk e = (r, e') -> tcp_ok e'.
Proof.
  intros He Hk [[_ ->]|[(idx & Hi & _ & Hc)|(idx & Hi & _ & _ & _ & ->)]]%probe_session_cases.
  - done.
  - by eapply claim_ok.
  - by apply touch_ok.
Qed.
End TcpTable.

(** * ICMP echo sessions

    Identifiers are only handed out when free, so here the index is a bijection
    between the live sessions and their external identifiers. [K] speaks of
    (inside address, remote address, inside identifier). *)
Section IcmpTable.
Context (K : Z -> Z -> Z -> Prop).

Record icmp_ok (e : t) : Prop := {
  icmp_cursor : ext_range (icmp_id_cursor e);
  icmp_mapped : forall p, icmp_index e p <> -1 ->
    is_u16 p /\ 0 <= icmp_index e p < MAX_ICMP_SESSIONS /\
    is_active (icmp_session e (icmp_index e p)) = true /\
    is_ext_id (icmp_session e (icmp_index e p)) = htons p;
  icmp_live : forall i, is_active (icmp_session e i) = true ->
    0 <= i < MAX_ICMP_SESSIONS /\
    K (is_saddr (icmp_session e i)) (is_remote (icmp_session e i)) (is_int_id (icmp_session e i)) /\
    exists q, ext_range q /\ is_ext_id (icmp_session e i) = htons q /\ icmp_index e q = i }.
Definition icmp_seq_ok (e : t) : Prop := forall i, even_seq (is_seq (icmp_session e i)).

Lemma make_icmp_ok : icmp_ok make /\ icmp_seq_ok make.
Proof.
  split; [split|].
  - unfold ext_range. simpl. lia.
  - intros p. unfold icmp_index. simpl. rewrite aget_empty. done.
  - intros i. unfold icmp_session. simpl. by rewrite aget_empty.
  - intros i. unfold icmp_session. simpl. rewrite aget_empty. change (even_seq 0).
    split; [wordlia|done].
Qed.

Lemma icmp_session_set e i s j :
  icmp_session (set_icmp_session e i s) j = if decide (i = j) then s else icmp_session e j.
Proof. apply aget_set. Qed.
Lemma icmp_index_set e p i q :
  icmp_index (set_icmp_index e p i) q = if decide (p = q) then i else icmp_index e q.
Proof. apply aget_set. Qed.

(** The allocator moves the cursor and nothing else: an identifier it returns is
    unmapped, because a mapped one belongs to a live session. *)
Lemma alloc_loop_spec n e r e' : icmp_ok e -> alloc_icmp_loop n e = (r, e') ->
  (exists c, e' = set_icmp_cursor e c /\ ext_range c) /\
  (r = 0 \/ exists host, ext_range host /\ r = htons host /\ icmp_index e host = -1).
Proof.
  revert e. induction n as [|n IH]; intros e He; simpl.
  { intros [= <- <-]. split; [|by left]. exists (icmp_id_cursor e). split; [by destruct e|apply He]. }
  fold (next_cursor (icmp_id_cursor e)). set (c := next_cursor (icmp_id_cursor e)).
  assert (ext_range c) as Hc by (apply next_cursor_range, He).
  change (icmp_index (set_icmp_cursor e c) (icmp_id_cursor e)) with (icmp_index e (icmp_id_cursor e)).
  assert (icmp_ok (set_icmp_cursor e c)) as Hok by (destruct He; by split).
  destruct (decide (icmp_index e (icmp_id_cursor e) = -1)) as [E|E].
  { rewrite E. intros [= <- <-]. split; [by exists c|]. right. exists (icmp_id_cursor e).
    split; [apply He|done]. }
  destruct (icmp_mapped e He _ E) as (_ & Hr & Ha & _).
  destruct (Z.ltb_spec (icmp_index e (icmp_id_cursor e)) 0); [lia|].
  change (icmp_session (set_icmp_cursor e c) (icmp_index e (icmp_id_cursor e)))
    with (icmp_session e (icmp_index e (icmp_id_cursor e))). rewrite Ha, andb_false_r.
  intros H1. destruct (IH _ Hok H1) as [(c' & -> & Hc') Hr']. split; [by exists c'|].
  destruct Hr' as [->|(host & Hh & -> & Hi)]; [by left|]. right. by exists host.
Qed.

Lemma alloc_spec e r e' : icmp_ok e -> alloc_external_icmp_id e = (r, e') ->
  (exists c, e' = set_icmp_cursor e c /\ ext_range c) /\
  (r = 0 \/ exists host, ext_range host /\ r = htons host /\ icmp_index e host = -1).
Proof. unfold alloc_external_icmp_id. apply alloc_loop_spec. Qed.

(** Dropping the session at [idx]: the first half of a claim. *)
Definition release (e : t) (idx : Z) : t :=
  let sess := icmp_session e idx in
  let seq1 := u32 (is_seq sess + 1) in
  if is_active sess
  then set_icmp_session (cas_icmp_index e (ntohs (is_ext_id sess)) idx (-1)) idx
         (MkIcmpSession seq1 (is_saddr sess) (is_remote sess) (is_int_id sess)
            (is_ext_id sess) (is_last_active_tick sess) false)
  else set_icmp_session e idx
         (MkIcmpSession seq1 (is_saddr sess) (is_remote sess) (is_int_id sess)
            (is_ext_id sess) (is_last_active_tick sess) (is_active sess)).

Definition icmp_frame (e e' : t) : Prop :=
  sessions e' = sessions e /\ port_to_index e' = port_to_index e /\
  port_cursor e' = port_cursor e /\ wan_ip_nbo e' = wan_ip_nbo e /\
  current_tick e' = current_tick e.

Lemma release_ok e idx : icmp_ok e -> 0 <= idx < MAX_ICMP_SESSIONS ->
  icmp_ok (release e idx) /\ is_active (icmp_session (release e idx) idx) = false /\
  (forall j, j <> idx -> icmp_session (release e idx) j = icmp_session e j) /\
  (forall p, icmp_index (release e idx) p <> idx) /\
  is_seq (icmp_session (release e idx) idx) = u32 (is_seq (icmp_session e idx) + 1) /\
  icmp_frame e (release e idx).
Proof.
  intros He Hi. set (e' := release e idx).
  assert (forall p, icmp_index e' p
            = if decide (icmp_index e p = idx) then -1 else icmp_index e p) as Hidx.
  { intros p. unfold e', release. destruct (decide (icmp_index e p = idx)) as [E|E].
    - destruct (icmp_mapped e He p ltac:(lia)) as (Hu & _ & Ha & Hx). rewrite E in Ha, Hx.
      rewrite Ha, Hx, bswap16_invol by done. unfold cas_icmp_index. rewrite E, Z.eqb_refl.
      unfold icmp_index, set_icmp_session, set_icmp_index. simpl. by rewrite aget_set_eq.
    - unfold cas_icmp_index. repeat case_if; try done. bool2prop.
      unfold icmp_index, set_icmp_session, set_icmp_index in *. simpl. rewrite aget_set.
      case_decide; [by subst|done]. }
  assert (forall j, j <> idx -> icmp_session e' j = icmp_session e j) as Hother.
  { intros j Hj. unfold e', release, cas_icmp_index. repeat case_if; rewrite icmp_session_set;
      by rewrite decide_False. }
  assert (is_active (icmp_session e' idx) = false) as Hoff.
  { unfold e', release, cas_icmp_index. repeat case_if; rewrite icmp_session_set;
      by rewrite decide_True. }
  split_and!; try done.
  - split.
    + unfold e', release, cas_icmp_index. repeat case_if; apply He.
    + intros p. rewrite Hidx. case_decide; [done|]. intros Hp.
      rewrite Hother by done. by apply icmp_mapped.
    + intros i Ha. destruct (decide (i = idx)) as [->|Hne]; [congruence|].
      rewrite Hother in * by done. destruct (icmp_live e He i Ha) as (Hr & Hk & q & Hq & Hx & Hm).
      split; [done|]. split; [done|]. exists q. split; [done|]. split; [done|].
      rewrite Hidx, Hm. by rewrite decide_False.
  - intros p. rewrite Hidx. case_decide; lia.
  - unfold e', release, cas_icmp_index. repeat case_if; rewrite icmp_session_set;
      by rewrite decide_True.
  - unfold e', release, cas_icmp_index. repeat case_if; by split_and!.
Qed.

Lemma claim_icmp_unfold idx sa da id tk e :
  claim_icmp idx sa da id tk e =
  let '(new_ext, e2) := alloc_external_icmp_id (release e idx) in
  let s := icmp_session e2 idx in
  let seq2 := u32 (is_seq s + 1) in
  if new_ext =? 0
  then (0, set_icmp_session e2 idx
             (MkIcmpSession seq2 (is_saddr s) (is_remote s) (is_int_id s) (is_ext_id s)
                (is_last_active_tick s) (is_active s)))
  else (new_ext, set_icmp_session (set_icmp_index e2 (ntohs new_ext) idx) idx
                   (MkIcmpSession seq2 sa da id new_ext tk true)).
Proof. done. Qed.

(** A session written over a released slot under a free identifier. *)
Lemma install_ok e idx host s : icmp_ok e -> 0 <= idx < MAX_ICMP_SESSIONS ->
  is_active (icmp_session e idx) = false -> (forall p, icmp_index e p <> idx) ->
  ext_range host -> icmp_index e host = -1 ->
  is_active s = true -> is_ext_id s = htons host -> K (is_saddr s) (is_remote s) (is_int_id s) ->
  icmp_ok (set_icmp_session (set_icmp_index e host idx) idx s).
Proof.
  intros He Hi Hoff Hfree Hh Hm Ha Hx Hk.
  set (e' := set_icmp_session (set_icmp_index e host idx) idx s).
  assert (forall j, icmp_session e' j = if decide (idx = j) then s else icmp_session e j) as Es
    by (intros j; exact (icmp_session_set (set_icmp_index e host idx) idx s j)).
  assert (forall p, icmp_index e' p = if decide (host = p) then idx else icmp_index e p) as Ep
    by (intros p; exact (icmp_index_set e host idx p)).
  split; [apply He|..].
  - intros p. rewrite Ep. case_decide as E.
    + intros _. subst p. rewrite Es, decide_True by done. split; [by apply ext_range_u16|]. by split.
    + intros Hp. pose proof (Hfree p). rewrite Es, decide_False by congruence. by apply icmp_mapped.
  - intros i. rewrite Es. case_decide as E.
    + intros _. subst i. split; [done|]. split; [done|]. exists host. rewrite Ep. by rewrite decide_True.
    + intros Hai. destruct (icmp_live e He i Hai) as (Hr & Hk' & q & Hq & Hxq & Hmq).
      split; [done|]. split; [done|]. exists q. split; [done|]. split; [done|].
      rewrite Ep, decide_False; [done|]. intros <-. unfold MAX_ICMP_SESSIONS in *. lia.
Qed.

Lemma claim_icmp_spec e idx sa da id tk r e' :
  icmp_ok e -> icmp_seq_ok e -> 0 <= idx < MAX_ICMP_SESSIONS -> K sa da id ->
  claim_icmp idx sa da id tk e = (r, e') ->
  icmp_ok e' /\ icmp_seq_ok e' /\ icmp_frame e e' /\
  (forall j, j <> idx -> icmp_session e' j = icmp_session e j) /\
  (r = 0 \/ exists host, ext_range host /\ r = htons host /\ icmp_index e' host = idx /\
     exists sq, icmp_session e' idx = MkIcmpSession sq sa da id r tk true).
Proof.
  intros He Hseq Hi Hk. rewrite claim_icmp_unfold.
  destruct (release_ok e idx He Hi) as (Hok & Hoff & Hother & Hfree & Hsq & Hfr).
  set (e1 := release e idx) in *.
  destruct (alloc_external_icmp_id e1) as [r0 e2] eqn:Ea.
  destruct (alloc_spec _ _ _ Hok Ea) as [(c & -> & Hc) Hr].
  assert (icmp_ok (set_icmp_cursor e1 c)) as Hok2 by (destruct Hok; by split).
  change (icmp_session (set_icmp_cursor e1 c) idx) with (icmp_session e1 idx).
  assert (forall s' e0, (forall j, j <> idx -> icmp_session e0 j = icmp_session e1 j) ->
    icmp_session e0 idx = s' -> is_seq s' = u32 (is_seq (icmp_session e1 idx) + 1) ->
    icmp_seq_ok e0) as Hsq2.
  { intros s' e0 H1 H2 H3 j. destruct (decide (j = idx)) as [->|Hne].
    - rewrite H2, H3, Hsq. apply even_seq_step, Hseq.
    - rewrite H1, Hother by done. apply Hseq. }
  destruct (Z.eqb_spec r0 0) as [->|Hne]; intros [= <- <-].
  - set (e3 := set_icmp_session _ _ _).
    assert (forall j, j <> idx -> icmp_session e3 j = icmp_session e1 j) as Hs3
      by (intros j Hj; unfold e3; rewrite icmp_session_set; by rewrite decide_False).
    assert (is_active (icmp_session e3 idx) = false) as Hoff3
      by (unfold e3; rewrite icmp_session_set; by rewrite decide_True).
    split; [|split; [|split; [done|split; [|by left]]]].
    + split; [apply Hok2|..].
      * intros p Hp. change (icmp_index e3 p) with (icmp_index e1 p) in *.
        rewrite Hs3 by apply Hfree. by apply icmp_mapped.
      * intros i Ha. destruct (decide (i = idx)) as [->|Hne]; [congruence|].
        rewrite Hs3 in * by done. exact (icmp_live e1 Hok i Ha).
    + eapply Hsq2; [done|done|]. unfold e3. rewrite icmp_session_set. by rewrite decide_True.
    + intros j Hj. by rewrite Hs3, Hother.
  - destruct Hr as [->|(host & Hh & -> & Hm)]; [done|].
    rewrite bswap16_invol by (by apply ext_range_u16).
    set (s' := MkIcmpSession _ sa da id (htons host) tk true).
    set (e3 := set_icmp_session _ _ _).
    assert (forall j, j <> idx -> icmp_session e3 j = icmp_session e1 j) as Hs3
      by (intros j Hj; unfold e3; rewrite icmp_session_set; by rewrite decide_False).
    assert (icmp_session e3 idx = s') as Hs'
      by (unfold e3; rewrite icmp_session_set; by rewrite decide_True).
    split; [|split; [|split; [done|split]]].
    + by apply install_ok.
    + by eapply Hsq2.
    + intros j Hj. by rewrite Hs3, Hother.
    + right. exists host. split; [done|]. split; [done|]. split; [|by eexists].
      transitivity (icmp_index (set_icmp_index (set_icmp_cursor e1 c) host idx) host); [done|].
      rewrite icmp_index_set. by rewrite decide_True.
Qed.

Definition icmp_touch (e : t) (i tk : Z) : t :=
  let s := icmp_session e i in
  set_icmp_session e i (MkIcmpSession (is_seq s) (is_saddr s) (is_remote s) (is_int_id s)
                          (is_ext_id s) tk (is_active s)).

Lemma icmp_touch_view e i tk j :
  let s := icmp_session (icmp_touch e i tk) j in let s0 := icmp_session e j in
  is_active s = is_active s0 /\ is_saddr s = is_saddr s0 /\ is_remote s = is_remote s0 /\
  is_int_id s = is_int_id s0 /\ is_ext_id s = is_ext_id s0 /\ is_seq s = is_seq s0.
Proof. unfold icmp_touch. rewrite icmp_session_set. case_decide; [by subst|done]. Qed.

Lemma icmp_touch_ok e i tk : icmp_ok e -> icmp_seq_ok e ->
  icmp_ok (icmp_touch e i tk) /\ icmp_seq_ok (icmp_touch e i tk).
Proof.
  intros [Hc Hm Hl] Hs. split; [split|].
  - done.
  - intros p. change (icmp_index (icmp_touch e i tk) p) with (icmp_index e p). intros H.
    destruct (icmp_touch_view e i tk (icmp_index e p)) as (-> & _ & _ & _ & -> & _). by apply Hm.
  - intros j. destruct (icmp_touch_view e i tk j) as (-> & -> & -> & -> & -> & _). apply Hl.
  - intros j. destruct (icmp_touch_view e i tk j) as (_ & _ & _ & _ & _ & ->). apply Hs.
Qed.

Lemma probe_icmp_cases n i h sa da id tk e r e' :
  probe_icmp n i h sa da id tk e = (r, e') ->
  (r = 0 /\ e' = e) \/
  (exists idx, 0 <= idx < MAX_ICMP_SESSIONS /\
     (is_active (icmp_session e idx) = false \/
      expired tk (is_last_active_tick (icmp_session e idx)) = true) /\
     claim_icmp idx sa da id tk e = (r, e')) \/
  (exists idx, 0 <= idx < MAX_ICMP_SESSIONS /\ is_active (icmp_session e idx) = true /\
     is_saddr (icmp_session e idx) = sa /\ is_remote (icmp_session e idx) = da /\
     is_int_id (icmp_session e idx) = id /\
     r = is_ext_id (icmp_session e idx) /\ e' = icmp_touch e idx tk).
Proof.
  revert i. induction n as [|n IH]; intros i; simpl; [intros [= <- <-]; by left|].
  set (idx := (h + i) mod MAX_ICMP_SESSIONS).
  assert (0 <= idx < MAX_ICMP_SESSIONS) by (apply Z.mod_pos_bound; done).
  destruct (negb (is_active (icmp_session e idx)) || _) eqn:E1.
  { intros Hc. right; left. exists idx. split; [done|]. split; [|done]. by boollia; [left|right]. }
  bool2prop. destruct (_ && _ && _) eqn:E2.
  - bool2prop. intros [= <- <-]. right; right. exists idx. done.
  - apply IH.
Qed.

Lemma probe_icmp_ok n i h sa da id tk e r e' :
  icmp_ok e -> icmp_seq_ok e -> K sa da id ->
  probe_icmp n i h sa da id tk e = (r, e') -> icmp_ok e' /\ icmp_seq_ok e' /\ icmp_frame e e'.
Proof.
  intros He Hs Hk [[_ ->]|[(idx & Hi & _ & Hc)|(idx & Hi & _ & _ & _ & _ & _ & ->)]]%probe_icmp_cases.
  - done.
  - by destruct (claim_icmp_spec _ _ _ _ _ _ _ _ He Hs Hi Hk Hc) as (? & ? & ? & _).
  - by destruct (icmp_touch_ok e idx tk He Hs).
Qed.
End IcmpTable.
