(* ===== verification/NatProofs.v ===== *)
(** Properties of address translation: what outbound and inbound processing do to
    the packet and to the session tables, and what holds along every run. *)
From Stdlib Require Import ZArith Lia.
From stdpp Require Import base list gmap numbers.
From S2P Require Import Prelude Headers_util Processor Checksum TestPackets NatEngine NatTable.
Import NatEngine.

(** * Normal forms of the two entry points *)
(** The pointers of a TCP or UDP packet: IP header, source port, destination port,
    checksum. *)
Definition tcp_view (p : ParsedPacket) : option (nat * (nat * nat * nat)) :=
  match ipv4 p with
  | None => None
  | Some ip =>
      let proto := rd (raw_span p) (ip + IPv4Header.protocol) in
      if (proto =? 6) || (proto =? 17)
      then match l4_ports proto p with Some x => Some (ip, x) | None => None end
      else None
  end.
(** The pointers of an unfragmented ICMP echo packet of type [ty]. *)
Definition icmp_view (ty : Z) (p : ParsedPacket) : option (nat * nat) :=
  match ipv4 p with
  | None => None
  | Some ip =>
      let b := raw_span p in
      if rd b (ip + IPv4Header.protocol) =? 1
      then match icmp_echo p with
           | None => None
           | Some icmp =>
               if (Z.land (ntohs (get16 b (ip + IPv4Header.frag_off))) 16383 =? 0)
                  && (rd b (icmp + IcmpEchoHeader.type) =? ty)
                  && (rd b (icmp + IcmpEchoHeader.code) =? 0)
               then Some (ip, icmp) else None
           end
      else None
  end.

Definition view_key (b : list Z) (v : nat * (nat * nat * nat)) : FlowKey :=
  let '(ip, (s, d, _)) := v in
  MkFlowKey (get32 b (ip + IPv4Header.saddr)) (get32 b (ip + IPv4Header.daddr))
    (get16 b s) (get16 b d).
(** The flow of a TCP or UDP packet, and of an echo packet. *)
Definition flow_of (p : ParsedPacket) : option FlowKey := view_key (raw_span p) <$> tcp_view p.
Definition echo_of (ty : Z) (p : ParsedPacket) : option (Z * Z * Z) :=
  let b := raw_span p in
  (fun v : nat * nat => (get32 b (v.1 + IPv4Header.saddr), get32 b (v.1 + IPv4Header.daddr),
              get16 b (v.2 + IcmpEchoHeader.id))) <$> icmp_view ty p.

Lemma process_outbound_eq e p :
  process_outbound e p =
  if wan_ip_nbo e =? 0 then (false, e, p)
  else match tcp_view p with
  | Some (ip, (s, d, c)) =>
      let b := raw_span p in
      let key := view_key b (ip, (s, d, c)) in
      let '(r, e') := probe_session PROBES 0 (hash_flow key mod MAX_SESSIONS) key (current_tick e) e in
      if r =? 0 then (false, e', p)
      else (true, e', with_span p (rewrite_tuple b ip (ip + IPv4Header.saddr) s c (wan_ip_nbo e) r))
  | None => match icmp_view 8 p with
  | Some (ip, icmp) =>
      let b := raw_span p in
      let sa := get32 b (ip + IPv4Header.saddr) in
      let da := get32 b (ip + IPv4Header.daddr) in
      let id := get16 b (icmp + IcmpEchoHeader.id) in
      let '(r, e') := probe_icmp PROBES 0 (hash_icmp_flow sa da id mod MAX_ICMP_SESSIONS)
                        sa da id (current_tick e) e in
      if r =? 0 then (false, e', p)
      else (true, e', with_span p (rewrite_icmp b ip (ip + IPv4Header.saddr) icmp (wan_ip_nbo e) r))
  | None => (false, e, p)
  end end.
Proof.
  unfold process_outbound, process_outbound_icmp, tcp_view, icmp_view.
  destruct (ipv4 p) as [ip|]; [|by case_if].
  destruct (wan_ip_nbo e =? 0); [done|].
  destruct (Z.eqb_spec (rd (raw_span p) (ip + IPv4Header.protocol)) 1) as [E|E].
  - rewrite E. cbn [orb Z.eqb]. change (1 =? 6) with false. change (1 =? 17) with false. cbn [orb].
    destruct (icmp_echo p) as [icmp|]; [|done].
    destruct (Z.land _ _ =? 0); [|done]. cbn [negb andb].
    destruct (rd (raw_span p) (icmp + IcmpEchoHeader.type) =? 8); [|done]. cbn [negb andb orb].
    by destruct (rd (raw_span p) (icmp + IcmpEchoHeader.code) =? 0).
  - destruct (rd (raw_span p) (ip + IPv4Header.protocol) =? 6),
      (rd (raw_span p) (ip + IPv4Header.protocol) =? 17); cbn [negb andb orb]; try done;
      by destruct (l4_ports _ p) as [[[s d] c]|].
Qed.

(** The reader's loop when no writer is active: it succeeds at the first attempt
    exactly for a live session with the packet's remote end and port. *)
Lemma read_session_quiet s rip rport ext : even_seq (ns_seq s) ->
  read_session rip rport ext (replicate ATTEMPTS (observe s)) =
  if ns_active s && (daddr (ns_key s) =? rip) && (dport (ns_key s) =? rport)
     && (ns_external_port s =? ext)
  then Resolved (saddr (ns_key s)) (sport (ns_key s)) else Rejected.
Proof.
  intros [_ Hs]. unfold ATTEMPTS. cbn [replicate read_session]. unfold read_attempt, observe. simpl.
  rewrite Hs, Z.eqb_refl. change (0 =? 1) with false. cbn [negb orb].
  destruct (ns_active s); [|done]. cbn [negb orb andb].
  by destruct (daddr (ns_key s) =? rip), (dport (ns_key s) =? rport), (ns_external_port s =? ext).
Qed.
Lemma read_icmp_quiet s remote ext : even_seq (is_seq s) ->
  read_icmp_session remote ext (replicate ATTEMPTS (observe_icmp s)) =
  if is_active s && (is_remote s =? remote) && (is_ext_id s =? ext)
  then Resolved (is_saddr s) (is_int_id s) else Rejected.
Proof.
  intros [_ Hs]. unfold ATTEMPTS. cbn [replicate read_icmp_session].
  unfold read_icmp_attempt, observe_icmp. simpl.
  rewrite Hs, Z.eqb_refl. change (0 =? 1) with false. cbn [negb orb].
  destruct (is_active s); [|done]. cbn [negb orb andb].
  by destruct (is_remote s =? remote), (is_ext_id s =? ext).
Qed.

Definition seqs_ok (e : t) : Prop :=
  (forall i, even_seq (ns_seq (session e i))) /\ icmp_seq_ok e.

Lemma process_inbound_eq e p : seqs_ok e ->
  process_inbound e p =
  match tcp_view p with
  | Some (ip, (s, d, c)) =>
      let b := raw_span p in
      let ext := get16 b d in
      let idx := port_index e (ntohs ext) in
      let sess := session e idx in
      if (get32 b (ip + IPv4Header.daddr) =? wan_ip_nbo e) && negb (idx <? 0)
         && negb (MAX_SESSIONS <=? idx) && (ns_active sess
         && (daddr (ns_key sess) =? get32 b (ip + IPv4Header.saddr))
         && (dport (ns_key sess) =? get16 b s) && (ns_external_port sess =? ext))
      then (true, touch e idx (current_tick e),
            with_span p (rewrite_tuple b ip (ip + IPv4Header.daddr) d c
                           (saddr (ns_key sess)) (sport (ns_key sess))))
      else (false, e, p)
  | None => match icmp_view 0 p with
  | Some (ip, icmp) =>
      let b := raw_span p in
      let id := get16 b (icmp + IcmpEchoHeader.id) in
      let idx := icmp_index e (ntohs id) in
      let sess := icmp_session e idx in
      if (get32 b (ip + IPv4Header.daddr) =? wan_ip_nbo e) && negb (idx <? 0)
         && negb (MAX_ICMP_SESSIONS <=? idx) && (is_active sess
         && (is_remote sess =? get32 b (ip + IPv4Header.saddr)) && (is_ext_id sess =? id))
      then (true, icmp_touch e idx (current_tick e),
            with_span p (rewrite_icmp b ip (ip + IPv4Header.daddr) icmp (is_saddr sess) (is_int_id sess)))
      else (false, e, p)
  | None => (false, e, p)
  end end.
Proof.
  intros [Hseq Hiseq]. unfold process_inbound, process_inbound_icmp, tcp_view, icmp_view.
  destruct (ipv4 p) as [ip|]; [|done].
  destruct (Z.eqb_spec (rd (raw_span p) (ip + IPv4Header.protocol)) 1) as [E|E].
  - rewrite E. change (1 =? 6) with false. change (1 =? 17) with false. cbn [orb].
    destruct (icmp_echo p) as [icmp|];
      [|by destruct (get32 (raw_span p) (ip + IPv4Header.daddr) =? wan_ip_nbo e)].
    destruct (Z.land _ _ =? 0); [|by case_if]. cbn [negb andb].
    destruct (rd (raw_span p) (icmp + IcmpEchoHeader.type) =? 0); [|by case_if]. cbn [negb andb orb].
    destruct (rd (raw_span p) (icmp + IcmpEchoHeader.code) =? 0); [|by case_if]. cbn [negb andb orb].
    destruct (get32 (raw_span p) (ip + IPv4Header.daddr) =? wan_ip_nbo e); [|done]. cbn [negb andb orb].
    rewrite read_icmp_quiet by apply Hiseq.
    destruct (_ <? 0); [done|]. destruct (MAX_ICMP_SESSIONS <=? _); [done|]. cbn [negb andb orb].
    by destruct (_ && _).
  - destruct (rd (raw_span p) (ip + IPv4Header.protocol) =? 6) eqn:E6,
      (rd (raw_span p) (ip + IPv4Header.protocol) =? 17) eqn:E17; cbn [negb andb orb]; try done;
      (destruct (l4_ports _ p) as [[[s d] c]|]; [|by case_if]);
      (destruct (get32 (raw_span p) (ip + IPv4Header.daddr) =? wan_ip_nbo e); [|done]);
      cbn [negb andb orb]; rewrite read_session_quiet by apply Hseq;
      (destruct (_ <? 0); [done|]); (destruct (MAX_SESSIONS <=? _); [done|]); cbn [negb andb orb];
      by destruct (_ && _).
Qed.

(** * The rewritten packet *)
(** The IPv4 header of the frame has at least its five fixed words, so that the
    transport header does not overlap it. *)
Definition ihl_ok (b : list Z) : Prop := 5 <= rd b 14 mod 16.
Definition l4_of (b : list Z) : nat := (14 + Z.to_nat (rd b 14 mod 16 * 4))%nat.

Lemma l4_of_ge b : ihl_ok b -> (34 <= l4_of b)%nat.
Proof. unfold ihl_ok, l4_of. lia. Qed.

(** Where the parser puts the pointers. *)
Lemma l4_parse b o : l4_header (parse b) = Some o ->
  o = l4_of b /\ (o + l4_size (l4_protocol (parse b)) <= length b)%nat.
Proof.
  intros H. destruct (parse_l4_some _ _ H) as (Hip & -> & -> & _ & Hs).
  destruct (parse_ipv4_some _ _ Hip) as (_ & _ & _ & Eihl & E).
  rewrite E, Eihl in *. by split.
Qed.
Lemma udp_parse b u : udp (parse b) = Some u -> u = l4_of b /\ (u + 8 <= length b)%nat.
Proof. unfold udp. case_if; [|done]. bool2prop. intros [-> H]%l4_parse. by rewrite Heqb0 in H. Qed.
Lemma tcp_parse b u : tcp (parse b) = Some u -> u = l4_of b /\ (u + 20 <= length b)%nat.
Proof. unfold tcp. case_if; [|done]. bool2prop. intros [-> H]%l4_parse. by rewrite Heqb0 in H. Qed.
Lemma icmp_parse b u : icmp_echo (parse b) = Some u -> u = l4_of b /\ (u + 8 <= length b)%nat.
Proof. unfold icmp_echo. case_if; [|done]. bool2prop. intros [-> H]%l4_parse. by rewrite Heqb0 in H. Qed.

Lemma tcp_view_parse b ip s d c : tcp_view (parse b) = Some (ip, (s, d, c)) ->
  ip = 14%nat /\ s = l4_of b /\ d = (s + 2)%nat /\
  (c = s + 6 \/ c = s + 16)%nat /\ (c + 2 <= length b)%nat /\ (34 <= length b)%nat.
Proof.
  unfold tcp_view, l4_ports. rewrite parse_span.
  destruct (ipv4 (parse b)) as [o|] eqn:Eip; [|done].
  destruct (parse_ipv4_some _ _ Eip) as (-> & _ & Hl & Eihl & Eoff).
  change (14 + IPv4Header.protocol)%nat with 23%nat.
  destruct (_ || _) eqn:Ep; [|done]. destruct (rd b 23 =? 17) eqn:E17.
  - destruct (udp (parse b)) as [u|] eqn:Eu; [|done].
    destruct (udp_parse b u Eu) as (Hu0 & Hu). intros [= <- <- <- <-].
    unfold UDPHeader.source, UDPHeader.dest, UDPHeader.check. lia.
  - destruct (tcp (parse b)) as [u|] eqn:Eu; [|done].
    destruct (tcp_parse b u Eu) as (Hu0 & Hu). intros [= <- <- <- <-].
    unfold TCPHeader.source, TCPHeader.dest, TCPHeader.check. lia.
Qed.

Lemma icmp_view_parse ty b ip icmp : icmp_view ty (parse b) = Some (ip, icmp) ->
  ip = 14%nat /\ icmp = l4_of b /\ (icmp + 8 <= length b)%nat /\ (34 <= length b)%nat.
Proof.
  unfold icmp_view. rewrite parse_span.
  destruct (ipv4 (parse b)) as [o|] eqn:Eip; [|done].
  destruct (parse_ipv4_some _ _ Eip) as (-> & _ & Hl & Eihl & Eoff).
  case_if; [|done]. destruct (icmp_echo (parse b)) as [u|] eqn:Eu; [|done].
  destruct (icmp_parse b u Eu) as (Hu0 & Hu). case_if; [|done]. intros [= <- <-]. lia.
Qed.

Section Rewrite.
Context (b : list Z) (addr port check : nat) (new_ip new_port : Z).
Context (Hb : bytes_ok b) (Hlen : (34 <= length b)%nat).
Context (Haddr : addr = 26%nat \/ addr = 30%nat).
Context (Hport : (34 <= port)%nat /\ (port + 2 <= length b)%nat).
Context (Hcheck : (34 <= check)%nat /\ (check + 2 <= length b)%nat).
Context (Hdisj : (port + 2 <= check \/ check + 2 <= port)%nat).
Context (Hip : is_u32 new_ip) (Hnp : is_u16 new_port).

Let b' := rewrite_tuple b 14 addr port check new_ip new_port.

Lemma rewrite_tuple_length : length b' = length b.
Proof. unfold b', rewrite_tuple. cbv zeta. case_if; by autorewrite with buflen. Qed.
Lemma rewrite_tuple_bytes : bytes_ok b'.
Proof. unfold b', rewrite_tuple. cbv zeta. case_if; auto 10 with words. Qed.

Lemma rewrite_tuple_addr : get32 b' addr = new_ip.
Proof.
  unfold b', rewrite_tuple, IPv4Header.check. cbv zeta.
  rewrite get32_put16_ne by lia. apply get32_put32_eq; [|done]. case_if; buflia.
Qed.
Lemma rewrite_tuple_port : get16 b' port = new_port.
Proof.
  unfold b', rewrite_tuple, IPv4Header.check. cbv zeta.
  apply get16_put16_eq; [|done]. case_if; buflia.
Qed.
(** Nothing but the four fields changes. *)
Lemma rewrite_tuple_rd i : (i < 24 \/ 26 <= i)%nat -> (i < addr \/ addr + 4 <= i)%nat ->
  (i < port \/ port + 2 <= i)%nat -> (i < check \/ check + 2 <= i)%nat -> rd b' i = rd b i.
Proof.
  intros H1 H2 H3 H4. unfold b', rewrite_tuple, IPv4Header.check. cbv zeta.
  case_if; bufsimp; done.
Qed.
Lemma rewrite_tuple_get16 i : (34 <= i)%nat ->
  (i + 2 <= port \/ port + 2 <= i)%nat -> (i + 2 <= check \/ check + 2 <= i)%nat ->
  get16 b' i = get16 b i.
Proof. intros. unfold get16. by rewrite !rewrite_tuple_rd by lia. Qed.
Lemma rewrite_tuple_get32 i : (26 <= i)%nat -> (i + 4 <= 34)%nat ->
  (i + 4 <= addr \/ addr + 4 <= i)%nat -> get32 b' i = get32 b i.
Proof. intros. unfold get32, get16. by rewrite !rewrite_tuple_rd by lia. Qed.

(** ** Checksums

    The sum over the IP header of [n] bytes, and over the transport segment of
    [m] bytes at [l4] with the addresses of its pseudo header, are preserved
    modulo 65535; a transport checksum of zero (absent) stays zero. *)
#[local] Open Scope checksum_scope.
Lemma rewrite_tuple_ip_sum n : (20 <= n)%nat -> (14 + n <= length b)%nat ->
  (14 + n <= port)%nat -> (14 + n <= check)%nat ->
  csum b' 14 n =1 csum b 14 n.
Proof.
  intros Hn Hl Hp Hc. unfold b', rewrite_tuple, IPv4Header.check. cbv zeta.
  change (14 + 10)%nat with 24%nat.
  set (c' := update_checksum_32 (get16 b 24) (get32 b addr) new_ip).
  assert (forall x, csum x 14 n = csum (put16 b 24 c') 14 n -> length x = length b ->
            get32 x addr = get32 b addr -> bytes_ok x ->
            csum (put16 (put32 x addr new_ip) port new_port) 14 n =1 csum b 14 n) as Hmain.
  { intros x Ex Lx Gx Bx. rewrite csum_put16_out by lia.
    rewrite csum_put32 by (first [done|lia|destruct Haddr as [-> | ->]; reflexivity]).
    rewrite <- (word_sum32_get x addr), Gx by done. rewrite Ex.
    rewrite csum_put16 by (first [done|lia|subst c'; auto with words]).
    pose proof (update_checksum_32_spec (get16 b 24) (get32 b addr) new_ip
      ltac:(auto with words) ltac:(auto with words) Hip) as E. fold c' in E.
    rewrite ntohs_get16 in E by done.
    replace (csum b 14 n - be16 b 24 + ntohs c' - word_sum32 (get32 b addr) + word_sum32 new_ip)
      with (csum b 14 n + ((ntohs c' + word_sum32 new_ip)
                           - (be16 b 24 + word_sum32 (get32 b addr)))) by lia.
    by rewrite E, Z.sub_diag, Z.add_0_r. }
  case_if.
  - apply Hmain; [done|by rewrite length_put16|by bufsimp|auto with words].
  - apply Hmain; [by rewrite !csum_put16_out by lia|by rewrite !length_put16|by bufsimp
      |auto with words].
Qed.

Lemma rewrite_tuple_l4_sum l4 m : (34 <= l4)%nat -> (l4 <= port)%nat -> (l4 <= check)%nat ->
  Nat.even (port - l4) = true -> Nat.even (check - l4) = true ->
  (port + 2 <= l4 + m)%nat -> (check + 2 <= l4 + m)%nat ->
  get16 b check <> 0 ->
  csum b' 26 8 + csum b' l4 m =1 csum b 26 8 + csum b l4 m.
Proof.
  intros H34 Hp1 Hc1 Hpe Hce Hpm Hcm Hnz. unfold b', rewrite_tuple, IPv4Header.check. cbv zeta.
  change (14 + 10)%nat with 24%nat. set (c' := update_checksum_32 (get16 b 24) _ _).
  assert (get16 (put16 b 24 c') check = get16 b check) as Eck by (by bufsimp).
  rewrite Eck. destruct (Z.eqb_spec (get16 b check) 0) as [|_]; [done|].
  set (k1 := update_checksum_32 (get16 b check) _ _).
  assert (is_u16 k1) by apply update_checksum_32_range.
  assert (k1 = update_checksum_32 (get16 b check) (get32 b addr) new_ip) as Ek1
    by (unfold k1; by bufsimp).
  set (k2 := update_checksum_16 _ _ _).
  assert (k2 = update_checksum_16 k1 (get16 b port) new_port) as Ek2
    by (unfold k2; by bufsimp).
  assert (is_u16 k2) by apply update_checksum_16_range.
  pose proof (update_checksum_32_spec (get16 b check) (get32 b addr) new_ip
    ltac:(auto with words) ltac:(auto with words) Hip) as E1. rewrite <- Ek1 in E1.
  pose proof (update_checksum_16_spec k1 (get16 b port) new_port
    ltac:(done) ltac:(auto with words) Hnp) as E2. rewrite <- Ek2 in E2.
  rewrite !ntohs_get16 in * by done.
  assert (forall x, csum x 26 8 = csum b 26 8 -> length x = length b -> bytes_ok x ->
    get32 x addr = get32 b addr -> csum (put16 (put32 x addr new_ip) port new_port) 26 8
    = csum b 26 8 - word_sum32 (get32 b addr) + word_sum32 new_ip) as Hps.
  { intros x Ex Lx Bx Gx. rewrite csum_put16_out by lia.
    rewrite csum_put32 by (first [done|lia|destruct Haddr as [-> | ->]; reflexivity]).
    by rewrite <- (word_sum32_get x addr), Gx, Ex by done. }
  rewrite Hps; [|by rewrite !csum_put16_out by lia|by rewrite !length_put16|auto 10 with words
    |by bufsimp].
  rewrite (csum_put16 _ l4 m port) by first [done|buflia].
  rewrite csum_put32_out by lia.
  rewrite (csum_put16 _ l4 m check) by first [done|buflia].
  rewrite (csum_put16 _ l4 m check) by first [done|buflia].
  rewrite (csum_put16_out b 24) by lia.
  rewrite (be16_put16_eq _ check) by first [done|buflia].
  rewrite (be16_put16_ne b 24 c' check) by lia.
  assert (be16 (put32 (put16 (put16 (put16 b 24 c') check k1) check k2) addr new_ip) port
          = be16 b port) as ->.
  { unfold be16. by rewrite !rd_put32_ne, !rd_put16_ne by lia. }
  set (k1' := ntohs k1) in *. set (k2' := ntohs k2) in *. set (np := ntohs new_port) in *.
  replace (csum b 26 8 - word_sum32 (get32 b addr) + word_sum32 new_ip
     + (csum b l4 m - be16 b check + k1' - k1' + k2' - be16 b port + np))
    with (csum b 26 8 + csum b l4 m
          + ((k2' + np) - (k1' + be16 b port))
          + ((k1' + word_sum32 new_ip) - (be16 b check + word_sum32 (get32 b addr)))) by lia.
  by rewrite E2, E1, !Z.sub_diag, !Z.add_0_r.
Qed.

Lemma rewrite_tuple_no_check : get16 b check = 0 -> get16 b' check = 0.
Proof.
  intros Hz. unfold b', rewrite_tuple, IPv4Header.check. cbv zeta.
  change (14 + 10)%nat with 24%nat. set (c' := update_checksum_32 (get16 b 24) _ _).
  assert (get16 (put16 b 24 c') check = 0) as -> by (by bufsimp).
  change (0 =? 0) with true. cbv iota. by bufsimp.
Qed.
End Rewrite.

Section RewriteIcmp.
Context (b : list Z) (addr icmp : nat) (new_ip new_id : Z).
Context (Hb : bytes_ok b) (Hlen : (34 <= length b)%nat).
Context (Haddr : addr = 26%nat \/ addr = 30%nat).
Context (Hicmp : (34 <= icmp)%nat /\ (icmp + 8 <= length b)%nat).
Context (Hip : is_u32 new_ip) (Hnid : is_u16 new_id).

Let b' := rewrite_icmp b 14 addr icmp new_ip new_id.

Lemma rewrite_icmp_length : length b' = length b.
Proof. unfold b', rewrite_icmp. cbv zeta. case_if; by autorewrite with buflen. Qed.
Lemma rewrite_icmp_addr : get32 b' addr = new_ip.
Proof.
  unfold b', rewrite_icmp, IcmpEchoHeader.check, IcmpEchoHeader.id, IPv4Header.check. cbv zeta.
  rewrite get32_put16_ne by lia. apply get32_put32_eq; [|done]. case_if; buflia.
Qed.
Lemma rewrite_icmp_id : get16 b' (icmp + IcmpEchoHeader.id) = new_id.
Proof.
  unfold b', rewrite_icmp, IcmpEchoHeader.check, IcmpEchoHeader.id, IPv4Header.check. cbv zeta.
  apply get16_put16_eq; [|done]. case_if; buflia.
Qed.
Lemma rewrite_icmp_rd i : (i < 24 \/ 26 <= i)%nat -> (i < addr \/ addr + 4 <= i)%nat ->
  (i < icmp + 2 \/ icmp + 6 <= i)%nat -> rd b' i = rd b i.
Proof.
  intros H1 H2 H3. unfold b', rewrite_icmp, IcmpEchoHeader.check, IcmpEchoHeader.id, IPv4Header.check.
  cbv zeta. case_if; bufsimp; done.
Qed.
Lemma rewrite_icmp_get32 i : (26 <= i)%nat -> (i + 4 <= 34)%nat ->
  (i + 4 <= addr \/ addr + 4 <= i)%nat -> get32 b' i = get32 b i.
Proof. intros. unfold get32, get16. by rewrite !rewrite_icmp_rd by lia. Qed.

#[local] Open Scope checksum_scope.
Lemma rewrite_icmp_ip_sum n : (20 <= n)%nat -> (14 + n <= icmp)%nat ->
  csum b' 14 n =1 csum b 14 n.
Proof.
  intros Hn Hl. unfold b', rewrite_icmp, IPv4Header.check, IcmpEchoHeader.check, IcmpEchoHeader.id.
  cbv zeta. change (14 + 10)%nat with 24%nat.
  set (c' := update_checksum_32 (get16 b 24) (get32 b addr) new_ip).
  pose proof (update_checksum_32_spec (get16 b 24) (get32 b addr) new_ip
      ltac:(auto with words) ltac:(auto with words) Hip) as E. fold c' in E.
  rewrite ntohs_get16 in E by done.
  assert (forall x, csum x 14 n = csum (put16 b 24 c') 14 n -> length x = length b ->
            get32 x addr = get32 b addr -> bytes_ok x ->
            csum (put16 (put32 x addr new_ip) (icmp + 4) new_id) 14 n =1 csum b 14 n) as Hmain.
  { intros x Ex Lx Gx Bx. rewrite csum_put16_out by lia.
    rewrite csum_put32 by (first [done|lia|destruct Haddr as [-> | ->]; reflexivity]).
    rewrite <- (word_sum32_get x addr), Gx by done. rewrite Ex.
    rewrite csum_put16 by (first [done|lia|subst c'; auto with words]).
    replace (csum b 14 n - be16 b 24 + ntohs c' - word_sum32 (get32 b addr) + word_sum32 new_ip)
      with (csum b 14 n + ((ntohs c' + word_sum32 new_ip)
                           - (be16 b 24 + word_sum32 (get32 b addr)))) by lia.
    by rewrite E, Z.sub_diag, Z.add_0_r. }
  case_if.
  - apply Hmain; [done|by rewrite length_put16|by bufsimp|auto with words].
  - apply Hmain; [by rewrite !csum_put16_out by lia|by rewrite !length_put16|by bufsimp
      |auto with words].
Qed.

Lemma rewrite_icmp_sum m : (8 <= m)%nat -> get16 b (icmp + 2) <> 0 ->
  csum b' icmp m =1 csum b icmp m.
Proof.
  intros Hm Hnz. unfold b', rewrite_icmp, IPv4Header.check, IcmpEchoHeader.check, IcmpEchoHeader.id.
  cbv zeta. change (14 + 10)%nat with 24%nat. set (c' := update_checksum_32 (get16 b 24) _ _).
  assert (get16 (put16 b 24 c') (icmp + 2) = get16 b (icmp + 2)) as -> by (by bufsimp).
  destruct (Z.eqb_spec (get16 b (icmp + 2)) 0) as [|_]; [done|].
  set (k := update_checksum_16 _ _ _). assert (is_u16 k) by apply update_checksum_16_range.
  pose proof (update_checksum_16_spec (get16 b (icmp + 2)) (get16 b (icmp + 4)) new_id
    ltac:(auto with words) ltac:(auto with words) Hnid) as E. fold k in E.
  rewrite !ntohs_get16 in E by done.
  assert (forall a, Nat.even (icmp + a - icmp) = Nat.even a) as He by (intros; f_equal; lia).
  rewrite (csum_put16 _ icmp m (icmp + 4)) by first [done|rewrite He; done|buflia].
  rewrite csum_put32_out by lia.
  rewrite (csum_put16 _ icmp m (icmp + 2)) by first [done|rewrite He; done|buflia].
  rewrite (csum_put16_out b 24) by lia. rewrite (be16_put16_ne b 24 c') by lia.
  assert (be16 (put32 (put16 (put16 b 24 c') (icmp + 2) k) addr new_ip) (icmp + 4)
          = be16 b (icmp + 4)) as ->.
  { unfold be16. by rewrite !rd_put32_ne, !rd_put16_ne by lia. }
  replace (csum b icmp m - be16 b (icmp + 2) + ntohs k - be16 b (icmp + 4) + ntohs new_id)
    with (csum b icmp m + ((ntohs k + ntohs new_id) - (be16 b (icmp + 2) + be16 b (icmp + 4)))) by lia.
  by rewrite E, Z.sub_diag, Z.add_0_r.
Qed.
End RewriteIcmp.

(** * The tables along a run *)
Record nat_inv (Kt : FlowKey -> Prop) (Ki : Z -> Z -> Z -> Prop) (e : t) : Prop := {
  inv_tcp : tcp_ok Kt e; inv_icmp : icmp_ok Ki e; inv_seq : icmp_seq_ok e }.

Lemma nat_inv_seqs Kt Ki e : nat_inv Kt Ki e -> seqs_ok e.
Proof. intros [H1 H2 H3]. split; [apply (tcp_seq _ _ H1)|done]. Qed.

Lemma tcp_ok_frame K e e' : icmp_frame e e' -> tcp_ok K e -> tcp_ok K e'.
Proof.
  intros (Es & Ep & Ec & _) [H1 H2 H3 H4].
  assert (forall j, session e' j = session e j) as Hs by (intros; unfold session; by rewrite Es).
  assert (forall p, port_index e' p = port_index e p) as Hp by (intros; unfold port_index; by rewrite Ep).
  split; [by rewrite Ec|..]; intros; rewrite ?Hp, ?Hs in *; auto.
Qed.
Definition tcp_frame (e e' : t) : Prop :=
  icmp_sessions e' = icmp_sessions e /\ icmp_id_to_index e' = icmp_id_to_index e /\
  icmp_id_cursor e' = icmp_id_cursor e /\ wan_ip_nbo e' = wan_ip_nbo e /\
  current_tick e' = current_tick e.
Lemma icmp_ok_frame K e e' : tcp_frame e e' -> icmp_ok K e -> icmp_seq_ok e ->
  icmp_ok K e' /\ icmp_seq_ok e'.
Proof.
  intros (Es & Ep & Ec & _) [H1 H2 H3] H4.
  assert (forall j, icmp_session e' j = icmp_session e j) as Hs
    by (intros; unfold icmp_session; by rewrite Es).
  assert (forall p, icmp_index e' p = icmp_index e p) as Hp
    by (intros; unfold icmp_index; by rewrite Ep).
  split; [split; [by rewrite Ec|..]|]; repeat intro; rewrite ?Hp, ?Hs in *; auto.
  destruct (H3 _ H) as (? & ? & q & ? & ? & ?). split; [done|]. split; [done|]. exists q. by rewrite Hp.
Qed.

Lemma probe_session_frame K n i h key tk e r e' : tcp_ok K e ->
  probe_session n i h key tk e = (r, e') -> tcp_frame e e'.
Proof.
  intros He [[_ ->]|[(idx & Hi & _ & Hc)|(idx & Hi & _ & _ & _ & ->)]]%probe_session_cases; [done| |done].
  by destruct (claim_view _ _ _ _ _ _ _ He Hi Hc) as (_ & _ & _ & _ & H).
Qed.

Lemma outbound_inv Kt Ki e p : nat_inv Kt Ki e ->
  (forall k, flow_of p = Some k -> Kt k) ->
  (forall sa da id, echo_of 8 p = Some (sa, da, id) -> Ki sa da id) ->
  nat_inv Kt Ki (snd (fst (process_outbound e p))).
Proof.
  intros [H1 H2 H3] Hk He. rewrite process_outbound_eq. case_if; [done|].
  destruct (tcp_view p) as [[ip [[s d] c]]|] eqn:Ev.
  - cbv zeta. destruct (probe_session _ _ _ _ _ _) as [r e'] eqn:Ep.
    assert (Kt (view_key (raw_span p) (ip, (s, d, c)))) as Hkey
      by (apply Hk; unfold flow_of; by rewrite Ev).
    pose proof (probe_session_ok _ _ _ _ _ _ _ _ _ H1 Hkey Ep).
    pose proof (probe_session_frame _ _ _ _ _ _ _ _ _ H1 Ep) as Hf.
    destruct (icmp_ok_frame _ _ _ Hf H2 H3). by case_if.
  - destruct (icmp_view 8 p) as [[ip icmp]|] eqn:Ei; [|done]. cbv zeta.
    destruct (probe_icmp _ _ _ _ _ _ _ _) as [r e'] eqn:Ep.
    assert (Ki (get32 (raw_span p) (ip + IPv4Header.saddr)) (get32 (raw_span p) (ip + IPv4Header.daddr))
      (get16 (raw_span p) (icmp + IcmpEchoHeader.id))) as Hkey
      by (apply He; unfold echo_of; by rewrite Ei).
    destruct (probe_icmp_ok _ _ _ _ _ _ _ _ _ _ _ H2 H3 Hkey Ep) as (? & ? & Hf).
    pose proof (tcp_ok_frame _ _ _ Hf H1). by case_if.
Qed.

Lemma inbound_inv Kt Ki e p : nat_inv Kt Ki e -> nat_inv Kt Ki (snd (fst (process_inbound e p))).
Proof.
  intros Hinv. pose proof Hinv as [H1 H2 H3].
  rewrite process_inbound_eq by (by eapply nat_inv_seqs).
  destruct (tcp_view p) as [[ip [[s d] c]]|]; cbv zeta.
  - case_if; [|done]. split; [by apply touch_ok|..].
    all: by apply (icmp_ok_frame Ki e).
  - destruct (icmp_view 0 p) as [[ip icmp]|]; [|done]. case_if; [|done]. simpl.
    destruct (icmp_touch_ok Ki e (icmp_index e (ntohs (get16 (raw_span p) (icmp + IcmpEchoHeader.id))))
      (current_tick e) H2 H3).
    split; [|done|done]. by apply (tcp_ok_frame Kt e).
Qed.

(** Everything the program does to the engine. *)
Inductive nat_op := NOut (b : list Z) | NIn (b : list Z) | NTick | NSetWan (ip : Z).
Definition nat_apply (e : t) (op : nat_op) : t :=
  match op with
  | NOut b => snd (fst (process_outbound e (parse b)))
  | NIn b => snd (fst (process_inbound e (parse b)))
  | NTick => tick e
  | NSetWan ip => set_wan_ip ip e
  end.
Definition nat_run (ops : list nat_op) (e : t) : t := fold_left nat_apply ops e.
(** The inputs are frames of bytes and a 32-bit address. *)
Definition nat_op_ok (op : nat_op) : Prop :=
  match op with NOut b | NIn b => bytes_ok b | NTick => True | NSetWan ip => is_u32 ip end.

(** The flows and echo identifiers the inside hosts have used. *)
Definition used_flow (ops : list nat_op) (k : FlowKey) : Prop :=
  exists b, NOut b ∈ ops /\ flow_of (parse b) = Some k.
Definition used_echo (ops : list nat_op) (sa da id : Z) : Prop :=
  exists b, NOut b ∈ ops /\ echo_of 8 (parse b) = Some (sa, da, id).

Lemma nat_inv_mono (Kt Kt' : FlowKey -> Prop) (Ki Ki' : Z -> Z -> Z -> Prop) e :
  (forall k, Kt k -> Kt' k) -> (forall a b c, Ki a b c -> Ki' a b c) ->
  nat_inv Kt Ki e -> nat_inv Kt' Ki' e.
Proof.
  intros Ht Hi [[H1 H2 H3 H4] [G1 G2 G3] Hs]. split; [split|split|]; auto.
  - intros i Ha. destruct (H3 i Ha) as (? & ? & ?). auto.
  - intros i Ha. destruct (G3 i Ha) as (? & ? & ?). auto.
Qed.

Lemma make_inv Kt Ki : nat_inv Kt Ki make.
Proof. destruct (make_icmp_ok Ki). split; [apply make_tcp_ok|done|done]. Qed.

Lemma nat_run_snoc ops op e : nat_run (ops ++ [op]) e = nat_apply (nat_run ops e) op.
Proof. apply fold_left_app. Qed.

Lemma nat_run_inv ops : nat_inv (used_flow ops) (used_echo ops) (nat_run ops make).
Proof.
  induction ops as [|op ops IH] using rev_ind; [apply make_inv|].
  rewrite nat_run_snoc.
  apply (nat_inv_mono _ (used_flow (ops ++ [op])) _ (used_echo (ops ++ [op]))) in IH.
  2:{ intros k (b & Hb & Hk). exists b. set_solver. }
  2:{ intros ??? (b & Hb & Hk). exists b. set_solver. }
  destruct op as [b|b| |ip]; simpl.
  - apply outbound_inv; [done|..]; intros; exists b; set_solver.
  - by apply inbound_inv.
  - by destruct IH as [[] [] ?].
  - by destruct IH as [[] [] ?].
Qed.

(** C4: the session tables stay consistent through every run of outbound and inbound
    packets, ticks and WAN address changes, whatever the frames contain. Port and
    identifier cursors stay in 10000..60000; an entry of either index table is -1 or
    the in-range index of a live session that owns exactly that port (so the
    reader never leaves the session arrays); every live session has an external
    port of the range; sequence numbers are even between operations; and the live
    ICMP sessions have pairwise distinct external identifiers, each mapped back to
    its session. *)
Theorem nat_tables_consistent (ops : list nat_op) :
  let e := nat_run ops make in
  ext_range (port_cursor e) /\ ext_range (icmp_id_cursor e) /\
  (forall p, port_index e p = -1 \/
     (0 <= port_index e p < MAX_SESSIONS /\ ns_active (session e (port_index e p)) = true /\
      ns_external_port (session e (port_index e p)) = htons p)) /\
  (forall i, ns_active (session e i) = true -> 0 <= i < MAX_SESSIONS /\
     ext_range (ntohs (ns_external_port (session e i)))) /\
  (forall i, Z.land (ns_seq (session e i)) 1 = 0 /\ Z.land (is_seq (icmp_session e i)) 1 = 0) /\
  (forall p, icmp_index e p = -1 \/ 0 <= icmp_index e p < MAX_ICMP_SESSIONS) /\
  (forall i, is_active (icmp_session e i) = true ->
     0 <= i < MAX_ICMP_SESSIONS /\ ext_range (ntohs (is_ext_id (icmp_session e i))) /\
     icmp_index e (ntohs (is_ext_id (icmp_session e i))) = i) /\
  (forall i j, is_active (icmp_session e i) = true -> is_active (icmp_session e j) = true ->
     is_ext_id (icmp_session e i) = is_ext_id (icmp_session e j) -> i = j).
Proof.
  intros e. destruct (nat_run_inv ops) as [Ht Hi Hs]. fold e in Ht, Hi, Hs.
  assert (forall i, is_active (icmp_session e i) = true -> 0 <= i < MAX_ICMP_SESSIONS /\
     ext_range (ntohs (is_ext_id (icmp_session e i))) /\
     icmp_index e (ntohs (is_ext_id (icmp_session e i))) = i) as Hlive.
  { intros i Ha. destruct (icmp_live _ _ Hi i Ha) as (Hr & _ & q & Hq & -> & Hm).
    by rewrite bswap16_invol by (by apply ext_range_u16). }
  split_and!; try done.
  - apply Ht.
  - apply Hi.
  - intros p. destruct (decide (port_index e p = -1)) as [|Hp]; [by left|right].
    by destruct (tcp_index _ _ Ht p Hp) as (_ & ? & ? & ?).
  - intros i Ha. destruct (tcp_live _ _ Ht i Ha) as (Hr & _ & q & Hq & ->). split; [done|].
    by rewrite bswap16_invol by (by apply ext_range_u16).
  - intros i. split; [apply (tcp_seq _ _ Ht i)|apply Hs].
  - intros p. destruct (decide (icmp_index e p = -1)) as [|Hp]; [by left|right].
    by destruct (icmp_mapped _ _ Hi p Hp) as (_ & ? & _).
  - intros i j Hai Haj E. destruct (Hlive i Hai) as (_ & _ & <-), (Hlive j Haj) as (_ & _ & <-).
    by rewrite E.
Qed.

(** ** The flow of a rewritten packet *)
Lemma tcp_view_with_span b b' : rd b' 23 = rd b 23 ->
  tcp_view (with_span (parse b) b') = tcp_view (parse b).
Proof.
  intros E. unfold tcp_view. cbn [ipv4 raw_span with_span]. rewrite parse_span.
  destruct (ipv4 (parse b)) as [ip|] eqn:Eip; [|done].
  destruct (parse_ipv4_some _ _ Eip) as (-> & _).
  change (14 + IPv4Header.protocol)%nat with 23%nat. by rewrite E.
Qed.
Lemma icmp_view_with_span ty b b' : (forall i, (i < 24)%nat -> rd b' i = rd b i) ->
  (forall i, (l4_of b <= i < l4_of b + 2)%nat -> rd b' i = rd b i) ->
  icmp_view ty (with_span (parse b) b') = icmp_view ty (parse b).
Proof.
  intros E1 E2. unfold icmp_view. cbn [ipv4 raw_span with_span]. rewrite parse_span.
  destruct (ipv4 (parse b)) as [ip|] eqn:Eip; [|done].
  destruct (parse_ipv4_some _ _ Eip) as (-> & _).
  change (14 + IPv4Header.protocol)%nat with 23%nat. rewrite E1 by lia.
  change (icmp_echo (with_span (parse b) b')) with (icmp_echo (parse b)).
  destruct (icmp_echo (parse b)) as [u|] eqn:Eu; [|done].
  destruct (icmp_parse b u Eu) as (-> & _). unfold IcmpEchoHeader.type, IcmpEchoHeader.code.
  assert (get16 b' (14 + IPv4Header.frag_off) = get16 b (14 + IPv4Header.frag_off)) as ->.
  { unfold get16, IPv4Header.frag_off. by rewrite !E1 by lia. }
  by rewrite !E2 by lia.
Qed.

(** The flow of a parsed frame is in the bytes from the protocol field on. *)
Lemma flow_of_with_span b x y : ihl_ok b -> (forall i, (23 <= i)%nat -> rd x i = rd y i) ->
  flow_of (with_span (parse b) x) = flow_of (with_span (parse b) y).
Proof.
  intros Hi Hr. unfold flow_of.
  assert (tcp_view (with_span (parse b) x) = tcp_view (with_span (parse b) y)) as ->.
  { unfold tcp_view. cbn [ipv4 raw_span with_span]. destruct (ipv4 (parse b)) as [ip|] eqn:Eip; [|done].
    destruct (parse_ipv4_some _ _ Eip) as (-> & _). by rewrite Hr by (unfold IPv4Header.protocol; lia). }
  destruct (tcp_view (with_span (parse b) y)) as [[ip [[s d] c]]|] eqn:Ev; [|done].
  assert ((14 <= ip)%nat /\ (34 <= s)%nat /\ (34 <= d)%nat) as (? & ? & ?).
  { unfold tcp_view in Ev. cbn [ipv4 raw_span with_span] in Ev. destruct (ipv4 (parse b)) as [o|] eqn:Eip; [|done].
    destruct (parse_ipv4_some _ _ Eip) as (-> & _). destruct (_ || _); [|done].
    unfold l4_ports in Ev. change (udp (with_span (parse b) y)) with (udp (parse b)) in Ev.
    change (tcp (with_span (parse b) y)) with (tcp (parse b)) in Ev. pose proof (l4_of_ge b Hi) as Hge.
    unfold UDPHeader.source, UDPHeader.dest, TCPHeader.source, TCPHeader.dest in Ev. destruct (_ =? 17).
    - destruct (udp (parse b)) as [u|] eqn:Eu; [|done]. apply udp_parse in Eu as [-> _]. injection Ev as <- <- <- <-. unfold l4_of in Hge. lia.
    - destruct (tcp (parse b)) as [u|] eqn:Eu; [|done]. apply tcp_parse in Eu as [-> _]. injection Ev as <- <- <- <-. unfold l4_of in Hge. lia. }
  cbn [fmap option_fmap option_map view_key raw_span with_span]. unfold get32, get16, IPv4Header.saddr, IPv4Header.daddr.
  by rewrite !Hr by lia.
Qed.

(** Source rewriting (outbound) and destination rewriting (inbound) on flows. *)
Lemma rewrite_tuple_flow b s d c k new_ip new_port :
  bytes_ok b -> ihl_ok b -> is_u32 new_ip -> is_u16 new_port ->
  tcp_view (parse b) = Some (14%nat, (s, d, c)) -> flow_of (parse b) = Some k ->
  flow_of (with_span (parse b) (rewrite_tuple b 14 26 s c new_ip new_port))
    = Some (MkFlowKey new_ip (daddr k) new_port (dport k)) /\
  flow_of (with_span (parse b) (rewrite_tuple b 14 30 d c new_ip new_port))
    = Some (MkFlowKey (saddr k) new_ip (sport k) new_port).
Proof.
  intros Hb Hi Hip Hnp Hv. unfold flow_of. rewrite Hv, parse_span. simpl. intros [= <-].
  destruct (tcp_view_parse _ _ _ _ _ Hv) as (_ & -> & -> & Hc & Hlc & Hl).
  pose proof (l4_of_ge b Hi) as Hge. set (l4 := l4_of b) in *. cbn [saddr daddr sport dport].
  split; (rewrite tcp_view_with_span; [rewrite Hv|apply rewrite_tuple_rd; lia]);
    cbn [fmap option_fmap option_map view_key raw_span with_span]; unfold IPv4Header.saddr, IPv4Header.daddr; f_equal.
  - change (14 + 12)%nat with 26%nat. change (14 + 16)%nat with 30%nat.
    rewrite rewrite_tuple_addr, rewrite_tuple_port, rewrite_tuple_get32, rewrite_tuple_get16
      by first [done|lia]. done.
  - change (14 + 12)%nat with 26%nat. change (14 + 16)%nat with 30%nat.
    rewrite rewrite_tuple_addr, rewrite_tuple_port, rewrite_tuple_get32, rewrite_tuple_get16
      by first [done|lia]. done.
Qed.

Lemma rewrite_tuple_layout b s d c addr port new_ip new_port : ihl_ok b -> addr = 26%nat \/ addr = 30%nat ->
  port = s \/ port = d -> tcp_view (parse b) = Some (14%nat, (s, d, c)) ->
  laid_out_as b (rewrite_tuple b 14 addr port c new_ip new_port).
Proof.
  intros Hi Ha Hp Hv. destruct (tcp_view_parse _ _ _ _ _ Hv) as (_ & -> & -> & Hc & Hlc & Hl).
  pose proof (l4_of_ge b Hi) as Hge. split; [apply rewrite_tuple_length|]. intros i Hlt. apply rewrite_tuple_rd; lia.
Qed.

Lemma rewrite_icmp_echo ty b icmp sa da id new_ip new_id :
  bytes_ok b -> ihl_ok b -> is_u32 new_ip -> is_u16 new_id ->
  icmp_view ty (parse b) = Some (14%nat, icmp) -> echo_of ty (parse b) = Some (sa, da, id) ->
  echo_of ty (with_span (parse b) (rewrite_icmp b 14 26 icmp new_ip new_id))
    = Some (new_ip, da, new_id) /\
  echo_of ty (with_span (parse b) (rewrite_icmp b 14 30 icmp new_ip new_id))
    = Some (sa, new_ip, new_id).
Proof.
  intros Hb Hi Hip Hnp Hv. unfold echo_of. rewrite Hv, parse_span. simpl. intros [= <- <- <-].
  destruct (icmp_view_parse _ _ _ _ Hv) as (_ & -> & Hc & Hl).
  pose proof (l4_of_ge b Hi) as Hge. set (l4 := l4_of b) in *.
  split; (rewrite icmp_view_with_span;
          [rewrite Hv|intros i Hlt; apply rewrite_icmp_rd; lia|intros i Hlt; apply rewrite_icmp_rd; lia]);
    cbn [fmap option_fmap option_map fst snd raw_span with_span];
    change (14 + IPv4Header.saddr)%nat with 26%nat; change (14 + IPv4Header.daddr)%nat with 30%nat; f_equal;
    rewrite rewrite_icmp_addr, rewrite_icmp_id, rewrite_icmp_get32 by first [done|lia]; done.
Qed.

(** * Outbound packets *)
(** The external port is the owner's port of a live session, whichever way the probe
    loop found it. *)
Lemma probe_session_result K n i h key tk e r e' : tcp_ok K e -> K key ->
  probe_session n i h key tk e = (r, e') -> r <> 0 ->
  exists idx, 0 <= idx < MAX_SESSIONS /\ is_u16 r /\ ext_range (ntohs r) /\
    ns_active (session e' idx) = true /\ ns_key (session e' idx) = key /\
    ns_external_port (session e' idx) = r /\ ns_last_active_tick (session e' idx) = tk.
Proof.
  intros He Hk [[-> _]|[(idx & Hi & _ & Hc)|(idx & Hi & Ha & Hkey & -> & ->)]]%probe_session_cases Hr.
  - done.
  - destruct (claim_view _ _ _ _ _ _ _ He Hi Hc) as (-> & _ & Es & _).
    exists idx. rewrite Es, decide_True by done.
    pose proof (tcp_cursor _ _ He) as Hcur. apply ext_range_u16 in Hcur as Hu.
    rewrite bswap16_invol by done. split_and!; auto with words; apply Hi.
  - exists idx. destruct (touch_view e idx tk idx) as (-> & -> & -> & _ & ->).
    rewrite decide_True by done. destruct (tcp_live _ _ He idx Ha) as (_ & _ & q & Hq & E).
    rewrite E. apply ext_range_u16 in Hq as Hu. rewrite bswap16_invol by done.
    split_and!; auto with words; apply Hi.
Qed.
Lemma probe_icmp_result K n i h sa da id tk e r e' : icmp_ok K e -> icmp_seq_ok e -> K sa da id ->
  probe_icmp n i h sa da id tk e = (r, e') -> r <> 0 -> is_u16 r /\ ext_range (ntohs r).
Proof.
  intros He Hs Hk [[-> _]|[(idx & Hi & _ & Hc)|(idx & Hi & Ha & _ & _ & _ & -> & ->)]]%probe_icmp_cases Hr.
  - done.
  - destruct (claim_icmp_spec _ _ _ _ _ _ _ _ _ He Hs Hi Hk Hc) as (_ & _ & _ & _ & [->|(q & Hq & -> & _)]);
      [done|]. apply ext_range_u16 in Hq as Hu. rewrite bswap16_invol by done. auto with words.
  - destruct (icmp_live _ _ He idx Ha) as (_ & _ & q & Hq & -> & _).
    apply ext_range_u16 in Hq as Hu. rewrite bswap16_invol by done. auto with words.
Qed.

(** The session [idx] is live, holds the flow [k] and has the external port [ext] (network
    order); and the echo session [idx] its conversation and external identifier. *)
Definition holds_flow (e : t) (idx : Z) (k : FlowKey) (ext : Z) : Prop :=
  0 <= idx < MAX_SESSIONS /\ ns_active (session e idx) = true /\
  ns_key (session e idx) = k /\ ns_external_port (session e idx) = ext.
Definition holds_echo (e : t) (idx sa da id ext : Z) : Prop :=
  let s := icmp_session e idx in
  0 <= idx < MAX_ICMP_SESSIONS /\ is_active s = true /\
  is_saddr s = sa /\ is_remote s = da /\ is_int_id s = id /\ is_ext_id s = ext.

(** What an outbound packet of flow [k] leaves in the tables: session [idx] holds the
    flow with the port [ext] and the present tick, and no other session changes. Either
    it held the flow with that port before, and the index is as it was; or it was free or
    expired, [ext] is the port the cursor stood at, the index leads from [ext] to it,
    whatever else led to it does no longer, and the rest of the index is as it was. *)
Definition flow_recorded (e e' : t) (idx : Z) (k : FlowKey) (ext : Z) : Prop :=
  holds_flow e' idx k ext /\ ns_last_active_tick (session e' idx) = current_tick e /\
  (forall j, j <> idx -> session e' j = session e j) /\
  icmp_sessions e' = icmp_sessions e /\ icmp_id_to_index e' = icmp_id_to_index e /\
  ((holds_flow e idx k ext /\ forall p, port_index e' p = port_index e p) \/
   ((ns_active (session e idx) = false \/
     expired (current_tick e) (ns_last_active_tick (session e idx)) = true) /\
    ext = htons (port_cursor e) /\ port_cursor e' = next_cursor (port_cursor e) /\
    forall p, port_index e' p = if decide (p = ntohs ext) then idx
      else if decide (port_index e p = idx) then -1 else port_index e p)).
(** An echo request: the same for its session, to which the index always leads. *)
Definition echo_recorded (e e' : t) (idx sa da id ext : Z) : Prop :=
  holds_echo e' idx sa da id ext /\
  is_last_active_tick (icmp_session e' idx) = current_tick e /\
  icmp_index e' (ntohs ext) = idx /\
  (forall j, j <> idx -> icmp_session e' j = icmp_session e j) /\
  sessions e' = sessions e /\ port_to_index e' = port_to_index e /\
  (holds_echo e idx sa da id ext \/ is_active (icmp_session e idx) = false \/
   expired (current_tick e) (is_last_active_tick (icmp_session e idx)) = true).

Lemma probe_session_recorded K n i h key e r e' : tcp_ok K e -> K key ->
  probe_session n i h key (current_tick e) e = (r, e') -> r <> 0 ->
  exists idx, flow_recorded e e' idx key r.
Proof.
  intros He Hk [[-> _]|[(idx & Hi & Hs & Hc)|(idx & Hi & Ha & Hkey & -> & ->)]]%probe_session_cases Hr.
  - done.
  - destruct (claim_view _ _ _ _ _ _ _ He Hi Hc) as (-> & Hcur & Es & Ep & E1 & E2 & _).
    pose proof (tcp_cursor _ _ He) as Hu%ext_range_u16.
    exists idx. unfold flow_recorded, holds_flow. rewrite !Es, !decide_True by done.
    split_and!; try done; try apply Hi; [intros j Hj; by rewrite Es, decide_False|].
    right. split_and!; try done. intros p. rewrite Ep, bswap16_invol by done.
    destruct (decide (p = port_cursor e)) as [->|Hne]; [by rewrite decide_True|].
    by rewrite decide_False.
  - exists idx. unfold flow_recorded, holds_flow.
    destruct (touch_view e idx (current_tick e) idx) as (-> & -> & -> & _ & ->).
    rewrite decide_True by done. split_and!; try done; try apply Hi.
    + intros j Hj. unfold touch. by rewrite session_set, decide_False.
    + left. destruct Hi. by split_and!.
Qed.
Lemma probe_icmp_recorded K n i h sa da id e r e' : icmp_ok K e -> icmp_seq_ok e -> K sa da id ->
  probe_icmp n i h sa da id (current_tick e) e = (r, e') -> r <> 0 ->
  exists idx, echo_recorded e e' idx sa da id r.
Proof.
  intros He Hs Hk
    [[-> _]|[(idx & Hi & Hf & Hc)|(idx & Hi & Ha & Hsa & Hda & Hid & -> & ->)]]%probe_icmp_cases Hr.
  - done.
  - destruct (claim_icmp_spec _ _ _ _ _ _ _ _ _ He Hs Hi Hk Hc)
      as (_ & _ & (E1 & E2 & _) & Ho & [->|(q & Hq & -> & Hm & sq & Es)]); [done|].
    apply ext_range_u16 in Hq. exists idx. unfold echo_recorded, holds_echo.
    rewrite Es, bswap16_invol by done. split_and!; try done; try apply Hi; by right.
  - destruct (icmp_live _ _ He idx Ha) as (_ & _ & q & Hq & Eq & Hm). apply ext_range_u16 in Hq.
    exists idx. unfold echo_recorded, holds_echo.
    destruct (icmp_touch_view e idx (current_tick e) idx) as (-> & -> & -> & -> & -> & _).
    split_and!; try done; try apply Hi.
    + unfold icmp_touch. by rewrite icmp_session_set, decide_True.
    + by rewrite Eq, bswap16_invol.
    + intros j Hj. unfold icmp_touch. by rewrite icmp_session_set, decide_False.
    + left. destruct Hi. by split_and!.
Qed.

(** Packets change neither the WAN address nor the clock. *)
Definition any_inv (e : t) : Prop := nat_inv (fun _ => True) (fun _ _ _ => True) e.
Lemma nat_inv_any Kt Ki e : nat_inv Kt Ki e -> any_inv e.
Proof. by apply nat_inv_mono. Qed.

Lemma outbound_env e p : any_inv e -> let e' := snd (fst (process_outbound e p)) in
  wan_ip_nbo e' = wan_ip_nbo e /\ current_tick e' = current_tick e.
Proof.
  intros [H1 H2 H3]. rewrite process_outbound_eq. case_if; [done|].
  destruct (tcp_view p) as [[ip [[s d] c]]|]; cbv zeta.
  - destruct (probe_session _ _ _ _ _ _) as [r e'] eqn:Ep.
    destruct (probe_session_frame _ _ _ _ _ _ _ _ _ H1 Ep) as (_ & _ & _ & Hw & Ht). by case_if.
  - destruct (icmp_view 8 p) as [[ip icmp]|]; [|done].
    destruct (probe_icmp _ _ _ _ _ _ _ _) as [r e'] eqn:Ep.
    destruct (probe_icmp_ok _ _ _ _ _ _ _ _ _ _ _ H2 H3 I Ep) as (_ & _ & (_ & _ & _ & Hw & Ht)).
    by case_if.
Qed.
Lemma inbound_env e p : any_inv e -> let e' := snd (fst (process_inbound e p)) in
  wan_ip_nbo e' = wan_ip_nbo e /\ current_tick e' = current_tick e.
Proof.
  intros He. rewrite process_inbound_eq by (by eapply nat_inv_seqs).
  destruct (tcp_view _) as [[ip [[s d] c]]|]; cbv zeta; [by case_if|].
  destruct (icmp_view 0 _) as [[ip icmp]|]; [|done]. by case_if.
Qed.

Lemma nat_run_wan ops : Forall nat_op_ok ops -> is_u32 (wan_ip_nbo (nat_run ops make)).
Proof.
  induction ops as [|op ops IH] using rev_ind; [simpl; wordlia|].
  intros [Hops Hop]%Forall_app. rewrite nat_run_snoc. specialize (IH Hops).
  pose proof (nat_inv_any _ _ _ (nat_run_inv ops)) as Hinv.
  destruct op as [b|b| |ip]; simpl; [| |done|by inversion Hop].
  - by destruct (outbound_env _ (parse b) Hinv) as [-> _].
  - by destruct (inbound_env _ (parse b) Hinv) as [-> _].
Qed.

(** The two ways an outbound packet is translated. *)
Lemma outbound_true Kt Ki e b e' p' : nat_inv Kt Ki e ->
  (forall k, flow_of (parse b) = Some k -> Kt k) ->
  (forall sa da id, echo_of 8 (parse b) = Some (sa, da, id) -> Ki sa da id) ->
  process_outbound e (parse b) = (true, e', p') ->
  (exists s d c k r, tcp_view (parse b) = Some (14%nat, (s, d, c)) /\
     flow_of (parse b) = Some k /\ is_u16 r /\ ext_range (ntohs r) /\
     probe_session PROBES 0 (hash_flow k mod MAX_SESSIONS) k (current_tick e) e = (r, e') /\
     p' = with_span (parse b) (rewrite_tuple b 14 26 s c (wan_ip_nbo e) r)) \/
  (exists icmp sa da id r, icmp_view 8 (parse b) = Some (14%nat, icmp) /\
     echo_of 8 (parse b) = Some (sa, da, id) /\ is_u16 r /\ ext_range (ntohs r) /\
     probe_icmp PROBES 0 (hash_icmp_flow sa da id mod MAX_ICMP_SESSIONS) sa da id (current_tick e) e
       = (r, e') /\
     p' = with_span (parse b) (rewrite_icmp b 14 26 icmp (wan_ip_nbo e) r)).
Proof.
  intros [H1 H2 H3] Hk He. rewrite process_outbound_eq. case_if; [done|].
  unfold flow_of, echo_of in *. rewrite parse_span in *.
  destruct (tcp_view (parse b)) as [[ip [[s d] c]]|] eqn:Ev; cbv zeta.
  - destruct (tcp_view_parse _ _ _ _ _ Ev) as (-> & _).
    destruct (probe_session _ _ _ _ _ _) as [r e''] eqn:Ep. case_if; [done|]. bool2prop.
    intros [= <- <-]. left.
    destruct (probe_session_result _ _ _ _ _ _ _ _ _ H1 (Hk _ eq_refl) Ep) as (_ & _ & Hu & Hx & _);
      [done|]. exists s, d, c, (view_key b (14%nat, (s, d, c))), r. done.
  - destruct (icmp_view 8 (parse b)) as [[ip icmp]|] eqn:Ei; [|done].
    destruct (icmp_view_parse _ _ _ _ Ei) as (-> & _).
    destruct (probe_icmp _ _ _ _ _ _ _ _) as [r e''] eqn:Ep. case_if; [done|]. bool2prop.
    intros [= <- <-]. right.
    destruct (probe_icmp_result _ _ _ _ _ _ _ _ _ _ _ H2 H3 (He _ _ _ eq_refl) Ep) as (Hu & Hx); [done|].
    eexists icmp, _, _, _, r. done.
Qed.

Lemma outbound_false e p e' p' : process_outbound e p = (false, e', p') -> p' = p.
Proof.
  rewrite process_outbound_eq. case_if; [congruence|].
  destruct (tcp_view p) as [[ip [[s d] c]]|]; cbv zeta.
  - destruct (probe_session _ _ _ _ _ _). case_if; congruence.
  - destruct (icmp_view 8 p) as [[ip icmp]|]; [|congruence].
    destruct (probe_icmp _ _ _ _ _ _ _ _). case_if; congruence.
Qed.
Lemma inbound_false e p e' p' : seqs_ok e -> process_inbound e p = (false, e', p') ->
  p' = p /\ e' = e.
Proof.
  intros Hs. rewrite process_inbound_eq by done.
  destruct (tcp_view p) as [[ip [[s d] c]]|]; cbv zeta; [case_if; intros; by simplify_eq|].
  destruct (icmp_view 0 p) as [[ip icmp]|]; [case_if|]; intros; by simplify_eq.
Qed.

(** The two ways an inbound packet is translated. *)
Lemma inbound_true Kt Ki e b e' p' : nat_inv Kt Ki e ->
  process_inbound e (parse b) = (true, e', p') ->
  (exists s d c k idx ext, tcp_view (parse b) = Some (14%nat, (s, d, c)) /\
     Kt k /\ holds_flow e idx k ext /\ port_index e (ntohs ext) = idx /\
     flow_of (parse b) = Some (MkFlowKey (daddr k) (wan_ip_nbo e) (dport k) ext) /\
     e' = touch e idx (current_tick e) /\
     p' = with_span (parse b) (rewrite_tuple b 14 30 d c (saddr k) (sport k))) \/
  (exists icmp sa da id idx ext, icmp_view 0 (parse b) = Some (14%nat, icmp) /\
     Ki sa da id /\ holds_echo e idx sa da id ext /\ icmp_index e (ntohs ext) = idx /\
     echo_of 0 (parse b) = Some (da, wan_ip_nbo e, ext) /\
     e' = icmp_touch e idx (current_tick e) /\
     p' = with_span (parse b) (rewrite_icmp b 14 30 icmp sa id)).
Proof.
  intros Hinv. rewrite process_inbound_eq by (by eapply nat_inv_seqs). pose proof Hinv as [H1 H2 H3].
  unfold flow_of, echo_of in *. rewrite parse_span in *.
  destruct (tcp_view (parse b)) as [[ip [[s d] c]]|] eqn:Ev; cbv zeta.
  - destruct (tcp_view_parse _ _ _ _ _ Ev) as (-> & _). case_if; [|done]. intros [= <- <-]. left.
    bool2prop. set (idx := port_index e (ntohs (get16 b d))) in *.
    exists s, d, c, (ns_key (session e idx)), idx, (get16 b d). split; [done|].
    split; [by apply (tcp_live _ _ H1)|]. split; [split_and!; try done; lia|].
    split; [done|]. split; [cbn [fmap option_fmap option_map view_key fst snd]; do 2 f_equal; congruence|done].
  - destruct (icmp_view 0 (parse b)) as [[ip icmp]|] eqn:Ei; [|done].
    destruct (icmp_view_parse _ _ _ _ Ei) as (-> & _). case_if; [|done]. intros [= <- <-]. right.
    bool2prop. set (ext := get16 b (icmp + IcmpEchoHeader.id)) in *.
    set (idx := icmp_index e (ntohs ext)) in *.
    exists icmp, (is_saddr (icmp_session e idx)), (is_remote (icmp_session e idx)),
      (is_int_id (icmp_session e idx)), idx, ext. split; [done|].
    split; [by apply (icmp_live _ _ H2)|]. split; [split_and!; try done; lia|].
    split; [done|]. split; [cbn [fmap option_fmap option_map view_key fst snd]; do 2 f_equal; congruence|done].
Qed.

Definition key_ok (k : FlowKey) : Prop :=
  is_u32 (saddr k) /\ is_u32 (daddr k) /\ is_u16 (sport k) /\ is_u16 (dport k).
Lemma flow_of_ok b k : bytes_ok b -> flow_of (parse b) = Some k -> key_ok k.
Proof.
  unfold flow_of. rewrite parse_span. intros Hb.
  destruct (tcp_view (parse b)) as [[ip [[s d] c]]|]; simpl; intros; simplify_eq.
  unfold key_ok. simpl. auto 6 with words.
Qed.
Lemma used_flow_ok ops k : Forall nat_op_ok ops -> used_flow ops k -> key_ok k.
Proof.
  intros Hops (b & Hb & Hk). apply (flow_of_ok b); [|done].
  exact (proj1 (List.Forall_forall _ _) Hops _ (proj1 (list_elem_of_In _ _) Hb)).
Qed.
Lemma used_echo_ok ops sa da id : Forall nat_op_ok ops -> used_echo ops sa da id ->
  is_u32 sa /\ is_u32 da /\ is_u16 id.
Proof.
  intros Hops (b & Hb & Hk). 
  pose proof (proj1 (List.Forall_forall _ _) Hops _ (proj1 (list_elem_of_In _ _) Hb)) as Hob.
  simpl in Hob.
  unfold echo_of in Hk. rewrite parse_span in Hk. destruct (icmp_view 8 (parse b)) as [[ip icmp]|];
    simpl in Hk; simplify_eq. auto with words.
Qed.

(** The invariant of a run extended with one more outbound packet. *)
Lemma nat_run_out_inv ops b :
  let ops' := ops ++ [NOut b] in
  nat_inv (used_flow ops') (used_echo ops') (nat_run ops make) /\
  (forall k, flow_of (parse b) = Some k -> used_flow ops' k) /\
  (forall sa da id, echo_of 8 (parse b) = Some (sa, da, id) -> used_echo ops' sa da id).
Proof.
  intros ops'. split; [|split].
  - eapply nat_inv_mono; [..|apply nat_run_inv].
    + intros k (x & Hx & Hk). exists x. subst ops'. set_solver.
    + intros ??? (x & Hx & Hk). exists x. subst ops'. set_solver.
  - intros k Hk. exists b. subst ops'. set_solver.
  - intros ??? Hk. exists b. subst ops'. set_solver.
Qed.


(** What the reader's loop answers, whatever its loads return: a session it resolves was
    seen live and whole with the packet's remote end and the packet's external port. *)
Definition reads_match : Prop :=
  (forall rip rport ext os ip port, read_session rip rport ext os = Resolved ip port ->
     exists o, o ∈ os /\ o_s0 o = o_s1 o /\ Z.land (o_s0 o) 1 <> 1 /\ o_act o = true /\
       o_key o = MkFlowKey ip rip port rport /\ o_port o = ext) /\
  (forall remote ext os ip id, read_icmp_session remote ext os = Resolved ip id ->
     exists o, o ∈ os /\ io_s0 o = io_s1 o /\ Z.land (io_s0 o) 1 <> 1 /\ io_act o = true /\
       io_remote o = remote /\ io_ext_id o = ext /\ io_saddr o = ip /\ io_int_id o = id).
Lemma reads_match_hold : reads_match.
Proof.
  split.
  - intros rip rport ext os ip port. induction os as [|o os IH]; cbn [read_session]; [done|].
    destruct (read_attempt rip rport ext o) as [r|] eqn:E.
    + intros ->. exists o. split; [left|]. revert E. unfold read_attempt.
      repeat (case_if; [done|]). intros [= <- <-]. bool2prop.
      destruct (o_key o); simpl in *. split_and!; try done; congruence.
    + intros (o' & Ho & H)%IH. exists o'. split; [by right|done].
  - intros remote ext os ip id. induction os as [|o os IH]; cbn [read_icmp_session]; [done|].
    destruct (read_icmp_attempt remote ext o) as [r|] eqn:E.
    + intros ->. exists o. split; [left|]. revert E. unfold read_icmp_attempt.
      repeat (case_if; [done|]). intros [= <- <-]. bool2prop. split_and!; done.
    + intros (o' & Ho & H)%IH. exists o'. split; [by right|done].
Qed.

(** C2: no unsolicited traffic comes in. If [process_inbound] lets a packet through
    after some run, then the packet is addressed to the WAN address and the index leads
    from its destination port [ext] to a session that is live, has [ext] as external port
    and has the packet's sender as remote end; an inside host sent, earlier in that run, a
    packet of that session's flow; and the packet is delivered to that session's
    inside host and port, no other, and the session's tick is refreshed (for an echo reply
    the same with identifiers). A packet refused is left untouched and does not change the
    tables. And whatever another thread does to the tables during the read, the lock-free
    reader resolves only what it saw whole, live, with the packet's remote end and the
    packet's external port ([reads_match]). *)
Theorem inbound_only_solicited (ops : list nat_op) (b : list Z) (ok : bool) (e' : t) (p' : ParsedPacket)
    (Hops : Forall nat_op_ok ops) (Hb : bytes_ok b) (Hihl : ihl_ok b)
    (Hin : process_inbound (nat_run ops make) (parse b) = (ok, e', p')) :
  let e := nat_run ops make in
  reads_match /\
  if ok then
    (exists idx k ext o, port_index e (ntohs ext) = idx /\ holds_flow e idx k ext /\
       NOut o ∈ ops /\ flow_of (parse o) = Some k /\
       flow_of (parse b) = Some (MkFlowKey (daddr k) (wan_ip_nbo e) (dport k) ext) /\
       flow_of p' = Some (MkFlowKey (daddr k) (saddr k) (dport k) (sport k)) /\
       e' = touch e idx (current_tick e)) \/
    (exists idx sa da id ext o, icmp_index e (ntohs ext) = idx /\ holds_echo e idx sa da id ext /\
       NOut o ∈ ops /\ echo_of 8 (parse o) = Some (sa, da, id) /\
       echo_of 0 (parse b) = Some (da, wan_ip_nbo e, ext) /\ echo_of 0 p' = Some (da, sa, id) /\
       e' = icmp_touch e idx (current_tick e))
  else p' = parse b /\ e' = e.
Proof.
  cbv zeta. split; [exact reads_match_hold|]. pose proof (nat_run_inv ops) as Hinv.
  destruct ok; [|apply inbound_false; [by eapply nat_inv_seqs|done]].
  destruct (inbound_true _ _ _ _ _ _ Hinv Hin)
    as [(s & d & c & k & idx & ext & Hv & Hkt & Hh & Hm & Hf & -> & ->)
       |(icmp & sa & da & id & idx & ext & Hv & Hki & Hh & Hm & Hf & -> & ->)].
  - left. pose proof (used_flow_ok _ _ Hops Hkt) as (H1 & _ & H3 & _).
    destruct (rewrite_tuple_flow b s d c _ _ _ Hb Hihl H1 H3 Hv Hf) as [_ Hf'].
    destruct Hkt as (o & Ho & Hfo). exists idx, k, ext, o. by split_and!.
  - right. pose proof (used_echo_ok _ _ _ _ Hops Hki) as (H1 & _ & H3).
    destruct (rewrite_icmp_echo 0 b icmp _ _ _ _ _ Hb Hihl H1 H3 Hv Hf) as [_ Hf'].
    destruct Hki as (o & Ho & Hfo). exists idx, sa, da, id, ext, o. by split_and!.
Qed.

(** ** Concrete runs for the witnesses *)
Definition ip4 (a b c d : Z) : Z := get32 [a; b; c; d] 0.
Definition w_wan : Z := ip4 10 0 0 1.
Definition w_lan : Z := ip4 192 168 1 100.
Definition w_ext : Z := ip4 8 8 8 8.
Definition w_udp : list Z := make_udp_pkt w_lan w_ext 54321 12345.
Definition w_udp_reply : list Z := make_udp_pkt w_ext w_wan 12345 10000.
Definition w_ops : list nat_op := [NSetWan w_wan; NTick; NOut w_udp].
Lemma w_ops_ok : Forall nat_op_ok w_ops.
Proof.
  constructor; [vm_compute; split; [discriminate|reflexivity]|]. constructor; [exact I|]. constructor; [|constructor].
  apply bytes_okb_ok. vm_compute. reflexivity.
Qed.

Lemma w_ops_out o : NOut o ∈ w_ops -> o = w_udp.
Proof.
  unfold w_ops. generalize w_udp w_wan. intros u w. rewrite !elem_of_cons.
  intros [[=]|[[=]|[[= ->]|[]%not_elem_of_nil]]]. reflexivity.
Qed.


Lemma inbound_only_solicited_witness :
  let e := nat_run w_ops make in
  let inb := process_inbound e (parse w_udp_reply) in
  fst (fst inb) = true /\
  exists idx, port_index e 10000 = idx /\
    holds_flow e idx (MkFlowKey w_lan w_ext (htons 54321) (htons 12345)) (htons 10000) /\
    flow_of (snd inb) = Some (MkFlowKey w_ext w_lan (htons 12345) (htons 54321)) /\
    snd (fst inb) = touch e idx 1.
Proof.
  intros e inb. split; [vm_compute; reflexivity|].
  assert (inb = (true, snd (fst inb), snd inb)) as E.
  { assert (fst (fst inb) = true) as E1 by (vm_compute; reflexivity).
    destruct inb as [[ok e'] p']. cbn in *. rewrite E1. reflexivity. }
  destruct (inbound_only_solicited w_ops w_udp_reply true (snd (fst inb)) (snd inb) w_ops_ok
    ltac:(apply bytes_okb_ok; vm_compute; reflexivity) ltac:(vm_compute; discriminate) E)
    as [_ [(idx & k & ext & o & Hm & Hh & Ho & Hfo & Hf & Hf' & Et)
          |(idx & sa & da & id & ext & o & _ & _ & _ & _ & Hf & _)]].
  - assert (flow_of (parse w_udp_reply) = Some (MkFlowKey w_ext w_wan (htons 12345) (htons 10000)))
      as Eb by (vm_compute; reflexivity).
    rewrite Hf in Eb. apply (f_equal (fmap dport)) in Eb.
    cbn [fmap option_fmap option_map dport] in Eb. injection Eb as ->.
    assert (k = MkFlowKey w_lan w_ext (htons 54321) (htons 12345)) as ->.
    { rewrite (w_ops_out o Ho) in Hfo. assert (flow_of (parse w_udp)
        = Some (MkFlowKey w_lan w_ext (htons 54321) (htons 12345))) as Ek by (vm_compute; reflexivity).
      rewrite Hfo in Ek. injection Ek as ->. reflexivity. }
    exists idx. split; [exact Hm|]. split; [exact Hh|]. split; [exact Hf'|]. exact Et.
  - vm_compute in Hf. discriminate Hf.
Defined.

(** * Checksums through translation *)
(** The transport checksum field, and the sum a receiver computes over the segment of
    [m] bytes: with the pseudo header addresses for TCP and UDP, without for ICMP (the
    constant protocol and length words of the pseudo header are left out on both
    sides). *)
Definition l4_check (b : list Z) : nat :=
  (l4_of b + (if (rd b 23 =? 17)%Z then 6 else if (rd b 23 =? 6)%Z then 16 else 2))%nat.
Definition transport_sum (b : list Z) (m : nat) : Z :=
  (if rd b 23 =? 1 then 0 else csum b 26 8) + csum b (l4_of b) m.

(** The packet is one that either direction translated. *)
Definition translated (e : t) (b : list Z) (p' : ParsedPacket) : Prop :=
  exists e', process_outbound e (parse b) = (true, e', p') \/
             process_inbound e (parse b) = (true, e', p').

Lemma tcp_view_proto b ip s d c : tcp_view (parse b) = Some (ip, (s, d, c)) ->
  (rd b 23 = 17 /\ c = (s + 6)%nat) \/ (rd b 23 = 6 /\ c = (s + 16)%nat).
Proof.
  unfold tcp_view, l4_ports. rewrite parse_span. destruct (ipv4 (parse b)) as [o|] eqn:Eip; [|done].
  destruct (parse_ipv4_some _ _ Eip) as (-> & _). change (14 + IPv4Header.protocol)%nat with 23%nat.
  unfold UDPHeader.check, TCPHeader.check, UDPHeader.source, TCPHeader.source.
  destruct (Z.eqb_spec (rd b 23) 17) as [E|E].
  - rewrite orb_true_r. destruct (udp (parse b)); intros; simplify_eq. left. split; [done|lia].
  - destruct (Z.eqb_spec (rd b 23) 6) as [E'|E']; [|done]. cbn [orb].
    destruct (tcp (parse b)); intros; simplify_eq. right. split; [done|lia].
Qed.
Lemma icmp_view_proto ty b ip icmp : icmp_view ty (parse b) = Some (ip, icmp) -> rd b 23 = 1.
Proof.
  unfold icmp_view. rewrite parse_span. destruct (ipv4 (parse b)) as [o|] eqn:Eip; [|done].
  destruct (parse_ipv4_some _ _ Eip) as (-> & _). change (14 + IPv4Header.protocol)%nat with 23%nat.
  destruct (Z.eqb_spec (rd b 23) 1); done.
Qed.

Section TranslatedSums.
#[local] Open Scope checksum_scope.
Context (b : list Z) (Hb : bytes_ok b) (Hihl : ihl_ok b).

Definition sums_kept (b' : list Z) : Prop :=
  csum b' 14 (Z.to_nat (rd b 14 mod 16 * 4)) =1 csum b 14 (Z.to_nat (rd b 14 mod 16 * 4)) /\
  (get16 b (l4_check b) <> 0 -> forall m, (l4_size (rd b 23) <= m)%nat ->
     (l4_of b + m <= length b)%nat -> transport_sum b' m =1 transport_sum b m) /\
  (rd b 23 <> 1 -> get16 b (l4_check b) = 0 -> get16 b' (l4_check b) = 0).

Lemma rewrite_tuple_sums addr s d c port ip np : is_u32 ip -> is_u16 np ->
  tcp_view (parse b) = Some (14%nat, (s, d, c)) -> addr = 26%nat \/ addr = 30%nat ->
  port = s \/ port = d -> sums_kept (rewrite_tuple b 14 addr port c ip np).
Proof.
  intros Hip Hnp Hv Ha Hp. pose proof (l4_of_ge b Hihl) as Hge.
  destruct (tcp_view_parse _ _ _ _ _ Hv) as (_ & Es & Ed & _ & Hlc & Hl).
  pose proof (tcp_view_proto _ _ _ _ _ Hv) as Hpr.
  assert (l4_check b = c) as Ec.
  { unfold l4_check. destruct Hpr as [[-> ->]|[-> ->]]; ground_eqb; lia. }
  assert (rd b 23 <> 1) as Hn1 by (destruct Hpr as [[-> _]|[-> _]]; done).
  assert (forall a, Nat.even (l4_of b + a - l4_of b) = Nat.even a) as Hev by (intros; f_equal; lia).
  split; [|split].
  - apply rewrite_tuple_ip_sum; try done; unfold l4_of in *; lia.
  - rewrite Ec. intros Hnz m Hm Hlen. unfold transport_sum, l4_of at 1.
    rewrite !(rewrite_tuple_rd b addr port c ip np) by lia. fold (l4_of b).
    destruct (Z.eqb_spec (rd b 23) 1); [done|].
    apply rewrite_tuple_l4_sum; try done; try lia.
    + destruct Hp; subst; [by rewrite Nat.sub_diag|by rewrite Hev].
    + destruct Hpr as [[_ ->]|[_ ->]]; subst; by rewrite Hev.
    + destruct Hpr as [[E ->]|[E ->]]; rewrite E in Hm; unfold l4_size, UDPHeader.size, TCPHeader.size in Hm;
        ground_eqb; lia.
    + destruct Hpr as [[E ->]|[E ->]]; rewrite E in Hm; unfold l4_size, UDPHeader.size, TCPHeader.size in Hm;
        ground_eqb; lia.
  - rewrite Ec. intros _ Hz. apply rewrite_tuple_no_check; try done; lia.
Qed.

Lemma rewrite_icmp_sums ty addr icmp ip id : is_u32 ip -> is_u16 id ->
  icmp_view ty (parse b) = Some (14%nat, icmp) -> addr = 26%nat \/ addr = 30%nat ->
  sums_kept (rewrite_icmp b 14 addr icmp ip id).
Proof.
  intros Hip Hid Hv Ha. pose proof (l4_of_ge b Hihl) as Hge.
  destruct (icmp_view_parse _ _ _ _ Hv) as (_ & Es & Hlc & Hl).
  pose proof (icmp_view_proto _ _ _ _ Hv) as Hpr.
  assert (l4_check b = (icmp + 2)%nat) as Ec by (unfold l4_check; rewrite Hpr; ground_eqb; lia).
  split; [|split; [|done]].
  - apply rewrite_icmp_ip_sum; try done; try lia; unfold ihl_ok, l4_of in *; lia.
  - rewrite Ec. intros Hnz m Hm Hlen. unfold transport_sum, l4_of at 1.
    rewrite !(rewrite_icmp_rd b addr icmp ip id) by lia. fold (l4_of b).
    rewrite Hpr in *. change (1 =? 1) with true. cbv iota. rewrite !Z.add_0_l, <- Es.
    apply rewrite_icmp_sum; try done; lia.
Qed.
End TranslatedSums.

(** C14: translation keeps every checksum that is in use right without recomputing it. For
    any run and any packet translated in either direction whose IPv4 header is regular, the
    one's complement sum over the IPv4 header (options included) is what it was; and if
    the transport checksum field is not zero, so is the sum over the transport segment
    with its pseudo header, payload included: a packet a receiver would accept before is
    accepted after. If the field is zero it is left zero for TCP and UDP, which for UDP
    means that there is none, as before. Out of scope, because the code does not keep it:
    a TCP or echo checksum that happens to be zero is a real one, but is not updated
    ([zero_checksum_breaks_echo]). *)
Theorem translation_keeps_checksums (ops : list nat_op) (b : list Z) (p' : ParsedPacket)
    (Hops : Forall nat_op_ok ops) (Hb : bytes_ok b) (Hihl : ihl_ok b)
    (Htr : translated (nat_run ops make) b p') :
  let hl := Z.to_nat (rd b 14 mod 16 * 4) in
  csum (raw_span p') 14 hl mod 65535 = csum b 14 hl mod 65535 /\
  (if get16 b (l4_check b) =? 0
   then rd b 23 <> 1 -> get16 (raw_span p') (l4_check b) = 0
   else forall m, (l4_size (rd b 23) <= m)%nat -> (l4_of b + m <= length b)%nat ->
        transport_sum (raw_span p') m mod 65535 = transport_sum b m mod 65535).
Proof.
  enough (sums_kept b (raw_span p')) as (H1 & H2 & H3).
  { cbv zeta. split; [exact H1|]. case_if; bool2prop; [by intros ?; apply H3|exact (H2 Heqb0)]. }
  pose proof (nat_run_wan ops Hops) as Hwan. destruct Htr as (e' & [Hout|Hin]).
  - destruct (nat_run_out_inv ops b) as (Hinv & Hk & He).
    destruct (outbound_true _ _ _ _ _ _ Hinv Hk He Hout)
      as [(s & d & c & k & r & Hv & Hf & Hu & _ & _ & ->)|(icmp & sa & da & id & r & Hv & Hf & Hu & _ & _ & ->)].
    + apply (rewrite_tuple_sums b Hb Hihl 26 s d); auto.
    + apply (rewrite_icmp_sums b Hb Hihl 8); auto.
  - destruct (inbound_true _ _ _ _ _ _ (nat_run_inv ops) Hin)
      as [(s & d & c & k & idx & ext & Hv & Hkt & _ & _ & _ & _ & ->)
         |(icmp & sa & da & id & idx & ext & Hv & Hki & _ & _ & _ & _ & ->)].
    + pose proof (used_flow_ok _ _ Hops Hkt) as (H1 & _ & H3 & _).
      apply (rewrite_tuple_sums b Hb Hihl 30 s d); auto.
    + pose proof (used_echo_ok _ _ _ _ Hops Hki) as (H1 & _ & H3).
      apply (rewrite_icmp_sums b Hb Hihl 0); auto.
Qed.

Definition w_icmp : list Z := default [] (make_icmp_pkt 8 w_lan w_ext (htons 4242)).

(** An echo request whose right checksum is zero leaves with a wrong one. *)
Example zero_checksum_breaks_echo :
  let b := put16 (put16 w_icmp 36 0) 38 (htons 63486) in
  let out := process_outbound (nat_run w_ops make) (parse b) in
  fst (fst out) = true /\ transport_sum b 8 mod 65535 = 0 /\
  transport_sum (raw_span (snd out)) 8 mod 65535 <> 0.
Proof. vm_compute. split; [reflexivity|]. split; [reflexivity|discriminate]. Qed.

Lemma translation_keeps_checksums_witness :
  let p' := snd (process_outbound (nat_run w_ops make) (parse w_icmp)) in
  csum w_icmp 34 8 mod 65535 = 0 /\ transport_sum w_icmp 8 mod 65535 = 0 /\
  transport_sum (raw_span p') 8 mod 65535 = 0.
Proof.
  intros p'. split; [vm_compute; reflexivity|].
  assert (transport_sum w_icmp 8 mod 65535 = 0) as E by (vm_compute; reflexivity).
  split; [exact E|].
  set (out := process_outbound (nat_run w_ops make) (parse w_icmp)) in *.
  assert (out = (true, snd (fst out), snd out)) as Eo.
  { assert (fst (fst out) = true) as E1 by (vm_compute; reflexivity).
    destruct out as [[ok e'] q']. cbn in *. rewrite E1. reflexivity. }
  assert (get16 w_icmp (l4_check w_icmp) =? 0 = false) as Enz by (vm_compute; reflexivity).
  destruct (translation_keeps_checksums w_ops w_icmp p' w_ops_ok) as [_ Hsum].
  - apply bytes_okb_ok. vm_compute. reflexivity.
  - vm_compute. discriminate.
  - exists (snd (fst out)). left. exact Eo.
  - rewrite Enz in Hsum. transitivity (transport_sum w_icmp 8 mod 65535); [|exact E].
    apply Hsum; vm_compute; repeat constructor.
Defined.
