(* ===== verification/NatReply.v ===== *)
(** The reply path of the NAT engine: replies to an outbound flow are translated back
    for as long as the flow's session is alive, and a session stays alive while it is
    young enough and the external ports have not been used up. *)
From Stdlib Require Import ZArith Lia.
From stdpp Require Import base list gmap numbers.
From S2P Require Import Prelude Headers_util Processor Checksum TestPackets NatEngine NatTable NatProofs.
Import NatEngine.

(** External ports there are: 10000..60000. *)
Definition EXT_PORTS : Z := 50001.

(** * Unused ports

    After [k] sessions have been created, the ports handed out are the first [k] of
    the range, and every live session is found under its port. *)
Record fresh (k : Z) (e : t) : Prop := {
  fr_bound : 0 <= k <= EXT_PORTS;
  fr_cursor : k < EXT_PORTS -> port_cursor e = 10000 + k;
  fr_alloc : forall i, ns_active (session e i) = true ->
    exists j, 0 <= j < k /\ ns_external_port (session e i) = htons (10000 + j);
  fr_map : forall i, ns_active (session e i) = true ->
    port_index e (ntohs (ns_external_port (session e i))) = i }.

Lemma port_u16 j : 0 <= j < EXT_PORTS -> is_u16 (10000 + j).
Proof. unfold EXT_PORTS. wordlia. Qed.

Lemma fresh_make : fresh 0 make.
Proof.
  split; [unfold EXT_PORTS; lia|done|..]; intros i; unfold session; simpl; by rewrite aget_empty.
Qed.

Lemma fresh_claim K k e idx key tk r e' : tcp_ok K e -> fresh k e -> k < EXT_PORTS ->
  0 <= idx < MAX_SESSIONS -> claim_session idx key tk e = (r, e') -> fresh (k + 1) e'.
Proof.
  intros He [Hb Hc Ha Hm] Hk Hi Hcl. specialize (Hc Hk).
  destruct (claim_view _ _ _ _ _ _ _ He Hi Hcl) as (-> & Ecur & Es & Ep & _).
  pose proof (port_u16 k ltac:(lia)) as Hu. split; [lia|..].
  - intros Hk'. rewrite Ecur, Hc. unfold next_cursor. unfold EXT_PORTS in *.
    rewrite u16_id by wordlia. case_if; boollia.
  - intros i. rewrite Es. case_decide; [intros _; exists k; rewrite <- Hc; split; [lia|done]|].
    intros (j & Hj & ->)%Ha. exists j. split; [lia|done].
  - intros i. rewrite Es. case_decide as E.
    + intros _. cbn [ns_external_port]. subst i. rewrite Ep, bswap16_invol by (by rewrite Hc).
      by rewrite decide_True.
    + intros Hact. destruct (Ha i Hact) as (j & Hj & Hx). pose proof (Hm i Hact) as Hmi.
      rewrite Ep, decide_False, decide_False; [done|congruence|].
      rewrite Hx, bswap16_invol by (apply port_u16; lia). lia.
Qed.

Lemma fresh_touch k e i tk : fresh k e -> fresh k (touch e i tk).
Proof.
  intros [Hb Hc Ha Hm]. split; [done|done|..]; intros j;
    destruct (touch_view e i tk j) as (-> & _ & -> & _); [apply Ha|apply Hm].
Qed.
Lemma fresh_frame k e e' : icmp_frame e e' -> fresh k e -> fresh k e'.
Proof.
  intros (Es & Ep & Ec & _) [Hb Hc Ha Hm].
  assert (forall j, session e' j = session e j) as Hs by (intros; unfold session; by rewrite Es).
  assert (forall p, port_index e' p = port_index e p) as Hp by (intros; unfold port_index; by rewrite Ep).
  split; [done|by rewrite Ec|..]; intros i; rewrite ?Hp, Hs; auto.
Qed.

(** * A live session

    Session [idx] serves flow [key] on external port [r] and was last used at most [n]
    ticks ago. *)
Record live (idx : Z) (key : FlowKey) (r n : Z) (e : t) : Prop := {
  lv_idx : 0 <= idx < MAX_SESSIONS;
  lv_active : ns_active (session e idx) = true;
  lv_key : ns_key (session e idx) = key;
  lv_port : ns_external_port (session e idx) = r;
  lv_age : u32 (current_tick e - ns_last_active_tick (session e idx)) <= n }.

Lemma live_claim K idx key r n e idx' key' r' e' : tcp_ok K e -> live idx key r n e -> n <= 300 ->
  0 <= idx' < MAX_SESSIONS ->
  (ns_active (session e idx') = false \/
   expired (current_tick e) (ns_last_active_tick (session e idx')) = true) ->
  claim_session idx' key' (current_tick e) e = (r', e') -> live idx key r n e'.
Proof.
  intros He [Hi Ha Hk Hp Hn] Hn300 Hi' Hfree Hc.
  assert (idx' <> idx) as Hne.
  { intros ->. destruct Hfree as [E|E]; [congruence|]. unfold expired in E. bool2prop. lia. }
  destruct (claim_view _ _ _ _ _ _ _ He Hi' Hc) as (_ & _ & Es & _ & _ & _ & _ & _ & Et).
  split; rewrite ?Et, ?Es, ?decide_False by done; done.
Qed.

Lemma live_touch idx key r n e i : live idx key r n e -> 0 <= n ->
  live idx key r n (touch e i (current_tick e)).
Proof.
  intros [Hi Ha Hk Hp Hn] Hn0. destruct (touch_view e i (current_tick e) idx) as (E1 & E2 & E3 & _ & E5).
  split; rewrite ?E1, ?E2, ?E3, ?E5; try done. cbn [current_tick touch set_session].
  case_decide; [|done]. rewrite Z.sub_diag. wordlia.
Qed.
Lemma live_frame idx key r n e e' : icmp_frame e e' -> live idx key r n e -> live idx key r n e'.
Proof.
  intros (Es & Ep & _ & _ & Et) [Hi Ha Hk Hp Hn].
  assert (forall j, session e' j = session e j) as Hs by (intros; unfold session; by rewrite Es).
  split; rewrite ?Hs, ?Et; done.
Qed.

(** * Runs *)
Definition outs (ops : list nat_op) : Z :=
  Z.of_nat (length (List.filter (fun op => match op with NOut _ => true | _ => false end) ops)).
Definition ticks (ops : list nat_op) : Z :=
  Z.of_nat (length (List.filter (fun op => match op with NTick => true | _ => false end) ops)).
Lemma outs_cons op ops : outs (op :: ops) = (match op with NOut _ => 1 | _ => 0 end) + outs ops.
Proof. unfold outs. destruct op; simpl; lia. Qed.
Lemma ticks_cons op ops : ticks (op :: ops) = (match op with NTick => 1 | _ => 0 end) + ticks ops.
Proof. unfold ticks. destruct op; simpl; lia. Qed.
Lemma outs_nonneg ops : 0 <= outs ops.
Proof. unfold outs. lia. Qed.
Lemma ticks_nonneg ops : 0 <= ticks ops.
Proof. unfold ticks. lia. Qed.

(** What one outbound packet does to the TCP table: the three cases of the probe loop,
    or nothing. *)
Lemma outbound_table e p : any_inv e -> let e' := snd (fst (process_outbound e p)) in
  icmp_frame e e' \/
  (exists idx key r, 0 <= idx < MAX_SESSIONS /\
     (ns_active (session e idx) = false \/
      expired (current_tick e) (ns_last_active_tick (session e idx)) = true) /\
     claim_session idx key (current_tick e) e = (r, e')) \/
  (exists idx, e' = touch e idx (current_tick e)).
Proof.
  intros [H1 H2 H3]. rewrite process_outbound_eq. case_if; [by left|].
  destruct (tcp_view p) as [[ip [[s d] c]]|]; cbv zeta.
  - destruct (probe_session _ _ _ _ _ _) as [r e'] eqn:Ep.
    assert (forall q, snd (fst (if r =? 0 then (false, e', p) else (true, e', q))) = e') as E
      by (intros; by case_if).
    rewrite E. apply probe_session_cases in Ep as [[_ ->]|[(idx & ? & ? & ?)|(idx & _ & _ & _ & _ & ->)]].
    + by left.
    + right; left. by exists idx, (view_key (raw_span p) (ip, (s, d, c))), r.
    + right; right. by exists idx.
  - destruct (icmp_view 8 p) as [[ip icmp]|]; [|by left].
    destruct (probe_icmp _ _ _ _ _ _ _ _) as [r e'] eqn:Ep.
    destruct (probe_icmp_ok _ _ _ _ _ _ _ _ _ _ _ H2 H3 I Ep) as (_ & _ & Hf). left. by case_if.
Qed.
Lemma inbound_table e p : any_inv e -> let e' := snd (fst (process_inbound e p)) in
  icmp_frame e e' \/ exists idx, e' = touch e idx (current_tick e).
Proof.
  intros He. rewrite process_inbound_eq by (by eapply nat_inv_seqs).
  destruct (tcp_view _) as [[ip [[s d] c]]|]; cbv zeta.
  - case_if; [right; by eexists|by left].
  - destruct (icmp_view 0 _) as [[ip icmp]|]; [case_if|]; by left.
Qed.

Lemma any_inv_step e op : any_inv e -> any_inv (nat_apply e op).
Proof.
  intros He. destruct op; simpl; [by apply outbound_inv|by apply inbound_inv|..];
    by destruct He as [[] [] ?].
Qed.

(** One packet, outbound or inbound, keeps both. *)
Section Packet.
Context (e : t) (p : ParsedPacket) (He : any_inv e).
Let out := snd (fst (process_outbound e p)).
Let inb := snd (fst (process_inbound e p)).

Lemma fresh_out k : fresh k e -> k < EXT_PORTS -> exists k', k' <= k + 1 /\ fresh k' out.
Proof.
  intros Hf Hk. pose proof He as [Ht _ _].
  destruct (outbound_table e p He) as [Hfr|[(idx & key & r & Hi & _ & Hc)|(idx & E)]].
  - exists k. split; [lia|by eapply fresh_frame].
  - exists (k + 1). split; [lia|]. eapply fresh_claim; [exact Ht|exact Hf|exact Hk|exact Hi|exact Hc].
  - exists k. split; [lia|]. subst out. rewrite E. by apply fresh_touch.
Qed.
Lemma fresh_in k : fresh k e -> fresh k inb.
Proof.
  intros Hf. destruct (inbound_table e p He) as [Hfr|(idx & E)]; [by eapply fresh_frame|].
  subst inb. rewrite E. by apply fresh_touch.
Qed.
Lemma live_out idx key r n : live idx key r n e -> 0 <= n <= 300 -> live idx key r n out.
Proof.
  intros Hl Hn. pose proof He as [Ht _ _].
  destruct (outbound_table e p He) as [Hfr|[(i & k' & r' & Hi & Hfree & Hc)|(i & E)]].
  - by eapply live_frame.
  - eapply live_claim; [exact Ht|exact Hl|lia|exact Hi|exact Hfree|exact Hc].
  - subst out. rewrite E. apply live_touch; [exact Hl|lia].
Qed.
Lemma live_in idx key r n : live idx key r n e -> 0 <= n -> live idx key r n inb.
Proof.
  intros Hl Hn. destruct (inbound_table e p He) as [Hfr|(i & E)]; [by eapply live_frame|].
  subst inb. rewrite E. by apply live_touch.
Qed.
End Packet.
Lemma live_tick idx key r n e : live idx key r n e -> 0 <= n -> live idx key r (n + 1) (tick e).
Proof.
  intros [H1 H2 H3 H4 H5] Hn. split; try done. cbn [current_tick tick].
  change (session (tick e) idx) with (session e idx). wordlia.
Qed.

Lemma fresh_step k e op : any_inv e -> fresh k e ->
  (match op with NOut _ => k < EXT_PORTS | _ => True end) ->
  exists k', k' <= k + (match op with NOut _ => 1 | _ => 0 end) /\ fresh k' (nat_apply e op).
Proof.
  intros He Hf Hk. destruct op as [b|b| |ip]; simpl; [by apply fresh_out|..]; exists k; (split; [lia|]);
    [by apply fresh_in|by destruct Hf..].
Qed.

Lemma live_step idx key r n e op : any_inv e -> live idx key r n e ->
  0 <= n -> n + ticks [op] <= 300 -> live idx key r (n + ticks [op]) (nat_apply e op).
Proof.
  intros He Hl Hn0 Hn. rewrite ticks_cons in *. unfold ticks in *. simpl in *. rewrite Z.add_0_r in *.
  destruct op as [b|b| |ip]; simpl; rewrite ?Z.add_0_r in *;
    [by apply live_out|by apply live_in|by apply live_tick|by destruct Hl].
Qed.

Lemma run_live ops idx key r n k e : any_inv e -> fresh k e -> live idx key r n e ->
  0 <= n -> n + ticks ops <= 300 -> k + outs ops <= EXT_PORTS ->
  exists k', fresh k' (nat_run ops e) /\ any_inv (nat_run ops e) /\
    live idx key r (n + ticks ops) (nat_run ops e).
Proof.
  revert n k e. induction ops as [|op ops IH]; intros n k e He Hf Hl Hn Ht Ho.
  - exists k. simpl. split; [done|]. split; [done|]. unfold ticks. simpl. by rewrite Z.add_0_r.
  - rewrite ticks_cons in *. rewrite outs_cons in Ho.
    pose proof (ticks_nonneg ops). pose proof (outs_nonneg ops).
    assert (ticks [op] = match op with NTick => 1 | _ => 0 end) as Etk
      by (rewrite ticks_cons; unfold ticks; simpl; lia).
    destruct (fresh_step k e op He Hf) as (k' & Hk' & Hf'); [destruct op; lia|].
    destruct (IH (n + ticks [op]) k' (nat_apply e op)) as (k2 & Hf2 & Hi2 & Hl2).
    + by apply any_inv_step.
    + done.
    + apply live_step; try done. rewrite Etk. lia.
    + rewrite Etk. destruct op; lia.
    + rewrite Etk. lia.
    + destruct op; lia.
    + exists k2. split; [done|]. split; [done|]. rewrite Etk in Hl2. by rewrite Z.add_assoc.
Qed.

Lemma run_fresh ops k e : any_inv e -> fresh k e -> k + outs ops <= EXT_PORTS ->
  exists k', k' <= k + outs ops /\ fresh k' (nat_run ops e) /\ any_inv (nat_run ops e).
Proof.
  revert k e. induction ops as [|op ops IH]; intros k e He Hf Ho.
  - exists k. simpl. split; [unfold outs; simpl; lia|done].
  - rewrite outs_cons in *. pose proof (outs_nonneg ops).
    destruct (fresh_step k e op He Hf) as (k' & Hk' & Hf'); [destruct op; lia|].
    destruct (IH k' (nat_apply e op)) as (k2 & H1 & H2); [by apply any_inv_step|done|lia|].
    exists k2. split; [lia|done].
Qed.

(** A translated TCP or UDP packet: the session that was found or made for it, and the
    rewritten bytes. *)
Lemma outbound_flow e b e1 p1 k : any_inv e -> bytes_ok b -> ihl_ok b -> is_u32 (wan_ip_nbo e) ->
  flow_of (parse b) = Some k -> process_outbound e (parse b) = (true, e1, p1) ->
  exists idx r, live idx k r 0 e1 /\ p1 = with_span (parse b) (raw_span p1) /\
    laid_out_as b (raw_span p1) /\ flow_of p1 = Some (MkFlowKey (wan_ip_nbo e) (daddr k) r (dport k)).
Proof.
  intros Hinv Hb Hihl Hwan Hflow Hout.
  destruct (outbound_env e (parse b) Hinv) as [_ Et]. rewrite Hout in Et. simpl in Et.
  destruct (outbound_true _ _ _ _ _ _ Hinv (fun _ _ => I) (fun _ _ _ _ => I) Hout)
    as [(s & d & c & k' & r & Hv & Hf & Hu & Hx & Hp & ->)|(icmp & sa & da & id & r & Hv & _)].
  - rewrite Hflow in Hf. injection Hf as <-.
    destruct (probe_session_result _ _ _ _ _ _ _ _ _ (inv_tcp _ _ _ Hinv) I Hp)
      as (idx & Hi & _ & _ & Ha & Hkey & Hport & Hlast).
    { intros ->. unfold ext_range in Hx. by vm_compute in Hx; destruct Hx. }
    exists idx, r. split; [split; try done; rewrite Hlast, Et, Z.sub_diag; done|]. split; [done|].
    split; [apply (rewrite_tuple_layout b s d c); auto|].
    apply (rewrite_tuple_flow b s d c k _ r Hb Hihl Hwan Hu Hv Hflow).
  - apply icmp_view_proto in Hv. unfold flow_of in Hflow.
    destruct (tcp_view (parse b)) as [[ip [[s d] c]]|] eqn:Ev; [|done].
    destruct (tcp_view_proto _ _ _ _ _ Ev) as [[E _]|[E _]]; congruence.
Qed.

(** A packet for another host than the WAN address is not taken for a reply. *)
Lemma inbound_elsewhere e p k : any_inv e -> flow_of p = Some k -> daddr k <> wan_ip_nbo e ->
  process_inbound e p = (false, e, p).
Proof.
  intros He Hf Hne. rewrite process_inbound_eq by (by eapply nat_inv_seqs). unfold flow_of in Hf.
  destruct (tcp_view p) as [[ip [[s d] c]]|]; [|done]. injection Hf as <-. cbv zeta.
  apply Z.eqb_neq in Hne. cbn [daddr view_key] in Hne. by rewrite Hne.
Qed.

(** A reply that finds a live session of its flow is translated. *)
Lemma inbound_accepts e q idx k r : any_inv e -> bytes_ok q -> ihl_ok q ->
  is_u32 (saddr k) -> is_u16 (sport k) -> 0 <= idx < MAX_SESSIONS ->
  ns_active (session e idx) = true -> ns_key (session e idx) = k ->
  ns_external_port (session e idx) = r -> port_index e (ntohs r) = idx ->
  flow_of (parse q) = Some (MkFlowKey (daddr k) (wan_ip_nbo e) (dport k) r) ->
  exists e3 q', process_inbound e (parse q) = (true, e3, q') /\
    q' = with_span (parse q) (raw_span q') /\ laid_out_as q (raw_span q') /\
    flow_of q' = Some (MkFlowKey (daddr k) (saddr k) (dport k) (sport k)).
Proof.
  intros He Hq Hihl Hsa Hsp Hi Ha Hk Hr Hm Hf. rewrite process_inbound_eq by (by eapply nat_inv_seqs).
  pose proof Hf as Hf'. unfold flow_of in Hf'. rewrite parse_span in *.
  destruct (tcp_view (parse q)) as [[ip [[s d] c]]|] eqn:Ev; [|done].
  destruct (tcp_view_parse _ _ _ _ _ Ev) as (-> & _). cbv zeta.
  cbn [fmap option_fmap option_map view_key] in Hf'.
  set (x1 := get32 q (14 + IPv4Header.saddr)) in *. set (x2 := get32 q (14 + IPv4Header.daddr)) in *.
  injection Hf' as H1 H2 H3 H4. rewrite H1, H2, H3, H4, Hm, Ha, Hk, Hr, !Z.eqb_refl.
  destruct (Z.ltb_spec idx 0); [lia|]. destruct (Z.leb_spec MAX_SESSIONS idx); [lia|].
  eexists _, _. split; [done|]. split; [done|]. split; [apply (rewrite_tuple_layout q s d c); auto|].
  exact (proj2 (rewrite_tuple_flow q s d c _ _ _ Hq Hihl Hsa Hsp Ev Hf)).
Qed.

(** C1: replies come back. Let an outbound TCP or UDP packet of flow [k] be translated
    after some run [ops1], giving it an external port; let anything at all happen
    afterwards ([ops2]: other flows, packets, address changes) except that at most
    300 ticks pass, and let the engine see at most 50001 outbound packets in total, as
    many as there are external ports. Then a reply from the remote end to the
    external port is accepted and its destination rewritten to the original inside
    address and port. *)
Theorem nat_reply_delivered (ops1 ops2 : list nat_op) (b q : list Z) (e1 : t) (p1 : ParsedPacket)
    (k k1 : FlowKey)
    (Hops : Forall nat_op_ok (ops1 ++ NOut b :: ops2))
    (Hmany : outs (ops1 ++ NOut b :: ops2) <= EXT_PORTS) (Hticks : ticks ops2 <= 300)
    (Hihl : ihl_ok b) (Hflow : flow_of (parse b) = Some k)
    (Hout : process_outbound (nat_run ops1 make) (parse b) = (true, e1, p1))
    (Hflow1 : flow_of p1 = Some k1)
    (Hq : bytes_ok q) (Hqihl : ihl_ok q)
    (Hreply : flow_of (parse q)
       = Some (MkFlowKey (daddr k) (wan_ip_nbo (nat_run ops2 e1)) (dport k) (sport k1))) :
  exists e3 q', process_inbound (nat_run ops2 e1) (parse q) = (true, e3, q') /\
    flow_of q' = Some (MkFlowKey (daddr k) (saddr k) (dport k) (sport k)).
Proof.
  apply Forall_app in Hops as [Hops1 Hops2]. inversion Hops2 as [|? ? Hb _]; subst. simpl in Hb.
  assert (outs (ops1 ++ NOut b :: ops2) = outs ops1 + 1 + outs ops2) as Eo.
  { unfold outs. rewrite List.filter_app, length_app. simpl. lia. }
  pose proof (outs_nonneg ops2). pose proof (nat_run_wan ops1 Hops1) as Hwan.
  destruct (run_fresh ops1 0 make) as (k0 & Hk0 & Hf0 & Hi0); [apply make_inv|apply fresh_make|lia|].
  destruct (outbound_flow (nat_run ops1 make) b e1 p1 k) as (idx & r & Hl & _ & _ & Hf1); [done..|].
  rewrite Hflow1 in Hf1. injection Hf1 as ->. cbn [sport] in *.
  destruct (fresh_step k0 (nat_run ops1 make) (NOut b) Hi0 Hf0) as (k2 & Hk2 & Hf2); [lia|].
  pose proof (any_inv_step _ (NOut b) Hi0) as Hi1. simpl in Hf2, Hi1. rewrite Hout in Hf2, Hi1.
  destruct (run_live ops2 idx k r 0 k2 e1) as (k3 & Hf3 & Hi3 & [Hidx Ha Hkey Hport _]);
    [done|done|done|lia|lia|lia|].
  pose proof (flow_of_ok b k Hb Hflow) as (Hsa & _ & Hsp & _).
  pose proof (fr_map _ _ Hf3 idx Ha) as Hmap. rewrite Hport in Hmap.
  destruct (inbound_accepts (nat_run ops2 e1) q idx k r) as (e3 & q' & E & _ & _ & Hf); [done..|]. by exists e3, q'.
Qed.

Lemma nat_reply_delivered_witness :
  let ops1 := [NSetWan w_wan; NTick] in
  let ops2 := [NTick; NOut w_icmp; NIn w_udp; NTick] in
  let e1 := snd (fst (process_outbound (nat_run ops1 make) (parse w_udp))) in
  exists e3 q', process_inbound (nat_run ops2 e1) (parse w_udp_reply) = (true, e3, q') /\
    flow_of q' = Some (MkFlowKey w_ext w_lan (htons 12345) (htons 54321)).
Proof.
  intros ops1 ops2 e1. set (out := process_outbound (nat_run ops1 make) (parse w_udp)).
  assert (out = (true, e1, snd out)) as Eo.
  { assert (fst (fst out) = true) as E1 by (vm_compute; reflexivity). subst e1. fold out.
    destruct out as [[ok e'] q']. cbn in *. rewrite E1. reflexivity. }
  refine (nat_reply_delivered ops1 ops2 w_udp w_udp_reply e1 (snd out)
    (MkFlowKey w_lan w_ext (htons 54321) (htons 12345))
    (MkFlowKey w_wan w_ext (htons 10000) (htons 12345)) _ _ _ _ _ Eo _ _ _ _).
  - constructor; [vm_compute; split; [discriminate|reflexivity]|].
    repeat first [constructor; [exact I|]
                 | constructor; [apply bytes_okb_ok; vm_compute; reflexivity|]
                 | constructor].
  - vm_compute. discriminate.
  - vm_compute. discriminate.
  - vm_compute. discriminate.
  - vm_compute. reflexivity.
  - vm_compute. reflexivity.
  - apply bytes_okb_ok. vm_compute. reflexivity.
  - vm_compute. discriminate.
  - vm_compute. reflexivity.
Defined.
