(* ===== verification/NatSeqlock.v ===== *)
(** The sequence locks on NAT sessions and echo sessions under interleaving.

    Core 3 takes over a slot in [process_outbound] or [process_outbound_icmp] (sequence
    number up, plain stores, sequence number up, [active]) while core 2 reads it in
    [process_inbound] or [process_inbound_icmp] (sequence number, [active], plain loads,
    sequence number). Every load and store of the slot is one step and the steps of the
    two threads interleave arbitrarily, over any number of takeovers and attempts. The
    semantics is sequentially consistent. *)
From Stdlib Require Import ZArith Lia.
From stdpp Require Import base numbers relations list.
From S2P Require Import Prelude Headers_util Processor NatEngine.
#[local] Open Scope Z_scope.

(** * The two kinds of slot

    The plain fields of a slot are a list in the order they are stored; the reader loads
    them in an order of its own. An echo slot is made inactive first, and its takeover is
    given up when no external identifier is free. *)
Record layout := Layout { ly_width : nat; ly_order : list nat; ly_clears : bool }.
Definition tcp_slot : layout := Layout 5 [0; 1; 2; 3; 4]%nat false.
Definition echo_slot : layout := Layout 4 [1; 0; 2; 3]%nat true.

Definition tcp_fields (key : FlowKey) (ext_port : Z) : list Z := [saddr key; daddr key; sport key; dport key; ext_port].
Definition echo_fields (int_saddr remote_daddr int_id ext_id : Z) : list Z := [int_saddr; remote_daddr; int_id; ext_id].

(** What the loads of an attempt amount to for the code that follows them. *)
Definition tcp_observation (s0 : Z) (act : bool) (got : list Z) (s1 : Z) : NatEngine.observation :=
  NatEngine.MkObs s0 act (MkFlowKey (rd got 0) (rd got 1) (rd got 2) (rd got 3)) (rd got 4) s1.
Definition echo_observation (s0 : Z) (act : bool) (got : list Z) (s1 : Z) : NatEngine.icmp_observation :=
  NatEngine.MkIcmpObs s0 act (rd got 0) (rd got 1) (rd got 2) (rd got 3) s1.

(** * The slot and its threads *)
(** Inside the takeover: the values to store and the next of them, then the store to
    [active]. *)
Inductive writer_pc := WIdle | WStore (vals : list Z) (k : nat) | WActive.
(** Inside an attempt; [n0] is the number of sequence steps when it began (ghost). *)
Inductive reader_pc :=
  | RIdle | RAct (n0 s0 : Z) | RFields (n0 s0 : Z) (act : bool) (got : list Z)
  | RDone (s0 : Z) (act : bool) (got : list Z) (s1 : Z).

(** The slot, the two threads, and ghost state: the sequence steps so far and the
    takeovers completed. *)
Record slot_state := Slot {
  l_seq : Z; l_act : bool; l_fields : list Z;
  l_writer : writer_pc; l_reader : reader_pc;
  l_steps : Z; l_hist : list (list Z) }.

(** An attempt begins when none is in progress. *)
Definition between_attempts (r : reader_pc) : Prop := match r with RIdle | RDone _ _ _ _ => True | _ => False end.

Section Slot.
Context (y : layout).

(** Core 3: a takeover. *)
Inductive writer_step : slot_state -> slot_state -> Prop :=
  | ss_begin vals q a f r n h : length vals = ly_width y ->
      writer_step (Slot q a f WIdle r n h) (Slot (u32 (q + 1)) a f (WStore vals 0) r (n + 1) h)
  | ss_clear vals q f r n h : ly_clears y = true ->
      writer_step (Slot q true f (WStore vals 0) r n h) (Slot q false f (WStore vals 0) r n h)
  | ss_give_up vals q f r n h : ly_clears y = true ->
      writer_step (Slot q false f (WStore vals 0) r n h) (Slot (u32 (q + 1)) false f WIdle r (n + 1) h)
  | ss_store vals k v q a f r n h : vals !! k = Some v -> (ly_clears y = true -> a = false) ->
      writer_step (Slot q a f (WStore vals k) r n h) (Slot q a (<[k := v]> f) (WStore vals (S k)) r n h)
  | ss_end vals q a f r n h :
      writer_step (Slot q a f (WStore vals (ly_width y)) r n h) (Slot (u32 (q + 1)) a f WActive r (n + 1) (h ++ [vals]))
  | ss_active q a f r n h :
      writer_step (Slot q a f WActive r n h) (Slot q true f WIdle r n h).
(** Core 2: the attempts of the read loop. *)
Inductive reader_step : slot_state -> slot_state -> Prop :=
  | ss_odd q a f w r n h : between_attempts r -> Z.land q 1 = 1 ->
      reader_step (Slot q a f w r n h) (Slot q a f w RIdle n h)
  | ss_seq q a f w r n h : between_attempts r -> Z.land q 1 <> 1 ->
      reader_step (Slot q a f w r n h) (Slot q a f w (RAct n q) n h)
  | ss_load_act n0 s0 q a f w n h :
      reader_step (Slot q a f w (RAct n0 s0) n h) (Slot q a f w (RFields n0 s0 a []) n h)
  | ss_load_field n0 s0 act got i q a f w n h : ly_order y !! length got = Some i ->
      reader_step (Slot q a f w (RFields n0 s0 act got) n h) (Slot q a f w (RFields n0 s0 act (got ++ [rd f i])) n h)
  | ss_finish n0 s0 act got q a f w n h : length got = length (ly_order y) ->
      reader_step (Slot q a f w (RFields n0 s0 act got) n h) (Slot q a f w (RDone s0 act got q) n h).
Definition slot_step s s' : Prop := writer_step s s' \/ reader_step s s'.

(** A slot nobody has used. *)
Definition slot0 : slot_state := Slot 0 false (replicate (ly_width y) 0) WIdle RIdle 0 [].

(** * Invariant *)
(** What the fields hold between takeovers: the last completed one. *)
Definition current (s : slot_state) : list Z := default (replicate (ly_width y) 0) (last (l_hist s)).
(** What an attempt would get if the fields did not change. *)
Definition loads (f : list Z) (n : nat) : list Z := map (rd f) (take n (ly_order y)).

Definition writer_inv (s : slot_state) : Prop :=
  match l_writer s with
  | WIdle | WActive => Z.even (l_steps s) = true /\ l_fields s = current s /\ (l_writer s = WActive -> l_hist s <> [])
  | WStore vals k => Z.even (l_steps s) = false /\ length vals = ly_width y /\ (k <= ly_width y)%nat /\
      take k (l_fields s) = take k vals /\ (k = 0%nat -> l_fields s = current s)
  end.
(** An attempt that began [n0] steps in has, as long as no step was made since, read
    fields of the one current entry. *)
Definition reader_inv (s : slot_state) : Prop :=
  match l_reader s with
  | RIdle => True
  | RAct n0 s0 => 0 <= n0 <= l_steps s /\ s0 = u32 n0 /\ Z.even n0 = true
  | RFields n0 s0 act got => 0 <= n0 <= l_steps s /\ s0 = u32 n0 /\ Z.even n0 = true /\
      (n0 = l_steps s -> got = loads (l_fields s) (length got)) /\ (act = true -> l_hist s <> [])
  | RDone s0 act got s1 => s0 = s1 -> act = true -> l_steps s < 4294967296 ->
      exists f, f ∈ l_hist s /\ got = map (rd f) (ly_order y)
  end.
Record slot_inv (s : slot_state) : Prop := {
  si_seq : l_seq s = u32 (l_steps s);
  si_steps : 0 <= l_steps s;
  si_len : length (l_fields s) = ly_width y;
  si_act : l_act s = true -> l_hist s <> [];
  si_hist : Forall (fun v => length v = ly_width y) (l_hist s);
  si_writer : writer_inv s;
  si_reader : reader_inv s }.

Lemma u32_succ n : u32 (u32 n + 1) = u32 (n + 1).
Proof. unfold u32. apply Zplus_mod_idemp_l. Qed.
Lemma even_next n : Z.even (n + 1) = negb (Z.even n).
Proof. by rewrite Z.add_1_r, Z.even_succ, <- Z.negb_even. Qed.
Lemma even_land n : 0 <= n -> Z.land (u32 n) 1 <> 1 -> Z.even n = true.
Proof.
  intros Hn. rewrite land_1. unfold u32. intros H. rewrite Zeven_mod. apply Z.eqb_eq.
  assert ((n mod 4294967296) mod 2 = n mod 2) as E by (apply Z.mod_mod_divide; by exists 2147483648). rewrite E in H.
  pose proof (Z.mod_pos_bound n 2). lia.
Qed.

(** A writer's step that does not touch the number of sequence steps keeps what readers
    have: the steps are odd then, so no attempt in progress can be accepted. *)
Lemma reader_keep s s' : l_reader s' = l_reader s -> l_steps s <= l_steps s' -> (exists l, l_hist s' = l_hist s ++ l) ->
  (l_steps s' = l_steps s -> l_fields s' = l_fields s \/ Z.even (l_steps s) = false) ->
  reader_inv s -> reader_inv s'.
Proof.
  intros Er Hn (l & Eh) Hf. unfold reader_inv. rewrite Er, Eh. destruct (l_reader s) as [|n0 s0|n0 s0 act got|s0 act got s1].
  - done.
  - intros (? & ? & ?). split; [lia|]. done.
  - intros (Hle & Hs0 & Hev & Hgot & Hact). split; [lia|]. split; [done|]. split; [done|]. split.
    + intros E. destruct Hf as [->|Hodd]; [lia|apply Hgot; lia|]. exfalso.
      assert (n0 = l_steps s) as -> by lia. congruence.
    + intros Ha%Hact Hnil. apply app_nil in Hnil as [? _]. done.
  - intros H E Ha Hlt. destruct (H E Ha) as (f & Hin & Hg); [lia|]. exists f. split; [|done]. apply elem_of_app. by left.
Qed.

Lemma writer_even s : writer_inv s -> Z.even (l_steps s) = true -> l_fields s = current s.
Proof. unfold writer_inv. destruct (l_writer s); [by intros (_ & ? & _)|intros [E _]; congruence|by intros (_ & ? & _)]. Qed.

Lemma finish_accepted s n0 s0 act got : slot_inv s -> l_reader s = RFields n0 s0 act got ->
  length got = length (ly_order y) -> s0 = l_seq s -> act = true -> l_steps s < 4294967296 ->
  exists f, f ∈ l_hist s /\ got = map (rd f) (ly_order y).
Proof.
  intros [Hseq Hst Hlen Ha Hh Hw Hr] Er Hg Hs0 -> Hlt. unfold reader_inv in Hr. rewrite Er in Hr.
  destruct Hr as (Hle & Hu & Hev & Hgot & Hact). specialize (Hact eq_refl).
  assert (n0 = l_steps s) as E.
  { rewrite Hseq, Hu in Hs0. unfold u32 in Hs0. rewrite !Z.mod_small in Hs0 by lia. done. }
  specialize (Hgot E). unfold loads in Hgot. rewrite Hg, firstn_all in Hgot.
  rewrite E in Hev. rewrite (writer_even s Hw Hev) in Hgot. unfold current in Hgot.
  destruct (last (l_hist s)) as [f|] eqn:El; [|by apply last_None in El].
  exists f. split; [by apply last_Some_elem_of|done].
Qed.

Lemma writer_step_inv s s' : slot_inv s -> writer_step s s' -> slot_inv s'.
Proof.
  intros [Hseq Hst Hlen Ha Hh Hw Hr] Hs. assert (l_reader s' = l_reader s) as Er by (by destruct Hs).
  pose proof (reader_keep s s' Er) as Hk. unfold writer_inv in Hw. clear Er.
  assert (forall l : list (list Z), exists l', l = l ++ l') as Hnil by (intros l; exists []; by rewrite app_nil_r).
  destruct Hs; cbn [l_seq l_act l_fields l_writer l_reader l_steps l_hist] in *.
  - destruct Hw as (Hev & Ef & _). constructor; cbn; [by rewrite Hseq, u32_succ|lia|done|done|done| |].
    + unfold writer_inv. cbn. rewrite even_next, Hev. split_and!; [done|done|lia|done|by intros _].
    + apply Hk; [lia|apply Hnil|lia|done].
  - destruct Hw as (Hev & Hvl & Hk0 & Ht & Ef). constructor; cbn; done.
  - destruct Hw as (Hev & Hvl & Hk0 & Ht & Ef). constructor; cbn; [by rewrite Hseq, u32_succ|lia|done|done|done| |].
    + unfold writer_inv. cbn. rewrite even_next, Hev. split_and!; [done|by apply Ef|done].
    + apply Hk; [lia|apply Hnil|lia|done].
  - destruct Hw as (Hev & Hvl & Hk0 & Ht & Ef). apply lookup_lt_Some in H as Hkl.
    constructor; cbn; [done|done|by rewrite length_insert|done|done| |].
    + unfold writer_inv. cbn. split_and!; [done|done|lia| |done].
      rewrite (take_S_r _ _ v) by (apply list_lookup_insert_eq; lia).
      rewrite take_insert_ge by lia. rewrite Ht. symmetry. by apply take_S_r.
    + apply Hk; [lia|apply Hnil|by right|done].
  - destruct Hw as (Hev & Hvl & _ & Ht & _).
    assert (h ++ [vals] <> []) as Hne by (intros Hn; by apply app_nil in Hn as [_ ?]).
    constructor; cbn; [by rewrite Hseq, u32_succ|lia|done|done|by apply Forall_app_2; [|apply Forall_singleton]| |].
    + unfold writer_inv, current. cbn. rewrite even_next, Hev, last_snoc. split_and!; [done| |done]. cbn.
      rewrite <- (firstn_all f), Hlen, Ht, <- Hvl. apply firstn_all.
    + apply Hk; [lia|by eexists|lia|done].
  - destruct Hw as (Hev & Ef & Hne). constructor; cbn; [done|done|done|by auto|done| |].
    + unfold writer_inv. cbn. by split_and!.
    + apply Hk; [lia|apply Hnil|by left|done].
Qed.
Lemma reader_step_inv s s' : slot_inv s -> reader_step s s' -> slot_inv s'.
Proof.
  intros Hi Hs. pose proof Hi as [Hseq Hst Hlen Ha Hh Hw Hr].
  assert (writer_inv s' /\ l_seq s' = l_seq s /\ l_steps s' = l_steps s /\ l_fields s' = l_fields s /\ l_act s' = l_act s /\
    l_hist s' = l_hist s) as (Hw' & E1 & E2 & E3 & E4 & E5) by (by destruct Hs).
  constructor; rewrite ?E1, ?E2, ?E3, ?E4, ?E5; try done.
  destruct Hs as [q a f w r n h Hb Ho|q a f w r n h Hb Ho|n0 s0 q a f w n h|n0 s0 act got i q a f w n h Hg|n0 s0 act got q a f w n h Hg];
    unfold reader_inv in *; cbn in *.
  - done.
  - split; [lia|]. split; [done|]. apply even_land; [done|by rewrite <- Hseq].
  - destruct Hr as (Hle & E & Hev). by split_and!; [lia|lia|..].
  - destruct Hr as (Hle & E & Hev & Hgot & Hact). split_and!; try done; try lia. intros En. rewrite length_app. cbn.
    rewrite Nat.add_1_r. unfold loads. rewrite (take_S_r _ _ i) by done. rewrite map_app. cbn. f_equal. by apply Hgot.
  - intros E1' E2' E3'. by apply (finish_accepted _ n0 s0 act got Hi).
Qed.
Lemma slot_inv_reach s : rtc slot_step slot0 s -> slot_inv s.
Proof.
  apply rtc_invariant; [intros x x' Hi [H|H]; [by eapply writer_step_inv|by eapply reader_step_inv]|].
  constructor; cbn; [done|lia|by rewrite length_replicate|done|constructor|..]; done.
Qed.

(** An attempt that ends with the sequence number it began with, on an active slot, got
    the fields of one completed takeover. *)
Lemma attempt_whole s s0 act got s1 : rtc slot_step slot0 s -> l_reader s = RDone s0 act got s1 ->
  l_steps s < 4294967296 -> s0 = s1 -> act = true ->
  exists f, f ∈ l_hist s /\ length f = ly_width y /\ got = map (rd f) (ly_order y).
Proof.
  intros [_ _ _ _ Hh _ Hr]%slot_inv_reach Er Hlt Es Ha. unfold reader_inv in Hr. rewrite Er in Hr.
  destruct (Hr Es Ha Hlt) as (f & Hin & Hg). exists f. split; [done|]. split; [|done].
  exact (proj1 (Forall_forall _ _) Hh f Hin).
Qed.
End Slot.

(** C11: an inbound packet is never translated with a torn session.  In every interleaving
    of takeovers of a slot (those given up for want of an echo identifier included) with
    the reader's attempts, fewer than 2^31 takeovers, so that the 32-bit sequence number
    has not come round: if an attempt on a TCP or UDP slot resolves, then the inside
    address and port it uses, the remote end it checked and the external port all belong
    to one and the same takeover that had been completed; and if an attempt on an echo
    slot resolves, so do the inside address and identifier, the remote address and the
    external identifier. *)
Theorem seqlock_no_torn_session (s : slot_state) (s0 : Z) (act : bool) (got : list Z) (s1 : Z)
    (Hread : l_reader s = RDone s0 act got s1) (Hwrap : l_steps s < 4294967296) :
  (forall remote_ip remote_port ext_port ip port, rtc (slot_step tcp_slot) (slot0 tcp_slot) s ->
     NatEngine.read_attempt remote_ip remote_port ext_port (tcp_observation s0 act got s1) = Some (NatEngine.Resolved ip port) ->
     tcp_fields (MkFlowKey ip remote_ip port remote_port) ext_port ∈ l_hist s) /\
  (forall remote ext_id ip id, rtc (slot_step echo_slot) (slot0 echo_slot) s ->
     NatEngine.read_icmp_attempt remote ext_id (echo_observation s0 act got s1) = Some (NatEngine.Resolved ip id) ->
     echo_fields ip remote id ext_id ∈ l_hist s).
Proof.
  split.
  - intros rip rport ext ip port Hreach Hres. unfold NatEngine.read_attempt, tcp_observation in Hres.
    cbn [NatEngine.o_s0 NatEngine.o_s1 NatEngine.o_act NatEngine.o_key NatEngine.o_port] in Hres.
    destruct (Z.land s0 1 =? 1); [done|]. destruct (Z.eqb_spec s0 s1) as [Es|]; [|done].
    destruct (Z.land s1 1 =? 1); [done|]. destruct act; [|done]. cbn [negb orb daddr dport saddr sport] in Hres.
    destruct (attempt_whole tcp_slot s s0 true got s1 Hreach Hread Hwrap Es eq_refl) as (f & Hin & Hl & ->).
    destruct f as [|a [|b [|c [|d [|x [|]]]]]]; try discriminate Hl. cbn in Hres.
    destruct (Z.eqb_spec b rip) as [->|]; [|done]. destruct (Z.eqb_spec d rport) as [->|]; [|done].
    destruct (Z.eqb_spec x ext) as [->|]; [|done]. injection Hres as <- <-. exact Hin.
  - intros remote ext ip id Hreach Hres. unfold NatEngine.read_icmp_attempt, echo_observation in Hres.
    cbn [NatEngine.io_s0 NatEngine.io_s1 NatEngine.io_act NatEngine.io_remote NatEngine.io_saddr NatEngine.io_int_id NatEngine.io_ext_id] in Hres.
    destruct (Z.land s0 1 =? 1); [done|]. destruct (Z.eqb_spec s0 s1) as [Es|]; [|done].
    destruct (Z.land s1 1 =? 1); [done|]. destruct act; [|done]. cbn [negb orb] in Hres.
    destruct (attempt_whole echo_slot s s0 true got s1 Hreach Hread Hwrap Es eq_refl) as (f & Hin & Hl & ->).
    destruct f as [|a [|b [|c [|x [|]]]]]; try discriminate Hl. cbn in Hres.
    destruct (Z.eqb_spec b remote) as [->|]; [|done]. destruct (Z.eqb_spec x ext) as [->|]; [|done].
    injection Hres as <- <-. exact Hin.
Qed.

(** One takeover by the flow of [w_key], with the reader starting before it and retrying. *)
Definition w_key : FlowKey := MkFlowKey 1677830336 134744072 12756 14640.
Definition w_slot : slot_state :=
  Slot 2 true (tcp_fields w_key 4135) WIdle (RDone 2 true (tcp_fields w_key 4135) 2) 2 [tcp_fields w_key 4135].
Lemma w_slot_reachable : rtc (slot_step tcp_slot) (slot0 tcp_slot) w_slot.
Proof.
  eapply rtc_l; [right; apply ss_seq; [exact I|vm_compute; discriminate]|].
  eapply rtc_l; [left; apply (ss_begin tcp_slot (tcp_fields w_key 4135)); reflexivity|].
  eapply rtc_l; [right; apply ss_load_act|].
  do 5 (eapply rtc_l; [left; eapply ss_store; [reflexivity|discriminate]|]).
  do 5 (eapply rtc_l; [right; eapply ss_load_field; reflexivity|]).
  eapply rtc_l; [left; apply (ss_end tcp_slot)|]. eapply rtc_l; [right; apply ss_finish; reflexivity|].
  eapply rtc_l; [left; apply ss_active|].
  eapply rtc_l; [right; apply ss_seq; [exact I|vm_compute; discriminate]|].
  eapply rtc_l; [right; apply ss_load_act|].
  do 5 (eapply rtc_l; [right; eapply ss_load_field; reflexivity|]).
  eapply rtc_l; [right; apply ss_finish; reflexivity|]. apply rtc_refl.
Qed.
Lemma seqlock_no_torn_session_witness :
  tcp_fields (MkFlowKey 1677830336 134744072 12756 14640) 4135 ∈ l_hist w_slot.
Proof.
  apply (proj1 (seqlock_no_torn_session w_slot 2 true (tcp_fields w_key 4135) 2 eq_refl eq_refl));
    [exact w_slot_reachable|reflexivity].
Defined.

(** An echo slot: a takeover, then one that is given up; a reader that began before it
    sees the slot inactive. *)
Definition w_echo : slot_state :=
  Slot 4 false (echo_fields 1677830336 134744072 4242 10097) WIdle
    (RDone 4 false [134744072; 1677830336; 4242; 10097] 4) 4 [echo_fields 1677830336 134744072 4242 10097].
Example echo_given_up : rtc (slot_step echo_slot) (slot0 echo_slot) w_echo.
Proof.
  eapply rtc_l; [left; apply (ss_begin echo_slot (echo_fields 1677830336 134744072 4242 10097)); reflexivity|].
  do 4 (eapply rtc_l; [left; eapply ss_store; [reflexivity|reflexivity]|]).
  eapply rtc_l; [left; apply (ss_end echo_slot)|]. eapply rtc_l; [left; apply ss_active|].
  eapply rtc_l; [right; apply ss_seq; [exact I|vm_compute; discriminate]|].
  eapply rtc_l; [left; apply (ss_begin echo_slot (echo_fields 1 2 3 4)); reflexivity|].
  eapply rtc_l; [left; apply ss_clear; reflexivity|]. eapply rtc_l; [right; apply ss_load_act|].
  eapply rtc_l; [left; apply ss_give_up; reflexivity|].
  do 4 (eapply rtc_l; [right; eapply ss_load_field; reflexivity|]).
  eapply rtc_l; [right; apply ss_finish; reflexivity|].
  eapply rtc_l; [right; apply ss_seq; [exact I|vm_compute; discriminate]|]. eapply rtc_l; [right; apply ss_load_act|].
  do 4 (eapply rtc_l; [right; eapply ss_load_field; reflexivity|]).
  eapply rtc_l; [right; apply ss_finish; reflexivity|]. apply rtc_refl.
Qed.
