(* ===== verification/Rings.v ===== *)
(** The two ring buffers: [SpscRingBuffer] ([Headers_util.hpp]) and
    [ZeroAllocRingBuffer] ([Scheduler_util.hpp]), with the interface both
    implement, a bounded first-in first-out queue.

    The interface ([Fifo], [FifoLaws]) is what the clients are proved against:
    the shaper drains a [ZeroAllocRingBuffer], the DHCP engine and the packet
    workers pass messages through an [SpscRingBuffer]. *)
From Stdlib Require Import ZArith Lia.
From stdpp Require Import base list gmap numbers.
From S2P Require Import Prelude.

(** * The queue a ring promises to be *)
Class Fifo (Q A : Type) := {
  fq_ok : Q -> Prop;                (* representation invariant *)
  fq_list : Q -> list A;            (* abstract content, oldest first *)
  fq_cap : nat;
  fq_fits : A -> bool;              (* elements the queue accepts at all *)
  fq_push : A -> Q -> bool * Q;
  fq_front : Q -> option A;
  fq_pop : Q -> Q
}.

Class FifoLaws (Q A : Type) `{Fifo Q A} := {
  fq_push_accept q a : fq_ok q -> fq_fits a = true -> (length (fq_list q) < fq_cap)%nat ->
    exists q', fq_push a q = (true, q') /\ fq_ok q' /\ fq_list q' = fq_list q ++ [a];
  fq_push_refuse q a : fq_ok q -> fq_fits a = false \/ length (fq_list q) = fq_cap ->
    fq_push a q = (false, q);
  fq_front_head q : fq_ok q -> fq_front q = head (fq_list q);
  fq_pop_ok q : fq_ok q -> fq_ok (fq_pop q);
  fq_pop_tail q : fq_ok q -> fq_list (fq_pop q) = tail (fq_list q);
  fq_bounded q : fq_ok q -> (length (fq_list q) <= fq_cap)%nat
}.

(** * Windows of a circular array *)
Section Window.
Context {A : Type} (C : nat).

Definition window (f : nat -> A) (h n : nat) : list A :=
  map (fun k => f ((h + k) mod C)%nat) (seq 0 n).

Lemma window_length f h n : length (window f h n) = n.
Proof. unfold window. by rewrite length_map, length_seq. Qed.

Lemma window_ext f g h n :
  (forall k, (k < n)%nat -> f ((h + k) mod C)%nat = g ((h + k) mod C)%nat) ->
  window f h n = window g h n.
Proof.
  intros E. apply map_ext_in. intros k [_ Hk]%in_seq. apply E. lia.
Qed.

Lemma window_snoc f h n : window f h (S n) = window f h n ++ [f ((h + n) mod C)%nat].
Proof. unfold window. by rewrite seq_S, map_app. Qed.

Lemma window_cons f h n :
  window f h (S n) = f (h mod C)%nat :: window f ((h + 1) mod C)%nat n.
Proof.
  unfold window. simpl. rewrite Nat.add_0_r, <- seq_shift, map_map. f_equal.
  apply map_ext. intros k. f_equal. rewrite Nat.Div0.add_mod_idemp_l.
  f_equal. lia.
Qed.

(** Two positions of a window shorter than the array are distinct. *)
Lemma window_slot_inj h i j :
  (i < C)%nat -> (j < C)%nat -> ((h + i) mod C = (h + j) mod C)%nat -> i = j.
Proof.
  intros Hi Hj E. pose proof (Nat.div_mod_eq (h + i) C). pose proof (Nat.div_mod_eq (h + j) C).
  destruct (Nat.lt_trichotomy ((h + i) / C) ((h + j) / C)) as [L|[L|L]]; nia.
Qed.

Lemma window_write f h n x :
  (n < C)%nat ->
  window (fun k => if decide ((h + n) mod C = k)%nat then x else f k) h (S n)
  = window f h n ++ [x].
Proof.
  intros Hn. rewrite window_snoc. rewrite decide_True by done. f_equal.
  apply window_ext. intros k Hk. rewrite decide_False; [done|].
  intros E%window_slot_inj; lia.
Qed.
End Window.

(** * SpscRingBuffer<T, Capacity> *)
Module SpscRingBuffer.
Section Spsc.
Context {T : Type} (d : T) (Capacity : nat).

Record t := Mk { buffer : gmap nat T; head_ix : nat; tail_ix : nat }.
Definition empty : t := Mk ∅ 0 0.

Definition push (item : T) (r : t) : bool * t :=
  let current_tail := tail_ix r in
  let next_tail := ((current_tail + 1) mod Capacity)%nat in
  if (next_tail =? head_ix r)%nat then (false, r)
  else (true, Mk (aset (buffer r) current_tail item) (head_ix r) next_tail).

Definition pop (r : t) : option T * t :=
  let current_head := head_ix r in
  if (current_head =? tail_ix r)%nat then (None, r)
  else (Some (aget d (buffer r) current_head),
        Mk (buffer r) ((current_head + 1) mod Capacity) (tail_ix r)).

(** The number of published elements, and the elements oldest first. *)
Definition count (r : t) : nat := ((tail_ix r + Capacity - head_ix r) mod Capacity)%nat.
Definition contents (r : t) : list T :=
  window Capacity (aget d (buffer r)) (head_ix r) (count r).
Definition wf (r : t) : Prop :=
  (head_ix r < Capacity)%nat /\ (tail_ix r < Capacity)%nat.

Context (HC : (1 < Capacity)%nat).

Lemma count_spec h t0 : (h < Capacity)%nat -> (t0 < Capacity)%nat ->
  let n := ((t0 + Capacity - h) mod Capacity)%nat in
  (n < Capacity)%nat /\ t0 = ((h + n) mod Capacity)%nat /\ (n = 0%nat <-> h = t0).
Proof.
  intros Hh Ht n. subst n.
  assert (t0 + Capacity - h < Capacity \/ Capacity <= t0 + Capacity - h < 2 * Capacity)%nat
    as [L|L] by lia.
  - rewrite Nat.mod_small by lia. replace (h + (t0 + Capacity - h))%nat
      with (t0 + 1 * Capacity)%nat by lia.
    rewrite Nat.Div0.mod_add, Nat.mod_small by lia. lia.
  - replace (t0 + Capacity - h)%nat with ((t0 - h) + 1 * Capacity)%nat by lia.
    rewrite Nat.Div0.mod_add, (Nat.mod_small (t0 - h)) by lia.
    rewrite Nat.mod_small by lia. lia.
Qed.

Lemma count_unique h n : (h < Capacity)%nat -> (n < Capacity)%nat ->
  (((h + n) mod Capacity + Capacity - h) mod Capacity)%nat = n.
Proof.
  intros Hh Hn.
  destruct (count_spec h ((h + n) mod Capacity) Hh ltac:(apply Nat.mod_upper_bound; lia))
    as (L & E & _).
  by apply (window_slot_inj Capacity h) in E; [|lia|lia].
Qed.

Lemma full_iff r : wf r ->
  ((tail_ix r + 1) mod Capacity = head_ix r)%nat <-> (count r = Capacity - 1)%nat.
Proof.
  intros [Hh Ht]. destruct (count_spec _ _ Hh Ht) as (L & E & _). fold (count r) in *.
  set (n := count r) in *. rewrite E at 1. rewrite Nat.Div0.add_mod_idemp_l.
  replace (head_ix r + n + 1)%nat with (head_ix r + (n + 1))%nat by lia.
  split; intros Heq.
  - destruct (Nat.eq_dec (n + 1)%nat Capacity); [lia|].
    rewrite <- (Nat.mod_small (head_ix r) Capacity) in Heq at 2 by done.
    rewrite <- (Nat.add_0_r (head_ix r)) in Heq at 2.
    apply window_slot_inj in Heq; lia.
  - rewrite Heq. replace (head_ix r + (Capacity - 1 + 1))%nat
      with (head_ix r + 1 * Capacity)%nat by lia.
    by rewrite Nat.Div0.mod_add, Nat.mod_small.
Qed.

Lemma spsc_contents_length r : length (contents r) = count r.
Proof. apply window_length. Qed.

Lemma contents_bounded r : wf r -> (length (contents r) <= Capacity - 1)%nat.
Proof.
  intros [Hh Ht]. rewrite spsc_contents_length. unfold count.
  destruct (count_spec _ _ Hh Ht). lia.
Qed.

Lemma push_refuse r x : wf r -> length (contents r) = (Capacity - 1)%nat ->
  push x r = (false, r).
Proof.
  intros Hwf Hl. rewrite spsc_contents_length in Hl. apply (full_iff r Hwf) in Hl.
  unfold push. by rewrite Hl, Nat.eqb_refl.
Qed.

Lemma spsc_push_accept r x : wf r -> (length (contents r) < Capacity - 1)%nat ->
  exists r', push x r = (true, r') /\ wf r' /\ contents r' = contents r ++ [x].
Proof.
  intros Hwf Hl. pose proof (full_iff r Hwf) as Hfull. destruct Hwf as [Hh Ht].
  rewrite spsc_contents_length in Hl.
  destruct (count_spec _ _ Hh Ht) as (L & E & _). fold (count r) in *. unfold push.
  destruct (Nat.eqb_spec ((tail_ix r + 1) mod Capacity) (head_ix r)) as [F|F]; [lia|].
  eexists; split; [done|]. split.
  { split; simpl; [done|]. apply Nat.mod_upper_bound. lia. }
  unfold contents at 1, count at 1. simpl.
  replace (((tail_ix r + 1) mod Capacity + Capacity - head_ix r) mod Capacity)%nat
    with (S (count r)).
  2:{ rewrite E, Nat.Div0.add_mod_idemp_l.
      replace (head_ix r + count r + 1)%nat with (head_ix r + S (count r))%nat by lia.
      symmetry. apply count_unique; [done|]. lia. }
  unfold contents. rewrite <- (window_write Capacity) by lia.
  apply window_ext. intros k _. by rewrite aget_set, <- E.
Qed.

Lemma spsc_pop_refines r : wf r ->
  wf (snd (pop r)) /\ fst (pop r) = head (contents r) /\
  contents (snd (pop r)) = tail (contents r).
Proof.
  intros [Hh Ht]. destruct (count_spec _ _ Hh Ht) as (L & E & Hz). fold (count r) in *.
  unfold pop. destruct (Nat.eqb_spec (head_ix r) (tail_ix r)) as [F|F]; simpl.
  - unfold contents. rewrite (proj2 Hz F). done.
  - assert (exists n, count r = S n) as [n Hn] by (exists (count r - 1)%nat; lia).
    unfold contents at 1 3. rewrite Hn, (window_cons Capacity). simpl.
    rewrite (Nat.mod_small (head_ix r)) by done.
    split; [split; simpl; [apply Nat.mod_upper_bound; lia|done]|]. split; [done|].
    unfold contents, count. simpl. f_equal. rewrite E, Hn.
    replace (head_ix r + S n)%nat with (head_ix r + 1 + n)%nat by lia.
    rewrite <- Nat.Div0.add_mod_idemp_l. apply count_unique; [|lia].
    apply Nat.mod_upper_bound. lia.
Qed.
End Spsc.
Arguments t : clear implicits.
End SpscRingBuffer.

#[global] Instance spsc_fifo {T} (d : T) (Capacity : nat) :
  Fifo (SpscRingBuffer.t T) T := {|
  fq_ok := SpscRingBuffer.wf Capacity;
  fq_list := SpscRingBuffer.contents d Capacity;
  fq_cap := (Capacity - 1)%nat;
  fq_fits := fun _ => true;
  fq_push := SpscRingBuffer.push Capacity;
  fq_front := fun r => fst (SpscRingBuffer.pop d Capacity r);
  fq_pop := fun r => snd (SpscRingBuffer.pop d Capacity r)
|}.

(** [SpscRingBuffer<T, Capacity>] is a FIFO of at most [Capacity - 1] elements:
    one slot tells a full ring from an empty one. *)
Lemma spsc_fifo_laws {T} (d : T) (Capacity : nat) :
  (1 < Capacity)%nat -> @FifoLaws _ _ (spsc_fifo d Capacity).
Proof.
  intros HC. split; simpl.
  - intros q a Hok _ Hl. by apply SpscRingBuffer.spsc_push_accept.
  - intros q a Hok [|Hl]; [done|]. by eapply SpscRingBuffer.push_refuse.
  - intros q Hok. by apply SpscRingBuffer.spsc_pop_refines.
  - intros q Hok. by apply SpscRingBuffer.spsc_pop_refines.
  - intros q Hok. by apply SpscRingBuffer.spsc_pop_refines.
  - intros q Hok. by apply SpscRingBuffer.contents_bounded.
Qed.

(** * ZeroAllocRingBuffer<Capacity> *)
Module ZeroAllocRingBuffer.
Section ZeroAlloc.
Context (Capacity : nat).

Record PacketSlot := MkSlot { size : Z; payload : list Z }.
Definition slot0 : PacketSlot := MkSlot 0 (replicate 2048 0).

Record t := Mk { pool : gmap nat PacketSlot; head_ix : nat; tail_ix : nat; count : nat }.
Definition init : t := Mk ∅ 0 0 0.

(** [memcpy] into the slot leaves the rest of its old payload behind. *)
Definition push (pkt : list Z) (q : t) : bool * t :=
  if (count q =? Capacity)%nat || (2048 <? length pkt)%nat then (false, q)
  else
    let slot := aget slot0 (pool q) (tail_ix q) in
    let slot' := MkSlot (u16 (Z.of_nat (length pkt)))
                        (pkt ++ drop (length pkt) (payload slot)) in
    (true, Mk (aset (pool q) (tail_ix q) slot') (head_ix q)
              ((tail_ix q + 1) mod Capacity) (count q + 1)).

Definition slot_view (s : PacketSlot) : list Z := take (Z.to_nat (size s)) (payload s).

(** An empty span when there is nothing queued. *)
Definition front (q : t) : list Z :=
  if (count q =? 0)%nat then []
  else slot_view (aget slot0 (pool q) (head_ix q)).

Definition pop (q : t) : t :=
  if (0 <? count q)%nat
  then Mk (pool q) ((head_ix q + 1) mod Capacity) (tail_ix q) (count q - 1)
  else q.

Definition empty (q : t) : bool := (count q =? 0)%nat.

Definition contents (q : t) : list (list Z) :=
  window Capacity (fun i => slot_view (aget slot0 (pool q) i)) (head_ix q) (count q).
Definition wf (q : t) : Prop :=
  (head_ix q < Capacity)%nat /\ (count q <= Capacity)%nat /\
  tail_ix q = ((head_ix q + count q) mod Capacity)%nat.

Lemma za_contents_length q : length (contents q) = count q.
Proof. apply window_length. Qed.

Lemma za_push_accept q pkt : wf q -> (length pkt <= 2048)%nat -> (count q < Capacity)%nat ->
  exists q', push pkt q = (true, q') /\ wf q' /\ contents q' = contents q ++ [pkt].
Proof.
  intros (Hh & Hc & Ht) Hp Hn. unfold push.
  destruct (Nat.eqb_spec (count q) Capacity); [lia|].
  destruct (Nat.ltb_spec 2048 (length pkt)); [lia|]. simpl.
  eexists; split; [done|]. split.
  { split; [done|]. simpl. split; [lia|]. rewrite Ht, Nat.Div0.add_mod_idemp_l.
    f_equal. lia. }
  unfold contents at 1. simpl. rewrite Nat.add_1_r. unfold contents.
  rewrite <- (window_write Capacity) by lia. apply window_ext. intros k _.
  rewrite aget_set, <- Ht. case_decide; [|done]. unfold slot_view. simpl.
  rewrite u16_id by wordlia. rewrite Nat2Z.id. by rewrite take_app_length.
Qed.

Lemma front_head q : wf q -> front q = default [] (head (contents q)).
Proof.
  intros (Hh & Hc & Ht). unfold front, contents.
  destruct (Nat.eqb_spec (count q) 0) as [->|Hne]; [done|].
  assert (exists n, count q = S n) as [n ->] by (exists (count q - 1)%nat; lia).
  rewrite window_cons. simpl. by rewrite Nat.mod_small.
Qed.

Lemma za_pop_refines q : wf q -> wf (pop q) /\ contents (pop q) = tail (contents q).
Proof.
  intros (Hh & Hc & Ht). unfold pop. destruct (Nat.ltb_spec 0 (count q)) as [Hn|Hn].
  - assert (exists n, count q = S n) as [n E] by (exists (count q - 1)%nat; lia).
    unfold wf, contents at 2. rewrite E, window_cons. simpl. rewrite Nat.sub_0_r.
    split; [|done]. split; [apply Nat.mod_upper_bound; lia|]. split; [lia|].
    rewrite Nat.Div0.add_mod_idemp_l, Ht, E. f_equal. lia.
  - split; [done|]. unfold contents. by replace (count q) with 0%nat by lia.
Qed.
End ZeroAlloc.
End ZeroAllocRingBuffer.

#[global] Instance zeroalloc_fifo (Capacity : nat) : Fifo ZeroAllocRingBuffer.t (list Z) := {|
  fq_ok := ZeroAllocRingBuffer.wf Capacity;
  fq_list := ZeroAllocRingBuffer.contents Capacity;
  fq_cap := Capacity;
  fq_fits := fun pkt => (length pkt <=? 2048)%nat;
  fq_push := ZeroAllocRingBuffer.push Capacity;
  fq_front := fun q => if ZeroAllocRingBuffer.empty q then None
                       else Some (ZeroAllocRingBuffer.front q);
  fq_pop := ZeroAllocRingBuffer.pop Capacity
|}.

Lemma zeroalloc_fifo_laws (Capacity : nat) : @FifoLaws _ _ (zeroalloc_fifo Capacity).
Proof.
  split; simpl.
  - intros q a Hok Ha Hl. rewrite ZeroAllocRingBuffer.za_contents_length in Hl.
    apply ZeroAllocRingBuffer.za_push_accept; [done|boollia|done].
  - intros q a Hok Hf. rewrite ZeroAllocRingBuffer.za_contents_length in Hf.
    unfold ZeroAllocRingBuffer.push. rewrite Nat.ltb_antisym.
    destruct Hf as [Hf|Hf]; rewrite Hf; [by rewrite orb_true_r|by rewrite Nat.eqb_refl].
  - intros q Hok. unfold ZeroAllocRingBuffer.empty.
    pose proof (ZeroAllocRingBuffer.za_contents_length Capacity q) as Hl.
    rewrite (ZeroAllocRingBuffer.front_head Capacity q Hok).
    destruct (ZeroAllocRingBuffer.contents Capacity q); simpl in *; by rewrite <- Hl.
  - intros q Hok. by apply ZeroAllocRingBuffer.za_pop_refines.
  - intros q Hok. by apply ZeroAllocRingBuffer.za_pop_refines.
  - intros q Hok. rewrite ZeroAllocRingBuffer.za_contents_length. apply Hok.
Qed.

(** A finite sequence of operations on a queue, and what an ideal bounded FIFO
    answers to it: pushes report acceptance, pops return the oldest element. *)
Inductive fifo_op (A : Type) := OpPush (a : A) | OpPop.
Arguments OpPush {A}. Arguments OpPop {A}.
Inductive fifo_answer (A : Type) := Pushed (ok : bool) | Popped (a : option A).
Arguments Pushed {A}. Arguments Popped {A}.

Fixpoint fifo_run {Q A} `{Fifo Q A} (ops : list (fifo_op A)) (q : Q) :
  list (fifo_answer A) * Q :=
  match ops with
  | [] => ([], q)
  | OpPush a :: ops' =>
      let '(ok, q1) := fq_push a q in
      let '(rs, q2) := fifo_run ops' q1 in (Pushed ok :: rs, q2)
  | OpPop :: ops' =>
      let '(rs, q2) := fifo_run ops' (fq_pop q) in (Popped (fq_front q) :: rs, q2)
  end.

Fixpoint ideal_run {A} (cap : nat) (fits : A -> bool) (ops : list (fifo_op A)) (l : list A) :
  list (fifo_answer A) * list A :=
  match ops with
  | [] => ([], l)
  | OpPush a :: ops' =>
      let ok := fits a && (length l <? cap)%nat in
      let '(rs, l2) := ideal_run cap fits ops' (if ok then l ++ [a] else l) in
      (Pushed ok :: rs, l2)
  | OpPop :: ops' =>
      let '(rs, l2) := ideal_run cap fits ops' (tail l) in (Popped (head l) :: rs, l2)
  end.

(** Functional refinement of any implementation of the interface. *)
Lemma fifo_refines {Q A} `{FifoLaws Q A} ops (q : Q) : fq_ok q ->
  fst (fifo_run ops q) = fst (ideal_run fq_cap fq_fits ops (fq_list q)) /\
  fq_list (snd (fifo_run ops q)) = snd (ideal_run fq_cap fq_fits ops (fq_list q)) /\
  fq_ok (snd (fifo_run ops q)).
Proof.
  revert q. induction ops as [|[a|] ops IH]; intros q Hok; simpl; [done| |].
  - destruct (fq_fits a && (length (fq_list q) <? fq_cap)%nat) eqn:E.
    + bool2prop. destruct (fq_push_accept q a) as (q' & -> & Hok' & Hl); [done..|].
      specialize (IH q' Hok'). rewrite Hl in IH.
      destruct (fifo_run ops q'), (ideal_run _ _ _ _). simpl in *. naive_solver.
    + rewrite fq_push_refuse.
      * specialize (IH q Hok).
        destruct (fifo_run ops q), (ideal_run _ _ _ _). simpl in *. naive_solver.
      * done.
      * pose proof (fq_bounded q Hok). apply andb_false_iff in E as [E|E]; [by left|right].
        bool2prop. lia.
  - specialize (IH (fq_pop q) (fq_pop_ok q Hok)). rewrite fq_pop_tail in IH by done.
    rewrite fq_front_head by done.
    destruct (fifo_run ops (fq_pop q)), (ideal_run _ _ _ _). simpl in *. naive_solver.
Qed.

Lemma zeroalloc_init_ok n : (0 < n)%nat ->
  ZeroAllocRingBuffer.wf n ZeroAllocRingBuffer.init.
Proof.
  intros Hn. unfold ZeroAllocRingBuffer.wf. simpl. rewrite Nat.Div0.mod_0_l. lia.
Qed.
Lemma spsc_empty_contents {T} (d : T) n :
  SpscRingBuffer.contents d n SpscRingBuffer.empty = [].
Proof.
  unfold SpscRingBuffer.contents, SpscRingBuffer.count. simpl.
  by rewrite Nat.sub_0_r, Nat.Div0.mod_same.
Qed.

(** Both ring buffers are bounded FIFO queues. For every sequence of pushes
    and pops, a packet ring of [n + 1] slots (the shaper's has 8192) answers
    exactly like an ideal queue of [n + 1] packets of at most 2048 bytes, and an
    SPSC ring of [n + 2] slots like an ideal queue of [n + 1] elements: no
    element is lost, duplicated, reordered or torn, and a push is refused
    exactly when the queue is full (or the packet too long). *)
Lemma rings_refine_fifo (n : nat) :
  (forall ops,
     fst (fifo_run (H := zeroalloc_fifo (S n)) ops ZeroAllocRingBuffer.init)
     = fst (ideal_run (S n) (fun pkt => (length pkt <=? 2048)%nat) ops [])) /\
  (forall (T : Type) (d : T) ops,
     fst (fifo_run (H := spsc_fifo d (S (S n))) ops SpscRingBuffer.empty)
     = fst (ideal_run (S n) (fun _ => true) ops [])).
Proof.
  split.
  - intros ops. pose proof (zeroalloc_fifo_laws (S n)).
    apply (fifo_refines (H := zeroalloc_fifo (S n))). apply zeroalloc_init_ok. lia.
  - intros T d ops. pose proof (spsc_fifo_laws d (S (S n)) ltac:(lia)).
    assert (fq_ok (Fifo := spsc_fifo d (S (S n))) SpscRingBuffer.empty) as Hok.
    { simpl. unfold SpscRingBuffer.wf. simpl. lia. }
    destruct (fifo_refines (H := spsc_fifo d (S (S n))) ops _ Hok) as [E _]. rewrite E.
    cbn [fq_list spsc_fifo]. by rewrite spsc_empty_contents.
Qed.
