(* ===== verification/SpscConc.v ===== *)
(** The lock-free protocol of [SpscRingBuffer] under interleaving.

    One producer and one consumer thread run [push] and [pop] in a loop; every
    shared access of the two bodies (load, store, slot copy) is one step, and
    the steps interleave arbitrarily. The acquire/release pairs of the source
    order exactly these accesses, so a sequentially consistent interleaving is
    the semantics the code relies on. *)
From Stdlib Require Import ZArith Lia.
From stdpp Require Import base list gmap numbers relations.
From S2P Require Import Prelude Rings.

Section SpscConc.
Context {T : Type} (d : T) (Capacity : nat) (HC : (1 < Capacity)%nat).

(** Where a thread is inside [push]: idle, [tail] loaded, fullness test
    passed, slot written. *)
Inductive push_pc :=
| PIdle
| PLoaded (item : T) (current_tail : nat)
| PChecked (item : T) (current_tail : nat)
| PWritten (item : T) (current_tail : nat).
(** Inside [pop]: idle, [head] loaded, emptiness test passed, slot read. *)
Inductive pop_pc :=
| CIdle
| CLoaded (current_head : nat)
| CChecked (current_head : nat)
| CRead (current_head : nat) (item : T).

(** Shared memory, the two program counters, and the histories of completed
    pushes and pops (ghost state). *)
Record conf := Conf {
  c_buf : gmap nat T; c_head : nat; c_tail : nat;
  c_prod : push_pc; c_cons : pop_pc;
  c_pushed : list T; c_popped : list T }.

Inductive spsc_step : conf -> conf -> Prop :=
| st_push_load item b h t c pu po :
    spsc_step (Conf b h t PIdle c pu po) (Conf b h t (PLoaded item t) c pu po)
| st_push_full item ct b h t c pu po :
    ((ct + 1) mod Capacity)%nat = h ->
    spsc_step (Conf b h t (PLoaded item ct) c pu po) (Conf b h t PIdle c pu po)
| st_push_check item ct b h t c pu po :
    ((ct + 1) mod Capacity)%nat <> h ->
    spsc_step (Conf b h t (PLoaded item ct) c pu po) (Conf b h t (PChecked item ct) c pu po)
| st_push_write item ct b h t c pu po :
    spsc_step (Conf b h t (PChecked item ct) c pu po)
              (Conf (aset b ct item) h t (PWritten item ct) c pu po)
| st_push_publish item ct b h t c pu po :
    spsc_step (Conf b h t (PWritten item ct) c pu po)
              (Conf b h ((ct + 1) mod Capacity) PIdle c (pu ++ [item]) po)
| st_pop_load b h t p pu po :
    spsc_step (Conf b h t p CIdle pu po) (Conf b h t p (CLoaded h) pu po)
| st_pop_empty ch b h t p pu po :
    ch = t -> spsc_step (Conf b h t p (CLoaded ch) pu po) (Conf b h t p CIdle pu po)
| st_pop_check ch b h t p pu po :
    ch <> t -> spsc_step (Conf b h t p (CLoaded ch) pu po) (Conf b h t p (CChecked ch) pu po)
| st_pop_read ch b h t p pu po :
    spsc_step (Conf b h t p (CChecked ch) pu po)
              (Conf b h t p (CRead ch (aget d b ch)) pu po)
| st_pop_publish ch x b h t p pu po :
    spsc_step (Conf b h t p (CRead ch x) pu po)
              (Conf b ((ch + 1) mod Capacity) t p CIdle pu (po ++ [x])).

Definition conf0 : conf := Conf ∅ 0 0 PIdle CIdle [] [].


(** What each program counter knows about the shared indices. *)
Definition prod_inv (s : conf) (n : nat) : Prop :=
  match c_prod s with
  | PIdle => True
  | PLoaded _ t => t = c_tail s
  | PChecked _ t => t = c_tail s /\ (n < Capacity - 1)%nat
  | PWritten x t => t = c_tail s /\ (n < Capacity - 1)%nat /\ aget d (c_buf s) t = x
  end.
Definition cons_inv (s : conf) (n : nat) : Prop :=
  match c_cons s with
  | CIdle => True
  | CLoaded h => h = c_head s
  | CChecked h => h = c_head s /\ (0 < n)%nat
  | CRead h x => h = c_head s /\ (0 < n)%nat /\ x = aget d (c_buf s) h
  end.
Definition spsc_inv (s : conf) : Prop :=
  (c_head s < Capacity)%nat /\ exists n,
  (n < Capacity)%nat /\ c_tail s = ((c_head s + n) mod Capacity)%nat /\
  c_pushed s = c_popped s ++ window Capacity (aget d (c_buf s)) (c_head s) n /\
  prod_inv s n /\ cons_inv s n.

Lemma slot_ne h n k : (n < Capacity)%nat -> (k < n)%nat ->
  ((h + n) mod Capacity <> (h + k) mod Capacity)%nat.
Proof. intros Hn Hk E%window_slot_inj; lia. Qed.

Lemma next_not_full h n : (h < Capacity)%nat -> (n < Capacity)%nat ->
  (((h + n) mod Capacity + 1) mod Capacity <> h)%nat -> (n < Capacity - 1)%nat.
Proof.
  intros Hh Hn Hne. destruct (Nat.eq_dec n (Capacity - 1)%nat) as [->|]; [|lia].
  exfalso. apply Hne. rewrite Nat.Div0.add_mod_idemp_l.
  replace (h + (Capacity - 1) + 1)%nat with (h + 1 * Capacity)%nat by lia.
  by rewrite Nat.Div0.mod_add, Nat.mod_small.
Qed.

(** Writing the tail slot leaves the published window alone. *)
Lemma window_tail_write b h n x : (n < Capacity)%nat ->
  window Capacity (aget d (aset b ((h + n) mod Capacity)%nat x)) h n
  = window Capacity (aget d b) h n.
Proof.
  intros Hn. apply window_ext. intros k Hk. apply aget_set_ne. by apply slot_ne.
Qed.

Lemma spsc_inv_step a b : spsc_inv a -> spsc_step a b -> spsc_inv b.
Proof.
  intros (Hh & n & Hn & Ht & Hpu & Hp & Hc) Hs. unfold spsc_inv.
  destruct Hs; unfold prod_inv, cons_inv in *; simpl in *; subst; try (split; [done|]).
  - exists n. auto.
  - exists n. auto.
  - exists n. split_and!; try done. by apply (next_not_full h).
  - exists n. destruct Hp as [-> Hp]. rewrite window_tail_write by done.
    split_and!; try done; [by apply aget_set_eq|].
    destruct c as [| | |ch x]; try done. destruct Hc as (-> & Hn0 & ->).
    split_and!; try done. rewrite aget_set_ne; [done|].
    intros E. apply (slot_ne h n 0); [lia|lia|]. by rewrite Nat.add_0_r, (Nat.mod_small h).
  - exists (S n). destruct Hp as (-> & Hp & <-). rewrite window_snoc.
    split_and!; try lia.
    + rewrite Nat.Div0.add_mod_idemp_l. f_equal. lia.
    + by rewrite <- app_assoc.
    + destruct c; naive_solver lia.
  - exists n. auto.
  - exists n. split_and!; auto.
  - exists n. split_and!; try done. destruct n; [|lia].
    rewrite Nat.add_0_r, Nat.mod_small in * by done. done.
  - exists n. naive_solver.
  - destruct Hc as (-> & Hn0 & ->). destruct n as [|n]; [lia|].
    split; [apply Nat.mod_upper_bound; lia|]. exists n. rewrite window_cons.
    rewrite (Nat.mod_small h) by done. split_and!; try lia.
    + rewrite Nat.Div0.add_mod_idemp_l. f_equal. lia.
    + by rewrite <- app_assoc.
    + destruct p; naive_solver lia.
Qed.

Lemma spsc_inv0 : spsc_inv conf0.
Proof.
  split; simpl; [lia|]. exists 0%nat. simpl. rewrite Nat.Div0.mod_0_l.
  split_and!; try done. lia.
Qed.

Lemma spsc_inv_reachable s : rtc spsc_step conf0 s -> spsc_inv s.
Proof. apply rtc_invariant; [apply spsc_inv_step|apply spsc_inv0]. Qed.
End SpscConc.

(** C12: the SPSC ring is correct under every interleaving of its producer and
    consumer. In every reachable state of the protocol the values popped are a
    prefix of the values pushed (first in, first out, nothing lost, duplicated
    or torn), at most [Capacity - 1] of them are in flight, and when the
    producer is about to write a slot while the consumer is about to read one,
    the two slots are different: the unsynchronised copies of the elements
    never race. *)
Theorem spsc_interleaving_safe (T : Type) (d : T) (Capacity : nat) (HC : (1 < Capacity)%nat)
    (s : conf) (Hreach : rtc (spsc_step d Capacity) conf0 s) :
  (exists in_flight, c_pushed s = c_popped s ++ in_flight /\
                     (length in_flight <= Capacity - 1)%nat) /\
  (forall item t h, c_prod s = PChecked item t -> c_cons s = CChecked h -> t <> h).
Proof.
  destruct (spsc_inv_reachable d Capacity HC s Hreach) as (Hh & n & Hn & Ht & Hpu & Hp & Hc).
  split.
  - eexists; split; [exact Hpu|]. rewrite window_length. lia.
  - intros item t h Ep Ec. unfold prod_inv, cons_inv in *. rewrite Ep in Hp. rewrite Ec in Hc.
    destruct Hp as [-> _], Hc as [-> Hn0]. rewrite Ht. intros E.
    apply (slot_ne Capacity HC (c_head s) n 0); [lia..|].
    by rewrite Nat.add_0_r, (Nat.mod_small (c_head s)).
Qed.

Lemma spsc_interleaving_safe_witness :
  exists s : @conf Z, rtc (spsc_step 0 2) conf0 s /\ c_pushed s = [7] /\ c_popped s = [7] /\
  exists in_flight, c_pushed s = c_popped s ++ in_flight /\ (length in_flight <= 2 - 1)%nat.
Proof.
  assert (rtc (spsc_step 0 2) conf0 (Conf {[0%nat := 7]} 1 1 PIdle CIdle [7] [7])) as Hr.
  { eapply rtc_l; [apply (st_push_load 0 2 7)|]. eapply rtc_l; [by apply st_push_check|].
    eapply rtc_l; [apply st_pop_load|]. eapply rtc_l; [apply st_push_write|].
    eapply rtc_l; [apply st_push_publish|]. eapply rtc_l; [by apply st_pop_check|].
    eapply rtc_l; [apply st_pop_read|]. eapply rtc_l; [apply st_pop_publish|].
    apply rtc_refl. }
  eexists. split; [exact Hr|]. split; [done|]. split; [done|].
  exact (proj1 (spsc_interleaving_safe Z 0 2 ltac:(lia) _ Hr)).
Defined.
