(* ===== verification/Double.v ===== *)
(** IEEE-754 binary64 arithmetic as the token bucket uses it.

    A [double] is the rational it denotes and every operation is the exact
    result rounded to the nearest number with a 53-bit significand, ties to
    even. The exponent is unbounded: the rates, capacities, token counts and
    elapsed times of the program stay far from the binary64 overflow and
    subnormal ranges, and no operation of it produces a NaN or an infinity. *)
From Stdlib Require Import ZArith Lia QArith Qround Qpower Lqa.
From stdpp Require Import base numbers.
From S2P Require Import Prelude.
#[local] Open Scope Q_scope.

(** Exponent of the leading binary digit of a positive rational. *)
Definition ilog2 (x : Q) : Z :=
  let e := (Z.log2 (Qnum x) - Z.log2 (Zpos (Qden x)))%Z in
  if Qle_bool (2 ^ e) x then e else (e - 1)%Z.

(** Nearest integer, ties to even. *)
Definition nearest_even (m : Q) : Z :=
  let f := Qfloor m in
  match Qcompare (m - inject_Z f) (1 # 2) with
  | Lt => f
  | Gt => (f + 1)%Z
  | Eq => if Z.even f then f else (f + 1)%Z
  end.

Definition round_pos (x : Q) : Q :=
  let ulp := 2 ^ (ilog2 x - 52) in
  Qred (inject_Z (nearest_even (x / ulp)) * ulp).

(** Rounding to binary64. *)
Definition rnd (x : Q) : Q :=
  match Qcompare x 0 with
  | Eq => 0
  | Gt => round_pos x
  | Lt => - round_pos (- x)
  end.

Definition dadd (x y : Q) : Q := rnd (x + y).
Definition dsub (x y : Q) : Q := rnd (x - y).
Definition dmul (x y : Q) : Q := rnd (x * y).
Definition ddiv (x y : Q) : Q := rnd (x / y).
(** Conversion of an integer and a decimal literal. *)
Definition d_of_Z (z : Z) : Q := rnd (inject_Z z).
(** [std::min(a, b)] and [std::max(a, b)]: the first unless the second is
    strictly smaller (greater). *)
Definition dmin (a b : Q) : Q := if Qlt_le_dec b a then b else a.
Definition dmax (a b : Q) : Q := if Qlt_le_dec a b then b else a.

(** Unit roundoff. *)
Definition unit_roundoff : Q := 1 # (2 ^ 53).

Lemma injZ_le a b : (a <= b)%Z -> inject_Z a <= inject_Z b.
Proof. by rewrite Zle_Qle. Qed.
Lemma injZ_lt a b : (a < b)%Z -> inject_Z a < inject_Z b.
Proof. by rewrite Zlt_Qlt. Qed.

(** ** Powers of two *)
Lemma pow2_pos e : 0 < 2 ^ e.
Proof. apply Qpower_0_lt. lra. Qed.
Lemma pow2_plus a b : 2 ^ (a + b) == 2 ^ a * 2 ^ b.
Proof. apply Qpower_plus. lra. Qed.
Lemma pow2_inject n : (0 <= n)%Z -> 2 ^ n == inject_Z (2 ^ n).
Proof. intros Hn. change 2 with (inject_Z 2). by rewrite Zpower_Qpower. Qed.
Lemma pow2_mono a b : (a <= b)%Z -> 2 ^ a <= 2 ^ b.
Proof.
  intros Hab. replace b with (a + (b - a))%Z by lia. rewrite pow2_plus.
  rewrite (pow2_inject (b - a)) by lia. pose proof (pow2_pos a).
  assert (1 <= inject_Z (2 ^ (b - a))).
  { change 1 with (inject_Z 1). apply injZ_le. pose proof (Z.pow_pos_nonneg 2 (b - a)). lia. }
  nra.
Qed.
Lemma pow2_lt_inv a b : 2 ^ a < 2 ^ b -> (a < b)%Z.
Proof.
  intros H. destruct (Z.lt_ge_cases a b); [done|]. pose proof (pow2_mono b a ltac:(lia)). lra.
Qed.

(** ** The exponent *)
Lemma ilog2_spec x : 0 < x -> 2 ^ ilog2 x <= x < 2 ^ (ilog2 x + 1).
Proof.
  intros Hx. destruct x as [n d]. unfold ilog2. cbv zeta. cbn [Qnum Qden].
  assert (0 < n)%Z as Hn by (unfold Qlt in Hx; simpl in Hx; lia).
  pose proof (Z.log2_spec n Hn) as [Hn1 Hn2].
  pose proof (Z.log2_spec (Zpos d) ltac:(lia)) as [Hd1 Hd2].
  pose proof (Z.log2_nonneg n). pose proof (Z.log2_nonneg (Zpos d)).
  set (a := Z.log2 n) in *. set (b := Z.log2 (Zpos d)) in *.
  assert (n # d == inject_Z n / inject_Z (Zpos d)) as E by (rewrite Qmake_Qdiv; done).
  apply injZ_le in Hn1, Hd1. apply injZ_lt in Hn2, Hd2.
  rewrite <- pow2_inject in Hn1, Hn2, Hd1, Hd2 by lia. unfold Z.succ in *.
  set (N := inject_Z n) in *. set (D := inject_Z (Zpos d)) in *.
  pose proof (pow2_pos b). pose proof (pow2_pos (a - b)).
  assert (0 < D) by lra.
  assert (2 ^ a == 2 ^ (a - b) * 2 ^ b) as Ea.
  { rewrite <- pow2_plus. by replace (a - b + b)%Z with a by lia. }
  rewrite pow2_plus in Hn2, Hd2. change (2 ^ 1) with 2 in *.
  assert (N / D < 2 ^ (a - b + 1)) as Hup.
  { rewrite pow2_plus. change (2 ^ 1) with 2. apply Qlt_shift_div_r; [done|]. nra. }
  destruct (Qle_bool (2 ^ (a - b)) (n # d)) eqn:L.
  - apply Qle_bool_iff in L. lra.
  - assert (~ 2 ^ (a - b) <= n # d) as L'.
    { intros L2. apply Qle_bool_iff in L2. congruence. }
    apply Qnot_le_lt in L'.
    replace (a - b - 1 + 1)%Z with (a - b)%Z by lia. split; [rewrite E|done].
    assert (2 ^ (a - b) == 2 ^ (a - b - 1) * 2) as Eb.
    { change 2 with (2 ^ 1) at 3. rewrite <- pow2_plus.
      by replace (a - b - 1 + 1)%Z with (a - b)%Z by lia. }
    pose proof (pow2_pos (a - b - 1)). apply Qle_shift_div_l; [done|]. nra.
Qed.

Lemma ilog2_unique x e : 0 < x -> 2 ^ e <= x < 2 ^ (e + 1) -> ilog2 x = e.
Proof.
  intros Hx He. pose proof (ilog2_spec x Hx).
  assert (e < ilog2 x + 1)%Z by (apply pow2_lt_inv; lra).
  assert (ilog2 x < e + 1)%Z by (apply pow2_lt_inv; lra). lia.
Qed.

(** ** Nearest integer *)
Lemma nearest_even_bounds m :
  m - (1 # 2) <= inject_Z (nearest_even m) <= m + (1 # 2).
Proof.
  unfold nearest_even. pose proof (Qfloor_le m). pose proof (Qlt_floor m) as L.
  rewrite inject_Z_plus in L. change (inject_Z 1) with 1 in L.
  destruct (Qcompare_spec (m - inject_Z (Qfloor m)) (1 # 2)); [case_match|..];
    rewrite ?inject_Z_plus; change (inject_Z 1) with 1; lra.
Qed.

#[global] Instance nearest_even_proper : Proper (Qeq ==> eq) nearest_even.
Proof.
  intros x y E. unfold nearest_even. rewrite (Qfloor_comp x y E).
  assert (Qcompare (x - inject_Z (Qfloor y)) (1 # 2) =
          Qcompare (y - inject_Z (Qfloor y)) (1 # 2)) as ->; [|done].
  apply Qcompare_comp; [by rewrite E|done].
Qed.

Lemma nearest_even_Z z : nearest_even (inject_Z z) = z.
Proof.
  unfold nearest_even. rewrite Qfloor_Z.
  destruct (Qcompare_spec (inject_Z z - inject_Z z) (1 # 2)); [lra|done|lra].
Qed.

Lemma nearest_even_mono x y : x <= y -> (nearest_even x <= nearest_even y)%Z.
Proof.
  intros Hxy. pose proof (nearest_even_bounds x) as Bx. pose proof (nearest_even_bounds y) as By.
  destruct (Z.le_gt_cases (nearest_even x) (nearest_even y)) as [|L]; [done|].
  assert (nearest_even y + 1 <= nearest_even x)%Z as L' by lia.
  apply injZ_le in L'. rewrite inject_Z_plus in L'. change (inject_Z 1) with 1 in L'.
  assert (x == y) as E by lra. rewrite E. lia.
Qed.

(** ** Rounding *)
Lemma round_pos_eq x : round_pos x ==
  inject_Z (nearest_even (x / 2 ^ (ilog2 x - 52))) * 2 ^ (ilog2 x - 52).
Proof. apply Qred_correct. Qed.

Lemma rnd_pos x : 0 < x -> rnd x = round_pos x.
Proof. intros Hx. unfold rnd. by rewrite (proj1 (Qgt_alt x 0) Hx). Qed.
Lemma rnd_0 x : x == 0 -> rnd x = 0.
Proof. intros Hx. unfold rnd. by rewrite (proj1 (Qeq_alt x 0) Hx). Qed.

(** The scaled significand of a positive number lies in [2^52, 2^53). *)
Lemma scaled_range x : 0 < x ->
  2 ^ 52 <= x / 2 ^ (ilog2 x - 52) < 2 ^ 53.
Proof.
  intros Hx. destruct (ilog2_spec x Hx) as [L U]. pose proof (pow2_pos (ilog2 x - 52)).
  split.
  - apply Qle_shift_div_l; [done|]. rewrite <- pow2_plus.
    by replace (52 + (ilog2 x - 52))%Z with (ilog2 x) by lia.
  - apply Qlt_shift_div_r; [done|]. rewrite <- pow2_plus.
    by replace (53 + (ilog2 x - 52))%Z with (ilog2 x + 1)%Z by lia.
Qed.
Lemma significand_range x : 0 < x ->
  (2 ^ 52 <= nearest_even (x / 2 ^ (ilog2 x - 52)) <= 2 ^ 53)%Z.
Proof.
  intros Hx. destruct (scaled_range x Hx) as [L U]. split.
  - rewrite <- (nearest_even_Z (2 ^ 52)). apply nearest_even_mono. by rewrite <- pow2_inject by lia.
  - rewrite <- (nearest_even_Z (2 ^ 53)). apply nearest_even_mono.
    rewrite <- pow2_inject by lia. by apply Qlt_le_weak.
Qed.
Lemma round_pos_range x : 0 < x -> 2 ^ ilog2 x <= round_pos x <= 2 ^ (ilog2 x + 1).
Proof.
  intros Hx. destruct (significand_range x Hx) as [L U]. rewrite round_pos_eq.
  apply injZ_le in L, U. rewrite <- pow2_inject in L, U by lia.
  pose proof (pow2_pos (ilog2 x - 52)).
  replace (ilog2 x) with (52 + (ilog2 x - 52))%Z at 1 by lia.
  replace (ilog2 x + 1)%Z with (53 + (ilog2 x - 52))%Z by lia.
  rewrite !pow2_plus. split; by apply Qmult_le_compat_r; [|apply Qlt_le_weak].
Qed.

Lemma ilog2_proper_pos x y : 0 < x -> x == y -> ilog2 x = ilog2 y.
Proof.
  intros Hx E. symmetry. apply ilog2_unique; [by rewrite <- E|].
  rewrite <- E. by apply ilog2_spec.
Qed.

#[global] Instance rnd_proper : Proper (Qeq ==> Qeq) rnd.
Proof.
  assert (forall x y, 0 < x -> x == y -> round_pos x == round_pos y) as Hp.
  { intros x y Hx E. rewrite !round_pos_eq, <- (ilog2_proper_pos x y Hx E).
    generalize (2 ^ (ilog2 x - 52)). intros q. by rewrite E. }
  intros x y E. unfold rnd. rewrite <- (Qcompare_comp x y E 0 0 (Qeq_refl 0)).
  destruct (Qcompare_spec x 0); [done| |by apply Hp].
  rewrite (Hp (- x) (- y)); [done|lra|by rewrite E].
Qed.
#[global] Instance dadd_proper : Proper (Qeq ==> Qeq ==> Qeq) dadd.
Proof. intros x x' E y y' E'. unfold dadd. by rewrite E, E'. Qed.
#[global] Instance dmul_proper : Proper (Qeq ==> Qeq ==> Qeq) dmul.
Proof. intros x x' E y y' E'. unfold dmul. by rewrite E, E'. Qed.

Lemma rnd_nonneg x : 0 <= x -> 0 <= rnd x.
Proof.
  intros Hx. destruct (Qle_lt_or_eq 0 x Hx) as [L|E].
  - rewrite rnd_pos by done. pose proof (round_pos_range x L). pose proof (pow2_pos (ilog2 x)). lra.
  - rewrite rnd_0; [lra|lra].
Qed.

Lemma rnd_mono x y : 0 <= x -> x <= y -> rnd x <= rnd y.
Proof.
  intros Hx Hxy. destruct (Qle_lt_or_eq 0 x Hx) as [L|E].
  2:{ rewrite (rnd_0 x) by lra. apply rnd_nonneg. lra. }
  rewrite !rnd_pos by lra.
  pose proof (ilog2_spec x L). pose proof (ilog2_spec y ltac:(lra)).
  assert (ilog2 x <= ilog2 y)%Z as [E|E]%Z.lt_eq_cases.
  { assert (ilog2 x < ilog2 y + 1)%Z by (apply pow2_lt_inv; lra). lia. }
  - pose proof (round_pos_range x L). pose proof (round_pos_range y ltac:(lra)).
    pose proof (pow2_mono (ilog2 x + 1) (ilog2 y) ltac:(lia)). lra.
  - rewrite !round_pos_eq, E. pose proof (pow2_pos (ilog2 y - 52)).
    apply Qmult_le_compat_r; [|lra]. apply injZ_le, nearest_even_mono.
    apply Qmult_le_compat_r; [done|]. apply Qlt_le_weak, Qinv_lt_0_compat. done.
Qed.

(** Relative error of one rounding. *)
Lemma rnd_error x : 0 <= x ->
  x * (1 - unit_roundoff) <= rnd x <= x * (1 + unit_roundoff).
Proof.
  intros Hx. destruct (Qle_lt_or_eq 0 x Hx) as [L|E].
  2:{ rewrite (rnd_0 x) by lra. rewrite <- E. lra. }
  rewrite rnd_pos by done. rewrite round_pos_eq.
  set (q := 2 ^ (ilog2 x - 52)). pose proof (pow2_pos (ilog2 x - 52)) as Hq. fold q in Hq.
  destruct (scaled_range x L) as [Hm _]. fold q in Hm.
  pose proof (nearest_even_bounds (x / q)) as [B1 B2].
  set (r := inject_Z (nearest_even (x / q))) in *.
  assert (x == (x / q) * q) as Ex by (field; lra).
  set (m := x / q) in *. rewrite Ex.
  assert ((1 # 2) <= m * unit_roundoff) as Hu.
  { unfold unit_roundoff. change (2 ^ 52) with (4503599627370496 # 1) in Hm.
    change (1 # 2 ^ 53) with (1 # 9007199254740992). lra. }
  split.
  - assert (m * q * (1 - unit_roundoff) == m * (1 - unit_roundoff) * q) as -> by ring.
    apply Qmult_le_compat_r; lra.
  - assert (m * q * (1 + unit_roundoff) == m * (1 + unit_roundoff) * q) as -> by ring.
    apply Qmult_le_compat_r; lra.
Qed.

(** A number with a significand of at most 53 bits is not changed. *)
Lemma rnd_exact_small r k : (0 <= r < 2 ^ 53)%Z -> rnd (inject_Z r * 2 ^ k) == inject_Z r * 2 ^ k.
Proof.
  intros Hr. destruct (Z.eq_dec r 0%Z) as [->|Hne].
  { assert (inject_Z 0 * 2 ^ k == 0) as E by (change (inject_Z 0) with 0; ring).
    rewrite rnd_0 by done. by rewrite E. }
  pose proof (pow2_pos k) as Hk. assert (1 <= inject_Z r) as H1 by (apply (injZ_le 1); lia).
  assert (0 < inject_Z r * 2 ^ k) as Hx by nra.
  rewrite rnd_pos by done. rewrite round_pos_eq. set (x := inject_Z r * 2 ^ k) in *.
  destruct (ilog2_spec x Hx) as [L _].
  assert (ilog2 x < 53 + k)%Z as He.
  { apply pow2_lt_inv. rewrite pow2_plus. eapply Qle_lt_trans; [exact L|].
    apply Qmult_lt_compat_r; [done|]. rewrite pow2_inject by lia. apply injZ_lt. lia. }
  set (e := ilog2 x) in *. pose proof (pow2_pos (e - 52)).
  assert (x / 2 ^ (e - 52) == inject_Z (r * 2 ^ (k - (e - 52)))) as ->.
  { rewrite inject_Z_mult, <- pow2_inject by lia. unfold x.
    replace k with ((k - (e - 52)) + (e - 52))%Z at 1 by lia. rewrite pow2_plus. field. lra. }
  rewrite nearest_even_Z, inject_Z_mult, <- pow2_inject by lia. unfold x.
  rewrite <- Qmult_assoc, <- pow2_plus. by replace (k - (e - 52) + (e - 52))%Z with k by lia.
Qed.
Lemma rnd_exact r k : (0 <= r <= 2 ^ 53)%Z -> rnd (inject_Z r * 2 ^ k) == inject_Z r * 2 ^ k.
Proof.
  intros Hr. destruct (Z.eq_dec r (2 ^ 53)%Z) as [->|]; [|apply rnd_exact_small; lia].
  assert (inject_Z (2 ^ 53) * 2 ^ k == inject_Z (2 ^ 52) * 2 ^ (k + 1)) as ->.
  { rewrite <- !pow2_inject, <- !pow2_plus by lia. f_equiv. lia. }
  apply rnd_exact_small. lia.
Qed.

(** Representable numbers: what a [double] variable can hold. *)
Definition representable (x : Q) : Prop := rnd x == x.
#[global] Instance representable_proper : Proper (Qeq ==> iff) representable.
Proof. intros x y E. unfold representable. by rewrite E. Qed.

Lemma rnd_representable x : 0 <= x -> representable (rnd x).
Proof.
  intros Hx. destruct (Qle_lt_or_eq 0 x Hx) as [L|E].
  - rewrite rnd_pos by done. rewrite round_pos_eq. apply rnd_exact.
    pose proof (significand_range x L). lia.
  - rewrite rnd_0 by lra. unfold representable. by rewrite rnd_0.
Qed.
Lemma representable_Z z : (0 <= z <= 2 ^ 53)%Z -> representable (inject_Z z).
Proof.
  intros Hz. unfold representable. assert (inject_Z z == inject_Z z * 2 ^ 0) as -> by ring.
  by apply rnd_exact.
Qed.
(** Conversions of 32-bit integers and of byte counts are exact. *)
Lemma d_of_Z_exact z : (0 <= z <= 2 ^ 53)%Z -> d_of_Z z == inject_Z z.
Proof. apply representable_Z. Qed.

Lemma dmin_spec a b : (dmin a b <= a) /\ (dmin a b <= b) /\ (dmin a b = a \/ dmin a b = b).
Proof. unfold dmin. destruct (Qlt_le_dec b a); split_and!; auto; lra. Qed.
Lemma dmax_spec a b : (a <= dmax a b) /\ (b <= dmax a b) /\ (dmax a b = a \/ dmax a b = b).
Proof. unfold dmax. destruct (Qlt_le_dec a b); split_and!; auto; lra. Qed.
