(* ===== verification/Telemetry.v ===== *)
(** Shared counters and GUI-facing state ([Telemetry.hpp]).

    The singleton's atomics are the fields of a record; the groups that one
    service reads and writes together are sub-records. Counters are 64-bit. *)
From Stdlib Require Import ZArith Lia QArith.
From stdpp Require Import base list numbers.
From S2P Require Import Prelude.
#[local] Open Scope Z_scope.

(** [CoreMetrics]: one slot per CPU core. *)
Record CoreMetrics := MkCore {
  pkts : Z; bytes : Z;
  prio_pkts : list Z; prio_bytes : list Z; dropped : list Z;
  cpu_load_pct : Z }.
Definition CoreMetrics0 : CoreMetrics := MkCore 0 0 [0; 0] [0; 0] [0; 0] 0.

(** Acceleration switch: written by the GUI as pending, applied by the QoS service. *)
Record ModeState := MkMode {
  effective_bridge_mode : bool; effective_acceleration : bool;
  mode_config_dirty : bool; acceleration_pending : bool }.

(** Global bandwidth caps in Mb/s. *)
Record QosState := MkQos {
  qos_global_bw_dirty : bool;
  qos_global_dl_mbps_pending : Q; qos_global_ul_mbps_pending : Q;
  effective_qos_global_dl_mbps : Q; effective_qos_global_ul_mbps : Q }.

Record ShaperCounters := MkShaperCounters {
  shaper_normal_tx_complete : Z;
  shaper_queue_overflow_drops : Z;
  shaper_oversized_drops : Z }.

Record Telemetry := MkTel {
  core_metrics : list CoreMetrics;
  mode : ModeState;
  qos : QosState;
  shaper_counters : ShaperCounters;
  raw_socket_poll_errors : Z }.

Definition Telemetry0 : Telemetry :=
  MkTel (replicate 4 CoreMetrics0)
    (MkMode false true false true)
    (MkQos false 500 50 500 50)
    (MkShaperCounters 0 0 0) 0.

Definition set_core_metrics (t : Telemetry) (c : list CoreMetrics) : Telemetry :=
  MkTel c (mode t) (qos t) (shaper_counters t) (raw_socket_poll_errors t).
Definition set_mode (t : Telemetry) (m : ModeState) : Telemetry :=
  MkTel (core_metrics t) m (qos t) (shaper_counters t) (raw_socket_poll_errors t).
Definition set_qos (t : Telemetry) (q : QosState) : Telemetry :=
  MkTel (core_metrics t) (mode t) q (shaper_counters t) (raw_socket_poll_errors t).
Definition set_shaper_counters (t : Telemetry) (s : ShaperCounters) : Telemetry :=
  MkTel (core_metrics t) (mode t) (qos t) s (raw_socket_poll_errors t).
Definition set_raw_socket_poll_errors (t : Telemetry) (e : Z) : Telemetry :=
  MkTel (core_metrics t) (mode t) (qos t) (shaper_counters t) e.

(** [fetch_add] on a 64-bit atomic of an array. *)
Definition fetch_add64 (l : list Z) (i : nat) (n : Z) : list Z := alter (fun x => u64 (x + n)) i l.

(** [core_metrics[core_id].dropped[prio_idx].fetch_add(1)] *)
Definition count_drop (t : Telemetry) (core_id prio_idx : nat) : Telemetry :=
  set_core_metrics t
    (alter (fun m => MkCore (pkts m) (bytes m) (prio_pkts m) (prio_bytes m)
                            (fetch_add64 (dropped m) prio_idx 1) (cpu_load_pct m))
           core_id (core_metrics t)).

(** [BatchStats]: counters of one worker since its last commit. *)
Record BatchStats := MkBatch {
  b_pkts : Z; b_bytes : Z; b_prio_pkts : list Z; b_prio_bytes : list Z }.
Definition BatchStats0 : BatchStats := MkBatch 0 0 [0; 0] [0; 0].

(** [commit_batch]: out-of-range cores are ignored. *)
Definition commit_core (m : CoreMetrics) (s : BatchStats) : CoreMetrics :=
  MkCore (u64 (pkts m + b_pkts s)) (u64 (bytes m + b_bytes s))
    (zip_with (fun x y => u64 (x + y)) (prio_pkts m) (b_prio_pkts s))
    (zip_with (fun x y => u64 (x + y)) (prio_bytes m) (b_prio_bytes s))
    (dropped m) (cpu_load_pct m).
Definition commit_batch (t : Telemetry) (s : BatchStats) (core_id : Z) : Telemetry :=
  if (core_id <? 0) || (4 <=? core_id) then t
  else set_core_metrics t
         (alter (fun m => commit_core m s) (Z.to_nat core_id) (core_metrics t)).

Definition core (t : Telemetry) (i : nat) : CoreMetrics :=
  default CoreMetrics0 (core_metrics t !! i).

(** Well-formedness: four cores, two priorities each. *)
Definition core_wf (m : CoreMetrics) : Prop :=
  length (prio_pkts m) = 2%nat /\ length (prio_bytes m) = 2%nat /\ length (dropped m) = 2%nat.
Definition tel_wf (t : Telemetry) : Prop :=
  length (core_metrics t) = 4%nat /\ Forall core_wf (core_metrics t).

Lemma tel_wf0 : tel_wf Telemetry0.
Proof. split; [done|]. repeat constructor. Qed.

Lemma commit_core_wf m s : core_wf m -> length (b_prio_pkts s) = 2%nat ->
  length (b_prio_bytes s) = 2%nat -> core_wf (commit_core m s).
Proof.
  intros (? & ? & ?) ? ?. unfold core_wf, commit_core. simpl. rewrite !length_zip_with. lia.
Qed.

Lemma Forall_alter_intro {A} (P : A -> Prop) f l i :
  Forall P l -> (forall x, P x -> P (f x)) -> Forall P (alter f i l).
Proof.
  intros Hl Hf. apply Forall_alter; [done|]. intros x _. apply Hf.
Qed.

Lemma tel_wf_alter t f i : tel_wf t -> (forall m, core_wf m -> core_wf (f m)) ->
  tel_wf (set_core_metrics t (alter f i (core_metrics t))).
Proof.
  intros [Hl Hw] Hf. split; simpl; [by rewrite length_alter|]. by apply Forall_alter_intro.
Qed.
Lemma count_drop_wf t c p : tel_wf t -> tel_wf (count_drop t c p).
Proof.
  intros Ht. apply tel_wf_alter; [done|]. intros m (? & ? & ?). unfold core_wf. simpl.
  unfold fetch_add64. by rewrite length_alter.
Qed.
Lemma commit_batch_wf t s c : tel_wf t -> length (b_prio_pkts s) = 2%nat ->
  length (b_prio_bytes s) = 2%nat -> tel_wf (commit_batch t s c).
Proof.
  intros Ht Hp Hb. unfold commit_batch. case_if; [done|].
  apply tel_wf_alter; [done|]. intros m Hm. by apply commit_core_wf.
Qed.

(** The slot of an in-range core after a commit, and the other slots. *)
Lemma core_commit t s (c : Z) i : tel_wf t -> 0 <= c < 4 ->
  core (commit_batch t s c) i
  = if decide (i = Z.to_nat c) then commit_core (core t i) s else core t i.
Proof.
  intros [Hl _] Hc. unfold commit_batch.
  destruct (Z.ltb_spec c 0); [lia|]. destruct (Z.leb_spec 4 c); [lia|]. simpl.
  unfold core, set_core_metrics. simpl. case_decide as E.
  - subst i. rewrite list_lookup_alter_eq.
    destruct (core_metrics t !! Z.to_nat c) eqn:El; [done|].
    apply lookup_ge_None in El. lia.
  - by rewrite list_lookup_alter_ne by done.
Qed.
