(* ===== verification/TxFrame.v ===== *)
(** Frame output ([TxFrameOutput_util]) and the environment the data plane runs
    against: the steady clock, the answers of [send(2)], the wire and the
    telemetry singleton.

    [send(2)] is the kernel's: the replies it will give are an input, consumed
    one per call. An [EINTR] makes the code call again, so an operation on an
    exhausted list of replies has not returned yet and is [None]. *)
From Stdlib Require Import ZArith Lia.
From stdpp Require Import base list numbers.
From S2P Require Import Prelude Telemetry.

Inductive errno := EINTR | EAGAIN | EWOULDBLOCK | ENOBUFS | EOther (code : Z).
Inductive SendReply := Sent (n : Z) | SendError (e : errno).

Record World := MkWorld {
  w_clock : nat -> Z;              (* i-th reading of steady_clock, in ns *)
  w_clk : nat;                     (* readings made so far *)
  w_replies : list SendReply;      (* answers of the next send calls *)
  w_wire : list (Z * list Z);      (* frames sent whole: descriptor and bytes *)
  w_tel : Telemetry }.

Definition now (w : World) : Z * World :=
  (w_clock w (w_clk w),
   MkWorld (w_clock w) (S (w_clk w)) (w_replies w) (w_wire w) (w_tel w)).
Definition set_tel (w : World) (t : Telemetry) : World :=
  MkWorld (w_clock w) (w_clk w) (w_replies w) (w_wire w) t.
Definition set_io (w : World) (rs : list SendReply) (wire : list (Z * list Z)) : World :=
  MkWorld (w_clock w) (w_clk w) rs wire (w_tel w).

Inductive PacketTxTry := Complete | Busy | Error.
#[global] Instance PacketTxTry_eq_dec : EqDecision PacketTxTry.
Proof. solve_decision. Defined.

(** [try_send_packet_nonblocking]: a complete frame is on the wire exactly when
    the call reports [Complete]. *)
Fixpoint try_send_loop (tx_fd : Z) (pkt : list Z) (wire : list (Z * list Z))
    (rs : list SendReply) : option (PacketTxTry * list SendReply * list (Z * list Z)) :=
  match rs with
  | [] => None
  | Sent n :: rs' =>
      if n =? Z.of_nat (length pkt) then Some (Complete, rs', wire ++ [(tx_fd, pkt)])
      else Some (Error, rs', wire)
  | SendError EINTR :: rs' => try_send_loop tx_fd pkt wire rs'
  | SendError (EAGAIN | EWOULDBLOCK | ENOBUFS) :: rs' => Some (Busy, rs', wire)
  | SendError (EOther _) :: rs' => Some (Error, rs', wire)
  end.
Definition try_send_packet_nonblocking (tx_fd : Z) (pkt : list Z) (w : World) :
  option (PacketTxTry * World) :=
  match try_send_loop tx_fd pkt (w_wire w) (w_replies w) with
  | Some (r, rs, wire) => Some (r, set_io w rs wire)
  | None => None
  end.

Definition send_best_effort (tx_fd : Z) (pkt : list Z) (core_id prio_idx : nat) (w : World) :
  option World :=
  match try_send_packet_nonblocking tx_fd pkt w with
  | Some (Complete, w') => Some w'
  | Some (_, w') => Some (set_tel w' (count_drop (w_tel w') core_id prio_idx))
  | None => None
  end.

(** [send_stream_blocking]: the accumulated prefix that the socket took, with the
    remaining replies; the loop ends when all is sent or on an error. *)
Fixpoint send_stream_blocking (data : list Z) (rs : list SendReply) (taken : list Z) :
  option (list Z * list SendReply) :=
  match data with
  | [] => Some (taken, rs)
  | _ => match rs with
         | [] => None
         | Sent n :: rs' =>
             send_stream_blocking (drop (Z.to_nat n) data) rs' (taken ++ take (Z.to_nat n) data)
         | SendError EINTR :: rs' => send_stream_blocking data rs' taken
         | SendError _ :: rs' => Some (taken, rs')
         end
  end.

(** ** Lemmas *)
(** A reply that ends a call: anything but [EINTR]. *)
Definition answers (r : SendReply) : bool :=
  match r with SendError EINTR => false | _ => true end.

Lemma try_send_returns fd pkt wire pre r rs :
  Forall (fun x => x = SendError EINTR) pre -> answers r = true ->
  exists res wire', try_send_loop fd pkt wire (pre ++ r :: rs) = Some (res, rs, wire') /\
    wire' = (if bool_decide (res = Complete) then wire ++ [(fd, pkt)] else wire).
Proof.
  intros Hpre Hr. induction Hpre as [|x pre -> Hpre IH]; simpl; [|done].
  destruct r as [n|[]]; try done; [case_if|..]; eexists _, _; (split; [done|]); done.
Qed.

Lemma try_send_wire fd pkt wire rs res rs' wire' :
  try_send_loop fd pkt wire rs = Some (res, rs', wire') ->
  (res = Complete /\ wire' = wire ++ [(fd, pkt)]) \/ (res <> Complete /\ wire' = wire).
Proof.
  induction rs as [|[n|[]] rs IH]; simpl; try done; [case_if|..]; intros;
    simplify_eq; auto.
Qed.

(** Environment facts that no send changes. *)
Lemma try_send_frame fd pkt w res w' :
  try_send_packet_nonblocking fd pkt w = Some (res, w') ->
  w_clock w' = w_clock w /\ w_clk w' = w_clk w /\ w_tel w' = w_tel w /\
  ((res = Complete /\ w_wire w' = w_wire w ++ [(fd, pkt)]) \/
   (res <> Complete /\ w_wire w' = w_wire w)).
Proof.
  unfold try_send_packet_nonblocking.
  destruct (try_send_loop _ _ _ _) as [[[r rs] wire]|] eqn:E; [|done].
  intros; simplify_eq/=. split_and!; try done. by eapply try_send_wire.
Qed.
