(* ===== verification/DhcpEngine.v ===== *)
(** The DHCP server ([DhcpEngine.hpp], [DhcpEngine.cpp]).

    Requests are copied by the data plane into a ring ([intercept_request]) and
    answered by the watchdog ([process_background_tasks]). The clock and the socket
    are those of [World]; the Ethernet address read by [get_iface_hwaddr] is an
    argument of the constructor. *)
From Stdlib Require Import ZArith Lia.
From stdpp Require Import base list gmap numbers.
From S2P Require Import Prelude Types_util Headers_util Rings Telemetry TxFrame.

Module DhcpHeader.
Definition op := 0%nat.
Definition htype := 1%nat.
Definition hlen := 2%nat.
Definition hops := 3%nat.
Definition xid := 4%nat.
Definition secs := 8%nat.
Definition flags := 10%nat.
Definition ciaddr := 12%nat.
Definition yiaddr := 16%nat.
Definition siaddr := 20%nat.
Definition giaddr := 24%nat.
Definition chaddr := 28%nat.
Definition sname := 44%nat.
Definition file := 108%nat.
Definition magic_cookie := 236%nat.
Definition size := 240%nat.
End DhcpHeader.

(** [data] always has 512 bytes. *)
Record DhcpMessage := MkMsg { m_len : nat; m_data : list Z }.
Definition DhcpMessage0 : DhcpMessage := MkMsg 0 (replicate 512 0).

(** Times are steady-clock readings in nanoseconds. *)
Record DhcpLease := MkLease { l_mac : list Z; l_ip : Z; l_active : bool; l_expiry : Z }.
Definition DhcpLease0 : DhcpLease := MkLease (replicate 6 0) 0 false 0.

(** [lease] in seconds. *)
Record DhcpPoolConfig := MkPool { pool_start : Z; pool_end : Z; lease : Z }.

Inductive pool_error := EndBeforeStart | RangeOverflow | PoolEmpty.

Definition kBackgroundTaskBudget : nat := 32.
Definition MAX_POOL_SIZE : nat := 253.
Definition REQUEST_QUEUE : nat := 512.

Module DhcpEngine.
Record t := Mk {
  request_queue : SpscRingBuffer.t DhcpMessage;
  leases : list DhcpLease;
  pool_count : nat;
  router_ip : Z;
  lease_duration : Z;
  lan_if_mac : list Z }.

Definition set_leases (e : t) (ls : list DhcpLease) : t :=
  Mk (request_queue e) ls (pool_count e) (router_ip e) (lease_duration e) (lan_if_mac e).
Definition set_queue (e : t) (q : SpscRingBuffer.t DhcpMessage) : t :=
  Mk q (leases e) (pool_count e) (router_ip e) (lease_duration e) (lan_if_mac e).

(** Before the constructor's body. *)
Definition blank : t :=
  Mk SpscRingBuffer.empty (replicate MAX_POOL_SIZE DhcpLease0) 0 0 86400 (replicate 6 0).

(** The loop of [init_pool]: addresses from [start_ip] on, all leases free; the
    hardware address and expiry of an entry are left as they were. *)
Fixpoint fill_pool (start_ip : Z) (i : nat) (n : nat) (ls : list DhcpLease) : list DhcpLease :=
  match n, ls with
  | S n', l :: ls' =>
      MkLease (l_mac l) (pool_advance start_ip (Z.of_nat i)) false (l_expiry l)
        :: fill_pool start_ip (S i) n' ls'
  | _, _ => ls
  end.

Definition init_pool (start_ip end_ip : Z) (e : t) : (pool_error + unit) * t :=
  let start_h := to_host start_ip in
  let end_h := to_host end_ip in
  if end_h <? start_h then (inl EndBeforeStart, e)
  else
    let span := u64 (end_h - start_h + 1) in
    if span =? 0 then (inl RangeOverflow, e)
    else
      let count := Nat.min (Z.to_nat span) MAX_POOL_SIZE in
      let e1 := Mk (request_queue e) (leases e) count (router_ip e) (lease_duration e) (lan_if_mac e) in
      if (count =? 0)%nat then (inl PoolEmpty, e1)
      else (inr tt, set_leases e1 (fill_pool start_ip 0 count (leases e))).

(** The first of the entries below [n] with the property, and its index: every
    [for (i = 0; i < pool_count; ++i) if (...) return ...] of the engine. *)
Fixpoint first_lease (P : DhcpLease -> bool) (n i : nat) (ls : list DhcpLease) :
  option (nat * DhcpLease) :=
  match n, ls with
  | S n', l :: ls' => if P l then Some (i, l) else first_lease P n' (S i) ls'
  | _, _ => None
  end.

(** [lease_duration] in nanoseconds. *)
Definition duration (e : t) : Z := lease_duration e * 1000000000.

Definition find_or_assign_lease (mac : list Z) (e : t) (w : World) : Z * t * World :=
  let '(tm, w') := now w in
  match first_lease (fun l => l_active l && bool_decide (l_mac l = mac)) (pool_count e) 0 (leases e) with
  | Some (_, l) => (l_ip l, e, w')
  | None =>
      match first_lease (fun l => negb (l_active l) || (l_expiry l <? tm)) (pool_count e) 0 (leases e) with
      | Some (i, l) =>
          (l_ip l, set_leases e (<[i := MkLease mac (l_ip l) true (tm + duration e)]> (leases e)), w')
      | None => (0, e, w')
      end
  end.

Definition commit_lease (ip : Z) (e : t) (w : World) : t * World :=
  match first_lease (fun l => l_ip l =? ip) (pool_count e) 0 (leases e) with
  | Some (i, l) =>
      let '(tm, w') := now w in
      (set_leases e (<[i := MkLease (l_mac l) (l_ip l) true (tm + duration e)]> (leases e)), w')
  | None => (e, w)
  end.

(** ** Requests *)
(** The option loop over the memory [mem]. A load is a partial function, so that a
    theorem can say which bytes the loop reads: a load outside the domain of [mem] makes
    the whole run [None], as does running out of rounds. The length byte of an option is
    read before the bounds test, so it may lie at [len]. Every round advances [opt]:
    [len + 1] rounds are enough. *)
Fixpoint parse_options (fuel : nat) (mem : nat -> option Z) (len opt : nat) (msg_type requested : Z) :
  option (Z * Z) :=
  match fuel with
  | O => None
  | S f =>
      if (opt <? len)%nat then
        code ← mem opt;
        if code =? 255 then Some (msg_type, requested)
        else if code =? 0 then parse_options f mem len (opt + 1) msg_type requested
        else
          olen ← mem (opt + 1)%nat;
          if (len <? opt + 2 + Z.to_nat olen)%nat then Some (msg_type, requested)
          else
            msg_type ← (if (code =? 53) && (olen =? 1) then mem (opt + 2)%nat else Some msg_type);
            requested ← (if (code =? 50) && (olen =? 4)
                         then (λ bs, get32 bs 0) <$> mapM (λ i, mem (opt + 2 + i)%nat) (seq 0 4)
                         else Some requested);
            parse_options f mem len (opt + 2 + Z.to_nat olen) msg_type requested
      else Some (msg_type, requested)
  end.

(** A well-formed BOOTREQUEST: offset of its DHCP header, message type and
    requested address. *)
Record request := MkReq { q_off : nat; q_type : Z; q_requested : Z }.
Definition parse_request (msg : DhcpMessage) : option request :=
  let parsed := parse (take (m_len msg) (m_data msg)) in
  let data := m_data msg in
  if negb (is_valid_ipv4 parsed) then None
  else if negb (l4_protocol parsed =? 17) then None
  else match udp parsed with
  | None => None
  | Some u =>
      if negb (ntohs (get16 data (u + UDPHeader.dest)) =? 67) then None
      else
        let off := (l4_offset parsed + UDPHeader.size)%nat in
        if (m_len msg <? off + DhcpHeader.size)%nat then None
        else if negb (rd data (off + DhcpHeader.op) =? 1) then None
        else if negb (ntohl (get32 data (off + DhcpHeader.magic_cookie)) =? 1669485411) then None
        else match parse_options (S (m_len msg)) (Some ∘ rd data) (m_len msg)
                     (off + DhcpHeader.size) 0 0 with
             | Some (ty, req) => Some (MkReq off ty req)
             | None => None
             end
  end.

(** ** Responses *)
Definition RESP_DHCP : nat := 42.
Definition RESP_LEN : nat := 320.

Definition response_options (type : Z) (e : t) : list Z :=
  let r := router_ip e in
  let le32 (v : Z) : list Z := slice (put32 (replicate 4 0) 0 v) 0 4 in
  [53; 1; type] ++ [1; 4; 255; 255; 255; 0] ++ [3; 4] ++ le32 r
  ++ [6; 8] ++ le32 (htonl 134744072) ++ le32 (htonl 134480900)
  ++ [51; 4] ++ le32 (htonl (u32 (lease_duration e))) ++ [54; 4] ++ le32 r ++ [255].

(** The checksum loop of [send_response]: ten words, two foldings. *)
Definition response_checksum (b : list Z) : Z :=
  let ip_sum := fold_left (fun s i => u32 (s + ntohs (get16 b (14 + 2 * i)))) (seq 0 10) 0 in
  let ip_sum := u32 (Z.shiftr ip_sum 16 + Z.land ip_sum 65535) in
  let ip_sum := u32 (ip_sum + Z.shiftr ip_sum 16) in
  htons (u16 (Z.lnot ip_sum)).

(** The frame [send_response] builds for the request header at [off] of [data]. *)
Definition build_response (type yiaddr : Z) (data : list Z) (off : nat) (e : t) : list Z :=
  let r := replicate 512 0 in
  let r := copy_to r EthernetHeader.dest (slice data (off + DhcpHeader.chaddr) 6) in
  let r := copy_to r EthernetHeader.src (lan_if_mac e) in
  let r := put16 r EthernetHeader.proto (htons 2048) in
  let r := put8 r (14 + IPv4Header.ver_ihl) 69 in
  let r := put8 r (14 + IPv4Header.tos) 0 in
  let r := put16 r (14 + IPv4Header.id) 0 in
  let r := put16 r (14 + IPv4Header.frag_off) 0 in
  let r := put8 r (14 + IPv4Header.ttl) 64 in
  let r := put8 r (14 + IPv4Header.protocol) 17 in
  let r := put32 r (14 + IPv4Header.saddr) (router_ip e) in
  let r := put32 r (14 + IPv4Header.daddr) 4294967295 in
  let r := put16 r (34 + UDPHeader.source) (htons 67) in
  let r := put16 r (34 + UDPHeader.dest) (htons 68) in
  let r := put8 r (RESP_DHCP + DhcpHeader.op) 2 in
  let r := put8 r (RESP_DHCP + DhcpHeader.htype) 1 in
  let r := put8 r (RESP_DHCP + DhcpHeader.hlen) 6 in
  let r := put8 r (RESP_DHCP + DhcpHeader.hops) 0 in
  let r := put32 r (RESP_DHCP + DhcpHeader.xid) (get32 data (off + DhcpHeader.xid)) in
  let r := put16 r (RESP_DHCP + DhcpHeader.secs) 0 in
  let r := put16 r (RESP_DHCP + DhcpHeader.flags) (htons 32768) in
  let r := put32 r (RESP_DHCP + DhcpHeader.ciaddr) 0 in
  let r := put32 r (RESP_DHCP + DhcpHeader.yiaddr) yiaddr in
  let r := put32 r (RESP_DHCP + DhcpHeader.siaddr) (router_ip e) in
  let r := put32 r (RESP_DHCP + DhcpHeader.giaddr) 0 in
  let r := copy_to r (RESP_DHCP + DhcpHeader.chaddr) (slice data (off + DhcpHeader.chaddr) 16) in
  let r := put32 r (RESP_DHCP + DhcpHeader.magic_cookie) (htonl 1669485411) in
  let opts := response_options type e in
  let r := copy_to r (RESP_DHCP + DhcpHeader.size) opts in
  let dhcp_len := (DhcpHeader.size + length opts)%nat in
  let udp_len := (UDPHeader.size + dhcp_len)%nat in
  let ip_len := (IPv4Header.size + udp_len)%nat in
  let total_len := (EthernetHeader.size + ip_len)%nat in
  let r := put16 r (14 + IPv4Header.tot_len) (htons (u16 (Z.of_nat ip_len))) in
  let r := put16 r (14 + IPv4Header.check) 0 in
  let r := put16 r (14 + IPv4Header.check) (response_checksum r) in
  let r := put16 r (34 + UDPHeader.len) (htons (u16 (Z.of_nat udp_len))) in
  let r := put16 r (34 + UDPHeader.check) 0 in
  take total_len r.

Definition send_response (type yiaddr : Z) (data : list Z) (off : nat) (lan_fd : Z) (e : t) (w : World) :
  option World :=
  send_best_effort lan_fd (build_response type yiaddr data off e) 2 0 w.

(** What [handle_dhcp_request] decides: the lease operations it makes and the response
    type and address it passes to [send_response], which is the last thing it does. *)
Definition decide_response (msg : DhcpMessage) (q : request) (e : t) (w : World) :
  option (Z * Z) * t * World :=
  let mac := slice (m_data msg) (q_off q + DhcpHeader.chaddr) 6 in
  if q_type q =? 1 then
    let '(offered_ip, e1, w1) := find_or_assign_lease mac e w in
    (if offered_ip =? 0 then None else Some (2, offered_ip), e1, w1)
  else if q_type q =? 3 then
    let requested_ip := if q_requested q =? 0
                        then get32 (m_data msg) (q_off q + DhcpHeader.ciaddr) else q_requested q in
    let '(leased_ip, e1, w1) := find_or_assign_lease mac e w in
    if leased_ip =? requested_ip then
      let '(e2, w2) := commit_lease leased_ip e1 w1 in (Some (5, leased_ip), e2, w2)
    else (Some (6, requested_ip), e1, w1)
  else (None, e, w).

Definition handle_dhcp_request (msg : DhcpMessage) (lan_fd : Z) (e : t) (w : World) :
  option (t * World) :=
  match parse_request msg with
  | None => Some (e, w)
  | Some q =>
      match decide_response msg q e w with
      | (Some (type, yiaddr), e', w') =>
          match send_response type yiaddr (m_data msg) (q_off q) lan_fd e' w' with
          | Some w'' => Some (e', w'')
          | None => None
          end
      | (None, e', w') => Some (e', w')
      end
  end.

(** ** Public operations *)
(** The constructor; [hwaddr] is what [get_iface_hwaddr] read, if it did. *)
Definition make (lan_ip : list Z) (cfg : DhcpPoolConfig) (hwaddr : option (list Z)) : t :=
  let e := Mk SpscRingBuffer.empty (leases blank) 0 (parse_ipv4 lan_ip) (lease cfg) (replicate 6 0) in
  let e := snd (init_pool (pool_start cfg) (pool_end cfg) e) in
  match hwaddr with
  | Some m => Mk (request_queue e) (leases e) (pool_count e) (router_ip e) (lease_duration e) m
  | None => e
  end.

Definition reconfigure (cfg : DhcpPoolConfig) (e : t) : (pool_error + unit) * t :=
  init_pool (pool_start cfg) (pool_end cfg)
    (Mk (request_queue e) (leases e) (pool_count e) (router_ip e) (lease cfg) (lan_if_mac e)).

Definition set_router_ip (ip : Z) (e : t) : t :=
  Mk (request_queue e) (leases e) (pool_count e) ip (lease_duration e) (lan_if_mac e).
Definition router_ip_snapshot (e : t) : Z := router_ip e.

(** A full queue drops the request: the result of [push] is not used. *)
Definition intercept_request (pkt : ParsedPacket) (e : t) : t :=
  let len := Nat.min (length (raw_span pkt)) 512 in
  let msg := MkMsg len (copy_to (replicate 512 0) 0 (take len (raw_span pkt))) in
  set_queue e (snd (SpscRingBuffer.push REQUEST_QUEUE msg (request_queue e))).

Fixpoint background_loop (n : nat) (lan_fd : Z) (e : t) (w : World) : option (t * World) :=
  match n with
  | O => Some (e, w)
  | S n' =>
      match SpscRingBuffer.pop DhcpMessage0 REQUEST_QUEUE (request_queue e) with
      | (None, _) => Some (e, w)
      | (Some msg, q) =>
          match handle_dhcp_request msg lan_fd (set_queue e q) w with
          | Some (e', w') => background_loop n' lan_fd e' w'
          | None => None
          end
      end
  end.
Definition process_background_tasks (lan_fd : Z) (e : t) (w : World) : option (t * World) :=
  background_loop kBackgroundTaskBudget lan_fd e w.
End DhcpEngine.
