(* ===== verification/DhcpProofs.v ===== *)
(** Properties of the DHCP server: the lease table, exclusive grants, the option parser
    and the frames it sends. *)
From Stdlib Require Import ZArith Lia.
From stdpp Require Import base list gmap numbers.
From S2P Require Import Prelude Text Types_util Headers_util Rings Telemetry TxFrame Checksum TestPackets DhcpEngine.
Import DhcpEngine.

(** * The lease table *)
(** The entries in use. *)
Definition pool (e : t) : list DhcpLease := take (pool_count e) (leases e).

Lemma first_lease_some P n i ls j l : first_lease P n i ls = Some (j, l) ->
  exists k, j = (i + k)%nat /\ take n ls !! k = Some l /\ P l = true.
Proof.
  revert i ls. induction n as [|n IH]; intros i [|x ls]; simpl; try done.
  destruct (P x) eqn:E.
  - intros [= <- <-]. exists 0%nat. split; [lia|done].
  - intros (k & -> & Hk & Hp)%IH. exists (S k). split; [lia|done].
Qed.
Lemma first_lease_none P n i ls : first_lease P n i ls = None ->
  forall k l, take n ls !! k = Some l -> P l = false.
Proof.
  revert i ls. induction n as [|n IH]; intros i [|x ls]; simpl; try done.
  destruct (P x) eqn:E; [done|]. intros H [|k] l; simpl; [by intros [= <-]|]. by apply (IH (S i)).
Qed.
Lemma first_lease_total P n i ls k l : take n ls !! k = Some l -> P l = true ->
  exists j l', first_lease P n i ls = Some (j, l').
Proof.
  intros Hk Hp. destruct (first_lease P n i ls) as [[j l']|] eqn:E; [by eexists _, _|].
  by rewrite (first_lease_none _ _ _ _ E _ _ Hk) in Hp.
Qed.

Record lease_inv (e : t) : Prop := {
  li_size : length (leases e) = MAX_POOL_SIZE;
  li_count : (pool_count e <= MAX_POOL_SIZE)%nat;
  li_ips : forall i j l l', pool e !! i = Some l -> pool e !! j = Some l' ->
    l_ip l = l_ip l' -> i = j;
  li_macs : forall i j l l', pool e !! i = Some l -> pool e !! j = Some l' ->
    l_active l = true -> l_active l' = true -> l_mac l = l_mac l' -> i = j }.

Lemma pool_lookup e i l : pool e !! i = Some l -> leases e !! i = Some l /\ (i < pool_count e)%nat.
Proof. unfold pool. rewrite lookup_take_Some. naive_solver. Qed.

(** Replacing one entry of the pool. *)
Lemma pool_update e i l : pool e !! i = Some l -> forall l',
  pool (set_leases e (<[i := l']> (leases e))) = <[i := l']> (pool e).
Proof.
  intros [_ Hi]%pool_lookup l'. unfold pool. simpl. by apply take_insert_lt.
Qed.
Lemma pool_update_lookup e i l l' j x : pool e !! i = Some l ->
  pool (set_leases e (<[i := l']> (leases e))) !! j = Some x ->
  (j = i /\ x = l') \/ (j <> i /\ pool e !! j = Some x).
Proof.
  intros Hi. rewrite (pool_update _ _ _ Hi). intros H.
  destruct (decide (j = i)) as [->|Hne].
  - rewrite list_lookup_insert_eq in H by (by eapply lookup_lt_Some). left. by simplify_eq.
  - rewrite list_lookup_insert_ne in H by done. by right.
Qed.

(** An entry keeps its address, and takes a hardware address nobody else holds. *)
Lemma lease_inv_update e i l l' : lease_inv e -> pool e !! i = Some l ->
  l_ip l' = l_ip l ->
  (forall j x, j <> i -> pool e !! j = Some x -> l_active x = true -> l_active l' = true ->
     l_mac x <> l_mac l') ->
  lease_inv (set_leases e (<[i := l']> (leases e))).
Proof.
  intros [Hs Hc Hi Hm] Hl Hip Hmac. split; simpl; [by rewrite length_insert|done|..].
  - intros j k x y Hx Hy E.
    destruct (pool_update_lookup _ _ _ _ _ _ Hl Hx) as [[-> ->]|[Hj Hx']],
      (pool_update_lookup _ _ _ _ _ _ Hl Hy) as [[-> ->]|[Hk Hy']]; try done.
    + apply (Hi i k l y); try done. congruence.
    + apply (Hi j i x l); try done. congruence.
    + by apply (Hi j k x y).
  - intros j k x y Hx Hy Ax Ay E.
    destruct (pool_update_lookup _ _ _ _ _ _ Hl Hx) as [[-> ->]|[Hj Hx']],
      (pool_update_lookup _ _ _ _ _ _ Hl Hy) as [[-> ->]|[Hk Hy']]; try done.
    + exfalso. by apply (Hmac k y).
    + exfalso. by apply (Hmac j x).
    + by apply (Hm j k x y).
Qed.

(** ** [find_or_assign_lease]: the three outcomes *)
Lemma find_or_assign_cases mac e w ip e' w' : lease_inv e ->
  find_or_assign_lease mac e w = (ip, e', w') ->
  w' = snd (now w) /\
  ((exists i l, pool e !! i = Some l /\ l_active l = true /\ l_mac l = mac /\ ip = l_ip l /\ e' = e) \/
   (exists i l, pool e !! i = Some l /\ (l_active l = false \/ l_expiry l < w_clock w (w_clk w)) /\
      (forall j x, pool e !! j = Some x -> l_active x = true -> l_mac x <> mac) /\ ip = l_ip l /\
      e' = set_leases e (<[i := MkLease mac (l_ip l) true (w_clock w (w_clk w) + duration e)]> (leases e))) \/
   (ip = 0 /\ e' = e /\
      forall j x, pool e !! j = Some x -> l_active x = true /\ w_clock w (w_clk w) <= l_expiry x)).
Proof.
  intros He. unfold find_or_assign_lease. cbn [now fst snd].
  destruct (first_lease _ _ _ _) as [[i l]|] eqn:E1.
  { destruct (first_lease_some _ _ _ _ _ _ E1) as (k & -> & Hk & Hp).
    apply andb_true_iff in Hp as [Ha Hm%bool_decide_eq_true].
    intros [= <- <- <-]. split; [done|]. left. exists k, l. done. }
  assert (forall j x, pool e !! j = Some x -> l_active x = true -> l_mac x <> mac) as Hnone.
  { intros j x Hx Ha Hmac. pose proof (first_lease_none _ _ _ _ E1 j x Hx) as H. simpl in H.
    rewrite Ha, bool_decide_eq_true_2 in H by done. done. }
  clear E1. destruct (first_lease _ (pool_count e) 0 (leases e)) as [[i l]|] eqn:E2.
  - destruct (first_lease_some _ _ _ _ _ _ E2) as (k & -> & Hk & Hp).
    intros [= <- <- <-]. split; [done|]. right; left. exists k, l.
    split; [done|]. split; [|done].
    apply orb_true_iff in Hp as [Hp|Hp]; bool2prop; [by left|by right].
  - intros [= <- <- <-]. split; [done|]. right; right. split; [done|]. split; [done|].
    intros j x Hx. pose proof (first_lease_none _ _ _ _ E2 j x Hx) as H. simpl in H. by bool2prop.
Qed.

Lemma find_or_assign_inv mac e w ip e' w' : lease_inv e ->
  find_or_assign_lease mac e w = (ip, e', w') ->
  lease_inv e' /\ (forall i l, pool e' !! i = Some l -> l_ip l = ip -> l_active l = true).
Proof.
  intros He Hf.
  destruct (find_or_assign_cases _ _ _ _ _ _ He Hf) as
    (_ & [(i & l & Hl & Ha & _ & -> & ->)|[(i & l & Hl & _ & Hmac & -> & ->)|(-> & -> & Hall)]]).
  - split; [done|]. intros j x Hx E. by rewrite (li_ips _ He _ _ _ _ Hx Hl E) in Hx; simplify_eq.
  - assert (lease_inv (set_leases e (<[i := MkLease mac (l_ip l) true
      (w_clock w (w_clk w) + duration e)]> (leases e)))) as He'.
    { apply (lease_inv_update e i l); try done. intros j x Hj Hx Ax _. simpl. by apply (Hmac j). }
    split; [done|]. intros j x Hx E.
    destruct (pool_update_lookup _ _ _ _ _ _ Hl Hx) as [[-> ->]|[Hj Hx']]; [done|].
    by destruct Hj; apply (li_ips _ He _ _ _ _ Hx' Hl E).
  - split; [done|]. intros j x Hx _. by apply (Hall j).
Qed.

(** [commit_lease] on an address whose entry is active renews it. *)
Lemma commit_lease_inv ip e w e' w' : lease_inv e ->
  (forall i l, pool e !! i = Some l -> l_ip l = ip -> l_active l = true) ->
  commit_lease ip e w = (e', w') ->
  lease_inv e' /\
  ((e' = e /\ w' = w /\ forall i l, pool e !! i = Some l -> l_ip l <> ip) \/
   (exists i l, pool e !! i = Some l /\ l_ip l = ip /\ l_active l = true /\ w' = snd (now w) /\
      e' = set_leases e (<[i := MkLease (l_mac l) (l_ip l) true
             (w_clock w (w_clk w) + duration e)]> (leases e)))).
Proof.
  intros He Hact. unfold commit_lease. destruct (first_lease _ _ _ _) as [[i l]|] eqn:E.
  - destruct (first_lease_some _ _ _ _ _ _ E) as (k & -> & Hk & Hp). bool2prop.
    assert (pool e !! k = Some l) as Hl by done. cbn [now]. intros [= <- <-]. split.
    + apply (lease_inv_update e k l); try done. intros j x Hj Hx Ax _ Em.
      by apply Hj, (li_macs _ He _ _ _ _ Hx Hl Ax (Hact _ _ Hl Hp)).
    + right. exists k, l. split; [done|]. split; [done|]. split; [by eapply Hact|]. done.
  - intros [= <- <-]. split; [done|]. left. split; [done|]. split; [done|].
    intros i l Hl Eip. pose proof (first_lease_none _ _ _ _ E i l Hl) as H. simpl in H. bool2prop. done.
Qed.

(** ** Configuration *)
Lemma fill_pool_length st i n ls : length (fill_pool st i n ls) = length ls.
Proof. revert i ls. induction n as [|n IH]; intros i [|l ls]; simpl; auto. Qed.
Lemma fill_pool_lookup st i n ls k l : (k < n)%nat -> fill_pool st i n ls !! k = Some l ->
  l_ip l = pool_advance st (Z.of_nat (i + k)) /\ l_active l = false.
Proof.
  revert i ls k. induction n as [|n IH]; intros i [|x ls] [|k] Hk; simpl; try lia; try done.
  - intros [= <-]. by rewrite Nat.add_0_r.
  - intros (E & ?)%IH; [|lia]. by replace (i + S k)%nat with (S i + k)%nat by lia.
Qed.

(** Addresses of the pool that a configuration describes. *)
Definition in_range (st en ip : Z) : Prop := to_host st <= to_host ip <= to_host en.

Lemma init_pool_spec st en e r e' : is_u32 st -> is_u32 en ->
  length (leases e) = MAX_POOL_SIZE -> init_pool st en e = (r, e') ->
  (to_host en < to_host st /\ r = inl EndBeforeStart /\ e' = e) \/
  (to_host st <= to_host en /\ r = inr tt /\ lease_inv e' /\
   Z.of_nat (pool_count e') = Z.min (to_host en - to_host st + 1) (Z.of_nat MAX_POOL_SIZE) /\
   (forall i l, pool e' !! i = Some l -> l_active l = false /\ in_range st en (l_ip l))).
Proof.
  intros Hst Hen Hlen. unfold init_pool. set (s := to_host st). set (n := to_host en).
  assert (is_u32 s /\ is_u32 n) as [Hs Hn] by (by split; apply bswap32_range).
  destruct (Z.ltb_spec n s) as [L|L]; [intros [= <- <-]; by left|].
  assert (u64 (n - s + 1) = n - s + 1) as E64 by wordlia. rewrite E64.
  destruct (Z.eqb_spec (n - s + 1) 0); [lia|].
  set (c := Nat.min (Z.to_nat (n - s + 1)) MAX_POOL_SIZE).
  assert (0 < c <= MAX_POOL_SIZE)%nat as Hc by (subst c; unfold MAX_POOL_SIZE; lia).
  assert (Z.of_nat c = Z.min (n - s + 1) (Z.of_nat MAX_POOL_SIZE)) as Ec by (subst c; lia).
  destruct (Nat.eqb_spec c 0); [lia|]. intros [= <- <-]. right. split; [done|]. split; [done|].
  set (e' := set_leases _ _).
  assert (forall i l, pool e' !! i = Some l ->
    (i < c)%nat /\ l_ip l = pool_advance st (Z.of_nat i) /\ l_active l = false) as Hpool.
  { intros i l [Hl Hi]%pool_lookup. simpl in *. split; [done|].
    by apply (fill_pool_lookup st 0 c (leases e) i l). }
  assert (forall i, (i < c)%nat -> s + Z.of_nat i < 4294967296) as Hov by (intros; wordlia).
  split; [split|split].
  - simpl. by rewrite fill_pool_length.
  - simpl. lia.
  - intros i j l l' (Hi & E1 & _)%Hpool (Hj & E2 & _)%Hpool E. rewrite E1, E2 in E.
    apply pool_advance_inj in E; try done; try lia; by apply Hov.
  - intros i j l l' (_ & _ & E1)%Hpool _ A. congruence.
  - done.
  - intros i l (Hi & E & Ha)%Hpool. split; [done|]. unfold in_range. rewrite E.
    rewrite pool_advance_host by (try done; try lia; by apply Hov). fold s n. lia.
Qed.

(** ** Requests *)
Lemma decide_response_inv msg q e w r e' w' : lease_inv e ->
  decide_response msg q e w = (r, e', w') ->
  lease_inv e' /\ request_queue e' = request_queue e /\ pool_count e' = pool_count e /\
  map l_ip (leases e') = map l_ip (leases e) /\ lease_duration e' = lease_duration e /\
  w_wire w' = w_wire w /\ w_replies w' = w_replies w /\ w_clock w' = w_clock w.
Proof.
  intros He. unfold decide_response.
  set (mac := slice _ _ 6).
  assert (forall e w ip e1 w1, lease_inv e -> find_or_assign_lease mac e w = (ip, e1, w1) ->
    request_queue e1 = request_queue e /\ pool_count e1 = pool_count e /\
    map l_ip (leases e1) = map l_ip (leases e) /\ lease_duration e1 = lease_duration e /\
    w_wire w1 = w_wire w /\ w_replies w1 = w_replies w /\ w_clock w1 = w_clock w) as Hfind.
  { clear e w He. intros e w ip e1 w1 He Hf.
    destruct (find_or_assign_cases _ _ _ _ _ _ He Hf) as
      (-> & [(i & l & _ & _ & _ & _ & ->)|[(i & l & [Hl _]%pool_lookup & _ & _ & _ & ->)|(_ & -> & _)]]);
      try done. simpl. split_and!; try done. rewrite list_fmap_insert. simpl.
    apply list_insert_id. by rewrite list_lookup_fmap, Hl. }
  destruct (q_type q =? 1).
  { destruct (find_or_assign_lease mac e w) as [[ip e1] w1] eqn:Ef. intros [= <- <- <-].
    split; [by eapply find_or_assign_inv|by eapply Hfind]. }
  destruct (q_type q =? 3); [|by intros [= <- <- <-]].
  destruct (find_or_assign_lease mac e w) as [[ip e1] w1] eqn:Ef.
  destruct (find_or_assign_inv _ _ _ _ _ _ He Ef) as [He1 Hact].
  destruct (Hfind _ _ _ _ _ He Ef) as (Hq & Hc & Hm & Hd & Hw & Hr & Hk).
  set (req := if q_requested q =? 0 then _ else _). destruct (ip =? req).
  - destruct (commit_lease ip e1 w1) as [e2 w2] eqn:Ec. intros [= <- <- <-].
    destruct (commit_lease_inv _ _ _ _ _ He1 Hact Ec) as [He2 [(-> & -> & _)|(i & l & [Hl _]%pool_lookup & _ & _ & -> & ->)]].
    { done. }
    split; [done|]. simpl. split_and!; try done. rewrite list_fmap_insert. simpl.
    rewrite list_insert_id; [done|]. by rewrite list_lookup_fmap, Hl.
  - by intros [= <- <- <-].
Qed.

(** ** Runs of the server *)
Inductive dhcp_op :=
  | DIntercept (frame : list Z)          (* data plane: a DHCP frame from the LAN *)
  | DTask                                (* watchdog: process_background_tasks *)
  | DReconfigure (cfg : DhcpPoolConfig)  (* control plane *)
  | DRouter (ip : Z).
Definition dhcp_apply (fd : Z) (op : dhcp_op) (ew : t * World) : option (t * World) :=
  let '(e, w) := ew in
  match op with
  | DIntercept frame => Some (intercept_request (parse frame) e, w)
  | DTask => process_background_tasks fd e w
  | DReconfigure cfg => Some (snd (reconfigure cfg e), w)
  | DRouter ip => Some (set_router_ip ip e, w)
  end.
Fixpoint dhcp_run (fd : Z) (ops : list dhcp_op) (ew : t * World) : option (t * World) :=
  match ops with
  | [] => Some ew
  | op :: ops' => match dhcp_apply fd op ew with
                  | Some ew' => dhcp_run fd ops' ew'
                  | None => None
                  end
  end.
Definition cfg_ok (cfg : DhcpPoolConfig) : Prop := is_u32 (pool_start cfg) /\ is_u32 (pool_end cfg).
Definition dhcp_op_ok (op : dhcp_op) : Prop :=
  match op with DReconfigure cfg => cfg_ok cfg | _ => True end.

Definition offers_from (C : DhcpPoolConfig -> Prop) (ls : list Z) : Prop :=
  Forall (fun ip => exists cfg, C cfg /\ in_range (pool_start cfg) (pool_end cfg) ip) ls.

(** The table invariant together with where the addresses come from. *)
Record dhcp_inv (C : DhcpPoolConfig -> Prop) (e : t) : Prop := {
  di_lease : lease_inv e;
  di_from : offers_from C (map l_ip (pool e)) }.

Lemma dhcp_inv_same C e e' : lease_inv e' -> pool_count e' = pool_count e ->
  map l_ip (leases e') = map l_ip (leases e) -> dhcp_inv C e -> dhcp_inv C e'.
Proof.
  intros H1 H2 H3 [_ H4]. split; [done|]. unfold pool in *. rewrite H2.
  rewrite <- !firstn_map, H3, firstn_map. done.
Qed.

Lemma handle_inv C msg fd e w e' w' : dhcp_inv C e ->
  handle_dhcp_request msg fd e w = Some (e', w') -> dhcp_inv C e'.
Proof.
  intros He. unfold handle_dhcp_request. destruct (parse_request msg) as [q|]; [|by intros [= <- <-]].
  destruct (decide_response msg q e w) as [[r e1] w1] eqn:E.
  destruct (decide_response_inv _ _ _ _ _ _ _ (di_lease _ _ He) E) as (H1 & _ & H3 & H4 & _).
  assert (dhcp_inv C e1) as He1 by (by apply (dhcp_inv_same C e)).
  destruct r as [[ty yi]|]; [|by intros [= <- <-]].
  destruct (send_response _ _ _ _ _ _ _); [|done]. by intros [= <- <-].
Qed.

Lemma set_queue_inv C e q : dhcp_inv C e -> dhcp_inv C (set_queue e q).
Proof. intros [[] ?]. by split. Qed.

Lemma background_inv C n fd e w e' w' : dhcp_inv C e ->
  background_loop n fd e w = Some (e', w') -> dhcp_inv C e'.
Proof.
  revert e w. induction n as [|n IH]; intros e w He; simpl; [by intros [= <- <-]|].
  destruct (SpscRingBuffer.pop _ _ _) as [[msg|] q]; [|by intros [= <- <-]].
  destruct (handle_dhcp_request _ _ _ _) as [[e1 w1]|] eqn:E; [|done].
  apply IH. eapply handle_inv; [|exact E]. by apply set_queue_inv.
Qed.

Lemma reconfigure_inv (C : DhcpPoolConfig -> Prop) cfg e : cfg_ok cfg -> C cfg ->
  length (leases e) = MAX_POOL_SIZE -> dhcp_inv C e ->
  dhcp_inv C (snd (init_pool (pool_start cfg) (pool_end cfg) e)).
Proof.
  intros [H1 H2] Hc Hlen He. destruct (init_pool _ _ e) as [r e'] eqn:E.
  destruct (init_pool_spec _ _ _ _ _ H1 H2 Hlen E) as [(_ & _ & ->)|(_ & _ & Hi & _ & Hr)]; [done|].
  split; [done|]. unfold offers_from. apply List.Forall_map, List.Forall_forall.
  intros l Hl. apply list_elem_of_In, list_elem_of_lookup in Hl as [i Hi'].
  exists cfg. split; [done|]. by apply (Hr i l).
Qed.

Lemma make_dhcp_inv (C : DhcpPoolConfig -> Prop) lan_ip cfg hw : cfg_ok cfg -> C cfg ->
  dhcp_inv C (make lan_ip cfg hw).
Proof.
  intros Hc HC. unfold make. set (e0 := Mk _ _ _ _ _ _).
  assert (dhcp_inv C e0) as He0.
  { split; [split; try done|constructor]. unfold MAX_POOL_SIZE. simpl. lia. }
  pose proof (reconfigure_inv C cfg e0 Hc HC eq_refl He0) as [[] ?].
  destruct hw; by split.
Qed.

Lemma dhcp_run_inv (C : DhcpPoolConfig -> Prop) fd ops e w e' w' :
  (forall c, DReconfigure c ∈ ops -> C c) -> Forall dhcp_op_ok ops -> dhcp_inv C e ->
  dhcp_run fd ops (e, w) = Some (e', w') -> dhcp_inv C e'.
Proof.
  intros HC Hops. revert e w. induction Hops as [|op ops Hok Hops IH]; intros e w He; cbn [dhcp_run];
    [by intros [= <- <-]|].
  destruct (dhcp_apply fd op (e, w)) as [[e1 w1]|] eqn:E; [|done].
  apply IH; [set_solver|]. destruct op as [frame| |c|ip]; simpl in E.
  - injection E as <- <-. by apply set_queue_inv.
  - by eapply background_inv.
  - injection E as <- <-. apply reconfigure_inv; [done|set_solver|apply He|]. by destruct He as [[] ?].
  - injection E as <- <-. by destruct He as [[] ?].
Qed.

(** C6: the lease table is consistent in every run: whatever frames arrive, however
    often the pool is reconfigured and whatever the socket and the clock do, the table
    has at most 253 entries in use, no two entries offer the same address, no hardware
    address holds two active leases, and every address of the pool lies in a range
    that some configuration of the run asked for. *)
Theorem dhcp_table_consistent (fd : Z) (lan_ip : list Z) (cfg : DhcpPoolConfig)
    (hw : option (list Z)) (ops : list dhcp_op) (w : World) (e : t) (w' : World)
    (Hcfg : cfg_ok cfg) (Hops : Forall dhcp_op_ok ops)
    (Hrun : dhcp_run fd ops (make lan_ip cfg hw, w) = Some (e, w')) :
  (length (pool e) <= 253)%nat /\
  (forall i j l l', pool e !! i = Some l -> pool e !! j = Some l' -> l_ip l = l_ip l' -> i = j) /\
  (forall i j l l', pool e !! i = Some l -> pool e !! j = Some l' ->
     l_active l = true -> l_active l' = true -> l_mac l = l_mac l' -> i = j) /\
  (forall i l, pool e !! i = Some l -> exists c, (c = cfg \/ DReconfigure c ∈ ops) /\
     in_range (pool_start c) (pool_end c) (l_ip l)).
Proof.
  set (C := fun c => c = cfg \/ DReconfigure c ∈ ops).
  destruct (dhcp_run_inv C fd ops _ w e w' ltac:(by right) Hops
    (make_dhcp_inv C lan_ip cfg hw Hcfg (or_introl eq_refl)) Hrun)
    as [[Hs Hc Hi Hm] Hf].
  split; [unfold pool; rewrite length_take; unfold MAX_POOL_SIZE in *; lia|]. split; [done|].
  split; [done|]. intros i l Hl.
  assert (l_ip l ∈ map l_ip (pool e)) as Hin by (apply list_elem_of_In, in_map, list_elem_of_In; by eapply list_elem_of_lookup_2).
  exact (proj1 (List.Forall_forall _ _) Hf _ (proj1 (list_elem_of_In _ _) Hin)).
Qed.

(** ** Concrete runs for the witnesses *)
Definition ip_of (a b c d : Z) : Z := get32 [a; b; c; d] 0.
Definition w_cfg : DhcpPoolConfig := MkPool (ip_of 192 168 1 100) (ip_of 192 168 1 101) 60.
Definition w_discover : list Z := take (snd make_dhcp_discover) (fst make_dhcp_discover).
(** The same frame from another client. *)
Definition w_discover2 : list Z := put8 w_discover (42 + DhcpHeader.chaddr) 16.
Definition w_clock0 (i : nat) : Z := Z.of_nat i * 1000000000.
Definition w_world (rs : list SendReply) : World := MkWorld w_clock0 0 rs [] Telemetry0.

Lemma dhcp_table_consistent_witness :
  let ops := [DIntercept w_discover; DIntercept w_discover2; DIntercept w_discover; DTask] in
  exists e w', dhcp_run 9 ops (make [] w_cfg None, w_world [Sent 320; Sent 320; Sent 320]) = Some (e, w') /\
    length (w_wire w') = 3%nat /\
    (forall i j l l', pool e !! i = Some l -> pool e !! j = Some l' ->
       l_active l = true -> l_active l' = true -> l_mac l = l_mac l' -> i = j).
Proof.
  intros ops.
  destruct (dhcp_run 9 ops (make [] w_cfg None, w_world [Sent 320; Sent 320; Sent 320]))
    as [[e w']|] eqn:E; [|exfalso; vm_compute in E; discriminate].
  exists e, w'. split; [reflexivity|].
  split; [vm_compute in E; injection E as <- <-; reflexivity|].
  refine (proj1 (proj2 (proj2 (dhcp_table_consistent 9 [] w_cfg None ops _ e w' _ _ E)))).
  - split; vm_compute; (split; [discriminate|reflexivity]).
  - repeat constructor.
Defined.

(** * Exclusive grants *)
(** What a client was told: its hardware address, the message type (2 OFFER, 5 ACK,
    6 NAK), the address, when the request was looked up, and until when the address
    is its own if it was acknowledged. *)
Record grant := MkGrant { g_mac : list Z; g_type : Z; g_ip : Z; g_at : Z; g_until : Z }.

Definition log_entry (msg : DhcpMessage) (e : t) (w : World) : list grant :=
  match parse_request msg with
  | None => []
  | Some q =>
      match decide_response msg q e w with
      | (Some (ty, ip), e', w') =>
          [MkGrant (slice (m_data msg) (q_off q + DhcpHeader.chaddr) 6) ty ip
             (w_clock w (w_clk w)) (w_clock w' (w_clk w' - 1)%nat + duration e)]
      | _ => []
      end
  end.
(** Requests served one after the other, with the log of what was answered. *)
Fixpoint serve (fd : Z) (msgs : list DhcpMessage) (e : t) (w : World) (log : list grant) :
  option (t * World * list grant) :=
  match msgs with
  | [] => Some (e, w, log)
  | m :: ms => match handle_dhcp_request m fd e w with
               | Some (e', w') => serve fd ms e' w' (log ++ log_entry m e w)
               | None => None
               end
  end.

Definition steady_clock (c : nat -> Z) : Prop := forall i j, (i <= j)%nat -> c i <= c j.

(** Grant [a] is honoured at time [tm]: its entry is still the client's, or it is over. *)
Definition honoured (a : grant) (e : t) (tm : Z) : Prop :=
  (exists i l, pool e !! i = Some l /\ l_ip l = g_ip a /\ l_mac l = g_mac a /\
     l_active l = true /\ g_until a <= l_expiry l) \/ g_until a < tm.

Lemma honoured_later a e tm tm' : tm <= tm' -> honoured a e tm -> honoured a e tm'.
Proof. intros H [Hl|Hd]; [by left|right; lia]. Qed.

Lemma find_honours a mac e w ip e' w' : lease_inv e ->
  find_or_assign_lease mac e w = (ip, e', w') -> honoured a e (w_clock w (w_clk w)) ->
  honoured a e' (w_clock w (w_clk w)) /\
  (ip = g_ip a -> ip <> 0 -> mac <> g_mac a -> g_until a < w_clock w (w_clk w)).
Proof.
  intros He Hf Ha. destruct (find_or_assign_cases _ _ _ _ _ _ He Hf) as
    (_ & [(i & l & Hl & Hact & Hmac & -> & ->)|[(i & l & Hl & Hfree & Hmac & -> & ->)|(-> & -> & _)]]).
  - split; [done|]. intros Eip _ Hne. destruct Ha as [(j & x & Hx & Ex & Em & Ax & _)|]; [|done].
    destruct Hne. rewrite <- Em, <- Hmac. f_equal.
    assert (j = i) as -> by (apply (li_ips _ He j i x l); congruence). congruence.
  - destruct Ha as [(j & x & Hx & Ex & Em & Ax & Hexp)|Hd]; [|split; [by right|done]].
    destruct (decide (j = i)) as [->|Hne].
    + assert (x = l) as -> by congruence.
      assert (g_until a < w_clock w (w_clk w)) as Hd by (destruct Hfree; [congruence|lia]).
      split; [by right|done].
    + split; [|intros Eip _ _; destruct Hne; apply (li_ips _ He j i x l); congruence].
      left. exists j, x. split; [|done]. rewrite (pool_update _ _ _ Hl), list_lookup_insert_ne; done.
  - split; [done|]. done.
Qed.

Lemma commit_honours a ip e w e' w' : lease_inv e ->
  (forall i l, pool e !! i = Some l -> l_ip l = ip -> l_active l = true) ->
  commit_lease ip e w = (e', w') -> g_until a <= w_clock w (w_clk w) + duration e ->
  honoured a e (w_clock w (w_clk w)) -> honoured a e' (w_clock w (w_clk w)).
Proof.
  intros He Hact Hc Hub Ha.
  destruct (commit_lease_inv _ _ _ _ _ He Hact Hc) as (_ & [(-> & -> & _)|(i & l & Hl & Eip & Al & -> & ->)]);
    [done|].
  destruct Ha as [(j & x & Hx & Ex & Em & Ax & Hexp)|Hd]; [|by right]. left.
  destruct (decide (j = i)) as [->|Hne].
  - assert (x = l) as -> by congruence. exists i. eexists. split.
    + rewrite (pool_update _ _ _ Hl), list_lookup_insert_eq by (by eapply lookup_lt_Some). done.
    + done.
  - exists j, x. split; [|done]. rewrite (pool_update _ _ _ Hl), list_lookup_insert_ne; done.
Qed.

(** One request against the grants made so far. *)
Lemma decide_honours msg q e w r e' w' a : lease_inv e -> steady_clock (w_clock w) ->
  decide_response msg q e w = (r, e', w') ->
  honoured a e (w_clock w (w_clk w)) -> g_until a <= w_clock w (w_clk w) + duration e ->
  honoured a e' (w_clock w (w_clk w')) /\ (w_clk w <= w_clk w')%nat /\
  (forall ty ip, r = Some (ty, ip) -> ty <> 6 -> ip = g_ip a -> ip <> 0 ->
     slice (m_data msg) (q_off q + DhcpHeader.chaddr) 6 <> g_mac a -> g_until a < w_clock w (w_clk w)).
Proof.
  intros He Hst. unfold decide_response. set (mac := slice _ _ 6). intros Hd Ha Hub.
  destruct (find_or_assign_lease mac e w) as [[ip e1] w1] eqn:Ef.
  destruct (find_honours a _ _ _ _ _ _ He Ef Ha) as [Ha1 Hex].
  destruct (find_or_assign_inv _ _ _ _ _ _ He Ef) as [He1 Hact].
  destruct (find_or_assign_cases _ _ _ _ _ _ He Ef) as (Ew1 & Hcases).
  assert (duration e1 = duration e) as Ed
    by (destruct Hcases as [(?&?&_&_&_&_&->)|[(?&?&_&_&_&_&->)|(_&->&_)]]; done).
  pose proof (Hst (w_clk w) (S (w_clk w)) ltac:(lia)) as Hm1.
  pose proof (Hst (S (w_clk w)) (S (S (w_clk w))) ltac:(lia)) as Hm2.
  destruct (q_type q =? 1).
  { injection Hd as <- <- <-. rewrite Ew1. simpl. split; [by eapply honoured_later|]. split; [lia|].
    intros ty ip'. case_if; [done|]. intros [= <- <-]. auto. }
  destruct (q_type q =? 3).
  2:{ injection Hd as <- <- <-. split; [done|]. split; [lia|done]. }
  set (req := if q_requested q =? 0 then _ else _) in *. destruct (ip =? req) eqn:Eq.
  - destruct (commit_lease ip e1 w1) as [e2 w2] eqn:Ec. injection Hd as <- <- <-.
    assert (honoured a e2 (w_clock w (S (w_clk w)))) as Ha2.
    { replace (w_clock w (S (w_clk w))) with (w_clock w1 (w_clk w1)) by (by rewrite Ew1).
      eapply commit_honours; [exact He1|exact Hact|exact Ec|..]; rewrite Ed, Ew1 || rewrite Ew1; simpl.
      - lia.
      - by eapply honoured_later. }
    destruct (commit_lease_inv _ _ _ _ _ He1 Hact Ec) as (_ & [(_ & -> & _)|(i & l & _ & _ & _ & -> & _)]);
      rewrite Ew1; simpl; (split; [eapply honoured_later; [|exact Ha2]; lia|]); (split; [lia|]);
      intros ty ip' [= <- <-]; auto.
  - injection Hd as <- <- <-. rewrite Ew1. simpl. split; [by eapply honoured_later|]. split; [lia|].
    intros ty ip' [= <- <-]. done.
Qed.

(** The grant a request makes. *)
Lemma decide_grants msg q e w ip e' w' : lease_inv e -> steady_clock (w_clock w) ->
  decide_response msg q e w = (Some (5, ip), e', w') -> ip <> 0 ->
  let a := MkGrant (slice (m_data msg) (q_off q + DhcpHeader.chaddr) 6) 5 ip (w_clock w (w_clk w))
             (w_clock w' (w_clk w' - 1)%nat + duration e) in
  honoured a e' (w_clock w (w_clk w')) /\ g_until a <= w_clock w (w_clk w') + duration e /\
  duration e' = duration e /\ w_clock w' = w_clock w.
Proof.
  intros He Hst Hd Hip. cbv zeta. unfold decide_response in Hd. set (mac := slice _ _ 6) in *.
  destruct (q_type q =? 1).
  { destruct (find_or_assign_lease mac e w) as [[ip0 e1] w1]. destruct (ip0 =? 0); simplify_eq. }
  destruct (q_type q =? 3); [|done].
  destruct (find_or_assign_lease mac e w) as [[ip0 e1] w1] eqn:Ef.
  destruct (find_or_assign_inv _ _ _ _ _ _ He Ef) as [He1 Hact].
  destruct (find_or_assign_cases _ _ _ _ _ _ He Ef) as (Ew1 & Hcases).
  set (req := if q_requested q =? 0 then _ else _) in *. destruct (ip0 =? req); [|done].
  destruct (commit_lease ip0 e1 w1) as [e2 w2] eqn:Ec. injection Hd as -> <- <-.
  assert (exists i l, pool e1 !! i = Some l /\ l_ip l = ip /\ l_mac l = mac) as (i & l & Hl & El & Em).
  { destruct Hcases as [(i & l & Hl & _ & Hm & -> & ->)|[(i & l & Hl & _ & _ & -> & ->)|(-> & _)]];
      [by exists i, l| |done].
    exists i. eexists. rewrite (pool_update _ _ _ Hl), list_lookup_insert_eq by (by eapply lookup_lt_Some).
    done. }
  assert (duration e1 = duration e) as Ed
    by (destruct Hcases as [(?&?&_&_&_&_&->)|[(?&?&_&_&_&_&->)|(_&->&_)]]; done).
  destruct (commit_lease_inv _ _ _ _ _ He1 Hact Ec) as (_ & [(_ & _ & Hno)|(j & x & Hx & Ex & Ax & -> & ->)]);
    [by destruct (Hno i l Hl El)|].
  assert (i = j) as <- by (apply (li_ips _ He1 i j l x); congruence).
  assert (x = l) as -> by congruence.
  subst w1. cbn [now snd w_clk w_clock g_until]. rewrite Nat.sub_succ, Nat.sub_0_r.
  pose proof (Hst (S (w_clk w)) (S (S (w_clk w))) ltac:(lia)).
  split; [|split; [lia|by split]]. left. exists i. eexists.
  rewrite (pool_update _ _ _ Hl), list_lookup_insert_eq by (by eapply lookup_lt_Some).
  split; [done|]. cbn [l_ip l_mac l_active l_expiry g_ip g_mac g_until]. rewrite Ed.
  split; [done|]. split; [done|]. split; [done|]. lia.
Qed.

(** Sending answers does not touch the clock. *)
Lemma handle_decides msg fd e w e' w' q r e1 w1 :
  handle_dhcp_request msg fd e w = Some (e', w') -> parse_request msg = Some q ->
  decide_response msg q e w = (r, e1, w1) ->
  e' = e1 /\ w_clock w' = w_clock w1 /\ w_clk w' = w_clk w1.
Proof.
  intros H Hq Hd. unfold handle_dhcp_request in H. rewrite Hq, Hd in H.
  destruct r as [[ty yi]|]; [|by simplify_eq].
  unfold send_response, send_best_effort in H.
  destruct (try_send_packet_nonblocking _ _ _) as [[res w2]|] eqn:Es; [|done].
  destruct (try_send_frame _ _ _ _ _ Es) as (Hc & Hk & _). destruct res; simplify_eq; done.
Qed.

Definition grants_ok (e : t) (w : World) (log : list grant) : Prop :=
  forall a, a ∈ log -> g_type a = 5 -> g_ip a <> 0 ->
    honoured a e (w_clock w (w_clk w)) /\ g_until a <= w_clock w (w_clk w) + duration e.
(** No address acknowledged to one client is offered or acknowledged to another before
    the first grant is over. *)
Definition exclusive (log : list grant) : Prop :=
  forall i j a b, (i < j)%nat -> log !! i = Some a -> log !! j = Some b ->
    g_type a = 5 -> g_type b <> 6 -> g_ip b = g_ip a -> g_ip a <> 0 -> g_mac b <> g_mac a ->
    g_until a < g_at b.

Lemma serve_step msg fd e w e' w' log : lease_inv e -> steady_clock (w_clock w) ->
  handle_dhcp_request msg fd e w = Some (e', w') -> grants_ok e w log -> exclusive log ->
  lease_inv e' /\ w_clock w' = w_clock w /\
  grants_ok e' w' (log ++ log_entry msg e w) /\ exclusive (log ++ log_entry msg e w).
Proof.
  intros He Hst Hh Hg Hx. unfold log_entry.
  destruct (parse_request msg) as [q|] eqn:Hq.
  2:{ unfold handle_dhcp_request in Hh. rewrite Hq in Hh. injection Hh as <- <-.
      rewrite app_nil_r. done. }
  destruct (decide_response msg q e w) as [[r e1] w1] eqn:Hd.
  destruct (handle_decides _ _ _ _ _ _ _ _ _ _ Hh Hq Hd) as (-> & Hc & Hk).
  destruct (decide_response_inv _ _ _ _ _ _ _ He Hd) as (He1 & _ & _ & _ & Hdur & _ & _ & Hc1).
  assert (duration e1 = duration e) as Ed by (unfold duration; by rewrite Hdur).
  split; [done|]. split; [congruence|].
  assert (forall a, a ∈ log -> g_type a = 5 -> g_ip a <> 0 ->
    honoured a e1 (w_clock w' (w_clk w')) /\ g_until a <= w_clock w' (w_clk w') + duration e1 /\
    (forall ty ip, r = Some (ty, ip) -> ty <> 6 -> ip = g_ip a -> ip <> 0 ->
     slice (m_data msg) (q_off q + DhcpHeader.chaddr) 6 <> g_mac a -> g_until a < w_clock w (w_clk w))) as Hold.
  { intros a Ha Hty Hip. destruct (Hg a Ha Hty Hip) as [H1 H2].
    destruct (decide_honours _ _ _ _ _ _ _ a He Hst Hd H1 H2) as (H3 & H4 & H5).
    rewrite Hc, Hk, Hc1, Ed. split; [done|]. split; [|done]. pose proof (Hst _ _ H4). lia. }
  destruct r as [[ty ip]|].
  - set (b := MkGrant _ ty ip _ _). split.
    + intros a [Ha|Ha%list_elem_of_singleton]%elem_of_app Hty Hip.
      * by destruct (Hold a Ha Hty Hip) as (? & ? & _).
      * subst a. simpl in Hty, Hip. subst ty.
        destruct (decide_grants _ _ _ _ _ _ _ He Hst Hd Hip) as (H1 & H2 & _).
        rewrite Hc, Hk, Hc1, Ed. subst b. rewrite Hc1 in *. done.
    + intros i j a b' Hij Ha Hb Hta Htb Hip Hnz Hmac.
      apply lookup_app_Some in Hb as [Hb|[Hlen Hb]].
      * rewrite lookup_app_l in Ha by (apply lookup_lt_Some in Hb; lia). by eapply (Hx i j).
      * apply list_lookup_singleton_Some in Hb as [Hj <-].
        rewrite lookup_app_l in Ha by lia. apply list_elem_of_lookup_2 in Ha.
        destruct (Hold a Ha Hta Hnz) as (_ & _ & Hlate). simpl in *. by apply (Hlate ty ip); try congruence.
  - rewrite app_nil_r. split; [|done]. intros a Ha Hty Hip.
    by destruct (Hold a Ha Hty Hip) as (? & ? & _).
Qed.

Lemma serve_exclusive fd msgs e w log e' w' log' : lease_inv e -> steady_clock (w_clock w) ->
  grants_ok e w log -> exclusive log -> serve fd msgs e w log = Some (e', w', log') -> exclusive log'.
Proof.
  revert e w log. induction msgs as [|m ms IH]; intros e w log He Hst Hg Hx; simpl; [by intros [= <- <- <-]|].
  destruct (handle_dhcp_request m fd e w) as [[e1 w1]|] eqn:E; [|done].
  destruct (serve_step _ _ _ _ _ _ _ He Hst E Hg Hx) as (He1 & Hc & Hg1 & Hx1).
  apply IH; try done. by rewrite Hc.
Qed.

(** The engine by itself: in any history of the server, with a steady
    clock, an address acknowledged to a client is not offered or acknowledged to a client
    with another hardware address before the acknowledged lease time is over,
    however many requests come in between and whoever sends them. *)
Lemma dhcp_grants_exclusive (fd : Z) (lan_ip : list Z) (cfg : DhcpPoolConfig)
    (hw : option (list Z)) (ops : list dhcp_op) (w : World) (e : t) (w0 : World)
    (msgs : list DhcpMessage) (e' : t) (w' : World) (log : list grant)
    (Hcfg : cfg_ok cfg) (Hops : Forall dhcp_op_ok ops)
    (Hrun : dhcp_run fd ops (make lan_ip cfg hw, w) = Some (e, w0))
    (Hsteady : steady_clock (w_clock w0))
    (Hserve : serve fd msgs e w0 [] = Some (e', w', log)) :
  forall i j a b, (i < j)%nat -> log !! i = Some a -> log !! j = Some b ->
    g_type a = 5 -> g_type b = 2 \/ g_type b = 5 ->
    g_ip b = g_ip a -> g_ip a <> 0 -> g_mac b <> g_mac a -> g_until a < g_at b.
Proof.
  destruct (dhcp_run_inv (fun _ => True) fd ops _ w e w0 ltac:(done) Hops
    (make_dhcp_inv _ lan_ip cfg hw Hcfg I) Hrun) as [He _].
  pose proof (serve_exclusive fd msgs e w0 [] e' w' log He Hsteady ltac:(by intros a Ha%elem_of_nil)
    ltac:(done) Hserve) as Hx.
  intros i j a b Hij Ha Hb Hta Htb. apply (Hx i j a b Hij Ha Hb Hta). lia.
Qed.

(** A REQUEST of the first client for the address it was offered, as a queued message. *)
Definition w_request : list Z :=
  let b := put8 w_discover 284 3 in
  take 282 b ++ [53; 1; 3; 50; 4; 192; 168; 1; 100; 255].
Definition msg_of (frame : list Z) : DhcpMessage :=
  MkMsg (length frame) (copy_to (replicate 512 0) 0 frame).

Lemma dhcp_grants_exclusive_witness :
  let cfg := MkPool (ip_of 192 168 1 100) (ip_of 192 168 1 100) 2 in
  let msgs := [msg_of w_discover; msg_of w_request; msg_of w_discover2; msg_of w_discover2;
               msg_of w_discover2] in
  exists e' w' log, serve 9 msgs (make [] cfg None) (w_world [Sent 320; Sent 320; Sent 320]) []
    = Some (e', w', log) /\ map g_type log = [2; 5; 2] /\
  forall i j a b, (i < j)%nat -> log !! i = Some a -> log !! j = Some b ->
    g_type a = 5 -> g_type b = 2 \/ g_type b = 5 ->
    g_ip b = g_ip a -> g_ip a <> 0 -> g_mac b <> g_mac a -> g_until a < g_at b.
Proof.
  intros cfg msgs.
  destruct (serve 9 msgs (make [] cfg None) (w_world [Sent 320; Sent 320; Sent 320]) [])
    as [[[e' w'] log]|] eqn:E; [|exfalso; vm_compute in E; discriminate].
  exists e', w', log. split; [reflexivity|].
  split; [vm_compute in E; injection E as <- <- <-; reflexivity|].
  refine (dhcp_grants_exclusive 9 [] cfg None [] _ _ _ msgs e' w' log _ (Forall_nil_2 _) eq_refl _ E).
  - split; vm_compute; (split; [discriminate|reflexivity]).
  - intros i j Hij. unfold w_world, w_clock0. cbn [w_clock]. lia.
Defined.
