(* ===== verification/DhcpWire.v ===== *)
(** The DHCP wire format: the option parser reads only the message, and the frames the
    server builds are well-formed answers that its own parser understands. *)
From Stdlib Require Import ZArith Lia.
From stdpp Require Import base list gmap numbers.
From S2P Require Import Prelude Text Types_util Headers_util Rings Telemetry TxFrame Checksum TestPackets DhcpEngine DhcpProofs.
Import DhcpEngine.

(** * The option parser *)
(** [mem] and [mem'] hold the same bytes below [len], and both hold a byte at [len]. *)
Definition same_message (len : nat) (mem mem' : nat -> option Z) : Prop :=
  (forall i, (i < len)%nat -> is_Some (mem i) /\ mem i = mem' i) /\
  is_Some (mem len) /\ is_Some (mem' len).

Lemma mapM_seq_same len mem mem' o n : same_message len mem mem' -> (o + n <= len)%nat ->
  exists bs, mapM (λ i, mem (o + i)%nat) (seq 0 n) = Some bs /\
             mapM (λ i, mem' (o + i)%nat) (seq 0 n) = Some bs.
Proof.
  intros [Heq _] Hl.
  enough (forall l, Forall (fun i => (i < n)%nat) l ->
    exists bs, mapM (λ i, mem (o + i)%nat) l = Some bs /\ mapM (λ i, mem' (o + i)%nat) l = Some bs) as H.
  { apply H. apply List.Forall_forall. intros i Hi%in_seq. lia. }
  induction 1 as [|i l Hi _ (bs & E & E')]; [by exists []|].
  destruct (Heq (o + i)%nat ltac:(lia)) as [[x Hx] Ex]. exists (x :: bs). cbn.
  rewrite E, E', <- Ex, Hx. done.
Qed.

Lemma parse_options_same fuel mem mem' len opt ty req :
  same_message len mem mem' -> (len < opt + fuel)%nat -> (0 < fuel)%nat ->
  exists r, parse_options fuel mem len opt ty req = Some r /\
            parse_options fuel mem' len opt ty req = Some r.
Proof.
  intros Hm. pose proof Hm as (Heq & [x Hx] & [x' Hx']). revert opt ty req.
  induction fuel as [|f IH]; intros opt ty req Hf Hf0; [lia|].
  cbn [parse_options]. destruct (Nat.ltb_spec opt len) as [Ho|Ho]; [|by eexists].
  destruct (Heq opt Ho) as [[c Hc] Ec]. rewrite <- Ec, Hc. cbn [mbind option_bind].
  case_if; [by eexists|]. case_if; [apply IH; lia|].
  destruct (decide (opt + 1 < len)%nat) as [H1|H1].
  - destruct (Heq (opt + 1)%nat H1) as [[olen Hl] El]. rewrite <- El, Hl. cbn [mbind option_bind].
    destruct (Nat.ltb_spec len (opt + 2 + Z.to_nat olen)) as [L|L]; [by eexists|].
    destruct ((c =? 53) && (olen =? 1)) eqn:E53; destruct ((c =? 50) && (olen =? 4)) eqn:E50;
      bool2prop; try lia.
    + destruct (Heq (opt + 2)%nat ltac:(lia)) as [[y Hy] Ey]. rewrite <- Ey, Hy.
      cbn [mbind option_bind]. apply IH; lia.
    + destruct (mapM_seq_same len mem mem' (opt + 2) 4 Hm ltac:(lia)) as (bs & -> & ->).
      cbn [mbind option_bind fmap option_fmap option_map]. apply IH; lia.
    + cbn [mbind option_bind]. apply IH; lia.
  - replace (opt + 1)%nat with len by lia. rewrite Hx, Hx'. cbn [mbind option_bind].
    destruct (Nat.ltb_spec len (opt + 2 + Z.to_nat x)) as [L|L]; [|lia].
    destruct (Nat.ltb_spec len (opt + 2 + Z.to_nat x')) as [L'|L']; [|lia]. by eexists.
Qed.

(** C20: the option loop terminates and is confined to the message and one byte past it.
    [mem] is any memory that holds the [len] bytes of the message and the byte after it,
    and need hold no other: a load anywhere else would be a fault. For every length,
    starting point and content, [len + 1] rounds end the loop without a fault, so it
    reads no byte beyond [len]; and another memory with the same message, whatever its
    byte at [len], gives the same message type and requested address, so that byte
    never influences the result. *)
Theorem parse_options_confined (mem mem' : nat -> option Z) (len opt : nat) (ty req : Z)
    (Hmem : same_message len mem mem') :
  exists r, parse_options (S len) mem len opt ty req = Some r /\
            parse_options (S len) mem' len opt ty req = Some r.
Proof. apply parse_options_same; [done|lia|lia]. Qed.

(** In the witness the message ends in the code of an option: there the loop does read the
    byte past the end, and faults when the memory ends with the message. *)
Lemma parse_options_confined_witness :
  let msg := [53; 1; 3; 50; 4; 10; 0; 0; 7; 12] in
  let mem (i : nat) := (msg ++ [0]) !! i in
  let mem' (i : nat) := (msg ++ [99; 1; 2; 3]) !! i in
  parse_options 11 mem 10 0 0 0 = Some (3, 117440522) /\
  parse_options 11 (fun i => msg !! i) 10 0 0 0 = None /\
  exists r, parse_options 11 mem 10 0 0 0 = Some r /\ parse_options 11 mem' 10 0 0 0 = Some r.
Proof.
  intros msg mem mem'. split; [vm_compute; reflexivity|]. split; [vm_compute; reflexivity|].
  apply (parse_options_confined mem mem' 10 0 0 0). split; [|split; eexists; reflexivity].
  intros i Hi. do 10 (destruct i as [|i]; [split; [eexists|]; reflexivity|]). lia.
Defined.

(** * The answer frames *)
(** Reading through the stores of a frame under construction, at literal offsets. *)
Ltac frame_step := first
  [ rewrite rd_put16_ne by lia | rewrite rd_put32_ne by lia | rewrite rd_put8_ne by lia
  | rewrite rd_copy_to_ne by (autorewrite with buflen; cbn [length]; lia) ].
Ltac offs := unfold EthernetHeader.dest, EthernetHeader.src, EthernetHeader.proto, EthernetHeader.size,
  IPv4Header.ver_ihl, IPv4Header.tos, IPv4Header.tot_len, IPv4Header.id, IPv4Header.frag_off,
  IPv4Header.ttl, IPv4Header.protocol, IPv4Header.check, IPv4Header.saddr, IPv4Header.daddr,
  IPv4Header.size, UDPHeader.source, UDPHeader.dest, UDPHeader.len, UDPHeader.check, UDPHeader.size,
  RESP_DHCP, DhcpHeader.op, DhcpHeader.htype, DhcpHeader.hlen, DhcpHeader.hops, DhcpHeader.xid,
  DhcpHeader.secs, DhcpHeader.flags, DhcpHeader.ciaddr, DhcpHeader.yiaddr, DhcpHeader.siaddr,
  DhcpHeader.giaddr, DhcpHeader.chaddr, DhcpHeader.sname, DhcpHeader.magic_cookie, DhcpHeader.size in *.

Lemma le32_bytes v : slice (put32 (replicate 4 0) 0 v) 0 4
  = [u8 (u16 v); u8 (u16 v / 256); u8 (v / 65536); u8 (v / 65536 / 256)].
Proof. reflexivity. Qed.
Lemma response_options_length type e : length (response_options type e) = 38%nat.
Proof. reflexivity. Qed.
Lemma response_options_bytes type e : is_u8 type -> bytes_ok (response_options type e).
Proof.
  intros Ht. unfold response_options. rewrite !le32_bytes.
  repeat first [apply Forall_cons_2 | apply Forall_app_2 | apply Forall_nil_2 | apply u8_range | done];
    unfold is_u8; lia.
Qed.

(** The checksum loop of the answer agrees with the one's complement sum. *)
Lemma response_checksum_spec r : bytes_ok r ->
  is_u16 (response_checksum r) /\ (ntohs (response_checksum r) + csum r 14 20 =1 0)%checksum.
Proof.
  intros Hr. unfold response_checksum.
  assert (forall n k s, 0 <= s -> s + 65535 * Z.of_nat n < 4294967296 ->
    fold_left (fun s i => u32 (s + ntohs (get16 r (14 + 2 * i)))) (seq k n) s
    = s + csum r (14 + 2 * k) (2 * n)) as Hfold.
  { induction n as [|n IH]; intros k s Hs Hb; [simpl; lia|]. cbn [seq fold_left].
    rewrite ntohs_get16 by done. pose proof (csum_nonneg r (14 + 2 * k) 2 Hr) as Hc.
    pose proof (get16_range r (14 + 2 * k) Hr) as Hg. apply bswap16_range in Hg.
    rewrite ntohs_get16 in Hg by done.
    rewrite u32_id by (unfold is_u32, is_u16 in *; lia).
    rewrite IH by (unfold is_u16 in *; lia).
    replace (2 * S n)%nat with (S (S (2 * n))) by lia. rewrite csum_SS.
    replace (14 + 2 * S k)%nat with (14 + 2 * k + 2)%nat by lia. lia. }
  rewrite Hfold by lia. rewrite Z.add_0_l. change (14 + 2 * 0)%nat with 14%nat.
  change (2 * 10)%nat with 20%nat. split; [apply bswap16_range, u16_range|].
  rewrite bswap16_invol by apply u16_range.
  pose proof (csum_nonneg r 14 20 Hr) as Hc. set (s := csum r 14 20) in *. autorewrite with bits.
  set (s1 := u32 (s / 65536 + s mod 65536)).
  assert (s1 = s mod 65536 + s / 65536) as Hs1 by (subst s1; wordlia).
  assert (s1 =1 s)%checksum as E by (rewrite Hs1; apply ceq_fold).
  assert (0 <= s1 < 131071) by (clear E; wordlia). clearbody s1. rewrite <- E. clear E Hs1.
  destruct (Z.lt_ge_cases s1 65536).
  - apply (ceq_intro 1). wordlia.
  - apply (ceq_intro 2). wordlia.
Qed.

(** The frame before its lengths and checksum are filled in. *)
Definition response_base (type yiaddr : Z) (data : list Z) (off : nat) (e : t) : list Z :=
  let r := replicate 512 0 in
  let r := copy_to r 0 (slice data (off + 28) 6) in
  let r := copy_to r 6 (lan_if_mac e) in
  let r := put16 r 12 (htons 2048) in
  let r := put8 r 14 69 in
  let r := put8 r 15 0 in
  let r := put16 r 18 0 in
  let r := put16 r 20 0 in
  let r := put8 r 22 64 in
  let r := put8 r 23 17 in
  let r := put32 r 26 (router_ip e) in
  let r := put32 r 30 4294967295 in
  let r := put16 r 34 (htons 67) in
  let r := put16 r 36 (htons 68) in
  let r := put8 r 42 2 in
  let r := put8 r 43 1 in
  let r := put8 r 44 6 in
  let r := put8 r 45 0 in
  let r := put32 r 46 (get32 data (off + 4)) in
  let r := put16 r 50 0 in
  let r := put16 r 52 (htons 32768) in
  let r := put32 r 54 0 in
  let r := put32 r 58 yiaddr in
  let r := put32 r 62 (router_ip e) in
  let r := put32 r 66 0 in
  let r := copy_to r 70 (slice data (off + 28) 16) in
  let r := put32 r 278 (htonl 1669485411) in
  copy_to r 282 (response_options type e).

Lemma build_response_eq type yiaddr data off e :
  build_response type yiaddr data off e =
  let r := response_base type yiaddr data off e in
  let r := put16 r 16 (htons 306) in
  let r := put16 r 24 0 in
  let r := put16 r 24 (response_checksum r) in
  let r := put16 r 38 (htons 286) in
  take 320 (put16 r 40 0).
Proof.
  unfold build_response. rewrite response_options_length. reflexivity.
Qed.

Lemma get32_copy_to_ne b o src i : (i + 4 <= o \/ o + length src <= i)%nat ->
  get32 (copy_to b o src) i = get32 b i.
Proof. intros H. unfold get32, get16. by rewrite !rd_copy_to_ne by lia. Qed.

Section Base.
Context (type yiaddr : Z) (data : list Z) (off : nat) (e : t).
Context (Hmac : length (lan_if_mac e) = 6%nat) (Hdata : bytes_ok data).
Context (Hyi : is_u32 yiaddr) (Hty : is_u8 type).

Let base := response_base type yiaddr data off e.

Lemma base_length : length base = 512%nat.
Proof. unfold base, response_base. autorewrite with buflen. reflexivity. Qed.
Lemma base_bytes : bytes_ok base.
Proof.
  unfold base, response_base.
  repeat first [apply bytes_ok_copy_to | apply bytes_ok_put32 | apply bytes_ok_put16 | apply bytes_ok_put8].
  apply Forall_replicate. wordlia.
Qed.

(** Constant fields: evaluation, once the six bytes of the interface address are
    named. *)
Lemma base_fixed : rd base 12 = 8 /\ rd base 13 = 0 /\ rd base 14 = 69 /\ rd base 23 = 17 /\
  be16 base 34 = 67 /\ be16 base 36 = 68 /\ rd base 42 = 2 /\
  get32 base 278 = htonl 1669485411.
Proof.
  unfold base, response_base.
  destruct (lan_if_mac e) as [|m0 [|m1 [|m2 [|m3 [|m4 [|m5 [|]]]]]]]; try discriminate Hmac.
  split_and!; vm_compute; reflexivity.
Qed.

(** Fields copied from the request or the engine. *)

Lemma base_yiaddr : get32 base 58 = yiaddr.
Proof.
  unfold base, response_base. cbv zeta.
  rewrite get32_copy_to_ne by lia. rewrite get32_put32_ne by lia.
  rewrite get32_copy_to_ne by lia. rewrite !get32_put32_ne by lia.
  apply get32_put32_eq; [|done]. autorewrite with buflen. rewrite length_replicate. lia.
Qed.
Lemma base_xid : get32 base 46 = get32 data (off + 4).
Proof.
  unfold base, response_base. cbv zeta.
  rewrite get32_copy_to_ne by lia. rewrite get32_put32_ne by lia.
  rewrite get32_copy_to_ne by lia. rewrite !get32_put32_ne by lia.
  rewrite !get32_put16_ne by lia.
  apply get32_put32_eq; [|auto with words]. autorewrite with buflen. rewrite length_replicate. lia.
Qed.
Lemma base_chaddr : slice base 70 16 = slice data (off + 28) 16.
Proof.
  unfold base, response_base. cbv zeta. set (r := put32 _ 66 0).
  assert (length r = 512%nat) as Hr by (unfold r; autorewrite with buflen; by rewrite length_replicate).
  rewrite <- (slice_copy_to r 70 (slice data (off + 28) 16)) at 2;
    [|rewrite length_slice; lia|auto with words].
  rewrite length_slice. unfold slice at 1 3. apply map_ext_in. intros i Hi%in_seq.
  rewrite rd_copy_to_ne by lia. by rewrite rd_put32_ne by lia.
Qed.
Lemma base_options k : (k < 38)%nat -> rd base (282 + k) = rd (response_options type e) k.
Proof.
  intros Hk. unfold base, response_base. cbv zeta.
  rewrite rd_copy_to; rewrite ?response_options_length; [|autorewrite with buflen; rewrite length_replicate; lia|lia].
  replace (282 + k - 282)%nat with k by lia. apply u8_id, bytes_ok_rd. by apply response_options_bytes.
Qed.
End Base.

Lemma rd_take b n i : (i < n)%nat -> rd (take n b) i = rd b i.
Proof. intros Hi. unfold rd. rewrite !nth_lookup. by rewrite lookup_take_lt. Qed.
Lemma csum_take b n o m : (o + m <= n)%nat -> csum (take n b) o m = csum b o m.
Proof. intros H. apply csum_ext. intros i Hi. apply rd_take. lia. Qed.

Section Response.
Context (type yiaddr : Z) (data : list Z) (off : nat) (e : t).
Context (Hmac : length (lan_if_mac e) = 6%nat) (Hdata : bytes_ok data).
Context (Hyi : is_u32 yiaddr) (Hty : is_u8 type).

Let base := response_base type yiaddr data off e.
Let r := build_response type yiaddr data off e.

Lemma response_length : length r = 320%nat.
Proof.
  unfold r. rewrite build_response_eq. cbv zeta. rewrite length_take. autorewrite with buflen.
  pose proof (base_length type yiaddr data off e). lia.
Qed.
Lemma response_rd i : (i < 16 \/ 18 <= i < 24 \/ 26 <= i < 38 \/ 42 <= i < 320)%nat -> rd r i = rd base i.
Proof.
  intros Hi. unfold r. rewrite build_response_eq. cbv zeta. rewrite rd_take by lia.
  by rewrite !rd_put16_ne by lia.
Qed.
Lemma response_bytes : bytes_ok r.
Proof.
  unfold r. rewrite build_response_eq. cbv zeta. apply Forall_take.
  match goal with |- Forall _ ?x => change (bytes_ok x) end.
  pose proof (base_bytes type yiaddr data off e). auto 10 with words.
Qed.

(** The checksum of the header is right. *)
Lemma response_sum : (csum r 14 20 =1 0)%checksum.
Proof.
  pose proof (base_bytes type yiaddr data off e) as Hb. pose proof (base_length type yiaddr data off e) as Hl.
  unfold r. rewrite build_response_eq. cbv zeta. rewrite csum_take by lia.
  rewrite !(csum_put16_out _ 40), !(csum_put16_out _ 38) by lia.
  set (x := put16 (put16 _ 16 _) 24 0).
  assert (bytes_ok x) as Hx by (unfold x; auto with words).
  destruct (response_checksum_spec x Hx) as [Hu E].
  assert (length x = 512%nat) as Hlx by (unfold x; by autorewrite with buflen).
  rewrite csum_put16 by first [done|lia|reflexivity].
  assert (be16 x 24 = 0) as ->.
  { unfold x. rewrite be16_put16_eq; [done| |wordlia]. autorewrite with buflen. lia. }
  rewrite Z.sub_0_r, Z.add_comm. exact E.
Qed.

(** The server's own parser reads the answer back. *)
Lemma response_parse : parse r = MkParsed r (Some 0%nat) (Some 14%nat) 17 20 34 (Some 34%nat).
Proof.
  destruct (base_fixed type yiaddr data off e Hmac) as (H12 & H13 & H14 & H23 & _).
  fold base in H12, H13, H14, H23.
  assert (rd r 14 = 69) as E14 by (rewrite response_rd by lia; done).
  rewrite (parse_complete r 17); rewrite ?E14; try done.
  - apply response_bytes.
  - rewrite response_length. lia.
  - unfold be16. rewrite !response_rd by lia. by rewrite H12, H13.
  - by rewrite response_rd by lia.
  - by left.
  - rewrite response_length. apply Nat.leb_le. reflexivity.
Qed.

Lemma response_parse_options : parse_options 321 (Some ∘ rd r) 320 282 0 0 = Some (type, 0).
Proof.
  set (mem := fun i : nat =>
    Some (if (i <? 282)%nat then rd r i else rd (response_options type e) (i - 282))).
  destruct (parse_options_same 321 (Some ∘ rd r) mem 320 282 0 0) as (res & -> & E); [|lia|lia|].
  - split; [|split; by eexists]. intros i Hi. split; [by eexists|]. unfold mem. cbn [compose]. f_equal.
    destruct (Nat.ltb_spec i 282); [done|].
    rewrite response_rd by lia. replace i with (282 + (i - 282))%nat at 1 by lia.
    apply base_options; first [lia|done].
  - rewrite <- E. unfold mem, response_options. rewrite !le32_bytes.
    generalize (rd r) as f. intros f. vm_compute. reflexivity.
Qed.
Lemma response_slice o n : (o + n <= 16 \/ 18 <= o /\ o + n <= 24 \/ 26 <= o /\ o + n <= 38 \/
  42 <= o /\ o + n <= 320)%nat -> slice r o n = slice base o n.
Proof. intros H. apply map_ext_in. intros i Hi%in_seq. apply response_rd. lia. Qed.
Lemma response_get32 i : (26 <= i /\ i + 4 <= 38 \/ 42 <= i /\ i + 4 <= 320)%nat ->
  get32 r i = get32 base i.
Proof. intros H. unfold get32, get16. by rewrite !response_rd by lia. Qed.
Lemma response_be16 i : (i + 2 <= 16 \/ 18 <= i /\ i + 2 <= 24 \/ 26 <= i /\ i + 2 <= 38 \/
  42 <= i /\ i + 2 <= 320)%nat -> be16 r i = be16 base i.
Proof. intros H. unfold be16. by rewrite !response_rd by lia. Qed.

(** The length fields, and the UDP checksum, which is not used. *)
Lemma response_lengths : be16 r 16 = 306 /\ be16 r 38 = 286 /\ be16 r 40 = 0.
Proof.
  pose proof (base_length type yiaddr data off e) as Hl.
  assert (forall b i, (i + 2 <= 320)%nat -> be16 (take 320 b) i = be16 b i) as Ht
    by (intros b i Hi; unfold be16; by rewrite !rd_take by lia).
  unfold r. rewrite build_response_eq. cbv zeta. rewrite !Ht by lia.
  rewrite !(be16_put16_ne _ 40) by lia. rewrite (be16_put16_ne _ 38 _ 16) by lia.
  rewrite !(be16_put16_ne _ 24 _ 16) by lia.
  rewrite !be16_put16_eq by (first [wordlia | autorewrite with buflen; lia | vm_compute; split; congruence]).
  done.
Qed.
End Response.

(** * The reply the protocol asks for *)
(** The value of an option of a DHCP message: codes 0 and 255 are padding and end, any
    other is followed by a length and that many bytes. *)
Fixpoint option_value (fuel : nat) (code : Z) (b : list Z) : option (list Z) :=
  match fuel, b with
  | S f, c :: rest =>
      if c =? 255 then None
      else if c =? 0 then option_value f code rest
      else match rest with
           | [] => None
           | n :: value => if c =? code then Some (take (Z.to_nat n) value)
                           else option_value f code (drop (Z.to_nat n) value)
           end
  | _, _ => None
  end.
Definition reply_option (r : list Z) (code : Z) : option (list Z) :=
  let o := (RESP_DHCP + DhcpHeader.size)%nat in option_value (length r) code (drop o r).

(** A reply to the request at [off] of [data]: offsets count from the start of the frame,
    whose headers are Ethernet (0), IPv4 (14), UDP (34) and DHCP (42). *)
Record dhcp_reply (type yiaddr router lease : Z) (server_mac data : list Z) (off : nat) (r : list Z) : Prop := {
  (* from the server to the client *)
  reply_eth_dest : slice r 0 6 = slice data (off + DhcpHeader.chaddr) 6;
  reply_eth_src : slice r 6 6 = server_mac;
  reply_eth_type : be16 r 12 = 2048;
  (* an IPv4 header of 20 bytes, UDP, sent to everyone *)
  reply_ip_version : rd r 14 = 69;
  reply_ip_length : be16 r 16 = Z.of_nat (length r) - 14;
  reply_ip_fragment : be16 r 20 = 0;
  reply_ip_ttl : rd r 22 = 64;
  reply_ip_protocol : rd r 23 = 17;
  reply_ip_checksum : (csum r 14 20 =1 0)%checksum;
  reply_ip_source : get32 r 26 = router;
  reply_ip_dest : slice r 30 4 = [255; 255; 255; 255];
  (* from port 67 to port 68, no checksum *)
  reply_udp_source : be16 r 34 = 67;
  reply_udp_dest : be16 r 36 = 68;
  reply_udp_length : be16 r 38 = Z.of_nat (length r) - 34;
  reply_udp_checksum : be16 r 40 = 0;
  (* BOOTREPLY on Ethernet, to the transaction and the client of the request *)
  reply_op : rd r (RESP_DHCP + DhcpHeader.op) = 2;
  reply_htype : rd r (RESP_DHCP + DhcpHeader.htype) = 1;
  reply_hlen : rd r (RESP_DHCP + DhcpHeader.hlen) = 6;
  reply_hops : rd r (RESP_DHCP + DhcpHeader.hops) = 0;
  reply_xid : get32 r (RESP_DHCP + DhcpHeader.xid) = get32 data (off + DhcpHeader.xid);
  reply_secs : be16 r (RESP_DHCP + DhcpHeader.secs) = 0;
  reply_flags : be16 r (RESP_DHCP + DhcpHeader.flags) = 32768;
  reply_ciaddr : get32 r (RESP_DHCP + DhcpHeader.ciaddr) = 0;
  reply_yiaddr : get32 r (RESP_DHCP + DhcpHeader.yiaddr) = yiaddr;
  reply_siaddr : get32 r (RESP_DHCP + DhcpHeader.siaddr) = router;
  reply_giaddr : get32 r (RESP_DHCP + DhcpHeader.giaddr) = 0;
  reply_chaddr : slice r (RESP_DHCP + DhcpHeader.chaddr) 16 = slice data (off + DhcpHeader.chaddr) 16;
  reply_names : slice r (RESP_DHCP + DhcpHeader.sname) 192 = replicate 192 0;
  reply_cookie : slice r (RESP_DHCP + DhcpHeader.magic_cookie) 4 = [99; 130; 83; 99];
  (* message type, subnet mask, router, name servers, lease time, server identifier *)
  reply_type : reply_option r 53 = Some [type];
  reply_mask : reply_option r 1 = Some [255; 255; 255; 0];
  reply_router : exists v, reply_option r 3 = Some v /\ length v = 4%nat /\ get32 v 0 = router;
  (* 8.8.8.8 and 8.4.4.4: the second is what the source says, 0x08040404 *)
  reply_dns : reply_option r 6 = Some [8; 8; 8; 8; 8; 4; 4; 4];
  reply_lease : exists v, reply_option r 51 = Some v /\ length v = 4%nat /\ ntohl (get32 v 0) = lease;
  reply_server : exists v, reply_option r 54 = Some v /\ length v = 4%nat /\ get32 v 0 = router }.

Lemma le32_value v : is_u32 v ->
  get32 [u8 (u16 v); u8 (u16 v / 256); u8 (v / 65536); u8 (v / 65536 / 256)] 0 = v.
Proof.
  intros Hv. rewrite <- le32_bytes. change (get32 (put32 (replicate 4 0) 0 v) 0 = v).
  apply get32_put32_eq; [simpl; lia|done].
Qed.

Section Reply.
Context (type yiaddr : Z) (data : list Z) (off : nat) (e : t).
Context (Hmac : length (lan_if_mac e) = 6%nat) (Hmacb : bytes_ok (lan_if_mac e)).
Context (Hdata : bytes_ok data) (Hrouter : is_u32 (router_ip e)).
Context (Hyi : is_u32 yiaddr) (Hty : is_u8 type).

Let base := response_base type yiaddr data off e.
Let r := build_response type yiaddr data off e.

(** The two hardware addresses. *)
Lemma base_macs : slice base 0 6 = slice data (off + 28) 6 /\ slice base 6 6 = lan_if_mac e.
Proof.
  pose proof (length_replicate 512 0) as Hl0.
  assert (slice base 0 6 = slice (copy_to (replicate 512 0) 0 (slice data (off + 28) 6)) 0 6 /\
    slice base 6 6 = slice (copy_to (copy_to (replicate 512 0) 0 (slice data (off + 28) 6)) 6 (lan_if_mac e)) 6 6)
    as [E1 E2].
  { split; apply map_ext_in; intros i Hi%in_seq; unfold base, response_base; cbv zeta;
      rewrite ?length_slice; repeat (frame_step || rewrite rd_copy_to_ne by (rewrite ?length_slice, ?Hmac; lia));
      reflexivity. }
  rewrite E1, E2. split.
  - rewrite <- (slice_copy_to (replicate 512 0) 0 (slice data (off + 28) 6)) at 2;
      [by rewrite length_slice|rewrite length_slice, length_replicate; lia|auto with words].
  - pose proof (slice_copy_to (copy_to (replicate 512 0) 0 (slice data (off + 28) 6)) 6 (lan_if_mac e))
      as E. rewrite Hmac in E. apply E; [|done]. autorewrite with buflen. rewrite length_replicate. lia.
Qed.

(** The fields with constant content. *)
Lemma base_constants : be16 base 12 = 2048 /\ be16 base 20 = 0 /\ rd base 22 = 64 /\
  slice base 30 4 = [255; 255; 255; 255] /\ rd base 43 = 1 /\ rd base 44 = 6 /\ rd base 45 = 0 /\
  be16 base 50 = 0 /\ be16 base 52 = 32768 /\ get32 base 54 = 0 /\ get32 base 66 = 0 /\
  slice base 86 192 = replicate 192 0 /\ slice base 278 4 = [99; 130; 83; 99].
Proof.
  unfold base, response_base. clear Hmacb.
  destruct (lan_if_mac e) as [|m0 [|m1 [|m2 [|m3 [|m4 [|m5 [|]]]]]]]; try discriminate Hmac.
  split_and!; vm_compute; reflexivity.
Qed.
Lemma base_routers : get32 base 26 = router_ip e /\ get32 base 62 = router_ip e.
Proof.
  unfold base, response_base. cbv zeta. split.
  - rewrite get32_copy_to_ne by lia. rewrite get32_put32_ne by lia.
    rewrite get32_copy_to_ne by lia. rewrite !(get32_put32_ne _ 66), !(get32_put32_ne _ 62),
      !(get32_put32_ne _ 58), !(get32_put32_ne _ 54) by lia.
    rewrite !get32_put16_ne, !(get32_put32_ne _ 46) by lia.
    rewrite !get32_put8_ne, !get32_put16_ne, !(get32_put32_ne _ 30) by lia.
    apply get32_put32_eq; [|done]. autorewrite with buflen. rewrite length_replicate. lia.
  - rewrite get32_copy_to_ne by lia. rewrite get32_put32_ne by lia.
    rewrite get32_copy_to_ne by lia. rewrite (get32_put32_ne _ 66) by lia.
    apply get32_put32_eq; [|done]. autorewrite with buflen. rewrite length_replicate. lia.
Qed.

(** The option field of the frame is the list of options. *)
Lemma response_drop : drop 282 r = response_options type e.
Proof.
  apply (nth_ext _ _ 0 0).
  - rewrite length_drop. unfold r. by rewrite response_length.
  - intros k Hk. rewrite length_drop in Hk. unfold r in Hk. rewrite response_length in Hk by done.
    rewrite nth_lookup, lookup_drop, <- nth_lookup.
    change (nth (282 + k) r 0) with (rd r (282 + k)). change (nth k (response_options type e) 0) with (rd (response_options type e) k).
    unfold r. rewrite response_rd by first [done|lia]. apply base_options; first [done|lia].
Qed.
Lemma response_option code : reply_option r code = option_value 320 code (response_options type e).
Proof.
  unfold reply_option. change (RESP_DHCP + DhcpHeader.size)%nat with 282%nat. rewrite response_drop.
  unfold r. by rewrite response_length.
Qed.

(** The values of the options. *)
Lemma response_values :
  reply_option r 53 = Some [type] /\ reply_option r 1 = Some [255; 255; 255; 0] /\
  (exists v, reply_option r 3 = Some v /\ length v = 4%nat /\ get32 v 0 = router_ip e) /\
  reply_option r 6 = Some [8; 8; 8; 8; 8; 4; 4; 4] /\
  (exists v, reply_option r 51 = Some v /\ length v = 4%nat /\ ntohl (get32 v 0) = u32 (lease_duration e)) /\
  (exists v, reply_option r 54 = Some v /\ length v = 4%nat /\ get32 v 0 = router_ip e).
Proof.
  rewrite !response_option. unfold response_options. rewrite !le32_bytes.
  split_and!; [reflexivity|reflexivity| |reflexivity| |].
  - exists (slice (put32 (replicate 4 0) 0 (router_ip e)) 0 4). rewrite le32_bytes.
    split; [reflexivity|]. split; [reflexivity|by apply le32_value].
  - exists (slice (put32 (replicate 4 0) 0 (htonl (u32 (lease_duration e)))) 0 4). rewrite le32_bytes.
    assert (is_u32 (u32 (lease_duration e))) as Hl by wordlia.
    split; [reflexivity|]. split; [reflexivity|].
    rewrite le32_value by auto with words. by apply bswap32_invol.
  - exists (slice (put32 (replicate 4 0) 0 (router_ip e)) 0 4). rewrite le32_bytes.
    split; [reflexivity|]. split; [reflexivity|by apply le32_value].
Qed.
End Reply.

(** C21: every answer of the server is a well-formed DHCP reply to its request, field by
    field ([dhcp_reply]). For any request, message type and address the frame has 320
    bytes; it goes from the LAN interface's hardware address to the client's; its IPv4
    header has the right length and checksum and carries UDP from the router to everyone,
    port 67 to port 68, with the right length; it is a BOOTREPLY that echoes transaction
    id and client hardware address, gives the offered address and the router's, with the
    magic cookie; and its options say message type, subnet mask, router, name servers,
    lease time and server identifier. The program's own frame parser and option parser
    read it back, the latter to exactly the message type. *)
Theorem dhcp_response_wellformed (type yiaddr : Z) (data : list Z) (off : nat) (e : t)
    (Hmac : length (lan_if_mac e) = 6%nat) (Hmacb : bytes_ok (lan_if_mac e)) (Hdata : bytes_ok data)
    (Hrouter : is_u32 (router_ip e)) (Hyi : is_u32 yiaddr) (Hty : is_u8 type) :
  let r := build_response type yiaddr data off e in
  length r = RESP_LEN /\
  dhcp_reply type yiaddr (router_ip e) (u32 (lease_duration e)) (lan_if_mac e) data off r /\
  parse r = MkParsed r (Some 0%nat) (Some 14%nat) 17 20 34 (Some 34%nat) /\
  parse_options (S RESP_LEN) (Some ∘ rd r) RESP_LEN (RESP_DHCP + DhcpHeader.size) 0 0 = Some (type, 0).
Proof.
  intros r. assert (length r = 320%nat) as Hl by (by apply response_length).
  split; [exact Hl|]. split; [|split; [by apply response_parse|by apply response_parse_options]].
  destruct (base_fixed type yiaddr data off e Hmac) as (_ & _ & H14 & H23 & H34 & H36 & H42 & _).
  destruct (base_constants type yiaddr data off e Hmac)
    as (H12 & H20 & H22 & H30 & H43 & H44 & H45 & H50 & H52 & H54 & H66 & H86 & H278).
  set (base := response_base type yiaddr data off e) in *.
  assert (slice base 0 6 = slice data (off + 28) 6 /\ slice base 6 6 = lan_if_mac e) as [Hd Hs]
    by (by apply base_macs).
  assert (get32 base 26 = router_ip e /\ get32 base 62 = router_ip e) as [Hr1 Hr2]
    by (by apply base_routers).
  assert (be16 r 16 = 306 /\ be16 r 38 = 286 /\ be16 r 40 = 0) as (L1 & L2 & L3)
    by (by apply response_lengths).
  assert (get32 base 58 = yiaddr) as Hy by (by apply base_yiaddr).
  assert (get32 base 46 = get32 data (off + 4)) as Hx by (by apply base_xid).
  assert (slice base 70 16 = slice data (off + 28) 16) as Hc by (by apply base_chaddr).
  edestruct (response_values type yiaddr data off e) as (V1 & V2 & V3 & V4 & V5 & V6); try assumption.
  split; rewrite ?Hl; try assumption; try by apply response_sum.
  all: offs; cbn [Nat.add]; unfold r;
    first [rewrite response_slice by lia | rewrite response_be16 by lia
          | rewrite response_get32 by lia | rewrite response_rd by lia]; assumption.
Qed.

Lemma dhcp_response_wellformed_witness :
  let e := make [] w_cfg (Some [2; 0; 0; 0; 0; 1]) in
  let r := build_response 2 (ip_of 192 168 1 100) w_discover 42 e in
  length r = 320%nat /\ rd r 42 = 2 /\ slice r 6 6 = [2; 0; 0; 0; 0; 1] /\
  slice r 0 6 = slice w_discover 70 6 /\ reply_option r 53 = Some [2] /\
  parse_options 321 (Some ∘ rd r) 320 282 0 0 = Some (2, 0).
Proof.
  intros e r.
  destruct (dhcp_response_wellformed 2 (ip_of 192 168 1 100) w_discover 42 e eq_refl
    (bytes_okb_ok (lan_if_mac e) ltac:(vm_compute; reflexivity))
    (bytes_okb_ok w_discover ltac:(vm_compute; reflexivity))
    ltac:(vm_compute; split; [discriminate|reflexivity])
    ltac:(vm_compute; split; [discriminate|reflexivity])
    ltac:(vm_compute; split; [discriminate|reflexivity])) as (H1 & H2 & _ & H4).
  exact (conj H1 (conj (reply_op _ _ _ _ _ _ _ _ H2) (conj (reply_eth_src _ _ _ _ _ _ _ _ H2)
    (conj (reply_eth_dest _ _ _ _ _ _ _ _ H2) (conj (reply_type _ _ _ _ _ _ _ _ H2) H4))))).
Defined.
