(* ===== verification/Scheduler.v ===== *)
(** Token bucket and traffic shaper ([Scheduler_util.hpp], [Scheduler_util.cpp]). *)
From Stdlib Require Import ZArith Lia QArith Lqa.
From stdpp Require Import base list gmap numbers.
From S2P Require Import Prelude Rings Double Telemetry TxFrame.
#[local] Open Scope Z_scope.

(** * Token bucket *)
Module TokenBucket.
Record t := Mk {
  tokens : Q; capacity : Q; rate_bytes_per_sec : Q;
  last_refill : Z;
  requested_limit : Q }.

Definition apply_new_rate (limit : Q) (req : Q) (w : World) : t * World :=
  let rate := ddiv (dmul limit 1000000) 8 in
  let cap := dmax 15000 (dmul rate (rnd (1 # 10))) in
  let '(tm, w') := now w in
  (Mk cap cap rate tm req, w').

(** The constructor; [requested_limit] has its default -1. *)
Definition make (limit : Q) (w : World) : t * World := apply_new_rate limit (-1) w.

Definition set_rate (limit : Q) (b : t) : t :=
  Mk (tokens b) (capacity b) (rate_bytes_per_sec b) (last_refill b) limit.

(** [steady_clock] difference in nanoseconds as [duration<double>] seconds. *)
Definition seconds (ns : Z) : Q := ddiv (d_of_Z ns) 1000000000.

Definition refill (b : t) (w : World) : t * World :=
  let req_limit := requested_limit b in
  let b0 := set_rate (-1) b in
  let '(b1, w1) := if Qle_bool 0 req_limit then apply_new_rate req_limit (-1) w
                   else (b0, w) in
  let '(tm, w2) := now w1 in
  let new_tokens := dmul (seconds (tm - last_refill b1)) (rate_bytes_per_sec b1) in
  if Qlt_le_dec 0 new_tokens
  then (Mk (dmin (capacity b1) (dadd (tokens b1) new_tokens)) (capacity b1)
           (rate_bytes_per_sec b1) tm (requested_limit b1), w2)
  else (b1, w2).

Definition try_consume (bytes : Z) (b : t) (w : World) : bool * t * World :=
  let '(b1, w1) := refill b w in
  if Qle_bool (inject_Z bytes) (tokens b1)
  then (true, Mk (dsub (tokens b1) (inject_Z bytes)) (capacity b1)
                 (rate_bytes_per_sec b1) (last_refill b1) (requested_limit b1), w1)
  else (false, b1, w1).

Definition refund (bytes : Z) (b : t) : t :=
  Mk (dmin (capacity b) (dadd (tokens b) (d_of_Z bytes))) (capacity b)
     (rate_bytes_per_sec b) (last_refill b) (requested_limit b).
End TokenBucket.

(** * Shaper *)
Inductive TxResult := Success | Congested | Fatal.
#[global] Instance TxResult_eq_dec : EqDecision TxResult.
Proof. solve_decision. Defined.

Definition try_hardware_send (fd : Z) (pkt : list Z) (w : World) : option (TxResult * World) :=
  match try_send_packet_nonblocking fd pkt w with
  | Some (Complete, w') => Some (Success, w')
  | Some (Busy, w') => Some (Congested, w')
  | Some (Error, w') => Some (Fatal, w')
  | None => None
  end.

Definition NORMAL_QUEUE_CAPACITY : nat := Z.to_nat 8192.

Module Shaper.
Record t := Mk { normal_queue : ZeroAllocRingBuffer.t; bucket : TokenBucket.t }.

Definition make (limit : Q) (w : World) : t * World :=
  let '(b, w') := TokenBucket.make limit w in (Mk ZeroAllocRingBuffer.init b, w').

Definition set_rate_limit (limit : Q) (s : t) : t :=
  Mk (normal_queue s) (TokenBucket.set_rate limit (bucket s)).

(** [result_handlers_]: what each send result does to the queue and the bucket. *)
Definition handle_result (res : TxResult) (bytes : Z) (s : t) (w : World) : t * World :=
  match res with
  | Success =>
      let c := shaper_counters (w_tel w) in
      (Mk (ZeroAllocRingBuffer.pop NORMAL_QUEUE_CAPACITY (normal_queue s)) (bucket s),
       set_tel w (set_shaper_counters (w_tel w)
         (MkShaperCounters (u64 (shaper_normal_tx_complete c + 1))
            (shaper_queue_overflow_drops c) (shaper_oversized_drops c))))
  | Congested => (Mk (normal_queue s) (TokenBucket.refund bytes (bucket s)), w)
  | Fatal =>
      (Mk (ZeroAllocRingBuffer.pop NORMAL_QUEUE_CAPACITY (normal_queue s))
          (TokenBucket.refund bytes (bucket s)), w)
  end.

Definition enqueue_normal (pkt : list Z) (s : t) (w : World) : t * World :=
  let '(ok, q) := ZeroAllocRingBuffer.push NORMAL_QUEUE_CAPACITY pkt (normal_queue s) in
  if ok then (Mk q (bucket s), w)
  else
    let c := shaper_counters (w_tel w) in
    let c' := if (2048 <? length pkt)%nat
              then MkShaperCounters (shaper_normal_tx_complete c)
                     (shaper_queue_overflow_drops c) (u64 (shaper_oversized_drops c + 1))
              else MkShaperCounters (shaper_normal_tx_complete c)
                     (u64 (shaper_queue_overflow_drops c + 1)) (shaper_oversized_drops c) in
    (Mk q (bucket s), set_tel w (set_shaper_counters (w_tel w) c')).

(** [process_queue]: the calls of [tx_callback_] are the returned events. Every
    round that does not leave the loop pops a packet, so the packets queued at
    the start bound the rounds; [None] also stands for a send that has not
    returned. *)
Fixpoint process_loop (fuel : nat) (tx_fd : Z) (s : t) (w : World)
    (ev : list (TxResult * list Z)) : option (t * World * list (TxResult * list Z)) :=
  match fuel with
  | O => None
  | S f =>
      if ZeroAllocRingBuffer.empty (normal_queue s) then Some (s, w, ev)
      else
        let pkt := ZeroAllocRingBuffer.front (normal_queue s) in
        let '(ok, b, w1) := TokenBucket.try_consume (Z.of_nat (length pkt)) (bucket s) w in
        let s1 := Mk (normal_queue s) b in
        if negb ok then Some (s1, w1, ev)
        else match try_hardware_send tx_fd pkt w1 with
             | None => None
             | Some (res, w2) =>
                 let '(s2, w3) := handle_result res (u16 (Z.of_nat (length pkt))) s1 w2 in
                 let ev' := ev ++ [(res, pkt)] in
                 if bool_decide (res = Congested) then Some (s2, w3, ev')
                 else process_loop f tx_fd s2 w3 ev'
             end
  end.
Definition process_queue (tx_fd : Z) (s : t) (w : World) :=
  process_loop (S (ZeroAllocRingBuffer.count (normal_queue s))) tx_fd s w [].

Definition queue (s : t) : list (list Z) :=
  ZeroAllocRingBuffer.contents NORMAL_QUEUE_CAPACITY (normal_queue s).
End Shaper.

(** * Token bucket: invariant *)
Section BucketProofs.
Import TokenBucket.
#[local] Open Scope Q_scope.

Record bucket_ok (b : t) : Prop := {
  bo_tokens : 0 <= tokens b <= capacity b;
  bo_min : 15000 <= capacity b;
  bo_rate : 0 <= rate_bytes_per_sec b;
  bo_trep : representable (tokens b);
  bo_crep : representable (capacity b) }.

Lemma apply_new_rate_ok limit req w :
  0 <= limit -> bucket_ok (fst (apply_new_rate limit req w)).
Proof.
  intros Hl. unfold apply_new_rate. simpl.
  assert (0 <= ddiv (dmul limit 1000000) 8) as Hr.
  { apply rnd_nonneg. assert (0 <= dmul limit 1000000) by (apply rnd_nonneg; lra).
    apply Qle_shift_div_l; lra. }
  set (rate := ddiv (dmul limit 1000000) 8) in *.
  set (x := dmul rate (rnd (1 # 10))).
  destruct (dmax_spec 15000 x) as (H1 & H2 & H3).
  assert (representable (dmax 15000 x)).
  { destruct H3 as [-> | ->]; [apply (representable_Z 15000); lia|].
    apply rnd_representable. assert (0 <= rnd (1 # 10)) by (apply rnd_nonneg; lra). nra. }
  split; simpl; try done; lra.
Qed.

Lemma dmin_tokens_ok cap x : 0 <= x -> 15000 <= cap -> representable cap ->
  0 <= dmin cap (rnd x) <= cap /\ representable (dmin cap (rnd x)).
Proof.
  intros Hx Hc Hr. pose proof (rnd_nonneg x Hx). pose proof (rnd_representable x Hx).
  destruct (dmin_spec cap (rnd x)) as (H1 & H2 & H3). split.
  - split; [|done]. destruct H3 as [-> | ->]; lra.
  - by destruct H3 as [-> | ->].
Qed.

Lemma seconds_nonneg ns : (0 <= ns)%Z -> 0 <= seconds ns.
Proof.
  intros Hn. apply rnd_nonneg. assert (0 <= d_of_Z ns).
  { apply rnd_nonneg. change 0 with (inject_Z 0). by apply injZ_le. }
  apply Qle_shift_div_l; lra.
Qed.

Lemma refill_ok b w : bucket_ok b -> bucket_ok (fst (refill b w)).
Proof.
  intros Hb. unfold refill.
  set (bw := if Qle_bool 0 (requested_limit b) then _ else _).
  assert (bucket_ok (fst bw)) as Hb1.
  { subst bw. destruct (Qle_bool 0 (requested_limit b)) eqn:E.
    - apply apply_new_rate_ok. by apply Qle_bool_iff.
    - destruct Hb. by split. }
  destruct bw as [b1 w1]. simpl in *. destruct (Qlt_le_dec _ _) as [L|L]; [|done].
  destruct Hb1 as [Ht Hm Hr Htr Hcr]. simpl in *.
  set (n := dmul _ _) in *. destruct (dmin_tokens_ok (capacity b1) (tokens b1 + n)); try lra; [done|].
  by split.
Qed.

Lemma try_consume_ok n b w : (0 <= n)%Z -> bucket_ok b ->
  bucket_ok (snd (fst (try_consume n b w))).
Proof.
  intros Hn Hb. pose proof (refill_ok b w Hb) as Hr. unfold try_consume.
  destruct (refill b w) as [b1 w1]. simpl in *.
  destruct (Qle_bool (inject_Z n) (tokens b1)) eqn:E; simpl; [|done].
  apply Qle_bool_iff in E. destruct Hr as [Ht Hm Hr Htr Hcr].
  assert (0 <= inject_Z n) by (change 0 with (inject_Z 0); by apply injZ_le).
  split; simpl; try done.
  - split; [apply rnd_nonneg; lra|]. unfold dsub.
    assert (rnd (tokens b1 - inject_Z n) <= rnd (tokens b1)) by (apply rnd_mono; lra).
    unfold representable in Htr. lra.
  - apply rnd_representable. lra.
Qed.

Lemma refund_ok n b : (0 <= n)%Z -> bucket_ok b -> bucket_ok (refund n b).
Proof.
  intros Hn [Ht Hm Hr Htr Hcr]. unfold refund.
  assert (0 <= d_of_Z n).
  { apply rnd_nonneg. change 0 with (inject_Z 0). by apply injZ_le. }
  destruct (dmin_tokens_ok (capacity b) (tokens b + d_of_Z n)); try lra; [done|].
  by split.
Qed.
End BucketProofs.

(** * Token bucket: credit accounting

    What a bucket can still grant is bounded by what it held, what the elapsed
    time earned at the configured rate, and one rounding error per update. *)
Section BucketCredit.
Import TokenBucket.
#[local] Open Scope Q_scope.

(** Exact seconds, and the error factor of the three roundings in [new_tokens]. *)
Definition exact_seconds (ns : Z) : Q := inject_Z ns / 1000000000.
Definition earn_factor : Q := (1 + unit_roundoff) * (1 + unit_roundoff) * (1 + unit_roundoff).
Definition earned (rate : Q) (ns : Z) : Q := rate * exact_seconds ns * earn_factor.

Lemma u_range : 0 < unit_roundoff < 1 # 1000000.
Proof. unfold unit_roundoff. split; reflexivity. Qed.

Lemma exact_seconds_plus a b : exact_seconds (a + b) == exact_seconds a + exact_seconds b.
Proof. unfold exact_seconds. rewrite inject_Z_plus. field. Qed.
Lemma earned_plus r a b : earned r (a + b) == earned r a + earned r b.
Proof. unfold earned. rewrite exact_seconds_plus. ring. Qed.
Lemma earned_0 r : earned r 0 == 0.
Proof. unfold earned, exact_seconds. change (inject_Z 0) with 0. field. Qed.

Lemma rnd_up x y : 0 <= x -> x <= y -> rnd x <= y * (1 + unit_roundoff).
Proof.
  intros Hx Hxy. pose proof (rnd_error x Hx) as [_ U]. pose proof u_range.
  assert (x * (1 + unit_roundoff) <= y * (1 + unit_roundoff)); [|lra].
  apply Qmult_le_compat_r; lra.
Qed.

Lemma new_tokens_bound ns rate : (0 <= ns)%Z -> 0 <= rate ->
  dmul (seconds ns) rate <= earned rate ns.
Proof.
  intros Hn Hr. set (u := 1 + unit_roundoff).
  assert (0 <= inject_Z ns) as Hz by (change 0 with (inject_Z 0); by apply injZ_le).
  assert (d_of_Z ns <= inject_Z ns * u) as H1 by (apply rnd_up; lra).
  assert (0 <= d_of_Z ns) as H1' by (by apply rnd_nonneg).
  assert (seconds ns <= exact_seconds ns * u * u) as H2.
  { unfold seconds, exact_seconds. apply rnd_up; [apply Qle_shift_div_l; lra|].
    setoid_replace (inject_Z ns / 1000000000 * u) with (inject_Z ns * u / 1000000000)
      using relation Qeq by field.
    apply Qmult_le_compat_r; [done|]. reflexivity || (vm_compute; discriminate). }
  pose proof (seconds_nonneg ns Hn) as H2'. unfold dmul, earned, earn_factor. fold u.
  setoid_replace (rate * exact_seconds ns * (u * u * u))
    with (rate * (exact_seconds ns * u * u) * u) using relation Qeq by ring.
  apply rnd_up; [nra|]. rewrite (Qmult_comm (seconds ns)). nra.
Qed.

Lemma capped_add cap t x : 0 <= t -> 0 <= x -> 0 <= cap ->
  dmin cap (rnd (t + x)) <= t + x + cap * unit_roundoff.
Proof.
  intros Ht Hx Hc. pose proof u_range. destruct (dmin_spec cap (rnd (t + x))) as (H1 & H2 & _).
  assert (0 <= cap * unit_roundoff) by nra.
  destruct (Qlt_le_dec (t + x) cap).
  - pose proof (rnd_error (t + x) ltac:(lra)) as [_ U]. nra.
  - lra.
Qed.

(** One refill without a pending rate change. *)
Lemma refill_credit b w b' w' : bucket_ok b -> requested_limit b < 0 ->
  (last_refill b <= w_clock w (w_clk w))%Z -> refill b w = (b', w') ->
  tokens b' <= tokens b + earned (rate_bytes_per_sec b) (last_refill b' - last_refill b)
               + capacity b * unit_roundoff /\
  (last_refill b <= last_refill b' <= w_clock w (w_clk w))%Z /\
  capacity b' = capacity b /\ rate_bytes_per_sec b' = rate_bytes_per_sec b /\
  requested_limit b' = -1 /\ w_clock w' = w_clock w /\ w_clk w' = S (w_clk w) /\
  w_wire w' = w_wire w /\ w_replies w' = w_replies w /\ w_tel w' = w_tel w.
Proof.
  intros Hb Hreq Hlast. unfold refill.
  destruct (Qle_bool 0 (requested_limit b)) eqn:E; [apply Qle_bool_iff in E; lra|].
  simpl. destruct Hb as [Ht Hm Hr _ _]. pose proof u_range.
  set (ns := (w_clock w (w_clk w) - last_refill b)%Z).
  pose proof (new_tokens_bound ns (rate_bytes_per_sec b) ltac:(lia) Hr) as Hnew.
  assert (0 <= capacity b * unit_roundoff) by nra.
  destruct (Qlt_le_dec _ _) as [L|L]; intros [= <- <-]; simpl; split_and!; try done; try lia.
  - pose proof (capped_add (capacity b) (tokens b) (dmul (seconds ns) (rate_bytes_per_sec b))).
    unfold dadd. fold ns. lra.
  - rewrite Z.sub_diag, earned_0. lra.
Qed.

Lemma try_consume_credit n b w ok b' w' : (0 <= n)%Z -> bucket_ok b -> requested_limit b < 0 ->
  (last_refill b <= w_clock w (w_clk w))%Z -> try_consume n b w = (ok, b', w') ->
  inject_Z (if ok then n else 0%Z) + tokens b'
    <= tokens b + earned (rate_bytes_per_sec b) (last_refill b' - last_refill b)
       + (if ok then 2 else 1) * (capacity b * unit_roundoff) /\
  (last_refill b <= last_refill b' <= w_clock w (w_clk w))%Z /\
  capacity b' = capacity b /\ rate_bytes_per_sec b' = rate_bytes_per_sec b /\
  requested_limit b' = -1 /\ w_clock w' = w_clock w /\ w_clk w' = S (w_clk w) /\
  w_wire w' = w_wire w /\ w_replies w' = w_replies w /\ w_tel w' = w_tel w.
Proof.
  intros Hn Hb Hreq Hlast. unfold try_consume.
  pose proof (refill_ok b w Hb) as Hok.
  destruct (refill b w) as [b1 w1] eqn:E.
  destruct (refill_credit b w b1 w1 Hb Hreq Hlast E) as (Hc & Hl & Ecap & Erate & Hrest).
  destruct (Qle_bool (inject_Z n) (tokens b1)) eqn:Eb; intros [= <- <- <-]; simpl;
    (split; [|auto]).
  - apply Qle_bool_iff in Eb. destruct Hok as [Ht _ _ _ _]. simpl in Ht. rewrite Ecap in Ht.
    assert (0 <= inject_Z n) by (change 0 with (inject_Z 0); by apply injZ_le).
    pose proof (rnd_error (tokens b1 - inject_Z n) ltac:(lra)) as [_ U]. pose proof u_range.
    unfold dsub. nra.
  - change (inject_Z 0) with 0. lra.
Qed.

Lemma refund_credit n b : (0 <= n <= 2048)%Z -> bucket_ok b ->
  tokens (refund n b) <= tokens b + inject_Z n + capacity b * unit_roundoff.
Proof.
  intros Hn [Ht Hm _ _ _]. unfold refund. simpl. unfold dadd.
  assert (0 <= inject_Z n) by (change 0 with (inject_Z 0); apply injZ_le; lia).
  assert (tokens b + d_of_Z n == tokens b + inject_Z n) as E.
  { rewrite d_of_Z_exact; [done|]. lia. }
  pose proof (capped_add (capacity b) (tokens b) (inject_Z n) ltac:(lra) ltac:(lra) ltac:(lra)).
  destruct (dmin_spec (capacity b) (rnd (tokens b + d_of_Z n))) as (H1 & H2 & _).
  destruct (dmin_spec (capacity b) (rnd (tokens b + inject_Z n))) as (H3 & H4 & [H5|H5]).
  - rewrite H5 in *. lra.
  - rewrite H5 in *.
    assert (rnd (tokens b + d_of_Z n) == rnd (tokens b + inject_Z n)) by (by rewrite E). lra.
Qed.
End BucketCredit.

(** Everything that happens to a bucket after construction. *)
Inductive bucket_op := BConsume (bytes : Z) | BRefund (bytes : Z) | BSetRate (limit : Q).
Definition bucket_op_ok (op : bucket_op) : Prop :=
  match op with BConsume n | BRefund n => is_u32 n | BSetRate _ => True end.
Definition bucket_apply (op : bucket_op) (bw : TokenBucket.t * World) : TokenBucket.t * World :=
  match op with
  | BConsume n => let '(_, b, w) := TokenBucket.try_consume n (fst bw) (snd bw) in (b, w)
  | BRefund n => (TokenBucket.refund n (fst bw), snd bw)
  | BSetRate l => (TokenBucket.set_rate l (fst bw), snd bw)
  end.

Lemma set_rate_ok l b : bucket_ok b -> bucket_ok (TokenBucket.set_rate l b).
Proof. intros []. by split. Qed.

Lemma bucket_apply_ok op bw : bucket_op_ok op -> bucket_ok (fst bw) ->
  bucket_ok (fst (bucket_apply op bw)).
Proof.
  destruct bw as [b w], op as [n|n|l]; simpl; intros Hop Hb.
  - pose proof (try_consume_ok n b w ltac:(wordlia) Hb).
    by destruct (TokenBucket.try_consume n b w) as [[ok b'] w'].
  - apply refund_ok; [wordlia|done].
  - by apply set_rate_ok.
Qed.

(** The token bucket keeps its invariant through every sequence of consume,
    refund and rate-change requests, in binary64 arithmetic and for every clock:
    [0 <= tokens <= capacity], the capacity is at least 15000 bytes (more than
    seven maximal frames, so no queued packet can block the lane for ever) and the
    rate is not negative. In particular a token count never goes below zero and
    a refund can not push it above the burst size. *)
Lemma bucket_invariant (limit : Q) (w : World) (ops : list bucket_op)
    (Hlimit : (0 <= limit)%Q) (Hops : Forall bucket_op_ok ops) :
  let b := fst (fold_left (fun bw op => bucket_apply op bw) ops (TokenBucket.make limit w)) in
  (0 <= TokenBucket.tokens b <= TokenBucket.capacity b)%Q /\
  (15000 <= TokenBucket.capacity b)%Q /\ (0 <= TokenBucket.rate_bytes_per_sec b)%Q.
Proof.
  assert (forall bw, bucket_ok (fst bw) ->
    bucket_ok (fst (fold_left (fun bw op => bucket_apply op bw) ops bw))) as Hfold.
  { induction Hops as [|op ops Hop Hops IH]; intros bw Hb; simpl; [done|].
    apply IH. by apply bucket_apply_ok. }
  destruct (Hfold (TokenBucket.make limit w) (apply_new_rate_ok limit (-1) w Hlimit))
    as [Ht Hm Hr _ _].
  exact (conj Ht (conj Hm Hr)).
Qed.

Definition world0 (clock : nat -> Z) (rs : list SendReply) : World :=
  MkWorld clock 0 rs [] Telemetry0.

Lemma bucket_invariant_example :
  let w := world0 (fun i => Z.of_nat i * 1000000) [] in
  let ops := [BConsume 1500; BSetRate 50; BConsume 1500; BRefund 1500] in
  let b := fst (fold_left (fun bw op => bucket_apply op bw) ops (TokenBucket.make 500 w)) in
  TokenBucket.capacity b = 625000%Q /\
  (0 <= TokenBucket.tokens b <= TokenBucket.capacity b)%Q.
Proof.
  intros w ops b. split; [vm_compute; reflexivity|].
  refine (proj1 (bucket_invariant 500 w ops _ _)).
  - vm_compute. discriminate.
  - repeat constructor; vm_compute; discriminate.
Defined.

(** * Shaper *)
Definition shaper_ok (s : Shaper.t) : Prop :=
  ZeroAllocRingBuffer.wf NORMAL_QUEUE_CAPACITY (Shaper.normal_queue s) /\
  Forall (fun p => (length p <= 2048)%nat) (Shaper.queue s) /\
  bucket_ok (Shaper.bucket s).

(** Packets of a list of send results that reached the wire, and packets that
    left the queue. *)
Definition sent (ev : list (TxResult * list Z)) : list (list Z) :=
  omap (fun e => if bool_decide (e.1 = Success) then Some e.2 else None) ev.
Definition finished (ev : list (TxResult * list Z)) : list (list Z) :=
  omap (fun e => if bool_decide (e.1 = Congested) then None else Some e.2) ev.
Definition total_bytes (ps : list (list Z)) : Z :=
  fold_right (fun p n => Z.of_nat (length p) + n) 0 ps.

Lemma sent_app a b : sent (a ++ b) = sent a ++ sent b.
Proof. apply omap_app. Qed.
Lemma finished_app a b : finished (a ++ b) = finished a ++ finished b.
Proof. apply omap_app. Qed.
Lemma total_bytes_app a b : total_bytes (a ++ b) = total_bytes a + total_bytes b.
Proof. induction a; simpl; [done|]. rewrite IHa. lia. Qed.

Lemma try_hardware_send_wire fd pkt w res w' :
  try_hardware_send fd pkt w = Some (res, w') ->
  w_clock w' = w_clock w /\ w_clk w' = w_clk w /\ w_tel w' = w_tel w /\
  w_wire w' = w_wire w ++ map (pair fd) (sent [(res, pkt)]).
Proof.
  unfold try_hardware_send.
  destruct (try_send_packet_nonblocking fd pkt w) as [[r w1]|] eqn:E; [|done].
  destruct (try_send_frame _ _ _ _ _ E) as (Hc & Hk & Ht & [[-> Hw]|[Hne Hw]]).
  - intros [= <- <-]. by rewrite Hw.
  - destruct r; [done| |]; intros [= <- <-]; by rewrite Hw, app_nil_r.
Qed.

(** The head of a nonempty queue, through the queue interface. *)
Lemma queue_front s : shaper_ok s -> ZeroAllocRingBuffer.empty (Shaper.normal_queue s) = false ->
  exists rest, Shaper.queue s = ZeroAllocRingBuffer.front (Shaper.normal_queue s) :: rest /\
  (length (ZeroAllocRingBuffer.front (Shaper.normal_queue s)) <= 2048)%nat.
Proof.
  intros (Hq & Hl & _) He. pose proof (zeroalloc_fifo_laws NORMAL_QUEUE_CAPACITY) as L.
  pose proof (@fq_front_head _ _ _ L (Shaper.normal_queue s) Hq) as Hf. simpl in Hf.
  rewrite He in Hf. unfold Shaper.queue in *.
  destruct (ZeroAllocRingBuffer.contents _ _) as [|p rest]; [done|]. injection Hf as ->.
  exists rest. split; [done|]. by inversion Hl.
Qed.
Lemma queue_empty s : shaper_ok s -> ZeroAllocRingBuffer.empty (Shaper.normal_queue s) = true ->
  Shaper.queue s = [].
Proof.
  intros _ He. unfold ZeroAllocRingBuffer.empty in He. bool2prop.
  apply nil_length_inv. unfold Shaper.queue. by rewrite ZeroAllocRingBuffer.za_contents_length.
Qed.
Lemma queue_pop s b : shaper_ok s -> bucket_ok b ->
  let s' := Shaper.Mk (ZeroAllocRingBuffer.pop NORMAL_QUEUE_CAPACITY (Shaper.normal_queue s)) b in
  shaper_ok s' /\ Shaper.queue s' = tail (Shaper.queue s).
Proof.
  intros (Hq & Hl & _) Hb s'. destruct (ZeroAllocRingBuffer.za_pop_refines _ _ Hq) as [Hq' Hc'].
  assert (Shaper.queue s' = tail (Shaper.queue s)) as E by exact Hc'.
  split; [|done]. split; [done|]. split; [|done]. rewrite E.
  destruct (Shaper.queue s); [done|]. by inversion Hl.
Qed.

(** The counter of frames sent by the shaper. *)
Definition tx_complete (w : World) : Z := shaper_normal_tx_complete (shaper_counters (w_tel w)).

Lemma handle_result_spec res pkt rest s w s2 w3 :
  shaper_ok s -> Shaper.queue s = pkt :: rest ->
  Shaper.handle_result res (u16 (Z.of_nat (length pkt))) s w = (s2, w3) ->
  shaper_ok s2 /\
  Shaper.queue s2 = (if bool_decide (res = Congested) then pkt :: rest else rest) /\
  Shaper.bucket s2 = (if bool_decide (res = Success) then Shaper.bucket s
                      else TokenBucket.refund (Z.of_nat (length pkt)) (Shaper.bucket s)) /\
  w_wire w3 = w_wire w /\ w_clock w3 = w_clock w /\ w_clk w3 = w_clk w /\
  w_replies w3 = w_replies w /\
  u64 (tx_complete w3) = u64 (tx_complete w + Z.of_nat (length (sent [(res, pkt)]))).
Proof.
  intros Hs Hq. pose proof Hs as (Hwf & Hl & Hb). rewrite Hq in Hl.
  assert (length pkt <= 2048)%nat as Hp by (by inversion Hl).
  rewrite u16_id by wordlia.
  pose proof (refund_ok (Z.of_nat (length pkt)) _ ltac:(lia) Hb) as Hrb.
  destruct res; intros [= <- <-]; simpl.
  - destruct (queue_pop s _ Hs Hb) as [H1 H2]. rewrite Hq in H2. split_and!; try done.
    unfold tx_complete, u64. simpl. apply Z.mod_mod. done.
  - rewrite Z.add_0_r. split; [|by rewrite <- Hq]. split; [done|]. split; [|done].
    by rewrite <- Hq in Hl.
  - rewrite Z.add_0_r. destruct (queue_pop s _ Hs Hrb) as [H1 H2]. rewrite Hq in H2. done.
Qed.

(** One round of the drain loop. *)
Lemma process_loop_round f fd s w ev s' w' ev' :
  shaper_ok s -> Shaper.process_loop (S f) fd s w ev = Some (s', w', ev') ->
  (Shaper.queue s = [] /\ s' = s /\ w' = w /\ ev' = ev) \/
  exists pkt rest ok b w1,
    Shaper.queue s = pkt :: rest /\ (length pkt <= 2048)%nat /\
    TokenBucket.try_consume (Z.of_nat (length pkt)) (Shaper.bucket s) w = (ok, b, w1) /\
    ((ok = false /\ s' = Shaper.Mk (Shaper.normal_queue s) b /\ w' = w1 /\ ev' = ev) \/
     exists res w2 s2 w3,
       ok = true /\ try_hardware_send fd pkt w1 = Some (res, w2) /\
       Shaper.handle_result res (u16 (Z.of_nat (length pkt)))
         (Shaper.Mk (Shaper.normal_queue s) b) w2 = (s2, w3) /\
       ((res = Congested /\ s' = s2 /\ w' = w3 /\ ev' = ev ++ [(res, pkt)]) \/
        (res <> Congested /\
         Shaper.process_loop f fd s2 w3 (ev ++ [(res, pkt)]) = Some (s', w', ev')))).
Proof.
  intros Hs. simpl. destruct (ZeroAllocRingBuffer.empty _) eqn:He.
  { intros [= <- <- <-]. left. split; [by apply queue_empty|done]. }
  destruct (queue_front s Hs He) as (rest & Hq & Hl).
  set (pkt := ZeroAllocRingBuffer.front _) in *. intros E. right. exists pkt, rest.
  destruct (TokenBucket.try_consume _ _ _) as [[ok b] w1]. exists ok, b, w1.
  split_and!; try done. destruct ok; simpl in E; [right|left; by simplify_eq].
  destruct (try_hardware_send fd pkt w1) as [[res w2]|]; [|done].
  destruct (Shaper.handle_result _ _ _ _) as [s2 w3] eqn:Eh. exists res, w2, s2, w3.
  split_and!; try done. case_bool_decide; [left; by simplify_eq|by right].
Qed.

Lemma shaper_ok_bucket s b : shaper_ok s -> bucket_ok b ->
  shaper_ok (Shaper.Mk (Shaper.normal_queue s) b).
Proof. intros (? & ? & _) Hb. by split. Qed.

(** Reading the clock is all the bucket does to the environment. *)
Lemma refill_frame b w : let w' := snd (TokenBucket.refill b w) in
  w_wire w' = w_wire w /\ w_replies w' = w_replies w /\ w_tel w' = w_tel w /\
  w_clock w' = w_clock w.
Proof.
  unfold TokenBucket.refill, TokenBucket.apply_new_rate, now.
  destruct (Qle_bool 0 _); destruct (Qlt_le_dec _ _); exact (conj eq_refl (conj eq_refl (conj eq_refl eq_refl))).
Qed.
Lemma try_consume_frame n b w ok b' w' : TokenBucket.try_consume n b w = (ok, b', w') ->
  w_wire w' = w_wire w /\ w_replies w' = w_replies w /\ w_tel w' = w_tel w /\
  w_clock w' = w_clock w.
Proof.
  unfold TokenBucket.try_consume. pose proof (refill_frame b w) as H.
  destruct (TokenBucket.refill b w) as [b1 w1]. destruct (Qle_bool _ _); intros E;
    injection E as _ _ <-; exact H.
Qed.

Lemma process_loop_fifo f fd s w ev s' w' ev' :
  shaper_ok s -> Shaper.process_loop f fd s w ev = Some (s', w', ev') ->
  shaper_ok s' /\ exists new, ev' = ev ++ new /\
    w_wire w' = w_wire w ++ map (pair fd) (sent new) /\
    Shaper.queue s = finished new ++ Shaper.queue s' /\
    u64 (tx_complete w') = u64 (tx_complete w + Z.of_nat (length (sent new))) /\
    (forall e, e ∈ new -> e.1 = Congested -> head (Shaper.queue s') = Some e.2).
Proof.
  revert s w ev. induction f as [|f IH]; intros s w ev Hs; [done|].
  intros Hrun. apply process_loop_round in Hrun; [|done].
  destruct Hrun as [(Hq & -> & -> & ->)|(pkt & rest & ok & b & w1 & Hq & Hl & Hc & Hrest)].
  { split; [done|]. exists []. rewrite !app_nil_r. simpl. rewrite Z.add_0_r.
    split_and!; try done. set_solver. }
  pose proof Hs as (_ & _ & Hb).
  pose proof (try_consume_ok (Z.of_nat (length pkt)) (Shaper.bucket s) w ltac:(lia) Hb) as Hb'.
  destruct (try_consume_frame _ _ _ _ _ _ Hc) as (Hw1 & _ & Ht1 & _).
  rewrite Hc in Hb'. simpl in Hb'.
  pose proof (shaper_ok_bucket s b Hs Hb') as Hs1.
  destruct Hrest as [(-> & -> & -> & ->)|(res & w2 & s2 & w3 & -> & Hsend & Hh & Hrest)].
  { split; [done|]. exists []. rewrite !app_nil_r. simpl. rewrite Z.add_0_r.
    split_and!; try done; [by unfold tx_complete; rewrite Ht1|set_solver]. }
  destruct (try_hardware_send_wire _ _ _ _ _ Hsend) as (_ & _ & Ht2 & Hw2).
  destruct (handle_result_spec _ _ _ _ _ _ _ Hs1 Hq Hh) as (Hs2 & Hq2 & _ & Hw3 & _ & _ & _ & Ht3).
  assert (tx_complete w2 = tx_complete w) as Ht by (unfold tx_complete; congruence).
  destruct Hrest as [(-> & -> & -> & ->)|(Hne & Hrec)].
  - split; [done|]. exists [(Congested, pkt)]. simpl in *.
    split_and!; try done; [congruence|by rewrite Hq2|by rewrite Ht3, Ht|].
    intros e ->%list_elem_of_singleton _. by rewrite Hq2.
  - destruct (IH _ _ _ Hs2 Hrec) as (Hs' & new & -> & Hw' & Hq' & Ht' & Hcong).
    split; [done|]. exists ((res, pkt) :: new). rewrite bool_decide_eq_false_2 in Hq2 by done.
    split_and!.
    + by rewrite <- app_assoc.
    + rewrite Hw', Hw3, Hw2, Hw1. change ((res, pkt) :: new) with ([(res, pkt)] ++ new).
      by rewrite sent_app, map_app, !app_assoc.
    + change ((res, pkt) :: new) with ([(res, pkt)] ++ new). rewrite finished_app.
      unfold finished at 1. simpl. rewrite bool_decide_eq_false_2 by done. simpl.
      by rewrite Hq, <- Hq', Hq2.
    + rewrite Ht'. rewrite <- Ht. change ((res, pkt) :: new) with ([(res, pkt)] ++ new).
      rewrite sent_app, length_app, Nat2Z.inj_add, Z.add_assoc. unfold u64 in *.
      by rewrite <- Zplus_mod_idemp_l, Ht3, Zplus_mod_idemp_l.
    + intros e [->|He]%elem_of_cons; [done|]. by apply Hcong.
Qed.

(** ** Traces of shaper operations

    [acc] collects the packets the queue accepted and [ev] the calls of
    [tx_callback_]. *)
Inductive shaper_op := SEnqueue (pkt : list Z) | SDrain | SSetRate (limit : Q).

Record shaper_trace := MkTrace {
  tr_s : Shaper.t; tr_w : World;
  tr_acc : list (list Z); tr_ev : list (TxResult * list Z) }.

Definition accepts (s : Shaper.t) (pkt : list Z) : bool :=
  (length pkt <=? 2048)%nat && (length (Shaper.queue s) <? NORMAL_QUEUE_CAPACITY)%nat.

Definition shaper_apply (fd : Z) (op : shaper_op) (t : shaper_trace) : option shaper_trace :=
  match op with
  | SEnqueue pkt =>
      let '(s', w') := Shaper.enqueue_normal pkt (tr_s t) (tr_w t) in
      Some (MkTrace s' w' (tr_acc t ++ if accepts (tr_s t) pkt then [pkt] else []) (tr_ev t))
  | SDrain =>
      match Shaper.process_queue fd (tr_s t) (tr_w t) with
      | Some (s', w', new) => Some (MkTrace s' w' (tr_acc t) (tr_ev t ++ new))
      | None => None
      end
  | SSetRate l =>
      Some (MkTrace (Shaper.set_rate_limit l (tr_s t)) (tr_w t) (tr_acc t) (tr_ev t))
  end.
Fixpoint shaper_run (fd : Z) (ops : list shaper_op) (t : shaper_trace) : option shaper_trace :=
  match ops with
  | [] => Some t
  | op :: ops' => match shaper_apply fd op t with
                  | Some t' => shaper_run fd ops' t'
                  | None => None
                  end
  end.

(** The shaper and its environment right after construction. *)
Definition shaper_start (limit : Q) (w : World) : shaper_trace :=
  let '(s, w') := Shaper.make limit w in MkTrace s w' [] [].

Lemma shaper_run_invariant (P : shaper_trace -> Prop) fd ops t t' :
  (forall op a b, op ∈ ops -> P a -> shaper_apply fd op a = Some b -> P b) ->
  P t -> shaper_run fd ops t = Some t' -> P t'.
Proof.
  revert t. induction ops as [|op ops IH]; simpl; intros t Hstep Ht; [by intros [= <-]|].
  destruct (shaper_apply fd op t) as [t1|] eqn:E; [|done].
  apply IH; [intros op' a b Hin; apply Hstep; by right|]. by eapply Hstep; [left|..].
Qed.

Lemma shaper_start_ok limit w : (0 <= limit)%Q ->
  let t := shaper_start limit w in shaper_ok (tr_s t) /\ Shaper.queue (tr_s t) = [] /\
  tr_acc t = [] /\ tr_ev t = [] /\ w_wire (tr_w t) = w_wire w /\ w_tel (tr_w t) = w_tel w.
Proof.
  intros Hl t.
  assert (ZeroAllocRingBuffer.wf NORMAL_QUEUE_CAPACITY ZeroAllocRingBuffer.init) as Hwf
    by (apply zeroalloc_init_ok; unfold NORMAL_QUEUE_CAPACITY; lia).
  assert (Shaper.queue (tr_s t) = []) as Hq by reflexivity.
  split; [|exact (conj Hq (conj eq_refl (conj eq_refl (conj eq_refl eq_refl))))].
  split; [exact Hwf|]. rewrite Hq. split; [constructor|].
  exact (apply_new_rate_ok limit (-1) w Hl).
Qed.

(** [enqueue_normal] on both branches: an accepted packet is appended, a refused
    one is counted in exactly one of the two drop counters. *)
Definition refused_counters (pkt : list Z) (c : ShaperCounters) : ShaperCounters :=
  if (2048 <? length pkt)%nat
  then MkShaperCounters (shaper_normal_tx_complete c)
         (shaper_queue_overflow_drops c) (u64 (shaper_oversized_drops c + 1))
  else MkShaperCounters (shaper_normal_tx_complete c)
         (u64 (shaper_queue_overflow_drops c + 1)) (shaper_oversized_drops c).

Lemma enqueue_normal_spec pkt s w s' w' : shaper_ok s ->
  Shaper.enqueue_normal pkt s w = (s', w') ->
  shaper_ok s' /\ Shaper.bucket s' = Shaper.bucket s /\
  Shaper.queue s' = Shaper.queue s ++ (if accepts s pkt then [pkt] else []) /\
  w' = (if accepts s pkt then w
        else set_tel w (set_shaper_counters (w_tel w)
               (refused_counters pkt (shaper_counters (w_tel w))))).
Proof.
  intros (Hq & Hl & Hb). unfold Shaper.enqueue_normal.
  pose proof (zeroalloc_fifo_laws NORMAL_QUEUE_CAPACITY) as L.
  assert (length (Shaper.queue s) <= NORMAL_QUEUE_CAPACITY)%nat as Hlen
    by exact (@fq_bounded _ _ _ L _ Hq).
  destruct (accepts s pkt) eqn:E; unfold accepts in E.
  - bool2prop. destruct (@fq_push_accept _ _ _ L (Shaper.normal_queue s) pkt)
      as (q' & Hpush & Hok & Hc); [done|by apply Nat.leb_le|done|].
    cbn [fq_push zeroalloc_fifo] in Hpush. rewrite Hpush. intros [= <- <-].
    cbn [fq_list zeroalloc_fifo] in Hc. split; [|done].
    split; [done|]. split; [|done]. unfold Shaper.queue. cbn [Shaper.normal_queue].
    rewrite Hc. apply Forall_app. split; [done|]. by constructor.
  - assert (ZeroAllocRingBuffer.push NORMAL_QUEUE_CAPACITY pkt (Shaper.normal_queue s)
            = (false, Shaper.normal_queue s)) as ->.
    { apply (@fq_push_refuse _ _ _ L); [done|].
      apply andb_false_iff in E as [E|E]; [by left|right]. apply Nat.ltb_ge in E.
      apply Nat.le_antisymm; done. }
    intros [= <- <-]. rewrite app_nil_r. split; [by split|]. by split.
Qed.

Lemma enqueue_normal_tx pkt s w : tx_complete (snd (Shaper.enqueue_normal pkt s w)) = tx_complete w.
Proof.
  unfold Shaper.enqueue_normal. destruct (ZeroAllocRingBuffer.push _ _ _) as [[] q]; [done|].
  by destruct (2048 <? length pkt)%nat.
Qed.

(** What holds of every trace: [acc0] and [w0] are those at the start. *)
Definition fifo_inv (fd : Z) (w0 : World) (t : shaper_trace) : Prop :=
  shaper_ok (tr_s t) /\
  tr_acc t = finished (tr_ev t) ++ Shaper.queue (tr_s t) /\
  w_wire (tr_w t) = w_wire w0 ++ map (pair fd) (sent (tr_ev t)) /\
  u64 (tx_complete (tr_w t)) = u64 (tx_complete w0 + Z.of_nat (length (sent (tr_ev t)))).

Lemma fifo_inv_step fd w0 op t t' :
  fifo_inv fd w0 t -> shaper_apply fd op t = Some t' -> fifo_inv fd w0 t'.
Proof.
  intros (Hok & Hacc & Hwire & Htx). destruct op as [pkt| |l]; simpl.
  - destruct (Shaper.enqueue_normal _ _ _) as [s' w'] eqn:E. intros [= <-].
    pose proof (enqueue_normal_tx pkt (tr_s t) (tr_w t)) as Ht. rewrite E in Ht. simpl in Ht.
    destruct (enqueue_normal_spec _ _ _ _ _ Hok E) as (Hok' & _ & Hq & ->).
    split; [done|]. simpl in *. rewrite Hq, Hacc, app_assoc, Ht. split; [done|].
    split; [|done]. by destruct (accepts _ _).
  - destruct (Shaper.process_queue _ _ _) as [[[s' w'] new]|] eqn:E; [|done]. intros [= <-].
    destruct (process_loop_fifo _ _ _ _ _ _ _ _ Hok E) as (Hok' & nw & -> & Hw & Hq & Ht & _).
    split; [done|]. simpl. rewrite Hacc, Hq, finished_app, sent_app, map_app, app_assoc.
    split; [done|]. rewrite Hw, Hwire, app_assoc. split; [done|].
    rewrite Ht, length_app, Nat2Z.inj_add, Z.add_assoc. unfold u64 in *.
    by rewrite <- Zplus_mod_idemp_l, Htx, Zplus_mod_idemp_l.
  - intros [= <-]. destruct Hok as (? & ? & Hb). split; [|done].
    split; [done|]. split; [done|]. by apply set_rate_ok.
Qed.

Lemma shaper_run_fifo_inv fd limit w ops t : (0 <= limit)%Q ->
  shaper_run fd ops (shaper_start limit w) = Some t -> fifo_inv fd w t.
Proof.
  intros Hlimit Hrun. destruct (shaper_start_ok limit w Hlimit) as (Hok & Hq & Ha & He & Hw & Ht).
  eapply (shaper_run_invariant (fifo_inv fd w)); [| |exact Hrun].
  - intros op a b _. apply fifo_inv_step.
  - split; [exact Hok|]. unfold tx_complete. rewrite Hq, Ha, He, Hw, Ht. simpl.
    rewrite app_nil_r, Z.add_0_r. done.
Qed.

(** C8: the shaper is a lossless FIFO between the packets it accepted and the
    wire. Whatever sequence of arrivals, drains and rate changes it sees and
    whatever the socket answers, the accepted packets are, in order, those whose
    send is finished (sent or failed for good) followed by those still queued; the
    frames on the wire are exactly the successful ones, whole and in order; and
    the counter [shaper_normal_tx_complete] counts exactly them (modulo 2^64).
    A congested socket therefore never drops or reorders a packet. *)
Theorem shaper_fifo (fd : Z) (limit : Q) (w : World) (ops : list shaper_op) (t : shaper_trace)
    (Hlimit : (0 <= limit)%Q)
    (Hrun : shaper_run fd ops (shaper_start limit w) = Some t) :
  tr_acc t = finished (tr_ev t) ++ Shaper.queue (tr_s t) /\
  w_wire (tr_w t) = w_wire w ++ map (pair fd) (sent (tr_ev t)) /\
  u64 (tx_complete (tr_w t)) = u64 (tx_complete w + Z.of_nat (length (sent (tr_ev t)))).
Proof. by apply (shaper_run_fifo_inv fd limit w ops t). Qed.

Lemma shaper_fifo_witness :
  let w := world0 (fun i => Z.of_nat i * 1000000)
             [Sent 3; SendError EAGAIN; SendError EINTR; Sent 2; SendError (EOther 19)] in
  let ops := [SEnqueue [1; 2; 3]; SEnqueue [4; 5]; SDrain; SEnqueue [6]; SDrain; SSetRate 10] in
  exists t, shaper_run 7 ops (shaper_start 500 w) = Some t /\
    map fst (tr_ev t) = [Success; Congested; Success; Fatal] /\
    w_wire (tr_w t) = [(7, [1; 2; 3]); (7, [4; 5])].
Proof.
  intros w ops. destruct (shaper_run 7 ops (shaper_start 500 w)) as [t|] eqn:E;
    [|exfalso; vm_compute in E; discriminate].
  assert (map fst (tr_ev t) = [Success; Congested; Success; Fatal] /\
          sent (tr_ev t) = [[1; 2; 3]; [4; 5]]) as [He Hs]
    by (vm_compute in E; injection E as <-; split; reflexivity).
  exists t. split; [reflexivity|]. split; [exact He|].
  rewrite (proj1 (proj2 (shaper_fifo 7 500 w ops t ltac:(vm_compute; discriminate) E))), Hs.
  reflexivity.
Defined.

(** ** Termination *)
(** The number of calls of [send] that the replies can end. *)
Definition answered (rs : list SendReply) : nat := length (List.filter answers rs).

Lemma try_hardware_send_returns fd pkt w : (0 < answered (w_replies w))%nat ->
  exists res w', try_hardware_send fd pkt w = Some (res, w') /\
    answered (w_replies w) = S (answered (w_replies w')).
Proof.
  unfold try_hardware_send, try_send_packet_nonblocking, answered.
  generalize (w_wire w) as wire. induction (w_replies w) as [|r rs IH]; simpl; intros wire; [lia|].
  destruct r as [n|[]]; simpl; try (intros _; eexists _, _; by split); [|by apply IH].
  intros _. case_if; eexists _, _; by split.
Qed.

Lemma process_loop_returns f fd s w ev : shaper_ok s ->
  (length (Shaper.queue s) < f)%nat -> (length (Shaper.queue s) <= answered (w_replies w))%nat ->
  exists out, Shaper.process_loop f fd s w ev = Some out.
Proof.
  revert s w ev. induction f as [|f IH]; intros s w ev Hs Hf Ha; [lia|]. simpl.
  destruct (ZeroAllocRingBuffer.empty _) eqn:He; [by eexists|].
  destruct (queue_front s Hs He) as (rest & Hq & Hl).
  set (pkt := ZeroAllocRingBuffer.front _) in *. rewrite Hq in Hf, Ha. simpl in Hf, Ha.
  pose proof (try_consume_ok (Z.of_nat (length pkt)) (Shaper.bucket s) w ltac:(lia)
    ltac:(apply Hs)) as Hb.
  destruct (TokenBucket.try_consume _ _ _) as [[ok b] w1] eqn:Hc. simpl in Hb.
  destruct (try_consume_frame _ _ _ _ _ _ Hc) as (_ & Hr & _).
  destruct ok; simpl; [|by eexists].
  destruct (try_hardware_send_returns fd pkt w1) as (res & w2 & -> & Hr2); [rewrite Hr; lia|].
  destruct (Shaper.handle_result _ _ _ _) as [s2 w3] eqn:Eh.
  destruct (handle_result_spec _ _ _ _ _ _ _ (shaper_ok_bucket s b Hs Hb) Hq Eh)
    as (Hs2 & Hq2 & _ & _ & _ & _ & Hr3 & _).
  case_bool_decide; [by eexists|]. apply IH; [done|rewrite Hq2; lia|].
  rewrite Hq2, Hr3. rewrite Hr in Hr2. lia.
Qed.

(** [process_queue] returns: once the kernel has answered as many sends as
    there are queued packets (interrupted calls are repeated and do not count),
    the drain loop has ended, for every clock and token state. *)
Lemma process_queue_terminates (fd : Z) (limit : Q) (w : World) (ops : list shaper_op)
    (t : shaper_trace) (w' : World) (Hlimit : (0 <= limit)%Q)
    (Hrun : shaper_run fd ops (shaper_start limit w) = Some t)
    (Hreplies : (length (Shaper.queue (tr_s t)) <= answered (w_replies w'))%nat) :
  exists s'' w'' ev, Shaper.process_queue fd (tr_s t) w' = Some (s'', w'', ev).
Proof.
  destruct (shaper_run_fifo_inv fd limit w ops t Hlimit Hrun) as (Hs & _).
  destruct (process_loop_returns (S (ZeroAllocRingBuffer.count (Shaper.normal_queue (tr_s t))))
    fd (tr_s t) w' [] Hs) as [[[s'' w''] ev] E]; [|done|by exists s'', w'', ev].
  unfold Shaper.queue. rewrite ZeroAllocRingBuffer.za_contents_length. lia.
Qed.

Lemma process_queue_terminates_example :
  let w := world0 (fun i => Z.of_nat i * 1000000) [SendError EINTR; Sent 3; Sent 2] in
  let ops := [SEnqueue [1; 2; 3]; SEnqueue [4; 5]] in
  exists t, shaper_run 7 ops (shaper_start 500 w) = Some t /\
    length (Shaper.queue (tr_s t)) = 2%nat /\
    exists s'' w'' ev, Shaper.process_queue 7 (tr_s t) (tr_w t) = Some (s'', w'', ev).
Proof.
  intros w ops. destruct (shaper_run 7 ops (shaper_start 500 w)) as [t|] eqn:E;
    [|exfalso; vm_compute in E; discriminate].
  assert (length (Shaper.queue (tr_s t)) = 2%nat /\ answered (w_replies (tr_w t)) = 2%nat)
    as [H1 H2] by (vm_compute in E; injection E as <-; split; reflexivity).
  exists t. split; [reflexivity|]. split; [exact H1|].
  apply (process_queue_terminates 7 500 w ops t (tr_w t) ltac:(vm_compute; discriminate) E).
  rewrite H1, H2. apply le_n.
Defined.

(** ** The configured rate bounds what the shaper sends *)
Section RateBound.
#[local] Open Scope Q_scope.

(** A steady clock never goes back. *)
Definition steady (clock : nat -> Z) : Prop := forall i j, (i <= j)%nat -> (clock i <= clock j)%Z.

Definition bytes (ev : list (TxResult * list Z)) : Q := inject_Z (total_bytes (sent ev)).

(** The bucket accounting from [b] (with [clk] clock readings made) to [b']
    (with [clk'] readings), while [x] bytes were sent in [n] steps. *)
Record credit (clock : nat -> Z) (b : TokenBucket.t) (x : Q) (n : nat)
    (b' : TokenBucket.t) (clk' : nat) : Prop := {
  cr_tokens : x + TokenBucket.tokens b' <= TokenBucket.tokens b
     + earned (TokenBucket.rate_bytes_per_sec b)
         (TokenBucket.last_refill b' - TokenBucket.last_refill b)
     + 3 * inject_Z (Z.of_nat n) * (TokenBucket.capacity b * unit_roundoff);
  cr_last : (TokenBucket.last_refill b <= TokenBucket.last_refill b' <= clock clk')%Z;
  cr_cap : TokenBucket.capacity b' = TokenBucket.capacity b;
  cr_rate : TokenBucket.rate_bytes_per_sec b' = TokenBucket.rate_bytes_per_sec b;
  cr_req : TokenBucket.requested_limit b' < 0 }.

Lemma credit_refl clock b clk : (TokenBucket.last_refill b <= clock clk)%Z ->
  TokenBucket.requested_limit b < 0 -> credit clock b 0 0 b clk.
Proof.
  intros Hl Hr. split; [|lia|reflexivity|reflexivity|exact Hr]. rewrite Z.sub_diag, earned_0.
  change (inject_Z (Z.of_nat 0)) with 0. lra.
Qed.

Lemma credit_trans clock b x n b1 k1 y m b2 k2 :
  credit clock b x n b1 k1 -> credit clock b1 y m b2 k2 ->
  credit clock b (x + y) (n + m) b2 k2.
Proof.
  intros [T1 L1 C1 R1 Q1] [T2 L2 C2 R2 Q2]. rewrite C1, R1 in T2.
  split; [|lia|congruence|congruence|exact Q2].
  replace (TokenBucket.last_refill b2 - TokenBucket.last_refill b)%Z
    with ((TokenBucket.last_refill b1 - TokenBucket.last_refill b)
          + (TokenBucket.last_refill b2 - TokenBucket.last_refill b1))%Z by lia.
  rewrite earned_plus, Nat2Z.inj_add, inject_Z_plus. lra.
Qed.

(** One round: the three outcomes of a packet at the head of the queue. *)
Lemma round_credit clock n b clk w ok b1 w1 :
  steady clock -> w_clock w = clock -> w_clk w = clk ->
  (0 <= n <= 2048)%Z -> bucket_ok b -> TokenBucket.requested_limit b < 0 ->
  (TokenBucket.last_refill b <= clock clk)%Z ->
  TokenBucket.try_consume n b w = (ok, b1, w1) ->
  credit clock b (inject_Z (if ok then n else 0%Z)) 1 b1 (w_clk w1) /\
  (ok = true -> credit clock b 0 1 (TokenBucket.refund n b1) (w_clk w1)).
Proof.
  intros Hst <- <- Hn Hb Hq Hl Hc.
  pose proof (try_consume_ok n b w ltac:(lia) Hb) as Hb1. rewrite Hc in Hb1. cbn [fst snd] in Hb1.
  destruct (try_consume_credit n b w ok b1 w1 ltac:(lia) Hb Hq Hl Hc)
    as (Ht & Hl1 & Hcap & Hrate & Hreq & _ & Hk & _).
  pose proof (Hst (w_clk w) (w_clk w1) ltac:(lia)). pose proof u_range as Hu.
  destruct Hb as [_ Hm _ _ _].
  assert (0 <= TokenBucket.capacity b * unit_roundoff) by nra.
  split.
  - split; [|lia|exact Hcap|exact Hrate|rewrite Hreq; reflexivity].
    change (inject_Z (Z.of_nat 1)) with 1. destruct ok; lra.
  - intros ->. split; [|cbn; lia|exact Hcap|exact Hrate|].
    + pose proof (refund_credit n b1 Hn Hb1) as Hr. rewrite Hcap in Hr.
      change (inject_Z (Z.of_nat 1)) with 1.
      change (TokenBucket.last_refill (TokenBucket.refund n b1))
        with (TokenBucket.last_refill b1). lra.
    + cbn [TokenBucket.refund TokenBucket.requested_limit]. rewrite Hreq. reflexivity.
Qed.

Lemma credit_weaken clock b x n m b' clk' : bucket_ok b -> (n <= m)%nat ->
  credit clock b x n b' clk' -> credit clock b x m b' clk'.
Proof.
  intros [_ Hm _ _ _] Hle [T L C R Q]. split; [|exact L|exact C|exact R|exact Q].
  pose proof u_range. assert (0 <= TokenBucket.capacity b * unit_roundoff) by nra.
  assert (inject_Z (Z.of_nat n) <= inject_Z (Z.of_nat m)) by (apply injZ_le; lia). nra.
Qed.

Lemma credit_eq clock b x y n b' clk' : x == y ->
  credit clock b x n b' clk' -> credit clock b y n b' clk'.
Proof. intros E [T L C R Q]. split; [by rewrite <- E|exact L|exact C|exact R|exact Q]. Qed.

Lemma bytes_app a b : bytes (a ++ b)%list == bytes a + bytes b.
Proof. unfold bytes. by rewrite sent_app, total_bytes_app, inject_Z_plus. Qed.

Lemma process_loop_credit f fd s w ev s' w' ev' :
  steady (w_clock w) -> shaper_ok s ->
  TokenBucket.requested_limit (Shaper.bucket s) < 0 ->
  (TokenBucket.last_refill (Shaper.bucket s) <= w_clock w (w_clk w))%Z ->
  Shaper.process_loop f fd s w ev = Some (s', w', ev') ->
  exists new, ev' = (ev ++ new)%list /\ w_clock w' = w_clock w /\
    credit (w_clock w) (Shaper.bucket s) (bytes new) (S (length new)) (Shaper.bucket s') (w_clk w').
Proof.
  revert s w ev. induction f as [|f IH]; intros s w ev Hst Hs Hreq Hlast; [discriminate|].
  intros Hrun. apply process_loop_round in Hrun; [|exact Hs].
  destruct Hrun as [(Hq & -> & -> & ->)|(pkt & rest & ok & b & w1 & Hq & Hl & Hc & Hrest)].
  { exists []. rewrite app_nil_r. split; [reflexivity|]. split; [reflexivity|].
    apply (credit_weaken _ _ _ 0); [apply Hs|lia|]. apply credit_refl; assumption. }
  pose proof Hs as (_ & _ & Hb).
  destruct (round_credit (w_clock w) (Z.of_nat (length pkt)) _ (w_clk w) w ok b w1
    Hst eq_refl eq_refl ltac:(lia) Hb Hreq Hlast Hc) as [Hcr Hcr'].
  pose proof (try_consume_ok (Z.of_nat (length pkt)) (Shaper.bucket s) w ltac:(lia) Hb) as Hb1.
  rewrite Hc in Hb1. cbn [fst snd] in Hb1.
  destruct (try_consume_frame _ _ _ _ _ _ Hc) as (_ & _ & _ & Hk1).
  destruct Hrest as [(-> & -> & -> & ->)|(res & w2 & s2 & w3 & -> & Hsend & Hh & Hrest)].
  { exists []. rewrite app_nil_r. split; [reflexivity|]. split; [exact Hk1|exact Hcr]. }
  destruct (try_hardware_send_wire _ _ _ _ _ Hsend) as (Hk2 & Hc2 & _ & _).
  destruct (handle_result_spec _ _ _ _ _ _ _ (shaper_ok_bucket s b Hs Hb1) Hq Hh)
    as (Hs2 & Hq2 & Hbk & _ & Hk3 & Hc3 & _).
  assert (credit (w_clock w) (Shaper.bucket s) (bytes [(res, pkt)]) 1 (Shaper.bucket s2) (w_clk w3))
    as Hround.
  { rewrite Hbk, Hc3, Hc2. unfold bytes, sent. cbn [omap list_omap fst snd].
    case_bool_decide; cbn [total_bytes fold_right]; [|exact (Hcr' eq_refl)].
    rewrite Z.add_0_r. exact Hcr. }
  destruct Hrest as [(-> & -> & -> & ->)|(Hne & Hrec)].
  - exists [(Congested, pkt)]. split; [reflexivity|]. split; [congruence|].
    apply (credit_weaken _ _ _ 1); [exact Hb|cbn; lia|exact Hround].
  - assert (w_clock w3 = w_clock w) as Hk by congruence.
    destruct (IH s2 w3 (ev ++ [(res, pkt)])%list) as (new & -> & Hk' & Hnew);
      [by rewrite Hk|exact Hs2|apply Hround|rewrite Hk; apply Hround|exact Hrec|].
    exists ((res, pkt) :: new). rewrite <- app_assoc. split; [reflexivity|].
    split; [congruence|]. rewrite Hk in Hnew.
    apply (credit_eq _ _ (bytes [(res, pkt)] + bytes new)); [|by apply (credit_trans _ _ _ 1 _ _ _ _ _ _ Hround)].
    by rewrite <- bytes_app.
Qed.

Definition no_rate_change (ops : list shaper_op) : Prop :=
  Forall (fun op => match op with SSetRate _ => False | _ => True end) ops.

Lemma shaper_run_credit clock b0 fd ops t t' k :
  steady clock -> bucket_ok b0 -> no_rate_change ops ->
  w_clock (tr_w t) = clock -> shaper_ok (tr_s t) ->
  credit clock b0 (bytes (tr_ev t)) (length (tr_ev t) + k)
    (Shaper.bucket (tr_s t)) (w_clk (tr_w t)) ->
  shaper_run fd ops t = Some t' ->
  w_clock (tr_w t') = clock /\
  credit clock b0 (bytes (tr_ev t')) (length (tr_ev t') + (k + length ops))
    (Shaper.bucket (tr_s t')) (w_clk (tr_w t')).
Proof.
  intros Hst Hb0 Hops. revert t k. induction Hops as [|op ops Hop _ IH]; intros t k Hclk Hok Hcr.
  { cbn [shaper_run length]. intros [= <-]. rewrite Nat.add_0_r. by split. }
  cbn [shaper_run length]. rewrite Nat.add_succ_r, <- Nat.add_succ_l.
  destruct (shaper_apply fd op t) as [t1|] eqn:E; [|discriminate].
  destruct op as [pkt| |l]; [| |contradiction]; cbn [shaper_apply] in E.
  - destruct (Shaper.enqueue_normal _ _ _) as [s' w'] eqn:E'. injection E as <-.
    destruct (enqueue_normal_spec _ _ _ _ _ Hok E') as (Hok' & Hb & _ & ->).
    apply IH; cbn [tr_w tr_s tr_ev]; [by destruct (accepts _ _)|exact Hok'|].
    apply (credit_weaken _ _ _ (length (tr_ev t) + k)); [exact Hb0|lia|]. rewrite Hb.
    by destruct (accepts _ _).
  - destruct (Shaper.process_queue _ _ _) as [[[s' w'] new]|] eqn:E'; [|discriminate].
    injection E as <-. destruct (process_loop_fifo _ _ _ _ _ _ _ _ Hok E') as (Hok' & _).
    subst clock. destruct (process_loop_credit _ _ _ _ _ _ _ _ Hst Hok
      (cr_req _ _ _ _ _ _ Hcr) (proj2 (cr_last _ _ _ _ _ _ Hcr)) E') as (nw & Enw & Hk & Hnew).
    cbn [app] in Enw. subst new.
    apply IH; cbn [tr_w tr_s tr_ev]; [exact Hk|exact Hok'|].
    apply (credit_eq _ _ (bytes (tr_ev t) + bytes nw)); [by rewrite <- bytes_app|].
    replace (length (tr_ev t ++ nw) + S k)%nat with ((length (tr_ev t) + k) + S (length nw))%nat
      by (rewrite length_app; lia).
    by apply (credit_trans _ _ _ _ _ _ _ _ _ _ Hcr).
Qed.

Lemma earned_mono r a b : 0 <= r -> (a <= b)%Z -> earned r a <= earned r b.
Proof.
  intros Hr Hab. replace b with (a + (b - a))%Z by lia. rewrite earned_plus.
  assert (0 <= exact_seconds (b - a)).
  { unfold exact_seconds. apply Qle_shift_div_l; [reflexivity|]. rewrite Qmult_0_l.
    change 0 with (inject_Z 0). apply injZ_le. lia. }
  assert (0 <= earned r (b - a)); [|lra]. unfold earned.
  apply Qmult_le_0_compat; [by apply Qmult_le_0_compat|]. vm_compute. discriminate.
Qed.
End RateBound.

(** C7: the shaper enforces the configured rate. From construction with a limit of
    [limit] Mbit/s and while it is not reconfigured, the bytes it has put on the wire
    never exceed one burst (the bucket capacity) plus what the elapsed time earns at
    [limit * 10^6 / 8] bytes per second; in binary64 arithmetic the excess is at most
    the relative error of three roundings on the earned part and three half-ulps of
    the capacity per operation and send attempt. Packets whose send failed or was
    congested are refunded and not charged. *)
Theorem shaper_rate_bound (fd : Z) (limit : Q) (w : World) (ops : list shaper_op)
    (t : shaper_trace) (Hlimit : (0 <= limit)%Q) (Hsteady : steady (w_clock w))
    (Hops : no_rate_change ops)
    (Hrun : shaper_run fd ops (shaper_start limit w) = Some t) :
  let b := fst (TokenBucket.make limit w) in
  let elapsed := (w_clock w (w_clk (tr_w t)) - w_clock w (w_clk w))%Z in
  (bytes (tr_ev t) <= TokenBucket.capacity b
     + earned (TokenBucket.rate_bytes_per_sec b) elapsed
     + 3 * inject_Z (Z.of_nat (length (tr_ev t) + length ops))
         * (TokenBucket.capacity b * unit_roundoff))%Q.
Proof.
  intros b elapsed. pose proof (apply_new_rate_ok limit (-1) w Hlimit) as Hb.
  destruct (shaper_start_ok limit w Hlimit) as (Hok & _).
  assert (TokenBucket.last_refill b = w_clock w (w_clk w)) as Hl by reflexivity.
  destruct (shaper_run_credit (w_clock w) b fd ops (shaper_start limit w) t 0 Hsteady Hb Hops
    eq_refl Hok) as (_ & [T L C R _]); [|exact Hrun|].
  { apply (credit_refl _ b (S (w_clk w))); [|reflexivity]. rewrite Hl. apply Hsteady. lia. }
  destruct (shaper_run_fifo_inv fd limit w ops t Hlimit Hrun) as ((_ & _ & [Ht _ _ _ _]) & _).
  pose proof (earned_mono (TokenBucket.rate_bytes_per_sec b)
    (TokenBucket.last_refill (Shaper.bucket (tr_s t)) - TokenBucket.last_refill b) elapsed
    (bo_rate _ Hb) ltac:(rewrite Hl; unfold elapsed; lia)) as He.
  assert (TokenBucket.tokens b = TokenBucket.capacity b) as Hfull by reflexivity.
  rewrite Hfull, Nat.add_0_l in T. lra.
Qed.

Lemma shaper_rate_bound_witness :
  let w := world0 (fun i => Z.of_nat i * 1000000) [Sent 1500; SendError EAGAIN; Sent 1400] in
  let ops := [SEnqueue (replicate 1500 0%Z); SEnqueue (replicate 1400 1%Z); SDrain; SDrain] in
  exists t, shaper_run 7 ops (shaper_start 8 w) = Some t /\ (bytes (tr_ev t) == 2900)%Q /\
    (bytes (tr_ev t) <= 100000 + earned 1000000 4000000
       + 3 * inject_Z (Z.of_nat (length (tr_ev t) + 4)) * (100000 * unit_roundoff))%Q.
Proof.
  intros w ops. destruct (shaper_run 7 ops (shaper_start 8 w)) as [t|] eqn:E;
    [|exfalso; vm_compute in E; discriminate].
  assert ((bytes (tr_ev t) == 2900)%Q /\ w_clk (tr_w t) = 4%nat) as [H1 H2]
    by (vm_compute in E; injection E as <-; split; reflexivity).
  exists t. split; [reflexivity|]. split; [exact H1|].
  pose proof (shaper_rate_bound 7 8 w ops t ltac:(vm_compute; discriminate)
    ltac:(intros i j Hij; cbn; lia) ltac:(repeat constructor) E) as H.
  cbv zeta in H. rewrite H2 in H.
  assert (TokenBucket.capacity (fst (TokenBucket.make 8 w)) = 100000%Q /\
          TokenBucket.rate_bytes_per_sec (fst (TokenBucket.make 8 w)) = 1000000%Q) as [Hc Hr]
    by (split; vm_compute; reflexivity).
  rewrite Hc, Hr in H. exact H.
Defined.
