(* ===== verification/Config.v ===== *)
(** The configuration file ([Config.hpp], [Config.cpp]): loading, saving, and that a
    saved configuration is read back. *)
From Stdlib Require Import ZArith Lia Ascii String.
From stdpp Require Import base numbers strings list.
From S2P Require Import Prelude Text.
#[local] Open Scope Z_scope.
#[local] Open Scope list_scope.

(** The configuration variables; strings are byte lists. *)
Record Config := MkConfig {
  c_iface_wan : list Z; c_iface_lan : list Z; c_router_ip : list Z;
  c_apply_router_ip : bool; c_lan_prefix_len : Z;
  c_enable_acceleration : bool; c_large_packet_threshold : Z; c_enable_nat : bool;
  c_dhcp_pool_start : list Z; c_dhcp_pool_end : list Z; c_dhcp_lease : Z }.

Definition Config0 : Config :=
  MkConfig (str "eth0") (str "eth1") (str "192.168.12.1") true 24 true 1000 true
    (str "192.168.12.50") (str "192.168.12.255") 86400.

(** [memchr]: the offset of the first [ch]. *)
Fixpoint memchr (ch : Z) (s : list Z) : option nat :=
  match s with
  | [] => None
  | c :: s' => if c =? ch then Some 0%nat
               else match memchr ch s' with Some i => Some (S i) | None => None end
  end.

Definition parse_u32 (s : list Z) : Z := from_chars_u32 (cstr s) 0.

Definition KEY_CAP : nat := 64.
Definition VAL_CAP : nat := 256.
Definition parse_kv (line : list Z) : option (list Z * list Z) :=
  match memchr 61 line with
  | None => None
  | Some klen =>
      let vlen := (length line - klen - 1)%nat in
      if (klen =? 0)%nat || (KEY_CAP <=? klen)%nat || (VAL_CAP <=? vlen)%nat then None
      else Some (take klen line, drop (klen + 1) line)
  end.

(** [strcmp] equality of a NUL-terminated buffer with a literal. *)
Definition streq (s : list Z) (lit : string) : bool := bool_decide (cstr s = str lit).
Definition parse_bool (val : list Z) : bool := streq val "true" || streq val "1".
(** [static_cast<int>] of a [uint32_t]. *)
Definition to_int (v : Z) : Z := if v <? 2147483648 then v else v - 4294967296.

(** The dispatch on the key; an unknown key is ignored. *)
Definition apply_kv (key val : list Z) (c : Config) : Config :=
  let '(MkConfig wan lan rip app pre acc thr nat ps pe ls) := c in
  if streq key "IFACE_WAN" then MkConfig (cstr val) lan rip app pre acc thr nat ps pe ls
  else if streq key "IFACE_LAN" then MkConfig wan (cstr val) rip app pre acc thr nat ps pe ls
  else if streq key "ROUTER_IP" then MkConfig wan lan (cstr val) app pre acc thr nat ps pe ls
  else if streq key "APPLY_ROUTER_IP_TO_LAN"
  then MkConfig wan lan rip (parse_bool val) pre acc thr nat ps pe ls
  else if streq key "LAN_PREFIX_LEN"
  then MkConfig wan lan rip app (to_int (parse_u32 val)) acc thr nat ps pe ls
  else if streq key "ENABLE_ACCELERATION"
  then MkConfig wan lan rip app pre (parse_bool val) thr nat ps pe ls
  else if streq key "LARGE_PACKET_THRESHOLD"
  then MkConfig wan lan rip app pre acc (parse_u32 val) nat ps pe ls
  else if streq key "enable_nat" then MkConfig wan lan rip app pre acc thr (parse_bool val) ps pe ls
  else if streq key "DHCP_POOL_START" then MkConfig wan lan rip app pre acc thr nat (cstr val) pe ls
  else if streq key "DHCP_POOL_END" then MkConfig wan lan rip app pre acc thr nat ps (cstr val) ls
  else if streq key "DHCP_LEASE_SECONDS"
  then MkConfig wan lan rip app pre acc thr nat ps pe (parse_u32 val)
  else c.

(** One line, without its newline: a trailing CR is dropped, empty lines and comments
    are skipped. *)
Definition load_line (line : list Z) (c : Config) : Config :=
  let line := match last line with
              | Some ch => if ch =? 13 then removelast line else line
              | None => line
              end in
  match line with
  | [] => c
  | ch :: _ =>
      if ch =? 35 then c
      else match parse_kv line with
           | Some (key, val) => apply_kv key val c
           | None => c
           end
  end.

(** The line loop; every round consumes at least one byte. *)
Fixpoint load_lines (fuel : nat) (p : list Z) (c : Config) : Config :=
  match fuel with
  | O => c
  | S f =>
      match p with
      | [] => c
      | _ => match memchr 10 p with
             | Some nl => load_lines f (drop (nl + 1) p) (load_line (take nl p) c)
             | None => load_line p c
             end
      end
  end.

(** Outcome of [open(2)] for reading. *)
Inductive open_result := Opened (content : list Z) | NotFound | OpenFailed (errno : Z).
Inductive config_error := CannotOpen (errno : Z) | CannotWrite (errno : Z).

Definition READ_MAX : nat := Z.to_nat 8191.
Definition load_config (f : open_result) (c : Config) : (config_error + unit) * Config :=
  match f with
  | NotFound => (inr tt, c)
  | OpenFailed e => (inl (CannotOpen e), c)
  | Opened content =>
      let buf := take READ_MAX content in
      (inr tt, load_lines (S (length buf)) buf c)
  end.

(** [%d] *)
Definition dec_int (v : Z) : list Z := if v <? 0 then 45 :: dec (- v) else dec v.
Definition print_bool (v : bool) : list Z := if v then str "true" else str "false".
Definition print_line (key : string) (val : list Z) : list Z := str key ++ [61] ++ val ++ [10].

(** What [save_config] writes when the file can be opened. *)
Definition save_config (c : Config) : list Z :=
  str "# Auto-saved on shutdown" ++ [10] ++
  print_line "IFACE_WAN" (cstr (c_iface_wan c)) ++
  print_line "IFACE_LAN" (cstr (c_iface_lan c)) ++
  print_line "ROUTER_IP" (cstr (c_router_ip c)) ++
  print_line "APPLY_ROUTER_IP_TO_LAN" (print_bool (c_apply_router_ip c)) ++
  print_line "LAN_PREFIX_LEN" (dec_int (c_lan_prefix_len c)) ++
  print_line "ENABLE_ACCELERATION" (print_bool (c_enable_acceleration c)) ++
  print_line "LARGE_PACKET_THRESHOLD" (dec (c_large_packet_threshold c)) ++
  print_line "enable_nat" (print_bool (c_enable_nat c)) ++
  print_line "DHCP_POOL_START" (cstr (c_dhcp_pool_start c)) ++
  print_line "DHCP_POOL_END" (cstr (c_dhcp_pool_end c)) ++
  print_line "DHCP_LEASE_SECONDS" (dec (u32 (c_dhcp_lease c))).

(** * Round trip *)
(** A value that survives a line: no NUL, no line feed, no trailing CR, and short enough
    for the value buffer. *)
Definition line_value (v : list Z) : Prop :=
  Forall (fun ch => ch <> 0 /\ ch <> 10) v /\ last v <> Some 13 /\ (length v < VAL_CAP)%nat.

Lemma memchr_app ch s rest : Forall (fun c => c <> ch) s ->
  memchr ch (s ++ ch :: rest) = Some (length s).
Proof.
  induction 1 as [|c s Hc Hs IH]; simpl; [by rewrite Z.eqb_refl|].
  destruct (Z.eqb_spec c ch); [done|]. by rewrite IH.
Qed.

Lemma load_lines_line f line rest c : Forall (fun ch => ch <> 10) line ->
  load_lines (S f) (line ++ 10 :: rest) c = load_lines f rest (load_line line c).
Proof.
  intros Hl. cbn [load_lines]. destruct (line ++ 10 :: rest) eqn:E; [by destruct line|].
  rewrite <- E. rewrite memchr_app by done. rewrite take_app_length. f_equal.
  rewrite drop_app_ge by lia. by replace (length line + 1 - length line)%nat with 1%nat by lia.
Qed.

(** A key the program writes: letters and underscores. *)
Definition plain_key (key : string) : bool :=
  (0 <? length (str key))%nat && (length (str key) <? KEY_CAP)%nat &&
  forallb (fun ch => negb (ch =? 61) && negb (ch =? 35) && negb (ch =? 10) && negb (ch =? 0)) (str key).

Lemma plain_key_chars key : plain_key key = true ->
  Forall (fun ch => ch <> 61 /\ ch <> 35 /\ ch <> 10 /\ ch <> 0) (str key) /\
  (0 < length (str key) < KEY_CAP)%nat.
Proof.
  unfold plain_key. intros H. bool2prop. split; [|lia].
  apply List.Forall_forall. intros ch Hch.
  match goal with H : forallb _ _ = true |- _ => pose proof (proj1 (forallb_forall _ _) H ch Hch) as Hf end.
  cbv beta in Hf. bool2prop. done.
Qed.

Lemma load_line_kv key val c : plain_key key = true -> line_value val ->
  load_line (str key ++ [61] ++ val) c = apply_kv (str key) val c.
Proof.
  intros Hk (Hv & Hcr & Hlen). destruct (plain_key_chars _ Hk) as (Hc & Hkl).
  unfold load_line.
  assert (last (str key ++ [61] ++ val) <> Some 13) as Hlast.
  { change ([61] ++ val) with (61 :: val). rewrite last_app_cons, last_cons.
    destruct (last val) as [z|] eqn:E; simpl; congruence. }
  assert (match last (str key ++ [61] ++ val) with
          | Some ch => if ch =? 13 then removelast (str key ++ [61] ++ val) else str key ++ [61] ++ val
          | None => str key ++ [61] ++ val end = str key ++ [61] ++ val) as ->.
  { destruct (last (str key ++ [61] ++ val)) as [ch|]; [|done].
    destruct (Z.eqb_spec ch 13); [congruence|done]. }
  destruct (str key) as [|ch ks] eqn:Ek; [simpl in Hkl; lia|]. cbn [app].
  inversion Hc as [|? ? (H61 & H35 & _) Hc']; subst.
  destruct (Z.eqb_spec ch 35); [done|].
  change (ch :: ks ++ 61 :: val) with ((ch :: ks) ++ 61 :: val).
  unfold parse_kv. rewrite memchr_app by (eapply Forall_impl; [exact Hc|]; naive_solver).
  rewrite length_app. set (k := length (ch :: ks)) in *. cbn [length].
  destruct (Nat.eqb_spec k 0); [lia|]. destruct (Nat.leb_spec KEY_CAP k); [lia|].
  destruct (Nat.leb_spec VAL_CAP (k + S (length val) - k - 1)); [lia|]. cbn [orb].
  subst k. rewrite take_app_length. f_equal.
  rewrite drop_app_ge by lia. by replace (length (ch :: ks) + 1 - length (ch :: ks))%nat with 1%nat by lia.
Qed.

Lemma load_print f key v rest c : plain_key key = true -> line_value v ->
  load_lines (S f) (print_line key v ++ rest) c = load_lines f rest (apply_kv (str key) v c).
Proof.
  intros Hk Hv. unfold print_line.
  replace ((str key ++ [61] ++ v ++ [10]) ++ rest) with ((str key ++ [61] ++ v) ++ 10 :: rest)
    by (by rewrite <- !app_assoc).
  rewrite load_lines_line, load_line_kv by done || (destruct (plain_key_chars _ Hk) as (Hc & _), Hv as (Hv & _);
    repeat apply Forall_app_2; [eapply Forall_impl; [exact Hc|]; naive_solver|by constructor
      |eapply Forall_impl; [exact Hv|]; naive_solver]).
  done.
Qed.

Lemma dec_length n : (length (dec n) <= 20)%nat.
Proof.
  unfold dec. assert (forall f m, (length (dec_fuel f m) <= f)%nat) as H; [|apply H].
  induction f as [|f IH]; intros m; simpl; [lia|]. case_if; simpl; [lia|].
  rewrite length_app. simpl. specialize (IH (m / 10)). lia.
Qed.
Lemma digits_line_value v : Forall (fun c => is_digit c = true) v -> (length v < VAL_CAP)%nat -> line_value v.
Proof.
  intros Hd Hl. split; [|split; [|done]].
  - eapply Forall_impl; [exact Hd|]. intros c Hc%digit_range. lia.
  - intros Hc%last_Some_elem_of. rewrite Forall_forall in Hd. by specialize (Hd _ Hc).
Qed.
Lemma dec_line_value n : 0 <= n -> line_value (dec n).
Proof.
  intros Hn. apply digits_line_value; [by apply dec_digits|].
  pose proof (dec_length n). unfold VAL_CAP. lia.
Qed.
Lemma cstr_line_value v : line_value v -> cstr v = v.
Proof. intros (H & _). apply cstr_no_nul. eapply Forall_impl; [exact H|]. naive_solver. Qed.
Lemma parse_u32_dec n : is_u32 n -> parse_u32 (dec n) = n.
Proof.
  intros Hn. unfold parse_u32. rewrite cstr_line_value by (apply dec_line_value; wordlia).
  by apply from_chars_dec.
Qed.
Lemma print_bool_value v : line_value (print_bool v) /\ parse_bool (print_bool v) = v.
Proof.
  split; [|by destruct v].
  destruct v; (split; [|split; [done|unfold VAL_CAP; simpl; lia]]);
    vm_compute; repeat constructor; discriminate.
Qed.

(** ** The keys the two functions share *)
Ltac streq_ground :=
  repeat match goal with
  | |- context [streq (str ?a) ?b] =>
      let r := eval vm_compute in (streq (str a) b) in
      replace (streq (str a) b) with r by (vm_compute; reflexivity); cbv iota
  end.

(** Resolves one dispatch on a concrete key. *)
Ltac apply_kv_step :=
  match goal with
  | |- context [apply_kv (str ?k) ?v (MkConfig ?a ?b ?c ?d ?e ?f ?g ?h ?i ?j ?l)] =>
      let E := fresh in
      eassert (apply_kv (str k) v (MkConfig a b c d e f g h i j l) = _) as E
        by (unfold apply_kv; streq_ground; reflexivity);
      rewrite E; clear E
  end.

(** Lines of the saved file are shorter than the key and value buffers together. *)
Lemma print_line_length key v : plain_key key = true -> line_value v ->
  (length (print_line key v) <= 320)%nat.
Proof.
  intros Hk (_ & _ & Hv). destruct (plain_key_chars _ Hk) as (_ & Hkl).
  unfold print_line. rewrite !length_app. simpl. unfold KEY_CAP, VAL_CAP in *. lia.
Qed.

(** What the file format can represent. *)
Record config_ok (c : Config) : Prop := {
  ok_wan : line_value (c_iface_wan c);
  ok_lan : line_value (c_iface_lan c);
  ok_rip : line_value (c_router_ip c);
  ok_pre : 0 <= c_lan_prefix_len c < 2147483648;
  ok_thr : is_u32 (c_large_packet_threshold c);
  ok_ps : line_value (c_dhcp_pool_start c);
  ok_pe : line_value (c_dhcp_pool_end c);
  ok_ls : is_u32 (c_dhcp_lease c) }.

Lemma dec_int_nonneg n : 0 <= n -> dec_int n = dec n.
Proof. intros H. unfold dec_int. by destruct (Z.ltb_spec n 0); [lia|]. Qed.
Lemma to_int_small n : 0 <= n < 2147483648 -> to_int n = n.
Proof. intros H. unfold to_int. by destruct (Z.ltb_spec n 2147483648); [|lia]. Qed.

Lemma save_config_length c : config_ok c -> (length (save_config c) <= READ_MAX)%nat.
Proof.
  intros []. unfold save_config.
  rewrite !cstr_line_value by done. rewrite dec_int_nonneg, (u32_id (c_dhcp_lease c)) by (done || lia).
  repeat match goal with |- context [print_line ?k ?v] =>
    let H := fresh in
    assert (length (print_line k v) <= 320)%nat as H
      by (apply print_line_length; [by vm_compute|];
          first [done | apply print_bool_value | apply dec_line_value; wordlia]);
    generalize dependent (print_line k v); intros end.
  rewrite !length_app.
  assert (length (str "# Auto-saved on shutdown") = 24%nat) as -> by done.
  unfold READ_MAX. simpl length. lia.
Qed.

(** C31: saving and loading are inverse.  Whatever the running configuration [c0] was, a
    configuration whose strings fit a line and whose integers are in range is read back
    unchanged from the file [save_config] writes for it. *)
Theorem config_roundtrip (c c0 : Config) : config_ok c ->
  load_config (Opened (save_config c)) c0 = (inr tt, c).
Proof.
  intros Hok. pose proof (save_config_length c Hok) as Hlen. destruct Hok.
  unfold load_config. rewrite take_ge by done. f_equal.
  assert (exists f, S (length (save_config c)) = (13 + f)%nat) as (f & ->).
  { exists (length (save_config c) - 12)%nat. unfold save_config. rewrite length_app. simpl. lia. }
  unfold save_config. simpl plus.
  set (head := str "# Auto-saved on shutdown").
  rewrite !cstr_line_value by done. rewrite dec_int_nonneg, (u32_id (c_dhcp_lease c)) by (done || lia).
  assert (Forall (fun ch => ch <> 10) head) as Hhead by (vm_compute; repeat constructor; discriminate).
  assert (load_line head c0 = c0) as Hskip by done. clearbody head.
  cbn [app]. rewrite load_lines_line, Hskip by done.
  rewrite <- (app_nil_r (print_line "DHCP_LEASE_SECONDS" _)).
  rewrite !load_print by first [assumption | match goal with |- plain_key _ = true => by vm_compute end | apply print_bool_value | apply dec_line_value; wordlia].
  destruct c, c0. cbn [c_iface_wan c_iface_lan c_router_ip c_apply_router_ip c_lan_prefix_len
    c_enable_acceleration c_large_packet_threshold c_enable_nat c_dhcp_pool_start c_dhcp_pool_end c_dhcp_lease] in *.
  repeat apply_kv_step.
  rewrite !(proj2 (print_bool_value _)), !parse_u32_dec, to_int_small, !cstr_line_value by (done || wordlia).
  done.
Qed.
Lemma config_roundtrip_witness :
  load_config (Opened (save_config Config0)) (MkConfig [] [] [] false 0 false 0 false [] [] 0)
  = (inr tt, Config0).
Proof.
  apply (config_roundtrip Config0). constructor; simpl;
    first [ (split; [vm_compute; repeat constructor; discriminate
                    |split; [done|vm_compute; lia]])
          | lia | (vm_compute; split; [discriminate|reflexivity]) ].
Defined.
