(* ===== verification/SelfTest.v ===== *)
(** The built-in self test ([SelfTest.hpp], [SelfTest.cpp]): the report and the NAT and
    DHCP cases, run on the models of the two engines. *)
From Stdlib Require Import ZArith Lia Ascii String.
From stdpp Require Import base numbers strings list.
From S2P Require Import Prelude Text Types_util Headers_util Processor Checksum TestPackets Telemetry TxFrame Rings.
From S2P Require Import NatEngine DhcpEngine.
#[local] Open Scope Z_scope.
#[local] Open Scope list_scope.

(** [name] and [detail] are the C strings held by the two fixed buffers. *)
Record TestCase := MkCase { name : list Z; pass : bool; detail : list Z }.
Definition TestCase0 : TestCase := MkCase [] false [].

Module Report.
Record t := Mk { cases : list TestCase; count : nat; passed : nat }.
Definition empty : t := Mk (replicate 32 TestCase0) 0 0.
Definition add (n : string) (p : bool) (d : string) (r : t) : t :=
  if (32 <=? count r)%nat then r
  else Mk (<[count r := MkCase (take 63 (cstr (str n))) p (take 127 (cstr (str d)))]> (cases r))
          (S (count r)) (if p then S (passed r) else passed r).

(** The rows filled so far. *)
Definition rows (r : t) : list TestCase := take (count r) (cases r).
Definition verdicts (r : t) : list bool := map pass (rows r).
End Report.

Definition in_ephemeral (port : Z) : bool := (10000 <=? port) && (port <=? 60000).

(** [parse_ip_str(...).value()] throws on an error: [None]. *)
Definition ip_value (s : string) : option Z :=
  match parse_ip_str (str s) with inr v => Some v | inl _ => None end.

Definition saddr_is (p : ParsedPacket) (ip : Z) : bool :=
  match ipv4 p with Some o => get32 (raw_span p) (o + IPv4Header.saddr) =? ip | None => false end.
Definition daddr_is (p : ParsedPacket) (ip : Z) : bool :=
  match ipv4 p with Some o => get32 (raw_span p) (o + IPv4Header.daddr) =? ip | None => false end.

Definition test_nat (r : Report.t) : option Report.t :=
  wan_ip ← ip_value "10.0.0.1";
  lan_ip ← ip_value "192.168.1.100";
  ext_ip ← ip_value "8.8.8.8";
  let nat := NatEngine.set_wan_ip wan_ip NatEngine.make in
  let pkt := parse (make_udp_pkt lan_ip ext_ip 54321 12345) in
  let '(ok, nat, pkt) := NatEngine.process_outbound nat pkt in
  let snat_pass := ok && is_valid_ipv4 pkt && saddr_is pkt wan_ip in
  let r := Report.add "NAT_SNAT" snat_pass
    (if snat_pass then "saddr rewritten to WAN IP" else "saddr not rewritten") r in
  let ext_port := match udp pkt with
                  | Some u => ntohs (get16 (raw_span pkt) (u + UDPHeader.source)) | None => 0 end in
  let session_pass := in_ephemeral ext_port in
  let r := Report.add "NAT_Session" session_pass
    (if session_pass then "ephemeral port in valid range" else "port out of range") r in
  icmp_req ← make_icmp_pkt 8 lan_ip ext_ip (htons 4242);
  let '(icmp_out, nat, pkt_icmp) := NatEngine.process_outbound nat (parse icmp_req) in
  let ie := match icmp_echo pkt_icmp with
            | Some o => Some (get16 (raw_span pkt_icmp) (o + IcmpEchoHeader.id)) | None => None end in
  let icmp_snat := icmp_out && saddr_is pkt_icmp wan_ip &&
    match ie with Some id => in_ephemeral (ntohs id) | None => false end in
  icmp_rep ← make_icmp_pkt 0 ext_ip wan_ip (default 0 ie);
  let '(icmp_in, nat, pkt_rep) := NatEngine.process_inbound nat (parse icmp_rep) in
  let icmp_dnat := icmp_in && daddr_is pkt_rep lan_ip &&
    match icmp_echo pkt_rep with
    | Some o => get16 (raw_span pkt_rep) (o + IcmpEchoHeader.id) =? htons 4242 | None => false end in
  let icmp_pass := icmp_snat && icmp_dnat in
  Some (Report.add "NAT_ICMP" icmp_pass
    (if icmp_pass then "echo SNAT/DNAT id map and checksums" else "ICMP NAT path failed") r).

(** [pair] is what [socketpair] returned; the non-blocking [recv] on its first end finds
    a byte exactly when a datagram was sent on the second. *)
Definition received (fd : Z) (before after : World) : bool :=
  existsb (fun f => (fst f =? fd) && (0 <? Z.of_nat (length (snd f))))
    (drop (length (w_wire before)) (w_wire after)).

Definition test_dhcp (pair : option (Z * Z)) (r : Report.t) (w : World) : option (Report.t * World) :=
  let dhcp := DhcpEngine.make (str "192.168.1.1")
    (MkPool (parse_ipv4 (str "192.168.1.100")) (parse_ipv4 (str "192.168.1.200")) 86400) None in
  let '(dhcp_buf, pkt_len) := make_dhcp_discover in
  let pkt := parse (take pkt_len dhcp_buf) in
  let dhcp := DhcpEngine.intercept_request pkt dhcp in
  '(dhcp_pass, w) ← match pair with
    | Some (sv0, sv1) =>
        '(_, w') ← DhcpEngine.process_background_tasks sv1 dhcp w;
        Some (received sv1 w w', w')
    | None => Some (false, w)
    end;
  Some (Report.add "DHCP_Queue" dhcp_pass
    (if dhcp_pass : bool then "DISCOVER processed, OFFER sent" else "no OFFER response received") r, w).

(** The first two thirds of [run]; the host checks are in [HostInfo]. *)
Definition run_engines (pair : option (Z * Z)) (w : World) : option (Report.t * World) :=
  r ← test_nat Report.empty; test_dhcp pair r w.

(** ** Lemmas *)
(** [passed] counts the passing rows, and [count] never exceeds the table. *)
Definition report_ok (r : Report.t) : Prop :=
  length (Report.cases r) = 32%nat /\ (Report.count r <= 32)%nat /\
  Report.passed r = length (List.filter id (Report.verdicts r)).

Lemma report_empty_ok : report_ok Report.empty.
Proof. split_and!; [done|simpl; lia|done]. Qed.

Lemma report_add_ok n p d r : report_ok r ->
  report_ok (Report.add n p d r) /\
  Report.verdicts (Report.add n p d r)
  = Report.verdicts r ++ (if (Report.count r <? 32)%nat then [p] else []).
Proof.
  intros (Hl & Hc & Hp). unfold Report.add.
  destruct (Nat.leb_spec 32 (Report.count r)); destruct (Nat.ltb_spec (Report.count r) 32); try lia.
  { split; [done|]. by rewrite app_nil_r. }
  set (c := MkCase _ _ _).
  assert (Report.verdicts (Report.Mk (<[Report.count r:=c]> (Report.cases r)) (S (Report.count r))
            (if p then S (Report.passed r) else Report.passed r)) = Report.verdicts r ++ [p]) as E.
  { unfold Report.verdicts, Report.rows. cbn [Report.cases Report.count].
    rewrite (take_S_r _ _ c) by (apply list_lookup_insert_eq; lia).
    rewrite map_app, take_insert_ge by lia. done. }
  split; [|done]. split_and!; [by cbn; rewrite length_insert|cbn; lia|].
  rewrite E, List.filter_app, length_app, <- Hp. destruct p; simpl; lia.
Qed.

(** The DISCOVER of the test, queued, is answered by one frame of 320 bytes. *)
Definition test_engine : DhcpEngine.t :=
  DhcpEngine.intercept_request (parse (take (snd make_dhcp_discover) (fst make_dhcp_discover)))
    (DhcpEngine.make (str "192.168.1.1")
      (MkPool (parse_ipv4 (str "192.168.1.100")) (parse_ipv4 (str "192.168.1.200")) 86400) None).
Definition test_offer : list Z :=
  DhcpEngine.build_response 2 (parse_ipv4 (str "192.168.1.100")) (fst make_dhcp_discover) 42 test_engine.

Definition test_msg : DhcpMessage :=
  default DhcpMessage0 (fst (SpscRingBuffer.pop DhcpMessage0 REQUEST_QUEUE (DhcpEngine.request_queue test_engine))).
Definition test_engine1 : DhcpEngine.t :=
  DhcpEngine.set_queue test_engine
    (snd (SpscRingBuffer.pop DhcpMessage0 REQUEST_QUEUE (DhcpEngine.request_queue test_engine))).
Lemma test_pop :
  fst (SpscRingBuffer.pop DhcpMessage0 REQUEST_QUEUE (DhcpEngine.request_queue test_engine)) = Some test_msg /\
  fst (SpscRingBuffer.pop DhcpMessage0 REQUEST_QUEUE (DhcpEngine.request_queue test_engine1)) = None /\
  DhcpEngine.parse_request test_msg = Some (DhcpEngine.MkReq 42 1 0).
Proof. split_and!; vm_compute; reflexivity. Qed.

(** The lease table of the test engine has a free first entry, whatever the time. *)
Lemma test_assign w : exists ls,
  DhcpEngine.find_or_assign_lease [170; 187; 204; 221; 238; 255] test_engine1 w
  = (parse_ipv4 (str "192.168.1.100"), DhcpEngine.set_leases test_engine1 ls, snd (now w)).
Proof.
  unfold DhcpEngine.find_or_assign_lease. destruct (now w) as [tm w']. cbn [snd].
  set (e := test_engine1).
  assert (DhcpEngine.first_lease (fun l => l_active l && bool_decide (l_mac l = [170; 187; 204; 221; 238; 255]))
            (DhcpEngine.pool_count e) 0 (DhcpEngine.leases e) = None) as -> by (vm_compute; reflexivity).
  assert (DhcpEngine.first_lease (fun l => negb (l_active l) || (l_expiry l <? tm))
            (DhcpEngine.pool_count e) 0 (DhcpEngine.leases e)
          = Some (0%nat, MkLease (replicate 6 0) (parse_ipv4 (str "192.168.1.100")) false 0)) as ->
    by (vm_compute; reflexivity).
  eexists. reflexivity.
Qed.

Lemma discover_answered fd w : exists e',
  DhcpEngine.process_background_tasks fd test_engine w
  = match send_best_effort fd test_offer 2 0 (snd (now w)) with
    | Some w' => Some (e', w') | None => None end.
Proof.
  destruct test_pop as (Hp1 & Hp2 & Hreq). destruct (test_assign w) as [ls Hls].
  exists (DhcpEngine.set_leases test_engine1 ls).
  unfold DhcpEngine.process_background_tasks, kBackgroundTaskBudget. cbn [DhcpEngine.background_loop].
  destruct (SpscRingBuffer.pop _ _ (DhcpEngine.request_queue test_engine)) as [m q] eqn:Ep.
  cbn [fst] in Hp1. subst m.
  replace (DhcpEngine.set_queue test_engine q) with test_engine1
    by (unfold test_engine1; by rewrite Ep).
  unfold DhcpEngine.handle_dhcp_request. rewrite Hreq. unfold DhcpEngine.decide_response. cbn [DhcpEngine.q_type DhcpEngine.q_off].
  replace (slice (m_data test_msg) (42 + DhcpHeader.chaddr) 6) with [170; 187; 204; 221; 238; 255]
    by (vm_compute; reflexivity).
  change (1 =? 1) with true. cbv iota. rewrite Hls.
  replace (parse_ipv4 (str "192.168.1.100") =? 0) with false by (vm_compute; reflexivity).
  unfold DhcpEngine.send_response.
  replace (DhcpEngine.build_response 2 (parse_ipv4 (str "192.168.1.100")) (m_data test_msg) 42
             (DhcpEngine.set_leases test_engine1 ls)) with test_offer by (vm_compute; reflexivity).
  destruct (send_best_effort fd test_offer 2 0 _) as [w'|]; [|done].
  replace (DhcpEngine.request_queue (DhcpEngine.set_leases test_engine1 ls))
    with (DhcpEngine.request_queue test_engine1) by reflexivity.
  destruct (SpscRingBuffer.pop _ _ (DhcpEngine.request_queue test_engine1)) as [m q2] eqn:Ep2.
  cbn [fst] in Hp2. by subst m.
Qed.

(** The answer of the kernel that takes a whole datagram of [n] bytes. *)
Definition takes_whole (r : SendReply) (n : Z) : bool :=
  match r with Sent k => k =? n | SendError _ => false end.

(** Only a frame that went out whole is received. *)
Lemma received_send fd pkt w w0 pre r rs : Z.of_nat (length pkt) = 320 -> w_wire w0 = w_wire w ->
  w_replies w0 = pre ++ r :: rs -> Forall (fun x => x = SendError EINTR) pre -> answers r = true ->
  exists w', send_best_effort fd pkt 2 0 w0 = Some w' /\
    received fd w w' = takes_whole r 320.
Proof.
  intros Hn Hw Hrs Hpre Hr. unfold send_best_effort, try_send_packet_nonblocking. rewrite Hw, Hrs.
  assert (forall r' rs', received fd w
     (set_tel (set_io w0 rs' (w_wire w)) r') = false) as Hno.
  { intros. unfold received. cbn [set_tel set_io w_wire]. by rewrite drop_ge. }
  induction Hpre as [|x pre -> Hpre IH] in w0, Hw, Hrs, Hno |- *; simpl.
  - destruct r as [n|[]]; try done; [|by eexists; split; [done|apply Hno]..].
    rewrite Hn. cbn [takes_whole]. destruct (Z.eqb_spec n 320).
    + eexists. split; [done|]. unfold received. cbn [set_io w_wire]. rewrite drop_app_length.
      cbn. by rewrite Hn, Z.eqb_refl.
    + eexists. split; [done|]. apply Hno.
  - destruct (IH (set_io w0 (pre ++ r :: rs) (w_wire w0))) as (w' & Hw' & Hrec); [done|done| |].
    { intros. apply Hno. }
    eauto.
Qed.

Lemma test_nat_verdicts : exists r, test_nat Report.empty = Some r /\
  Report.count r = 3%nat /\ Report.verdicts r = [true; true; true] /\ report_ok r.
Proof. eexists. split; [vm_compute; reflexivity|]. vm_compute. split_and!; try reflexivity. lia. Qed.

(** The engine cases: the NAT cases pass, the DHCP case passes exactly when the socket pair
    exists and the OFFER was taken whole. *)
Lemma engines_verdict (pair : option (Z * Z)) (w : World) (pre rs : list SendReply) (r : SendReply)
    (Hw : w_replies w = pre ++ r :: rs) (Hpre : Forall (fun x => x = SendError EINTR) pre)
    (Hr : answers r = true) :
  exists rep w', run_engines pair w = Some (rep, w') /\ Report.count rep = 4%nat /\
    Report.verdicts rep = [true; true; true;
      match pair with Some _ => takes_whole r 320 | None => false end] /\
    report_ok rep.
Proof.
  destruct test_nat_verdicts as (r0 & Hr0 & Hc & Hv & Hok). unfold run_engines. rewrite Hr0. cbn [mbind option_bind].
  unfold test_dhcp. fold test_engine.
  assert (forall v d (w0 : World), exists rep w', Some (Report.add "DHCP_Queue" v d r0, w0) = Some (rep, w') /\
     Report.count rep = 4%nat /\ Report.verdicts rep = [true; true; true; v] /\ report_ok rep) as Hadd.
  { intros v d w0. destruct (report_add_ok "DHCP_Queue" v d r0 Hok) as (Hok' & E).
    rewrite Hc, Hv in E. eexists _, _. split_and!; [done| |done|done]. unfold Report.add. by rewrite Hc. }
  destruct pair as [[sv0 sv1]|]; [|apply Hadd].
  destruct (discover_answered sv1 w) as [e' He'].
  destruct (received_send sv1 test_offer w (snd (now w)) pre r rs) as (w' & Hs & Hrec);
    [vm_compute; reflexivity|done..|].
  rewrite Hs in He'. unfold test_engine in He'. destruct make_dhcp_discover as [buf len].
  cbn [fst snd] in He'. rewrite He'. cbn. rewrite Hrec. apply Hadd.
Qed.
