(* ===== verification/Network_util.v ===== *)
(** Subnet arithmetic of [Network_util.cpp] and the interface ioctls it issues.

    The kernel is not part of the program: its interface requests are the operations of
    the record [Kernel], over an arbitrary kernel state. *)
From Stdlib Require Import ZArith Lia Ascii String.
From stdpp Require Import base numbers strings list.
From S2P Require Import Prelude Text Types_util.
#[local] Open Scope Z_scope.
#[local] Open Scope list_scope.

(** * Prefixes and masks *)
(** The mask of a prefix, [0xFFFFFFFFu << (32u - pl)]; only used with [0 < pl <= 32]. *)
Definition prefix_mask (pl : Z) : Z := u32 (Z.shiftl 4294967295 (32 - pl)).

Fixpoint prefix_loop (fuel : nat) (m prefix : Z) : option Z :=
  match fuel with
  | O => None
  | S f => if Z.land m 2147483648 =? 0 then Some (if m =? 0 then prefix else -1)
           else prefix_loop f (u32 (Z.shiftl m 1)) (prefix + 1)
  end.
(** The prefix length of a netmask as the interface reports it (network order). *)
Definition prefix_of_netmask (s_addr : Z) : option Z :=
  let m := ntohl s_addr in
  if m =? 0 then Some (-1) else prefix_loop 33 m 0.

Fixpoint infer_loop (n : nat) (ha hb p : Z) : Z :=
  match n with
  | O => p
  | S n' => if Z.land (Z.shiftr ha (31 - p)) 1 =? Z.land (Z.shiftr hb (31 - p)) 1
            then infer_loop n' ha hb (p + 1) else p
  end.
Definition infer_prefix_covering_pool (a b : Z) : Z :=
  let ha := ntohl a in
  let hb := ntohl b in
  let '(ha, hb) := if hb <? ha then (hb, ha) else (ha, hb) in
  if ha =? hb then 32 else infer_loop 32 ha hb 0.

Definition ipv4_in_subnet (ip prefix_len anchor : Z) : bool :=
  if (prefix_len <? 0) || (32 <? prefix_len) then false
  else
    let mask := if prefix_len =? 0 then 0 else prefix_mask prefix_len in
    Z.land (ntohl ip) mask =? Z.land (ntohl anchor) mask.

(** * Interfaces *)
(** What the program asks of the kernel about an interface, by name. [socket_ok] is
    whether a control socket can be opened; a [set] request returns whether the ioctl
    succeeded. *)
Record Kernel (K : Type) := MkKernel {
  socket_ok : K -> bool;
  siocgifaddr : list Z -> K -> option Z;
  siocgifnetmask : list Z -> K -> option Z;
  siocgifhwaddr : list Z -> K -> option (bool * list Z);
  siocsifaddr : list Z -> Z -> K -> bool * K;
  siocsifnetmask : list Z -> Z -> K -> bool * K;
  ifup : list Z -> K -> K }.
Arguments MkKernel {K}.
Arguments socket_ok {K}. Arguments siocgifaddr {K}. Arguments siocgifnetmask {K}.
Arguments siocgifhwaddr {K}. Arguments siocsifaddr {K}. Arguments siocsifnetmask {K}.
Arguments ifup {K}.

Definition IFNAMSIZ : nat := 16.
(** [copy(ifr_name, IFNAMSIZ - 1)]: longer names are cut. *)
Definition ifr_name (iface : list Z) : list Z := take (IFNAMSIZ - 1) iface.

Section Interfaces.
Context {K : Type} (kern : Kernel K).

(** The empty string stands for no address, as in the source. *)
Definition get_local_ip (iface : list Z) (k : K) : list Z :=
  if negb (socket_ok kern k) then []
  else match siocgifaddr kern (ifr_name iface) k with
       | Some a => ip_to_str a
       | None => []
       end.

Definition get_iface_ipv4_prefix_len (iface : list Z) (k : K) : option Z :=
  if negb (socket_ok kern k) then Some (-1)
  else match siocgifnetmask kern (ifr_name iface) k with
       | Some m => prefix_of_netmask m
       | None => Some (-1)
       end.

(** The address is written to [out] only on success; [is_ether] is the family test. *)
Definition get_iface_hwaddr (iface : list Z) (out : list Z) (k : K) : bool * list Z :=
  if negb (socket_ok kern k) then (false, out)
  else match siocgifhwaddr kern (ifr_name iface) k with
       | Some (is_ether, mac) => if is_ether : bool then (true, take 6 mac) else (false, out)
       | None => (false, out)
       end.

Definition set_iface_ipv4_and_prefix (iface ipv4 : list Z) (prefix_len : Z) (k : K) : bool * K :=
  if (prefix_len <=? 0) || (32 <? prefix_len) then (false, k)
  else if (IFNAMSIZ <=? length iface)%nat then (false, k)
  else if negb (socket_ok kern k) then (false, k)
  else match try_parse_ipv4 (Some ipv4) with
       | None => (false, k)
       | Some a =>
           let '(ok, k1) := siocsifaddr kern iface a k in
           if negb ok then (false, k1)
           else
             let '(ok2, k2) := siocsifnetmask kern iface (htonl (prefix_mask prefix_len)) k1 in
             if negb ok2 then (false, k2) else (true, ifup kern iface k2)
       end.
End Interfaces.

(** * Lemmas *)
Lemma prefix_mask_bits p i : 0 < p <= 32 -> 0 <= i ->
  Z.testbit (prefix_mask p) i = (32 - p <=? i) && (i <? 32).
Proof.
  intros Hp Hi. unfold prefix_mask, u32. change 4294967296 with (2 ^ 32).
  change 4294967295 with (Z.ones 32).
  destruct (Z.ltb_spec i 32).
  - rewrite Z.mod_pow2_bits_low by lia. rewrite Z.shiftl_spec by lia.
    destruct (Z.leb_spec (32 - p) i).
    + rewrite Z.ones_spec_low by lia. done.
    + rewrite Z.testbit_neg_r by lia. done.
  - rewrite Z.mod_pow2_bits_high by lia. by rewrite andb_false_r.
Qed.

(** The network part of an address. *)
Lemma land_prefix_mask x p : is_u32 x -> 0 < p <= 32 ->
  Z.land x (prefix_mask p) = (x / 2 ^ (32 - p)) * 2 ^ (32 - p).
Proof.
  intros Hx Hp. rewrite <- Z.shiftr_div_pow2, <- Z.shiftl_mul_pow2 by lia.
  apply Z.bits_inj'. intros i Hi. rewrite Z.land_spec, prefix_mask_bits by lia.
  rewrite Z.shiftl_spec by lia.
  destruct (Z.leb_spec (32 - p) i) as [Hi1|Hi1].
  - rewrite Z.shiftr_spec by lia. replace (i - (32 - p) + (32 - p)) with i by lia.
    destruct (Z.ltb_spec i 32); [by rewrite andb_true_r|].
    rewrite andb_false_r. symmetry.
    rewrite <- (Z.mod_small x (2 ^ 32)) by (unfold is_u32 in Hx; lia).
    apply Z.mod_pow2_bits_high. lia.
  - rewrite andb_false_r. rewrite Z.testbit_neg_r by lia. done.
Qed.

(** The subnet test compares the leading bits, for every prefix length. *)
Lemma in_subnet_spec ip p anchor : is_u32 ip -> is_u32 anchor ->
  ipv4_in_subnet ip p anchor = true <->
  0 <= p <= 32 /\ ntohl ip / 2 ^ (32 - p) = ntohl anchor / 2 ^ (32 - p).
Proof.
  intros Hi Ha. apply bswap32_range in Hi, Ha. unfold ipv4_in_subnet.
  destruct (Z.ltb_spec p 0), (Z.ltb_spec 32 p); cbn [orb]; try (split; [done|lia]).
  destruct (Z.eqb_spec p 0) as [->|Hp].
  - rewrite !Z.land_0_r. split; [|done]. intros _. split; [lia|]. change (2 ^ (32 - 0)) with 4294967296.
    wordlia.
  - rewrite !land_prefix_mask by (done || lia). rewrite Z.eqb_eq.
    assert (0 < 2 ^ (32 - p)) by (apply Z.pow_pos_nonneg; lia). split; [|by intros [_ ->]].
    intros Heq. split; [lia|]. nia.
Qed.

Lemma land_shiftr_1 x i : 0 <= i -> Z.land (Z.shiftr x i) 1 = Z.b2z (Z.testbit x i).
Proof. intros Hi. rewrite land_1, Z.testbit_spec' by lia. by rewrite Z.shiftr_div_pow2 by lia. Qed.

(** The loop stops at the first position where the two addresses differ. *)
Lemma infer_loop_spec n ha hb p : 0 <= p -> p + Z.of_nat n = 32 ->
  ha / 2 ^ (32 - p) = hb / 2 ^ (32 - p) ->
  let r := infer_loop n ha hb p in
  p <= r <= 32 /\ ha / 2 ^ (32 - r) = hb / 2 ^ (32 - r) /\
  (r < 32 -> ha / 2 ^ (31 - r) <> hb / 2 ^ (31 - r)).
Proof.
  revert p. induction n as [|n IH]; intros p Hp Hn Heq; cbn [infer_loop].
  { split; [lia|]. split; [done|lia]. }
  rewrite !land_shiftr_1 by lia.
  assert (forall x, x / 2 ^ (31 - p) = 2 * (x / 2 ^ (32 - p)) + Z.b2z (Z.testbit x (31 - p))) as Hx.
  { intros x. rewrite Z.testbit_spec' by lia. replace (32 - p) with ((31 - p) + 1) by lia.
    rewrite Z.pow_add_r, <- Z.div_div by lia. change (2 ^ 1) with 2. apply Z.div_mod. lia. }
  destruct (Z.eqb_spec (Z.b2z (Z.testbit ha (31 - p))) (Z.b2z (Z.testbit hb (31 - p)))) as [E|E].
  - destruct (IH (p + 1)) as (? & ? & ?); [lia|lia| |split_and!; [lia|lia|done|done]].
    replace (32 - (p + 1)) with (31 - p) by lia. rewrite !Hx. lia.
  - split; [lia|]. split; [done|]. intros _. rewrite !Hx. lia.
Qed.

(** What the loop computes for two addresses in either order. *)
Lemma infer_prefix_spec a b : is_u32 a -> is_u32 b ->
  let p := infer_prefix_covering_pool a b in
  0 <= p <= 32 /\ ntohl a / 2 ^ (32 - p) = ntohl b / 2 ^ (32 - p) /\
  (p < 32 -> ntohl a / 2 ^ (31 - p) <> ntohl b / 2 ^ (31 - p)).
Proof.
  intros Ha%bswap32_range Hb%bswap32_range p.
  assert (forall x, is_u32 x -> x / 2 ^ (32 - 0) = 0) as H0.
  { intros y Hy. change (2 ^ (32 - 0)) with 4294967296. wordlia. }
  subst p. unfold infer_prefix_covering_pool. destruct (Z.ltb_spec (ntohl b) (ntohl a)).
  - destruct (Z.eqb_spec (ntohl b) (ntohl a)); [lia|].
    destruct (infer_loop_spec 32 (ntohl b) (ntohl a) 0) as (? & ? & Hd); [lia|lia|by rewrite !H0|].
    split_and!; [lia|lia|done|]. intros Hr. by apply not_eq_sym, Hd.
  - destruct (Z.eqb_spec (ntohl a) (ntohl b)) as [->|]; [split_and!; [lia|lia|done|lia]|].
    destruct (infer_loop_spec 32 (ntohl a) (ntohl b) 0) as (? & ? & ?); [lia|lia|by rewrite !H0|].
    split_and!; [lia|lia|done|done].
Qed.

(** Every address between the bounds has their network part. *)
Lemma between_network_part a b x : is_u32 a -> is_u32 b ->
  Z.min (ntohl a) (ntohl b) <= ntohl x <= Z.max (ntohl a) (ntohl b) ->
  let p := infer_prefix_covering_pool a b in
  ntohl x / 2 ^ (32 - p) = ntohl a / 2 ^ (32 - p).
Proof.
  intros Ha Hb Hin p. destruct (infer_prefix_spec a b Ha Hb) as (Hp & Heq & _). fold p in Hp, Heq.
  assert (0 < 2 ^ (32 - p)) as Hpos by (apply Z.pow_pos_nonneg; lia).
  assert (forall u v, u <= v -> u / 2 ^ (32 - p) <= v / 2 ^ (32 - p)) as Hm
    by (intros; apply Z.div_le_mono; lia).
  pose proof (Hm _ _ (proj1 Hin)). pose proof (Hm _ _ (proj2 Hin)).
  destruct (Z.min_spec (ntohl a) (ntohl b)) as [[? E1]|[? E1]]; rewrite E1 in *;
    destruct (Z.max_spec (ntohl a) (ntohl b)) as [[? E2]|[? E2]]; rewrite E2 in *; lia.
Qed.
Lemma pool_network_part a b x : is_u32 a -> is_u32 b -> to_host a <= to_host x <= to_host b ->
  let p := infer_prefix_covering_pool a b in
  ntohl x / 2 ^ (32 - p) = ntohl a / 2 ^ (32 - p).
Proof. unfold to_host. intros Ha Hb Hin. apply between_network_part; [done..|lia]. Qed.

(** The derived prefix is the tightest that covers the pool.  The prefix
    [infer_prefix_covering_pool] returns is a valid length, every address between the two
    bounds (whichever order they are given in) lies in the subnet of either bound, and
    one more bit would separate the bounds. *)
Lemma infer_prefix_tight (a b x : Z) (Ha : is_u32 a) (Hb : is_u32 b) (Hx : is_u32 x)
    (Hin : Z.min (to_host a) (to_host b) <= to_host x <= Z.max (to_host a) (to_host b)) :
  let p := infer_prefix_covering_pool a b in
  0 <= p <= 32 /\ ipv4_in_subnet x p a = true /\ ipv4_in_subnet x p b = true /\
  (p < 32 -> ipv4_in_subnet b (p + 1) a = false).
Proof.
  intros p. destruct (infer_prefix_spec a b Ha Hb) as (Hp & Heq & Hne). fold p in Hp, Heq, Hne.
  pose proof (between_network_part a b x Ha Hb Hin) as Hxa. cbv zeta in Hxa. fold p in Hxa.
  split; [done|]. rewrite !in_subnet_spec by done. split; [done|]. split; [split; [done|congruence]|].
  intros Hlt. apply not_true_iff_false. rewrite in_subnet_spec by done. intros [_ E].
  replace (32 - (p + 1)) with (31 - p) in E by lia. by apply Hne.
Qed.
Lemma infer_prefix_tight_example :
  let a := parse_ipv4 (str "192.168.12.50") in let b := parse_ipv4 (str "192.168.12.255") in
  let p := infer_prefix_covering_pool a b in
  0 <= p <= 32 /\ ipv4_in_subnet (parse_ipv4 (str "192.168.12.100")) p a = true /\
  ipv4_in_subnet (parse_ipv4 (str "192.168.12.100")) p b = true /\
  (p < 32 -> ipv4_in_subnet b (p + 1) a = false).
Proof.
  apply (infer_prefix_tight (parse_ipv4 (str "192.168.12.50")) (parse_ipv4 (str "192.168.12.255"))
           (parse_ipv4 (str "192.168.12.100")));
    vm_compute; (split; [discriminate|first [reflexivity|discriminate]]).
Defined.

(** ** The mask written and the prefix read back *)
Lemma prefix_loop_mask n fuel k : 0 <= k -> k + Z.of_nat n <= 32 -> (n < fuel)%nat ->
  prefix_loop fuel (u32 (Z.shiftl 4294967295 (32 - Z.of_nat n))) k = Some (k + Z.of_nat n).
Proof.
  revert fuel k. induction n as [|n IH]; intros [|f] k Hk Hn Hf; try lia; cbn [prefix_loop].
  - replace (u32 (Z.shiftl 4294967295 (32 - Z.of_nat 0))) with 0 by (vm_compute; reflexivity).
    change (Z.land 0 2147483648 =? 0) with true. change (0 =? 0) with true. cbv iota. f_equal. lia.
  - assert (Z.testbit (u32 (Z.shiftl 4294967295 (32 - Z.of_nat (S n)))) 31 = true) as Hb.
    { fold (prefix_mask (Z.of_nat (S n))). rewrite prefix_mask_bits by lia.
      destruct (Z.leb_spec (32 - Z.of_nat (S n)) 31); [done|lia]. }
    set (m := u32 (Z.shiftl 4294967295 (32 - Z.of_nat (S n)))) in *.
    destruct (Z.eqb_spec (Z.land m 2147483648) 0) as [E|_].
    { assert (Z.testbit (Z.land m 2147483648) 31 = false) as Hc by (rewrite E; apply Z.bits_0).
      rewrite Z.land_spec, Hb in Hc. done. }
    replace (u32 (Z.shiftl m 1)) with (u32 (Z.shiftl 4294967295 (32 - Z.of_nat n))).
    2: { subst m. unfold u32. rewrite !Z.shiftl_mul_pow2 by lia.
         rewrite Z.mul_mod_idemp_l by lia. replace (32 - Z.of_nat n) with (32 - Z.of_nat (S n) + 1) by lia.
         rewrite Z.pow_add_r by lia. by rewrite Z.mul_assoc. }
    rewrite IH by lia. f_equal. lia.
Qed.

(** The netmask round trip.  The prefix the program reads from an interface whose
    mask it has set with a prefix length is that length. *)
Lemma netmask_roundtrip (p : Z) (Hp : 0 < p <= 32) :
  prefix_of_netmask (htonl (prefix_mask p)) = Some p.
Proof.
  assert (is_u32 (prefix_mask p)) as Hm by apply u32_range.
  unfold prefix_of_netmask. rewrite bswap32_invol by done.
  destruct (Z.eqb_spec (prefix_mask p) 0) as [E|_].
  { pose proof (prefix_mask_bits p 31 Hp ltac:(lia)) as Hb. rewrite E, Z.bits_0 in Hb.
    destruct (Z.leb_spec (32 - p) 31); [done|lia]. }
  unfold prefix_mask. replace p with (Z.of_nat (Z.to_nat p)) at 1 by lia.
  rewrite prefix_loop_mask by lia. f_equal. lia.
Qed.
