(* ===== verification/NetworkConfig.v ===== *)
(** LAN addressing ([NetworkConfig.cpp]) and the other services that follow the kernel's
    addresses: [ControlPlane::applyDhcpConfig], the WAN tracker and the DHCP worker's
    router refresh. *)
From Stdlib Require Import ZArith Lia Ascii String.
From stdpp Require Import base numbers strings list.
From S2P Require Import Prelude Text Types_util Headers_util Telemetry TxFrame Rings NatEngine DhcpEngine DhcpProofs Config Network_util.
#[local] Open Scope Z_scope.
#[local] Open Scope list_scope.

Inductive sync_error :=
  | BadPoolStart (e : ip_error) | BadPoolEnd (e : ip_error) | PoolStartAfterEnd
  | BadPoolPrefix | BadRouterIp (e : ip_error) | SetIfaceFailed
  | RouterNotInPool (prefix : Z) | NoLanAddress | PrefixNotComputed.

(** [NetworkConfig]: the gateway address last installed. *)
Record NetCfg := MkNetCfg { effective_lan_gateway : Z }.

Section NetworkConfig.
Context {K : Type} (kern : Kernel K).

Definition parse_kern (s : list Z) : option Z :=
  match s with
  | [] => None
  | _ => match parse_ip_str s with inr a => Some a | inl _ => None end
  end.

(** The last steps of [sync], once the LAN interface has been read. *)
Definition install_gateway (ok : bool) (addr : option Z) (dhcp : DhcpEngine.t) (n : NetCfg) :
  (sync_error + unit) * DhcpEngine.t * NetCfg :=
  match ok, addr with
  | true, Some a => (inr tt, DhcpEngine.set_router_ip a dhcp, MkNetCfg a)
  | _, _ => (inl NoLanAddress, dhcp, n)
  end.

Definition sync (c : Config) (dhcp : DhcpEngine.t) (n : NetCfg) (k : K) :
  (sync_error + unit) * DhcpEngine.t * NetCfg * K :=
  let lan := c_iface_lan c in
  match parse_ip_str (c_dhcp_pool_start c), parse_ip_str (c_dhcp_pool_end c) with
  | inl e, _ => (inl (BadPoolStart e), dhcp, n, k)
  | _, inl e => (inl (BadPoolEnd e), dhcp, n, k)
  | inr pool_start, inr pool_end =>
      if ntohl pool_end <? ntohl pool_start then (inl PoolStartAfterEnd, dhcp, n, k)
      else
        let prefix := infer_prefix_covering_pool pool_start pool_end in
        if 32 <? prefix then (inl BadPoolPrefix, dhcp, n, k)
        else match parse_ip_str (c_router_ip c) with
        | inl e => (inl (BadRouterIp e), dhcp, n, k)
        | inr router =>
            let k1 := if c_apply_router_ip c
                      then snd (set_iface_ipv4_and_prefix kern lan (c_router_ip c) prefix k) else k in
            let in_pool_subnet ip := ipv4_in_subnet ip prefix pool_start in
            let addr := parse_kern (get_local_ip kern lan k1) in
            let ok := match addr with Some a => in_pool_subnet a | None => false end in
            if ok then (install_gateway ok addr dhcp n, k1)
            else if in_pool_subnet router then
              let '(set_ok, k2) := set_iface_ipv4_and_prefix kern lan (c_router_ip c) prefix k1 in
              if negb set_ok then (inl SetIfaceFailed, dhcp, n, k2)
              else
                let addr := parse_kern (get_local_ip kern lan k2) in
                let ok := match addr with Some a => in_pool_subnet a | None => false end in
                (install_gateway ok addr dhcp n, k2)
            else (inl (RouterNotInPool prefix), dhcp, n, k1)
        end
  end.

(** [refresh_dhcp_router], and the identical callback of the DHCP worker. *)
Definition refresh_dhcp_router (c : Config) (dhcp : DhcpEngine.t) (k : K) : DhcpEngine.t :=
  match get_local_ip kern (c_iface_lan c) k with
  | [] => dhcp
  | s => match parse_ip_str s with
         | inl _ => dhcp
         | inr a => if a =? DhcpEngine.router_ip_snapshot dhcp then dhcp
                    else DhcpEngine.set_router_ip a dhcp
         end
  end.

(** [ControlPlane::applyDhcpConfig] with the callback [App::start] installs: resynchronise
    the LAN, then save the configuration. The result says what was saved, if anything. *)
Definition applyDhcpConfig (c : Config) (dhcp : DhcpEngine.t) (n : NetCfg) (k : K) :
  DhcpEngine.t * NetCfg * K * option (list Z) :=
  match parse_ip_str (c_dhcp_pool_start c), parse_ip_str (c_dhcp_pool_end c) with
  | inr s, inr e =>
      match DhcpEngine.reconfigure (MkPool s e (c_dhcp_lease c)) dhcp with
      | (inl _, dhcp1) => (dhcp1, n, k, None)
      | (inr _, dhcp1) =>
          let '(_, dhcp2, n2, k2) := sync c dhcp1 n k in (dhcp2, n2, k2, Some (save_config c))
      end
  | _, _ => (dhcp, n, k, None)
  end.

(** [NatWanTracker::tick5s]; the source is the WAN interface's address. *)
Definition wan_tracker_tick5s (c : Config) (nat : NatEngine.t) (k : K) : NatEngine.t :=
  if negb (c_enable_nat c) then nat
  else match get_local_ip kern (c_iface_wan c) k with
  | [] => nat
  | s => match parse_ip_str s with
         | inl _ => nat
         | inr a =>
             let h := ntohl a in
             if (h =? 0) || (Z.shiftr h 24 =? 127) then nat
             else if a =? NatEngine.wan_ip_snapshot nat then nat
             else NatEngine.set_wan_ip a nat
         end
  end.

(** ** Lemmas *)
Lemma parse_kern_range s a : parse_kern s = Some a -> is_u32 a.
Proof.
  unfold parse_kern. destruct s as [|ch s']; [done|].
  destruct (parse_ip_str (ch :: s')) eqn:E; intros [= <-]. by eapply parse_ip_str_range.
Qed.

(** An address in the subnet of the pool's start is in the subnet of every pool address. *)
Lemma subnet_transfer s e a x : is_u32 s -> is_u32 e -> is_u32 a -> is_u32 x ->
  to_host s <= to_host x <= to_host e ->
  ipv4_in_subnet a (infer_prefix_covering_pool s e) s = true ->
  ipv4_in_subnet a (infer_prefix_covering_pool s e) x = true.
Proof.
  intros Hs He Ha Hx Hin Hsub. rewrite in_subnet_spec in * by done.
  destruct Hsub as [Hp Hsub]. split; [done|]. rewrite Hsub. symmetry.
  by apply pool_network_part.
Qed.

(** The gateway is installed only from an address that passed the subnet test. *)
Lemma install_gateway_spec (f : Z -> bool) addr dhcp n e dhcp' n' :
  let ok := match addr with Some a => f a | None => false end in
  install_gateway ok addr dhcp n = (e, dhcp', n') ->
  (e = inr tt /\ exists a, addr = Some a /\ f a = true /\
     dhcp' = DhcpEngine.set_router_ip a dhcp /\ n' = MkNetCfg a) \/
  (e = inl NoLanAddress /\ dhcp' = dhcp /\ n' = n).
Proof.
  simpl. unfold install_gateway. destruct addr as [a|]; [destruct (f a) eqn:E|]; intros [= <- <- <-]; eauto 10.
Qed.

(** The outcome of [sync], whatever the kernel answers. *)
Lemma sync_spec (c : Config) (dhcp : DhcpEngine.t) (n : NetCfg) (k : K) :
  let '(r, dhcp', n', k') := sync c dhcp n k in
  match r with
  | inl _ => dhcp' = dhcp /\ n' = n
  | inr _ => exists s e a,
      parse_ip_str (c_dhcp_pool_start c) = inr s /\ parse_ip_str (c_dhcp_pool_end c) = inr e /\
      to_host s <= to_host e /\
      dhcp' = DhcpEngine.set_router_ip a dhcp /\ n' = MkNetCfg a /\
      parse_kern (get_local_ip kern (c_iface_lan c) k') = Some a /\
      forall x, is_u32 x -> to_host s <= to_host x <= to_host e ->
        ipv4_in_subnet a (infer_prefix_covering_pool s e) x = true
  end.
Proof.
  unfold sync. destruct (parse_ip_str (c_dhcp_pool_start c)) as [?|s] eqn:Es; [done|].
  destruct (parse_ip_str (c_dhcp_pool_end c)) as [?|e] eqn:Ee; [done|].
  destruct (Z.ltb_spec (ntohl e) (ntohl s)) as [|Hle]; [done|].
  destruct (Z.ltb_spec 32 (infer_prefix_covering_pool s e)); [done|].
  destruct (parse_ip_str (c_router_ip c)) as [?|router]; [done|].
  pose proof (parse_ip_str_range _ _ Es) as Hs. pose proof (parse_ip_str_range _ _ Ee) as He.
  set (k1 := if c_apply_router_ip c then _ else k).
  assert (forall k' r dhcp' n',
    let addr := parse_kern (get_local_ip kern (c_iface_lan c) k') in
    install_gateway (match addr with Some a => ipv4_in_subnet a (infer_prefix_covering_pool s e) s | None => false end)
      addr dhcp n = (r, dhcp', n') ->
    match r with
    | inl _ => dhcp' = dhcp /\ n' = n
    | inr _ => exists s0 e0 a, @inr ip_error Z s = inr s0 /\ @inr ip_error Z e = inr e0 /\ to_host s0 <= to_host e0 /\
      dhcp' = DhcpEngine.set_router_ip a dhcp /\ n' = MkNetCfg a /\
      parse_kern (get_local_ip kern (c_iface_lan c) k') = Some a /\
      forall x, is_u32 x -> to_host s0 <= to_host x <= to_host e0 ->
        ipv4_in_subnet a (infer_prefix_covering_pool s0 e0) x = true
    end) as Hins.
  { intros k' r dhcp' n' addr Hi.
    destruct (install_gateway_spec (fun a => ipv4_in_subnet a (infer_prefix_covering_pool s e) s) addr
       dhcp n r dhcp' n' Hi) as [(-> & a & Ha & Hsub & -> & ->)|(-> & -> & ->)]; [|done].
    exists s, e, a. split_and!; try done. intros x Hx Hin. eapply subnet_transfer; eauto.
    by eapply parse_kern_range. }
  destruct (match parse_kern (get_local_ip kern (c_iface_lan c) k1) with
            | Some a => ipv4_in_subnet a (infer_prefix_covering_pool s e) s | None => false end) eqn:Eok.
  - destruct (install_gateway true _ dhcp n) as [[r d'] n'] eqn:Ei. apply Hins. by rewrite Eok.
  - destruct (ipv4_in_subnet router _ s); [|done].
    destruct (set_iface_ipv4_and_prefix _ _ _ _ k1) as [set_ok k2]. destruct set_ok; [|done]. simpl.
    destruct (install_gateway _ _ dhcp n) as [[r d'] n'] eqn:Ei. by apply Hins.
Qed.

(** The addresses of a configured pool are 32-bit. *)
Lemma init_pool_ips st en e e' i l : DhcpEngine.init_pool st en e = (inr tt, e') ->
  pool e' !! i = Some l -> is_u32 (l_ip l).
Proof.
  unfold DhcpEngine.init_pool. case_if; [done|]. case_if; [done|]. case_if; [done|]. intros [= <-].
  intros [Hl Hi]%pool_lookup. simpl in *. apply fill_pool_lookup in Hl as [-> _]; [|done].
  apply pool_advance_range.
Qed.

(** C25: every address the server can lease is on-link with its gateway.  Once a pool has
    been configured and [sync] has succeeded for it, whatever the kernel answered, the
    DHCP router address is the one the kernel reports for the LAN interface, it is
    recorded as the effective gateway, and every entry of the lease table lies between
    the configured bounds and shares the derived subnet with that gateway. *)
Theorem leases_on_link (c : Config) (dhcp d1 d2 : DhcpEngine.t) (n n' : NetCfg) (k k' : K) (s e : Z)
    (Hlen : length (DhcpEngine.leases dhcp) = MAX_POOL_SIZE)
    (Hs : parse_ip_str (c_dhcp_pool_start c) = inr s) (He : parse_ip_str (c_dhcp_pool_end c) = inr e)
    (Hre : DhcpEngine.reconfigure (MkPool s e (c_dhcp_lease c)) dhcp = (inr tt, d1))
    (Hsync : sync c d1 n k = (inr tt, d2, n', k')) :
  parse_kern (get_local_ip kern (c_iface_lan c) k') = Some (DhcpEngine.router_ip d2) /\
  effective_lan_gateway n' = DhcpEngine.router_ip d2 /\
  (0 < DhcpEngine.pool_count d2)%nat /\
  forall i l, pool d2 !! i = Some l ->
    to_host s <= to_host (l_ip l) <= to_host e /\
    ipv4_in_subnet (DhcpEngine.router_ip d2) (infer_prefix_covering_pool s e) (l_ip l) = true.
Proof.
  pose proof (sync_spec c d1 n k) as H. rewrite Hsync in H.
  destruct H as (s0 & e0 & a & E1 & E2 & Hord & -> & -> & Hk & Hin).
  assert (s0 = s) as -> by congruence. assert (e0 = e) as -> by congruence.
  pose proof (parse_ip_str_range _ _ Hs) as Hus. pose proof (parse_ip_str_range _ _ He) as Hue.
  unfold DhcpEngine.reconfigure in Hre. cbn [pool_start pool_end lease] in Hre.
  set (d0 := DhcpEngine.Mk _ _ _ _ _ _) in Hre.
  destruct (init_pool_spec _ _ d0 _ _ Hus Hue Hlen Hre) as [(_ & ? & _)|(_ & _ & _ & Hcnt & Hr)]; [done|].
  split; [exact Hk|]. split; [done|]. split.
  { change (0 < DhcpEngine.pool_count d1)%nat. unfold MAX_POOL_SIZE in *. lia. }
  intros i l Hl. change (pool (DhcpEngine.set_router_ip a d1)) with (pool d1) in Hl.
  destruct (Hr i l Hl) as [_ Hrange]. split; [done|]. apply Hin; [|done].
  by eapply init_pool_ips.
Qed.
End NetworkConfig.

(** * A kernel that obeys *)
(** The documented behaviour of the interface requests ([netdevice(7)]), for the states in
    [good]: the privileged requests succeed, an address once set is the address reported,
    and setting the mask or the flags leaves it alone. *)
Class KernelLaws {K} (kern : Kernel K) (good : K -> Prop) := {
  law_socket k : good k -> socket_ok kern k = true;
  law_addr i a k : good k -> exists k', siocsifaddr kern i a k = (true, k') /\ good k' /\
    siocgifaddr kern i k' = Some a;
  law_mask i m k : good k -> exists k', siocsifnetmask kern i m k = (true, k') /\ good k' /\
    siocgifaddr kern i k' = siocgifaddr kern i k;
  law_up i k : good k -> good (ifup kern i k) /\
    siocgifaddr kern i (ifup kern i k) = siocgifaddr kern i k }.

Section Obedient.
Context {K : Type} (kern : Kernel K) (good : K -> Prop) `{!KernelLaws kern good}.

Lemma try_parse_ip_str s a : parse_ip_str s = inr a -> try_parse_ipv4 (Some s) = Some a.
Proof.
  unfold parse_ip_str, try_parse_ipv4. case_if; [done|]. case_if; [done|].
  by destruct (inet_pton (cstr s)); intros [= <-].
Qed.

Lemma set_then_local iface ipv4 p a k : good k -> 0 < p <= 32 -> (length iface < IFNAMSIZ)%nat ->
  parse_ip_str ipv4 = inr a ->
  exists k', set_iface_ipv4_and_prefix kern iface ipv4 p k = (true, k') /\ good k' /\
    parse_kern (get_local_ip kern iface k') = Some a.
Proof.
  intros Hk Hp Hi Ha. unfold set_iface_ipv4_and_prefix.
  destruct (Z.leb_spec p 0), (Z.ltb_spec 32 p), (Nat.leb_spec IFNAMSIZ (length iface)); try lia. cbn [orb].
  rewrite (law_socket k Hk), (try_parse_ip_str _ _ Ha). cbn [negb].
  destruct (law_addr iface a k Hk) as (k1 & -> & Hk1 & E1). cbn [negb].
  destruct (law_mask iface (htonl (prefix_mask p)) k1 Hk1) as (k2 & -> & Hk2 & E2). cbn [negb].
  destruct (law_up iface k2 Hk2) as [Hk3 E3]. eexists. split; [done|]. split; [done|].
  unfold get_local_ip. rewrite (law_socket _ Hk3). cbn [negb].
  replace (ifr_name iface) with iface by (symmetry; apply take_ge; unfold IFNAMSIZ in *; lia).
  rewrite E3, E2, E1. apply parse_ip_str_range in Ha as Hr.
  pose proof (ip_to_str_length a Hr) as Hl. unfold parse_kern.
  destruct (ip_to_str a) as [|ch r] eqn:Es; [simpl in Hl; lia|].
  by rewrite <- Es, parse_ip_to_str.
Qed.

(** C26: a consistent configuration is always put in place.  If the pool bounds parse in
    order, do not span the whole address space, and ROUTER_IP parses inside their
    subnet, then with a kernel that honours the requests [sync] succeeds; and when the
    configuration asks for ROUTER_IP to be applied, that is the gateway. *)
Theorem sync_installs_router (c : Config) (dhcp : DhcpEngine.t) (n : NetCfg) (k : K) (s e router : Z)
    (Hk : good k) (Hs : parse_ip_str (c_dhcp_pool_start c) = inr s)
    (He : parse_ip_str (c_dhcp_pool_end c) = inr e) (Hr : parse_ip_str (c_router_ip c) = inr router)
    (Hord : to_host s <= to_host e) (Hif : (length (c_iface_lan c) < IFNAMSIZ)%nat)
    (Hp : 0 < infer_prefix_covering_pool s e)
    (Hsub : ipv4_in_subnet router (infer_prefix_covering_pool s e) s = true) :
  exists a k', sync kern c dhcp n k = (inr tt, DhcpEngine.set_router_ip a dhcp, MkNetCfg a, k') /\
    (c_apply_router_ip c = true -> a = router).
Proof.
  unfold sync. rewrite Hs, He, Hr. unfold to_host in Hord.
  destruct (Z.ltb_spec (ntohl e) (ntohl s)); [lia|].
  pose proof (infer_prefix_spec s e (parse_ip_str_range _ _ Hs) (parse_ip_str_range _ _ He)) as (Hp' & _).
  set (p := infer_prefix_covering_pool s e) in *. destruct (Z.ltb_spec 32 p); [lia|].
  destruct (set_then_local (c_iface_lan c) (c_router_ip c) p router k) as (k1 & E1 & Hk1 & L1); [done|lia|done..|].
  destruct (c_apply_router_ip c).
  - rewrite E1. cbn [snd]. rewrite L1, Hsub. eauto.
  - destruct (parse_kern (get_local_ip kern (c_iface_lan c) k)) as [a|] eqn:Ea;
      [destruct (ipv4_in_subnet a p s) eqn:Esub; [eexists _, _; by split|]|];
      rewrite Hsub, E1; cbn [negb]; rewrite L1, Hsub; eexists _, _; by split.
Qed.
End Obedient.

(** A kernel with one interface: its state is that interface's address. *)
Definition one_iface : Kernel (option Z) := MkKernel
  (fun _ => true) (fun _ k => k) (fun _ _ => Some 0) (fun _ _ => None)
  (fun _ a _ => (true, Some a)) (fun _ _ k => (true, k)) (fun _ k => k).
#[global] Instance one_iface_laws : KernelLaws one_iface (fun _ => True).
Proof. split; intros; simpl; eauto. Qed.

Definition w_dhcp : DhcpEngine.t :=
  DhcpEngine.make (str "192.168.12.1")
    (MkPool (parse_ipv4 (str "192.168.12.50")) (parse_ipv4 (str "192.168.12.255")) 86400) None.

Lemma leases_on_link_witness :
  let s := parse_ipv4 (str "192.168.12.50") in let e := parse_ipv4 (str "192.168.12.255") in
  let d1 := snd (DhcpEngine.reconfigure (MkPool s e 86400) w_dhcp) in
  let a := parse_ipv4 (str "192.168.12.1") in
  parse_kern (get_local_ip one_iface (c_iface_lan Config0) (Some a)) = Some a /\
  effective_lan_gateway (MkNetCfg a) = a /\
  (0 < DhcpEngine.pool_count (DhcpEngine.set_router_ip a d1))%nat /\
  forall i l, pool (DhcpEngine.set_router_ip a d1) !! i = Some l ->
    to_host s <= to_host (l_ip l) <= to_host e /\
    ipv4_in_subnet a (infer_prefix_covering_pool s e) (l_ip l) = true.
Proof.
  intros s e d1 a.
  apply (leases_on_link one_iface Config0 w_dhcp d1 (DhcpEngine.set_router_ip a d1) (MkNetCfg 0) (MkNetCfg a) None (Some a) s e);
    vm_compute; reflexivity.
Defined.

Lemma sync_installs_router_witness :
  let dhcp := DhcpEngine.make (str "192.168.12.1")
    (MkPool (parse_ipv4 (str "192.168.12.50")) (parse_ipv4 (str "192.168.12.255")) 86400) None in
  exists a k', sync one_iface Config0 dhcp (MkNetCfg 0) None
    = (inr tt, DhcpEngine.set_router_ip a dhcp, MkNetCfg a, k') /\
    (c_apply_router_ip Config0 = true -> a = parse_ipv4 (str "192.168.12.1")).
Proof.
  intros dhcp. apply (sync_installs_router one_iface (fun _ => True) Config0 dhcp (MkNetCfg 0) None
    (parse_ipv4 (str "192.168.12.50")) (parse_ipv4 (str "192.168.12.255")) (parse_ipv4 (str "192.168.12.1")));
    first [exact I | (vm_compute; reflexivity) | (vm_compute; discriminate) | (vm_compute; repeat constructor)].
Defined.
