(* ===== verification/ProcNet.v ===== *)
(** The readers of [/proc/net/route] and [/proc/net/arp] in [Network_util.cpp], with the
    [sscanf] conversions they use, and that they read back what the kernel prints. *)
From Stdlib Require Import ZArith Lia Ascii String.
From stdpp Require Import base numbers strings list.
From S2P Require Import Prelude Text Types_util Config.
#[local] Open Scope Z_scope.
#[local] Open Scope list_scope.

(** * [sscanf] *)
Definition is_space (c : Z) : bool := (c =? 32) || ((9 <=? c) && (c <=? 13)).
Fixpoint skip_space (s : list Z) : list Z :=
  match s with
  | c :: s' => if is_space c then skip_space s' else s
  | [] => []
  end.
(** At most [n] characters up to the next space, and the rest. *)
Fixpoint take_word (n : nat) (s : list Z) : list Z * list Z :=
  match n, s with
  | S n', c :: s' => if is_space c then ([], s)
                     else let '(w, r) := take_word n' s' in (c :: w, r)
  | _, _ => ([], s)
  end.
(** [%<n>s], on a string without NUL. *)
Definition scan_word (n : nat) (s : list Z) : option (list Z * list Z) :=
  match take_word n (skip_space s) with
  | ([], _) => None
  | wr => Some wr
  end.
(** [sscanf(line, "%as %bs ...")] returning the number of its conversions: the words. *)
Fixpoint scan_words (ns : list nat) (s : list Z) : option (list (list Z)) :=
  match ns with
  | [] => Some []
  | n :: ns' => match scan_word n s with
                | Some (w, r) => match scan_words ns' r with Some ws => Some (w :: ws) | None => None end
                | None => None
                end
  end.

Definition hex_digit (c : Z) : option Z :=
  if (48 <=? c) && (c <=? 57) then Some (c - 48)
  else if (97 <=? c) && (c <=? 102) then Some (c - 87)
  else if (65 <=? c) && (c <=? 70) then Some (c - 55)
  else None.
Fixpoint hex_run (s : list Z) (v : Z) : Z * list Z :=
  match s with
  | c :: s' => match hex_digit c with Some d => hex_run s' (16 * v + d) | None => (v, s) end
  | [] => (v, [])
  end.
(** [%x] into an [unsigned int]: spaces, a sign, an optional [0x], digits. The strings it is
    applied to are too short for [strtoul] to saturate. *)
Definition scan_hex (s : list Z) : option (Z * list Z) :=
  let s := skip_space s in
  let '(neg, s) := match s with
                   | 45 :: s' => (true, s') | 43 :: s' => (false, s') | _ => (false, s) end in
  let s := match s with 48 :: (120 | 88) :: s' => 48 :: s' | _ => s end in
  match s with
  | c :: _ => match hex_digit c with
              | Some _ => let '(v, r) := hex_run s 0 in Some (u32 (if neg : bool then - v else v), r)
              | None => None
              end
  | [] => None
  end.

(** [sscanf(buf, "%x:%x:%x:%x:%x:%x", ...)] returning 6. *)
Fixpoint scan_mac (n : nat) (s : list Z) : option (list Z) :=
  match scan_hex s with
  | None => None
  | Some (v, r) =>
      match n with
      | O => Some [v]
      | S n' => match r with
                | 58 :: r' => match scan_mac n' r' with Some vs => Some (v :: vs) | None => None end
                | _ => None
                end
      end
  end.
Definition parse_mac_colon (s : list Z) : option (list Z) :=
  if (length s <? 17)%nat then None
  else match scan_mac 5 (cstr (take 23 s)) with Some vs => Some (map u8 vs) | None => None end.

(** * Line readers *)
(** [while (line < end && *line != '\n') ++line; if (line < end) ++line;] *)
Definition next_line (p : list Z) : list Z :=
  match memchr 10 p with Some i => drop (S i) p | None => [] end.

(** The two route readers differ in the guard on interface and gateway; both return the
    first default route that passes it. *)
Fixpoint route_loop (fuel : nat) (guard : list Z -> Z -> bool) (p : list Z) : list Z :=
  match fuel with
  | O => []
  | S f =>
      match p with
      | [] => []
      | _ =>
          match scan_words [31; 15; 15]%nat (cstr p) with
          | Some [ifn; dest; gw] =>
              if streq dest "00000000" then
                match scan_hex gw with
                | Some (addr, _) => if guard ifn addr then ip_to_str addr
                                    else route_loop f guard (next_line p)
                | None => route_loop f guard (next_line p)
                end
              else route_loop f guard (next_line p)
          | _ => route_loop f guard (next_line p)
          end
      end
  end.
Definition read_route (guard : list Z -> Z -> bool) (route : option (list Z)) : list Z :=
  match route with
  | None => []
  | Some content => let buf := take 2047 content in
                    route_loop (length buf) guard (next_line buf)
  end.
Definition get_gateway_ip (route : option (list Z)) : list Z := read_route (fun _ _ => true) route.
Definition get_default_gateway_for_iface (iface : list Z) (route : option (list Z)) : list Z :=
  read_route (fun ifn addr => bool_decide (iface = ifn) && negb (addr =? 0)) route.

(** [ArpTableRow] *)
Record ArpTableRow := MkArpRow { ip_nbo : Z; mac : list Z }.
Definition arp_line_row (p : list Z) : option ArpTableRow :=
  match scan_words [31; 7; 7; 19]%nat (cstr p) with
  | Some [ip; hw; flags; mac_str] =>
      if streq flags "0x0" then None
      else match inet_pton ip with
           | Some a => match parse_mac_colon mac_str with
                       | Some m => Some (MkArpRow (get32 a 0) m)
                       | None => None
                       end
           | None => None
           end
  | _ => None
  end.
Fixpoint arp_loop (fuel max_out : nat) (p : list Z) : list ArpTableRow :=
  match fuel, max_out with
  | S f, S m =>
      match p with
      | [] => []
      | _ => match arp_line_row p with
             | Some r => r :: arp_loop f m (next_line p)
             | None => arp_loop f (S m) (next_line p)
             end
      end
  | _, _ => []
  end.
Definition ARP_READ_MAX : nat := Z.to_nat 65535.
Definition read_arp_table (max_out : nat) (arp : option (list Z)) : list ArpTableRow :=
  match arp with
  | None => []
  | Some content => let buf := take ARP_READ_MAX content in
                    arp_loop (length buf) max_out (next_line buf)
  end.

(** * What the kernel prints *)
Definition hex_char (d : Z) : Z := if d <? 10 then 48 + d else 87 + d.
Definition hex2 (b : Z) : list Z := [hex_char (b / 16); hex_char (b mod 16)].
Fixpoint mac_str (m : list Z) : list Z :=
  match m with
  | [] => []
  | [b] => hex2 b
  | b :: m' => hex2 b ++ [58] ++ mac_str m'
  end.
Definition pad (n : nat) (s : list Z) : list Z := s ++ replicate (n - length s) 32.

(** A neighbour of [/proc/net/arp] and its line, ["%-16s 0x%-10x0x%-10x%s     *        %s\n"];
    a state of zero marks an incomplete entry. *)
Record neighbour := MkNeigh { n_ip : Z; n_flags : Z; n_mac : list Z; n_dev : list Z }.
Definition arp_line (e : neighbour) : list Z :=
  pad 16 (ip_to_str (n_ip e)) ++ [32] ++ str "0x" ++ pad 10 [49] ++
  str "0x" ++ pad 10 [hex_char (n_flags e)] ++
  mac_str (n_mac e) ++ str "     *        " ++ n_dev e ++ [10].
Record neighbour_ok (e : neighbour) : Prop := {
  ne_ip : is_u32 (n_ip e);
  ne_flags : 0 <= n_flags e < 16;
  ne_mac : bytes_ok (n_mac e) /\ length (n_mac e) = 6%nat;
  ne_dev : Forall (fun c => c <> 0 /\ c <> 10) (n_dev e) }.
Definition neighbour_row (e : neighbour) : option ArpTableRow :=
  if n_flags e =? 0 then None else Some (MkArpRow (n_ip e) (n_mac e)).

(** ** Scanning lemmas *)
Definition word (w : list Z) : Prop := w <> [] /\ Forall (fun c => is_space c = false) w.

Lemma take_word_app n w c r : Forall (fun c => is_space c = false) w -> (length w <= n)%nat ->
  is_space c = true -> take_word n (w ++ c :: r) = (w, c :: r).
Proof.
  intros Hw Hn Hc. induction Hw as [|x w Hx Hw IH] in n, Hn |- *; simpl in *.
  - destruct n; simpl; [done|]. by rewrite Hc.
  - destruct n; simpl; [lia|]. rewrite Hx, IH by lia. done.
Qed.
Lemma skip_spaces k s : skip_space (replicate k 32 ++ s) = skip_space s.
Proof. by induction k. Qed.
Lemma scan_word_pad n k w c r : word w -> (length w <= n)%nat -> is_space c = true ->
  scan_word n (replicate k 32 ++ w ++ c :: r) = Some (w, c :: r).
Proof.
  intros [Hne Hw] Hn Hc. unfold scan_word. rewrite skip_spaces.
  destruct w as [|x w]; [done|]. inversion Hw as [|? ? Hx Hw']; subst.
  cbn [app skip_space]. rewrite Hx. change (x :: w ++ c :: r) with ((x :: w) ++ c :: r).
  by rewrite take_word_app.
Qed.

(** The same with the spaces of a padded field before and after. *)
Lemma scan_word_gap n k w j r : word w -> (length w <= n)%nat ->
  scan_word n (replicate k 32 ++ w ++ replicate (S j) 32 ++ r) = Some (w, replicate (S j) 32 ++ r).
Proof. intros Hw Hn. apply (scan_word_pad n k w 32 (replicate j 32 ++ r)); done. Qed.
Lemma scan_word_start n w j r : word w -> (length w <= n)%nat ->
  scan_word n (w ++ replicate (S j) 32 ++ r) = Some (w, replicate (S j) 32 ++ r).
Proof. apply (scan_word_gap n 0). Qed.

Lemma hex2_scan b r : is_u8 b -> scan_hex (hex2 b ++ 58 :: r) = Some (b, 58 :: r) /\
  scan_hex (hex2 b) = Some (b, []).
Proof.
  intros Hb. assert (Forall (fun b => scan_hex (hex2 b ++ 58 :: r) = Some (b, 58 :: r) /\
    scan_hex (hex2 b) = Some (b, [])) (seqZ 0 256)) as H.
  { change (seqZ 0 256) with ltac:(let l := eval vm_compute in (seqZ 0 256) in exact l).
    repeat (constructor; [split; reflexivity|]). constructor. }
  rewrite List.Forall_forall in H. apply H, list_elem_of_In, elem_of_seqZ. wordlia.
Qed.
Lemma scan_hex2_colon b r : is_u8 b -> scan_hex (hex2 b ++ 58 :: r) = Some (b, 58 :: r).
Proof. apply hex2_scan. Qed.
Lemma scan_hex2_end b : is_u8 b -> scan_hex (hex2 b) = Some (b, []).
Proof. apply (hex2_scan b []). Qed.

Lemma hex_char_range d : 0 <= d < 16 -> 48 <= hex_char d <= 102.
Proof. intros Hd. unfold hex_char. destruct (Z.ltb_spec d 10); lia. Qed.
Lemma hex2_chars b : is_u8 b -> Forall (fun c => 48 <= c <= 102) (hex2 b).
Proof. intros Hb. repeat constructor; apply hex_char_range; wordlia. Qed.
Lemma mac_str_chars m : bytes_ok m -> Forall (fun c => 48 <= c <= 102) (mac_str m).
Proof.
  induction m as [|b [|b' m] IH]; intros Hm; [constructor|inversion Hm; by apply hex2_chars|].
  inversion Hm; subst. cbn [mac_str]. apply Forall_app_2; [by apply hex2_chars|].
  apply Forall_app_2; [by repeat constructor|]. by apply IH.
Qed.
Lemma graphic_nonspace (w : list Z) : Forall (fun c => 46 <= c <= 102) w -> Forall (fun c => is_space c = false) w.
Proof.
  intros H. eapply Forall_impl; [exact H|]. intros c Hc. unfold is_space. simpl in Hc.
  destruct (Z.eqb_spec c 32), (Z.leb_spec 9 c), (Z.leb_spec c 13); try done; lia.
Qed.

Lemma mac_str_parse m : bytes_ok m -> length m = 6%nat ->
  length (mac_str m) = 17%nat /\ parse_mac_colon (mac_str m) = Some m.
Proof.
  intros Hm Hl. assert (length (mac_str m) = 17%nat) as Hn
    by (by destruct m as [|a [|b [|c [|d [|e [|f [|]]]]]]]). split; [done|].
  unfold parse_mac_colon. rewrite Hn. change (17 <? 17)%nat with false. cbv iota.
  rewrite take_ge by lia. rewrite cstr_no_nul by (eapply Forall_impl; [by apply mac_str_chars|]; simpl; lia).
  destruct m as [|a [|b [|c [|d [|e [|f [|]]]]]]]; try done.
  repeat match goal with H : bytes_ok (_ :: _) |- _ => inversion H; clear H; subst
                       | H : Forall is_u8 (_ :: _) |- _ => inversion H; clear H; subst end.
  cbn [mac_str]. repeat (cbn [scan_mac app]; rewrite scan_hex2_colon by done).
  cbn [scan_mac app]. rewrite scan_hex2_end by done. cbn [map]. by rewrite !u8_id.
Qed.

Lemma ip_to_str_word a : is_u32 a -> word (ip_to_str a) /\ Forall (fun c => 46 <= c <= 102) (ip_to_str a).
Proof.
  intros Ha. assert (Forall (fun c => 46 <= c <= 102) (ip_to_str a)) as H.
  { assert (forall v, 0 <= v -> Forall (fun c => 46 <= c <= 102) (dec v)) as Hd.
    { intros v Hv. eapply Forall_impl; [by apply dec_digits|]. intros c Hc%digit_range. lia. }
    unfold ip_to_str. repeat apply Forall_app_2;
      first [by repeat constructor | apply Hd; autorewrite with bits; wordlia]. }
  split; [split|done].
  - pose proof (ip_to_str_length a Ha) as Hl. intros E. rewrite E in Hl. simpl in Hl. lia.
  - by apply graphic_nonspace.
Qed.

Lemma inet_pton_ip a : is_u32 a ->
  inet_pton (ip_to_str a) = Some [a mod 256; a / 256 mod 256; a / 65536 mod 256; a / 16777216 mod 256].
Proof. intros Ha. unfold ip_to_str. autorewrite with bits. apply inet_pton_quad; wordlia. Qed.
Lemma streq_flags f : 0 <= f < 16 -> streq (str "0x" ++ [hex_char f]) "0x0" = (f =? 0).
Proof.
  intros Hf. assert (Forall (fun f => streq (str "0x" ++ [hex_char f]) "0x0" = (f =? 0)) (seqZ 0 16)) as H.
  { change (seqZ 0 16) with ltac:(let l := eval vm_compute in (seqZ 0 16) in exact l).
    repeat (constructor; [vm_compute; reflexivity|]). constructor. }
  rewrite List.Forall_forall in H. apply H, list_elem_of_In, elem_of_seqZ. lia.
Qed.

(** ** A printed line is one row *)
Lemma arp_line_split e : neighbour_ok e ->
  exists k body, arp_line e = body ++ [10] /\ Forall (fun c => c <> 0 /\ c <> 10) body /\
    body ++ [10] = ip_to_str (n_ip e) ++ replicate (S k) 32 ++ str "0x1" ++ replicate 9 32 ++
      (str "0x" ++ [hex_char (n_flags e)]) ++ replicate 9 32 ++
      mac_str (n_mac e) ++ replicate 1 32 ++ str "    *        " ++ n_dev e ++ [10].
Proof.
  intros [Hip Hf [Hm Hml] Hd]. exists (16 - length (ip_to_str (n_ip e)))%nat.
  exists (ip_to_str (n_ip e) ++ replicate (S (16 - length (ip_to_str (n_ip e)))) 32 ++ str "0x1" ++ replicate 9 32 ++
      (str "0x" ++ [hex_char (n_flags e)]) ++ replicate 9 32 ++
      mac_str (n_mac e) ++ replicate 1 32 ++ str "    *        " ++ n_dev e).
  split; [|split].
  - unfold arp_line, pad.
    assert (forall k, replicate k 32 ++ [32] = 32 :: replicate k 32) as Hrep
      by (intros k; induction k as [|k IH]; simpl; [done|by rewrite IH]).
    rewrite <- !app_assoc, (app_assoc (replicate _ 32) [32]), Hrep. cbn [app].
    repeat (rewrite <- !app_assoc; cbn [app]). reflexivity.
  - assert (forall w, Forall (fun c => 46 <= c <= 102) w -> Forall (fun c => c <> 0 /\ c <> 10) w) as Hg
      by (intros w H; eapply Forall_impl; [exact H|]; simpl; lia).
    assert (forall k, Forall (fun c => c <> 0 /\ c <> 10) (replicate k 32)) as Hr
      by (intros k; apply Forall_replicate; lia).
    pose proof (hex_char_range _ Hf).
    repeat first [ exact Hd | apply Hr | (apply Hg; apply ip_to_str_word; done)
                 | apply Forall_app_2 | apply Forall_cons_2; [lia|] | apply Forall_nil_2
                 | (apply Hg; eapply Forall_impl; [by apply mac_str_chars|]; simpl; lia)
                 | (vm_compute; repeat constructor; discriminate) ].
  - repeat (rewrite <- !app_assoc; cbn [app]). reflexivity.
Qed.

Lemma arp_line_row_printed e rest : neighbour_ok e -> Forall (fun c => c <> 0) rest ->
  arp_line_row (arp_line e ++ rest) = neighbour_row e.
Proof.
  intros He Hrest. destruct (arp_line_split e He) as (k & body & Hl & Hb & Heq).
  destruct He as [Hip Hf [Hm Hml] Hd]. unfold arp_line_row. rewrite cstr_no_nul.
  2: { rewrite Hl. rewrite !Forall_app. split_and!; [|by repeat constructor|done].
       eapply Forall_impl; [exact Hb|]. simpl. tauto. }
  rewrite Hl, Heq. destruct (ip_to_str_word _ Hip) as [Hw _].
  destruct (mac_str_parse _ Hm Hml) as [Hlen Hparse].
  pose proof (ip_to_str_length _ Hip). pose proof (hex_char_range _ Hf).
  assert (word (mac_str (n_mac e))) as Hmw.
  { split; [by intros E; rewrite E in Hlen|]. apply graphic_nonspace.
    eapply Forall_impl; [by apply mac_str_chars|]. simpl. lia. }
  assert (word (str "0x" ++ [hex_char (n_flags e)])) as Hfw.
  { split; [done|]. apply Forall_app_2; [vm_compute; by repeat constructor|].
    apply graphic_nonspace. constructor; [lia|constructor]. }
  rewrite <- !app_assoc. cbn [scan_words].
  rewrite (scan_word_start 31 (ip_to_str (n_ip e)) k) by (done || lia).
  rewrite (scan_word_gap 7 (S k) (str "0x1") 8) by (done || (simpl; lia) || (split; [done|vm_compute; by repeat constructor])).
  rewrite (app_assoc (str "0x")).
  rewrite (scan_word_gap 7 9 (str "0x" ++ [hex_char (n_flags e)]) 8) by (done || (simpl; lia)).
  rewrite (scan_word_gap 19 9 (mac_str (n_mac e)) 0) by (done || lia).
  rewrite Hparse, inet_pton_ip by done. unfold neighbour_row. rewrite streq_flags by done.
  by rewrite get32_octets.
Qed.

Definition arp_table (header : list Z) (es : list neighbour) : list Z :=
  header ++ [10] ++ List.concat (map arp_line es).

Lemma next_line_app body rest : Forall (fun c => c <> 10) body ->
  next_line (body ++ 10 :: rest) = rest.
Proof.
  intros Hb. unfold next_line. rewrite memchr_app by done. rewrite drop_app_ge by lia.
  by replace (S (length body) - length body)%nat with 1%nat by lia.
Qed.

Lemma arp_lines_nonul es : Forall neighbour_ok es -> Forall (fun c => c <> 0) (List.concat (map arp_line es)).
Proof.
  induction 1 as [|e es He Hes IH]; [constructor|]. cbn [map List.concat].
  destruct (arp_line_split e He) as (_ & body & -> & Hb & _). rewrite !Forall_app. split_and!; [|by repeat constructor|done].
  eapply Forall_impl; [exact Hb|]. simpl. tauto.
Qed.

Lemma arp_loop_printed es : Forall neighbour_ok es -> forall fuel max,
  (length (List.concat (map arp_line es)) <= fuel)%nat ->
  arp_loop fuel max (List.concat (map arp_line es)) = take max (omap neighbour_row es).
Proof.
  induction 1 as [|e es He Hes IH]; intros fuel max Hf.
  { destruct fuel, max; done. }
  cbn [map List.concat] in *. rewrite length_app in Hf.
  destruct (arp_line_split e He) as (_ & body & Hl & Hb & _).
  pose proof (arp_line_row_printed e (List.concat (map arp_line es)) He (arp_lines_nonul es Hes)) as Hrow.
  rewrite Hl in *. rewrite <- app_assoc in *. cbn [app] in *. rewrite length_app in Hf. cbn [length] in Hf.
  destruct fuel as [|f]; [lia|]. destruct max as [|m]; [done|].
  cbn [arp_loop omap list_omap]. destruct (body ++ 10 :: List.concat (map arp_line es)) as [|c r] eqn:E;
    [by destruct body|]. rewrite <- E in *.
  rewrite Hrow, next_line_app by (eapply Forall_impl; [exact Hb|]; simpl; tauto).
  destruct (neighbour_row e); rewrite IH by lia; done.
Qed.

(** C32: the neighbour table is read back.  From the text the kernel prints for a list of
    neighbours (any header line, any device names, entries complete or not), if it fits
    the read buffer, [read_arp_table] returns the address and hardware address of
    exactly the complete entries, in order, up to the caller's limit. *)
Theorem arp_table_roundtrip (header : list Z) (es : list neighbour) (max_out : nat)
    (Hh : Forall (fun c => c <> 10) header) (Hes : Forall neighbour_ok es)
    (Hlen : Z.of_nat (length (arp_table header es)) <= 65535) :
  read_arp_table max_out (Some (arp_table header es)) = take max_out (omap neighbour_row es).
Proof.
  unfold read_arp_table. rewrite take_ge by (unfold ARP_READ_MAX; lia).
  unfold arp_table. cbn [app]. rewrite next_line_app by done.
  apply arp_loop_printed; [done|]. rewrite length_app. cbn [length]. lia.
Qed.
Definition w_neighbours : list neighbour :=
  [MkNeigh (parse_ipv4 (str "192.168.12.7")) 2 [170; 187; 204; 1; 2; 255] (str "eth1");
   MkNeigh (parse_ipv4 (str "192.168.12.9")) 0 [0; 0; 0; 0; 0; 0] (str "eth1");
   MkNeigh (parse_ipv4 (str "10.0.0.254")) 2 [0; 16; 32; 48; 64; 80] (str "eth0")].
Lemma arp_table_roundtrip_witness :
  read_arp_table 128 (Some (arp_table (str "IP address       HW type     Flags") w_neighbours))
  = [MkArpRow (parse_ipv4 (str "192.168.12.7")) [170; 187; 204; 1; 2; 255];
     MkArpRow (parse_ipv4 (str "10.0.0.254")) [0; 16; 32; 48; 64; 80]].
Proof.
  apply (arp_table_roundtrip (str "IP address       HW type     Flags") w_neighbours 128).
  - vm_compute. repeat constructor; discriminate.
  - repeat (constructor; [constructor; [apply parse_ipv4_range|simpl; lia
      |split; [apply bytes_okb_ok; reflexivity|reflexivity]|vm_compute; repeat constructor; discriminate]|]).
    constructor.
  - vm_compute. discriminate.
Defined.
