(* ===== verification/ForwardingState.v ===== *)
(** The L2 snapshot of the data plane ([ForwardingState_util.cpp]): built by the refresh
    service in the inactive of two buffers and then published. *)
From Stdlib Require Import ZArith Lia Ascii String.
From stdpp Require Import base numbers strings list.
From S2P Require Import Prelude Text Types_util Config Network_util ProcNet.
#[local] Open Scope Z_scope.
#[local] Open Scope list_scope.

Definition MAX_ARP : nat := 128.

(** [L2Snapshot]; the rows of [arp] below [arp_count] are the list. *)
Record L2Snapshot := MkSnap {
  lan_hw : list Z; wan_hw : list Z; gw_hw : list Z;
  wan_ip_nbo : Z; wan_prefix_len : Z;
  arp : list ArpTableRow;
  gw_hw_valid : bool; wan_cfg_valid : bool; default_gw_ip_configured : bool; ready : bool }.
Definition L2Snapshot0 : L2Snapshot :=
  MkSnap (replicate 6 0) (replicate 6 0) (replicate 6 0) 0 (-1) [] false false false false.

(** [snap_] and [active_]. *)
Record ForwardingState := MkFwd { snap_ : list L2Snapshot; active_ : nat }.
Definition ForwardingState0 : ForwardingState := MkFwd [L2Snapshot0; L2Snapshot0] 0.

Definition snapshot (st : ForwardingState) : L2Snapshot := nth (active_ st) (snap_ st) L2Snapshot0.

Definition is_invalid_nat_wan (a : Z) : bool :=
  if a =? 0 then true else Z.shiftr (ntohl a) 24 =? 127.

Inductive wan_error := NoWanAddress | WanParseFailed (e : ip_error) | WanUnusable.

(** The first row for an address: [resolve_mac_onlink] and the gateway search. *)
Fixpoint find_mac (rows : list ArpTableRow) (ip : Z) : option (list Z) :=
  match rows with
  | [] => None
  | r :: rows' => if ip_nbo r =? ip then Some (mac r) else find_mac rows' ip
  end.
Definition resolve_mac_onlink (s : L2Snapshot) (dst : Z) : option (list Z) := find_mac (arp s) dst.

Section Refresh.
Context {K : Type} (kern : Kernel K).

Definition resolve_nat_wan_ip (c : Config) (k : K) : wan_error + Z :=
  match get_local_ip kern (c_iface_wan c) k with
  | [] => inl NoWanAddress
  | s => match parse_ip_str s with
         | inl e => inl (WanParseFailed e)
         | inr a => if is_invalid_nat_wan a then inl WanUnusable else inr a
         end
  end.

(** [route] and [arp_file] are the contents of the two [/proc] files at the time of the
    refresh, [None] when they cannot be opened. The probe [force_arp_resolution] sends to
    make the kernel fill its table has no effect inside the program. *)
Definition refresh_l2 (c : Config) (k : K) (route arp_file : option (list Z)) (st : ForwardingState) :
  option ForwardingState :=
  let w := (1 - active_ st)%nat in
  let snap := nth w (snap_ st) L2Snapshot0 in
  let '(lan_ok, lan) := get_iface_hwaddr kern (c_iface_lan c) (lan_hw snap) k in
  let '(wan_ok, wan) := get_iface_hwaddr kern (c_iface_wan c) (wan_hw snap) k in
  prefix ← get_iface_ipv4_prefix_len kern (c_iface_wan c) k;
  let wip := match resolve_nat_wan_ip c k with inr a => a | inl _ => 0 end in
  let cfg_valid := negb (wip =? 0) && negb (is_invalid_nat_wan wip) && (0 <=? prefix) && (prefix <=? 32) in
  let gw_ip := get_default_gateway_for_iface (c_iface_wan c) route in
  let gw_ip := match gw_ip with [] => get_gateway_ip route | _ => gw_ip end in
  let gw_configured := match gw_ip with [] => false | _ => true end in
  let rows := read_arp_table MAX_ARP arp_file in
  let found := if gw_configured : bool then
                 match inet_pton (cstr gw_ip) with Some b => find_mac rows (get32 b 0) | None => None end
               else None in
  let gw := default (gw_hw snap) found in
  let gw_valid := match found with Some _ => true | None => false end in
  let arp' := take (Nat.min (length rows) MAX_ARP) rows in
  let snap' := MkSnap lan wan gw wip prefix arp' gw_valid cfg_valid gw_configured
                 (lan_ok && wan_ok && (gw_valid || cfg_valid)) in
  Some (MkFwd (<[w := snap']> (snap_ st)) w).
End Refresh.

(** * Lemmas *)
Definition fwd_ok (st : ForwardingState) : Prop := length (snap_ st) = 2%nat /\ (active_ st < 2)%nat.

(** The loop over the mask bits ends: each round shifts one bit out. *)
Lemma prefix_loop_total n m k : 0 <= m -> (m * 2 ^ Z.of_nat n) mod 2 ^ 32 = 0 -> (Z.of_nat n <= 32) -> m < 2 ^ 32 ->
  exists p, prefix_loop (S n) m k = Some p /\ (p = -1 \/ k <= p <= k + Z.of_nat n).
Proof.
  revert m k. induction n as [|n IH]; intros m k Hm Hz Hn Hlt.
  - assert (m = 0) as -> by (rewrite Z.mul_1_r, Z.mod_small in Hz by lia; done).
    exists k. split; [reflexivity|]. right. lia.
  - remember (S n) as n' eqn:En. cbn [prefix_loop]. destruct (Z.eqb_spec (Z.land m 2147483648) 0).
    { eexists. split; [done|]. destruct (m =? 0); [right; lia|by left]. }
    subst n'. destruct (IH (u32 (Z.shiftl m 1)) (k + 1)) as (p & Hp & Hr).
    + apply u32_range.
    + unfold u32. rewrite Z.shiftl_mul_pow2 by lia. change 4294967296 with (2 ^ 32).
      rewrite Z.mul_mod_idemp_l by lia. rewrite <- Hz. f_equal.
      rewrite Nat2Z.inj_succ, Z.pow_succ_r by lia. lia.
    + lia.
    + pose proof (u32_range (Z.shiftl m 1)) as Hu. unfold is_u32 in Hu. lia.
    + exists p. split; [done|]. lia.
Qed.
Lemma prefix_of_netmask_total s : is_u32 s -> exists p, prefix_of_netmask s = Some p /\ -1 <= p <= 32.
Proof.
  intros Hs%bswap32_range. unfold prefix_of_netmask. case_if; [by exists (-1); split; [|lia]|].
  destruct (prefix_loop_total 32 (ntohl s) 0) as (p & Hp & Hr); [wordlia| |lia|wordlia|].
  - change (Z.of_nat 32) with 32. apply Z.mod_mul. lia.
  - exists p. split; [exact Hp|]. lia.
Qed.

Lemma find_mac_elem rows ip m : find_mac rows ip = Some m -> MkArpRow ip m ∈ rows.
Proof.
  induction rows as [|[i m'] rows IH]; simpl; [done|].
  destruct (Z.eqb_spec i ip) as [->|].
  - intros [= ->]. by left.
  - intros H. right. by apply IH.
Qed.

Lemma arp_loop_length fuel max p : (length (arp_loop fuel max p) <= max)%nat.
Proof.
  revert max p. induction fuel as [|f IH]; intros [|m] p; cbn [arp_loop length]; try lia.
  destruct p as [|c p']; [simpl; lia|]. destruct (arp_line_row (c :: p')); cbn [length].
  - specialize (IH m (next_line (c :: p'))). lia.
  - apply IH.
Qed.
Lemma read_arp_length max f : (length (read_arp_table max f) <= max)%nat.
Proof. destruct f; simpl; [apply arp_loop_length|lia]. Qed.

(** The gateway the refresh looks for: the interface's default route, or any. *)
Definition gateway_text (c : Config) (route : option (list Z)) : list Z :=
  match get_default_gateway_for_iface (c_iface_wan c) route with
  | [] => get_gateway_ip route | _ => get_default_gateway_for_iface (c_iface_wan c) route end.

(** What a snapshot promises its readers. *)
Record snapshot_ok {K} (kern : Kernel K) (c : Config) (k : K) (route arp_file : option (list Z))
    (s : L2Snapshot) : Prop := {
  so_arp : arp s = read_arp_table MAX_ARP arp_file;
  so_wan : wan_cfg_valid s = true ->
    resolve_nat_wan_ip kern c k = inr (wan_ip_nbo s) /\ 0 <= wan_prefix_len s <= 32;
  so_gw : gw_hw_valid s = true -> exists b, inet_pton (cstr (gateway_text c route)) = Some b /\
    MkArpRow (get32 b 0) (gw_hw s) ∈ arp s;
  so_gw_configured : default_gw_ip_configured s = true <-> gateway_text c route <> [];
  so_ready : ready s = true ->
    (forall out, get_iface_hwaddr kern (c_iface_lan c) out k = (true, lan_hw s)) /\
    (forall out, get_iface_hwaddr kern (c_iface_wan c) out k = (true, wan_hw s)) /\
    (gw_hw_valid s = true \/ wan_cfg_valid s = true) }.

Lemma hwaddr_out {K} (kern : Kernel K) i out k m :
  get_iface_hwaddr kern i out k = (true, m) -> forall out', get_iface_hwaddr kern i out' k = (true, m).
Proof.
  unfold get_iface_hwaddr. case_if; [done|].
  destruct (siocgifhwaddr kern (ifr_name i) k) as [[[] mac']|]; done.
Qed.

(** C19: publishing an L2 snapshot.  A refresh always completes; it builds the snapshot in
    the buffer readers are not using (the one they hold is untouched) and then switches
    to it; and the published snapshot holds exactly the neighbour table read, a WAN
    address and prefix that are usable when marked valid, a gateway hardware address
    taken from the gateway's own row when marked valid, and the interfaces' hardware
    addresses when marked ready. *)
Theorem refresh_publishes {K} (kern : Kernel K) (c : Config) (k : K) (route arp_file : option (list Z))
    (st : ForwardingState)
    (Hmask : forall i m, siocgifnetmask kern i k = Some m -> is_u32 m) (Hst : fwd_ok st) :
  exists st', refresh_l2 kern c k route arp_file st = Some st' /\ fwd_ok st' /\
    active_ st' = (1 - active_ st)%nat /\
    nth (active_ st) (snap_ st') L2Snapshot0 = snapshot st /\
    snapshot_ok kern c k route arp_file (snapshot st').
Proof.
  destruct Hst as [Hlen Hact]. unfold refresh_l2. cbv zeta. fold (gateway_text c route).
  set (w := (1 - active_ st)%nat). set (snap := nth w (snap_ st) L2Snapshot0).
  destruct (get_iface_hwaddr kern (c_iface_lan c) (lan_hw snap) k) as [lan_ok lan] eqn:El.
  destruct (get_iface_hwaddr kern (c_iface_wan c) (wan_hw snap) k) as [wan_ok wan] eqn:Ew.
  assert (exists p, get_iface_ipv4_prefix_len kern (c_iface_wan c) k = Some p) as [p Hp].
  { unfold get_iface_ipv4_prefix_len. case_if; [eauto|].
    destruct (siocgifnetmask kern (ifr_name (c_iface_wan c)) k) as [m|] eqn:Em; [|eauto].
    destruct (prefix_of_netmask_total m (Hmask _ _ Em)) as (p & -> & _). eauto. }
  rewrite Hp. cbn [mbind option_bind]. eexists. split; [done|]. split; [|split; [done|split]].
  - split; cbn [snap_ active_]; [by rewrite length_insert|lia].
  - cbn [snap_]. unfold snapshot. rewrite !nth_lookup, list_lookup_insert_ne by lia. done.
  - unfold snapshot. cbn [snap_ active_]. rewrite nth_lookup, list_lookup_insert_eq by lia. cbn [from_option]. unfold id.
    pose proof (read_arp_length MAX_ARP arp_file) as Hr.
    set (rows := read_arp_table MAX_ARP arp_file) in *.
    rewrite take_ge by lia.
    constructor; cbn [arp wan_cfg_valid wan_ip_nbo wan_prefix_len gw_hw_valid gw_hw default_gw_ip_configured ready lan_hw wan_hw].
    + done.
    + destruct (resolve_nat_wan_ip kern c k) as [e|a]; intros H;
        repeat apply andb_true_iff in H as [H ?]; bool2prop; [done|]. split; [done|lia].
    + destruct (gateway_text c route) as [|ch g]; cbv iota; [done|].
      destruct (inet_pton (cstr (ch :: g))) as [b|]; [|done].
      destruct (find_mac rows (get32 b 0)) as [m|] eqn:Ef; [|done]. intros _.
      exists b. split; [done|]. by apply find_mac_elem.
    + by destruct (gateway_text c route).
    + intros H. bool2prop. subst lan_ok wan_ok. split; [by eapply hwaddr_out|]. split; [by eapply hwaddr_out|].
      done.
Qed.

(** A kernel with two Ethernet interfaces, [eth0] at 10.0.0.2/24. *)
Definition w_kernel : Kernel unit := MkKernel
  (fun _ => true)
  (fun i _ => if bool_decide (i = str "eth0") then Some (parse_ipv4 (str "10.0.0.2")) else None)
  (fun i _ => if bool_decide (i = str "eth0") then Some (parse_ipv4 (str "255.255.255.0")) else None)
  (fun i _ => Some (true, if bool_decide (i = str "eth0") then [2; 0; 0; 0; 0; 1] else [2; 0; 0; 0; 0; 2]))
  (fun _ _ k => (true, k)) (fun _ _ k => (true, k)) (fun _ k => k).
Definition w_route : list Z :=
  str "Iface Destination Gateway" ++ [10] ++ str "eth0 00000000 FE00000A 0003" ++ [10].
Lemma refresh_publishes_witness :
  let arp_file := arp_table (str "IP address") w_neighbours in
  exists st', refresh_l2 w_kernel Config0 tt (Some w_route) (Some arp_file) ForwardingState0 = Some st' /\
    fwd_ok st' /\ active_ st' = (1 - active_ ForwardingState0)%nat /\
    nth (active_ ForwardingState0) (snap_ st') L2Snapshot0 = snapshot ForwardingState0 /\
    snapshot_ok w_kernel Config0 tt (Some w_route) (Some arp_file) (snapshot st').
Proof.
  intros arp_file. apply (refresh_publishes w_kernel Config0 tt (Some w_route) (Some arp_file) ForwardingState0).
  - intros i m H. cbn [siocgifnetmask w_kernel] in H. destruct (bool_decide _); [|done].
    injection H as <-. apply parse_ipv4_range.
  - split; [reflexivity|vm_compute; repeat constructor].
Defined.
(** On that kernel the snapshot is complete: the gateway's row is found. *)
Example refresh_example :
  option_map (fun st => (ready (snapshot st), gw_hw (snapshot st), length (arp (snapshot st))))
    (refresh_l2 w_kernel Config0 tt (Some w_route) (Some (arp_table (str "IP address") w_neighbours)) ForwardingState0)
  = Some (true, [0; 16; 32; 48; 64; 80], 2%nat).
Proof. vm_compute. reflexivity. Qed.
