(* ===== verification/Forward.v ===== *)
(** The packet worker of the data plane ([App.cpp], namespace [Engine::Forward]) and the
    event registry it reports to ([EventCallbacks_util.hpp]). *)
From Stdlib Require Import ZArith Lia QArith.
From stdpp Require Import base numbers list.
From S2P Require Import Prelude Headers_util Processor TestPackets Telemetry TxFrame Rings NatEngine DhcpEngine Scheduler.
From S2P Require Import Network_util ProcNet ForwardingState.
#[local] Open Scope Z_scope.

(** * Events *)
(** The observer interface; what an observer can change is the telemetry singleton. *)
Record PacketObserver := MkObserver {
  on_frame : list Z -> Telemetry -> Telemetry;
  on_packet : ParsedPacket -> Priority -> Telemetry -> Telemetry;
  on_batch : BatchStats -> Z -> Telemetry -> Telemetry;
  on_tx_result : TxResult -> Z -> Telemetry -> Telemetry }.

Definition TelemetryObserver : PacketObserver := MkObserver
  (fun _ t => t) (fun _ _ t => t) (fun stats core_id t => commit_batch t stats core_id) (fun _ _ t => t).

Module CallbackRegistry.
Definition MAX_OBSERVERS : nat := 8.
Record t := Mk {
  observers : list PacketObserver;
  frame_cb : option (list Z -> Telemetry -> Telemetry);
  packet_cb : option (ParsedPacket -> Priority -> Telemetry -> Telemetry);
  batch_cb : option (BatchStats -> Z -> Telemetry -> Telemetry) }.
Definition empty : t := Mk [] None None None.

(** A null observer and a full registry are ignored. *)
Definition register_observer (o : option PacketObserver) (r : t) : t :=
  match o with
  | Some o => if (length (observers r) <? MAX_OBSERVERS)%nat
              then Mk (observers r ++ [o]) (frame_cb r) (packet_cb r) (batch_cb r) else r
  | None => r
  end.

Definition dispatch_frame (r : t) (frame : list Z) (tel : Telemetry) : Telemetry :=
  let tel := fold_left (fun tel o => on_frame o frame tel) (observers r) tel in
  match frame_cb r with Some cb => cb frame tel | None => tel end.
Definition dispatch_packet (r : t) (pkt : ParsedPacket) (prio : Priority) (tel : Telemetry) : Telemetry :=
  let tel := fold_left (fun tel o => on_packet o pkt prio tel) (observers r) tel in
  match packet_cb r with Some cb => cb pkt prio tel | None => tel end.
Definition dispatch_batch (r : t) (stats : BatchStats) (core_id : Z) (tel : Telemetry) : Telemetry :=
  let tel := fold_left (fun tel o => on_batch o stats core_id tel) (observers r) tel in
  match batch_cb r with Some cb => cb stats core_id tel | None => tel end.
Definition dispatch_tx_result (r : t) (res : TxResult) (bytes : Z) (tel : Telemetry) : Telemetry :=
  fold_left (fun tel o => on_tx_result o res bytes tel) (observers r) tel.
End CallbackRegistry.

(** * The packet consumer *)
(** What a worker is configured with, and the shared settings it reads. *)
Record WorkerCfg := MkCfg {
  cf_tx_fd : Z; cf_core : Z; cf_events : CallbackRegistry.t;
  cf_plane : ForwardingState; cf_enable_nat : bool; cf_threshold : Z }.

(** What the worker changes: its counters, the engines it points to, and the world. A
    null engine or shaper pointer is [None]. *)
Record DP := MkDP {
  d_stats : BatchStats; d_nat : option NatEngine.t; d_dhcp : option DhcpEngine.t;
  d_shaper : option Shaper.t; d_world : World }.
Definition set_stats (d : DP) (s : BatchStats) : DP := MkDP s (d_nat d) (d_dhcp d) (d_shaper d) (d_world d).
Definition set_nat (d : DP) (e : NatEngine.t) : DP := MkDP (d_stats d) (Some e) (d_dhcp d) (d_shaper d) (d_world d).
Definition set_dhcp (d : DP) (e : DhcpEngine.t) : DP := MkDP (d_stats d) (d_nat d) (Some e) (d_shaper d) (d_world d).
Definition set_shaper (d : DP) (s : Shaper.t) (w : World) : DP := MkDP (d_stats d) (d_nat d) (d_dhcp d) (Some s) w.
Definition set_world (d : DP) (w : World) : DP := MkDP (d_stats d) (d_nat d) (d_dhcp d) (d_shaper d) w.
Definition on_tel (d : DP) (f : Telemetry -> Telemetry) : DP :=
  set_world d (set_tel (d_world d) (f (w_tel (d_world d)))).

(** ** Route handlers *)
Definition RouteFunc : Type := WorkerCfg -> list Z -> nat -> DP -> option DP.
Definition fast_path_handler : RouteFunc := fun cf pkt prio_idx d =>
  w' ← send_best_effort (cf_tx_fd cf) pkt (Z.to_nat (cf_core cf)) prio_idx (d_world d);
  Some (set_world d w').
Definition shaper_handler : RouteFunc := fun cf pkt _ d =>
  match d_shaper d with
  | Some s => let '(s', w') := Shaper.enqueue_normal pkt s (d_world d) in Some (set_shaper d s' w')
  | None => Some d
  end.
(** [routes[mode][priority]]: mode 0 is acceleration, 1 is bridge. *)
Definition routes (mode prio : nat) : RouteFunc :=
  match mode, prio with
  | 0%nat, 1%nat => shaper_handler
  | _, _ => fast_path_handler
  end.

(** ** Pipeline steps: [true] means the packet was handled *)
Definition PipelineStep : Type := WorkerCfg -> DP -> ParsedPacket -> option (bool * DP * ParsedPacket).

Definition is_dhcp (pkt : ParsedPacket) : bool :=
  is_valid_ipv4 pkt && (l4_protocol pkt =? 17) &&
  match udp pkt with
  | Some u => let dest := ntohs (get16 (raw_span pkt) (u + UDPHeader.dest)) in (dest =? 67) || (dest =? 68)
  | None => false
  end.
Definition step_dhcp_interceptor : PipelineStep := fun cf d pkt =>
  if (cf_core cf =? 3) && is_dhcp pkt then
    Some (true, match d_dhcp d with Some e => set_dhcp d (DhcpEngine.intercept_request pkt e) | None => d end, pkt)
  else Some (false, d, pkt).

Definition step_nat_downstream : PipelineStep := fun cf d pkt =>
  if negb (cf_enable_nat cf) then Some (false, d, pkt)
  else match d_nat d with
       | Some e => let '(_, e', pkt') := NatEngine.process_inbound e pkt in Some (false, set_nat d e', pkt')
       | None => Some (false, d, pkt)
       end.
Definition step_nat_upstream : PipelineStep := fun cf d pkt =>
  if negb (cf_enable_nat cf) then Some (false, d, pkt)
  else match d_nat d with
       | Some e => let '(_, e', pkt') := NatEngine.process_outbound e pkt in Some (false, set_nat d e', pkt')
       | None => Some (false, d, pkt)
       end.

(** Not for broadcast and class D/E destinations. *)
Definition ipv4_needs_eth_rewrite_for_forward (daddr : Z) : bool :=
  let d := ntohl daddr in
  if d =? 4294967295 then false else if 224 <=? Z.shiftr d 24 then false else true.

Definition set_eth_src (pkt : ParsedPacket) (m : list Z) : ParsedPacket :=
  with_span pkt (copy_to (raw_span pkt) EthernetHeader.src m).
Definition set_eth_dest (pkt : ParsedPacket) (m : list Z) : ParsedPacket :=
  with_span pkt (copy_to (raw_span pkt) EthernetHeader.dest m).

(** The destination of a packet the rewrite applies to. *)
Definition rewrite_dst (cf : WorkerCfg) (pkt : ParsedPacket) : option Z :=
  if negb (cf_enable_nat cf) then None
  else if negb (ready (snapshot (cf_plane cf))) then None
  else match eth pkt, ipv4 pkt with
       | Some _, Some ip =>
           let daddr := get32 (raw_span pkt) (ip + IPv4Header.daddr) in
           if ipv4_needs_eth_rewrite_for_forward daddr then Some daddr else None
       | _, _ => None
       end.

Definition step_eth_rewrite_lan_to_wan : PipelineStep := fun cf d pkt =>
  match rewrite_dst cf pkt with
  | None => Some (false, d, pkt)
  | Some dst =>
      let s := snapshot (cf_plane cf) in
      let on_link := if wan_cfg_valid s then ipv4_in_subnet dst (wan_prefix_len s) (wan_ip_nbo s) else false in
      let pkt := set_eth_src pkt (wan_hw s) in
      if on_link then
        match resolve_mac_onlink s dst with
        | Some nh => Some (false, d, set_eth_dest pkt nh)
        | None => Some (true, d, pkt)
        end
      else if negb (default_gw_ip_configured s) then Some (true, d, pkt)
      else if negb (gw_hw_valid s) then Some (true, d, pkt)
      else Some (false, d, set_eth_dest pkt (gw_hw s))
  end.

Definition step_eth_rewrite_wan_to_lan : PipelineStep := fun cf d pkt =>
  match rewrite_dst cf pkt with
  | None => Some (false, d, pkt)
  | Some key =>
      let s := snapshot (cf_plane cf) in
      match find_mac (arp s) key with
      | Some m => Some (false, d, set_eth_dest (set_eth_src pkt (lan_hw s)) m)
      | None => Some (false, d, pkt)
      end
  end.

Definition count_packet (s : BatchStats) (pi : nat) (len : Z) : BatchStats :=
  MkBatch (u64 (b_pkts s + 1)) (u64 (b_bytes s + len))
    (fetch_add64 (b_prio_pkts s) pi 1) (fetch_add64 (b_prio_bytes s) pi len).

Definition step_qos_routing : PipelineStep := fun cf d pkt =>
  let prio := HeuristicProcessor.process (cf_threshold cf) pkt in
  let pi := prio_index prio in
  let d := set_stats d (count_packet (d_stats d) pi (Z.of_nat (length (raw_span pkt)))) in
  let d := on_tel d (CallbackRegistry.dispatch_packet (cf_events cf) pkt prio) in
  let mode := if effective_bridge_mode (mode (w_tel (d_world d))) then 1%nat else 0%nat in
  d' ← routes mode pi cf (raw_span pkt) pi d;
  Some (true, d', pkt).

(** Core 2 carries WAN to LAN, core 3 LAN to WAN. *)
Definition pipeline (core_id : Z) : list PipelineStep :=
  if core_id =? 2
  then [step_dhcp_interceptor; step_nat_downstream; step_eth_rewrite_wan_to_lan; step_qos_routing]
  else [step_dhcp_interceptor; step_nat_downstream; step_nat_upstream;
        step_eth_rewrite_lan_to_wan; step_qos_routing].

Fixpoint run_steps (steps : list PipelineStep) (cf : WorkerCfg) (d : DP) (pkt : ParsedPacket) :
  option (bool * DP * ParsedPacket) :=
  match steps with
  | [] => Some (false, d, pkt)
  | step :: rest =>
      match step cf d pkt with
      | Some (true, d', pkt') => Some (true, d', pkt')
      | Some (false, d', pkt') => run_steps rest cf d' pkt'
      | None => None
      end
  end.

(** The batch is committed when the pending packet count is a multiple of 32. *)
Definition on_packet_event (cf : WorkerCfg) (d : DP) (pkt : ParsedPacket) : option DP :=
  '(_, d', _) ← run_steps (pipeline (cf_core cf)) cf d pkt;
  Some (if Z.land (b_pkts (d_stats d')) 31 =? 0
        then set_stats (on_tel d' (CallbackRegistry.dispatch_batch (cf_events cf) (d_stats d') (cf_core cf))) BatchStats0
        else d').

(** ** The worker threads *)
(** [RxFrameCopy] and the frame queue between the two threads. *)
Record RxFrameCopy := MkRx { rx_data : list Z; rx_len : Z }.
Definition RxFrameCopy0 : RxFrameCopy := MkRx (replicate 2048 0) 0.
Definition FRAME_QUEUE : nat := Z.to_nat 1024.

(** The copy of a frame, cut to the slot. *)
Definition rx_copy (raw : list Z) : RxFrameCopy :=
  let n := Nat.min (length raw) 2048 in
  MkRx (copy_to (replicate 2048 0) 0 (take n raw)) (u16 (Z.of_nat n)).

(** One frame taken from the socket ring by the receive thread. *)
Definition rx_frame (core : nat) (raw : list Z) (q : SpscRingBuffer.t RxFrameCopy) (tel : Telemetry) :
  SpscRingBuffer.t RxFrameCopy * Telemetry :=
  match SpscRingBuffer.push FRAME_QUEUE (rx_copy raw) q with
  | (true, q') => (q', tel)
  | (false, q') => (q', count_drop tel core 0)
  end.

(** One frame of the processing thread's inner loop. *)
Definition proc_frame (cf : WorkerCfg) (copy : RxFrameCopy) (d : DP) : option DP :=
  let frame := take (Z.to_nat (rx_len copy)) (rx_data copy) in
  on_packet_event cf (on_tel d (CallbackRegistry.dispatch_frame (cf_events cf) frame)) (parse frame).

Fixpoint proc_frames (fuel : nat) (cf : WorkerCfg) (q : SpscRingBuffer.t RxFrameCopy) (d : DP) :
  option (SpscRingBuffer.t RxFrameCopy * DP) :=
  match fuel with
  | O => None
  | S f =>
      match SpscRingBuffer.pop RxFrameCopy0 FRAME_QUEUE q with
      | (None, q') => Some (q', d)
      | (Some copy, q') => d' ← proc_frame cf copy d; proc_frames f cf q' d'
      end
  end.

(** After the frames, the shaper sends what it may; the results go to the observers. *)
Definition drain_shaper (cf : WorkerCfg) (d : DP) : option DP :=
  match d_shaper d with
  | None => Some d
  | Some s =>
      '(s', w', ev) ← Shaper.process_queue (cf_tx_fd cf) s (d_world d);
      let report tel := fold_left (fun tel e => CallbackRegistry.dispatch_tx_result (cf_events cf) (fst e)
                                      (Z.of_nat (length (snd e))) tel) ev tel in
      Some (on_tel (set_shaper d s' w') report)
  end.

(** One round of the processing thread: drain the frames, then let the shaper send. *)
Definition proc_round (cf : WorkerCfg) (q : SpscRingBuffer.t RxFrameCopy) (d : DP) :
  option (SpscRingBuffer.t RxFrameCopy * DP) :=
  '(q', d') ← proc_frames (S FRAME_QUEUE) cf q d;
  d'' ← drain_shaper cf d';
  Some (q', d'').

(** * What becomes of a packet *)
(** NAT as the pipeline applies it: inbound translation always, outbound on the LAN side. *)
Definition translated (cf : WorkerCfg) (nat : option NatEngine.t) (pkt : ParsedPacket) :
  option NatEngine.t * ParsedPacket :=
  match cf_enable_nat cf, nat with
  | true, Some e =>
      let '(_, e1, p1) := NatEngine.process_inbound e pkt in
      if cf_core cf =? 2 then (Some e1, p1)
      else let '(_, e2, p2) := NatEngine.process_outbound e1 p1 in (Some e2, p2)
  | _, _ => (nat, pkt)
  end.

(** The hardware address a packet to [dst] leaves for on the WAN side, if it is known. *)
Definition wan_next_hop (s : L2Snapshot) (dst : Z) : option (list Z) :=
  if wan_cfg_valid s && ipv4_in_subnet dst (wan_prefix_len s) (wan_ip_nbo s)
  then resolve_mac_onlink s dst
  else if default_gw_ip_configured s && gw_hw_valid s then Some (gw_hw s) else None.

(** The frame as it leaves, after the L2 rewrite; [None] when there is no next hop. *)
Definition relinked (cf : WorkerCfg) (pkt : ParsedPacket) : option ParsedPacket :=
  let s := snapshot (cf_plane cf) in
  match rewrite_dst cf pkt with
  | None => Some pkt
  | Some dst =>
      if cf_core cf =? 2 then
        match find_mac (arp s) dst with
        | Some m => Some (set_eth_dest (set_eth_src pkt (lan_hw s)) m) | None => Some pkt end
      else
        match wan_next_hop s dst with
        | Some m => Some (set_eth_dest (set_eth_src pkt (wan_hw s)) m) | None => None end
  end.

Definition with_nat (d : DP) (nat : option NatEngine.t) : DP :=
  MkDP (d_stats d) nat (d_dhcp d) (d_shaper d) (d_world d).

(** A packet that is forwarded is counted under its priority and shown to the observers. *)
Definition noted (cf : WorkerCfg) (d : DP) (pkt : ParsedPacket) (prio : Priority) : DP :=
  on_tel (set_stats d (count_packet (d_stats d) (prio_index prio) (Z.of_nat (length (raw_span pkt)))))
    (CallbackRegistry.dispatch_packet (cf_events cf) pkt prio).

(** Then one of these happens to it: high priority packets, and all packets in bridge mode,
    are sent at once; the others are offered to the shaper. *)
Inductive delivered (cf : WorkerCfg) (d : DP) (pkt : ParsedPacket) (prio : Priority) : DP -> Prop :=
  | SentNow w' :
      prio = High \/ effective_bridge_mode (mode (w_tel (d_world d))) = true ->
      send_best_effort (cf_tx_fd cf) (raw_span pkt) (Z.to_nat (cf_core cf)) (prio_index prio) (d_world d) = Some w' ->
      delivered cf d pkt prio (set_world d w')
  | Shaped s s' w' :
      prio = Normal -> effective_bridge_mode (mode (w_tel (d_world d))) = false -> d_shaper d = Some s ->
      Shaper.enqueue_normal (raw_span pkt) s (d_world d) = (s', w') ->
      delivered cf d pkt prio (set_shaper d s' w')
  | Unshaped :
      prio = Normal -> effective_bridge_mode (mode (w_tel (d_world d))) = false -> d_shaper d = None ->
      delivered cf d pkt prio d.

(** The three ends of the pipeline. *)
Inductive fate (cf : WorkerCfg) (d : DP) (pkt : ParsedPacket) : DP -> Prop :=
  | Intercepted d' :
      cf_core cf = 3 -> is_dhcp pkt = true ->
      d' = match d_dhcp d with Some e => set_dhcp d (DhcpEngine.intercept_request pkt e) | None => d end ->
      fate cf d pkt d'
  | Unreachable nat pkt1 :
      (cf_core cf = 3 -> is_dhcp pkt = false) -> translated cf (d_nat d) pkt = (nat, pkt1) ->
      relinked cf pkt1 = None -> fate cf d pkt (with_nat d nat)
  | Routed nat pkt1 pkt2 prio d' :
      (cf_core cf = 3 -> is_dhcp pkt = false) -> translated cf (d_nat d) pkt = (nat, pkt1) ->
      relinked cf pkt1 = Some pkt2 -> HeuristicProcessor.process (cf_threshold cf) pkt2 = prio ->
      delivered cf (noted cf (with_nat d nat) pkt2 prio) pkt2 prio d' ->
      fate cf d pkt d'.

Lemma send_returns fd pkt c p w : (0 < answered (w_replies w))%nat ->
  exists w', send_best_effort fd pkt c p w = Some w' /\ answered (w_replies w) = S (answered (w_replies w')).
Proof.
  unfold send_best_effort, try_send_packet_nonblocking, answered.
  generalize (w_wire w) as wire. induction (w_replies w) as [|r rs IH]; simpl; intros wire; [lia|].
  destruct r as [n|[]]; simpl; try (intros _; eexists; by split); [|by apply IH].
  intros _. case_if; eexists; by split.
Qed.

(** Routing a packet delivers it, and ends once the kernel has answered one send. *)
Lemma qos_fate cf d pkt h d' pkt' : step_qos_routing cf d pkt = Some (h, d', pkt') ->
  let prio := HeuristicProcessor.process (cf_threshold cf) pkt in
  h = true /\ delivered cf (noted cf d pkt prio) pkt prio d'.
Proof.
  intros E prio. unfold step_qos_routing in E. cbv zeta in E. fold prio in E. fold (noted cf d pkt prio) in E.
  set (d1 := noted cf d pkt prio) in *.
  destruct (routes _ _ cf (raw_span pkt) (prio_index prio) d1) as [d2|] eqn:Er; [|done].
  cbn in E. injection E as <- <- <-. split; [done|].
  assert (prio = High \/ effective_bridge_mode (mode (w_tel (d_world d1))) = true ->
    fast_path_handler cf (raw_span pkt) (prio_index prio) d1 = Some d2 -> delivered cf d1 pkt prio d2) as Hfast.
  { intros Hp. unfold fast_path_handler. destruct (send_best_effort _ _ _ _ _) as [w'|] eqn:Es; [|done].
    cbn. intros [= <-]. by apply SentNow. }
  destruct (effective_bridge_mode _) eqn:Eb; [apply Hfast; [by right|exact Er]|].
  destruct prio eqn:Ep; cbn [prio_index routes] in *; [apply Hfast; [by left|exact Er]|].
  unfold shaper_handler in Er. destruct (d_shaper d1) as [s|] eqn:Es.
  - destruct (Shaper.enqueue_normal _ s _) as [s' w2] eqn:Eq. injection Er as <-. by eapply Shaped.
  - injection Er as <-. by apply Unshaped.
Qed.
Lemma qos_returns cf d pkt : (0 < answered (w_replies (d_world d)))%nat ->
  exists d', step_qos_routing cf d pkt = Some (true, d', pkt).
Proof.
  intros Ha. unfold step_qos_routing. cbv zeta. set (prio := HeuristicProcessor.process _ pkt).
  fold (noted cf d pkt prio). set (d1 := noted cf d pkt prio).
  destruct (send_returns (cf_tx_fd cf) (raw_span pkt) (Z.to_nat (cf_core cf)) (prio_index prio) (d_world d1))
    as (w' & Hw & _); [exact Ha|].
  assert (exists d2, fast_path_handler cf (raw_span pkt) (prio_index prio) d1 = Some d2) as [d2 Hf]
    by (unfold fast_path_handler; rewrite Hw; by eexists). clear Hw w'.
  assert (exists d3, shaper_handler cf (raw_span pkt) (prio_index prio) d1 = Some d3) as [d3 Hs].
  { unfold shaper_handler. destruct (d_shaper d1); [destruct (Shaper.enqueue_normal _ _ _)|]; by eexists. }
  clearbody d1 prio. destruct (effective_bridge_mode _), prio; cbn [prio_index routes] in *; rewrite ?Hf, ?Hs; by eexists.
Qed.

Lemma nat_steps cf d pkt rest : cf_core cf = 2 ->
  run_steps (step_nat_downstream :: rest) cf d pkt
  = let '(nat, p1) := translated cf (d_nat d) pkt in run_steps rest cf (with_nat d nat) p1.
Proof.
  intros Hc. cbn [run_steps]. unfold step_nat_downstream, translated. rewrite Hc.
  destruct d as [st nt dh sh w]. cbn [d_nat]. destruct (cf_enable_nat cf); [|done]. cbn [negb].
  destruct nt as [e|]; [|done]. by destruct (NatEngine.process_inbound e pkt) as [[r1 e1] p1].
Qed.
Lemma nat_steps_up cf d pkt rest : cf_core cf <> 2 ->
  run_steps (step_nat_downstream :: step_nat_upstream :: rest) cf d pkt
  = let '(nat, p1) := translated cf (d_nat d) pkt in run_steps rest cf (with_nat d nat) p1.
Proof.
  intros Hc. cbn [run_steps]. unfold step_nat_downstream, step_nat_upstream, translated.
  destruct d as [st nt dh sh w]. cbn [d_nat]. destruct (cf_enable_nat cf); [|done]. cbn [negb].
  destruct nt as [e|]; [|done]. destruct (NatEngine.process_inbound e pkt) as [[r1 e1] p1].
  destruct (Z.eqb_spec (cf_core cf) 2); [done|]. cbn [d_nat set_nat].
  by destruct (NatEngine.process_outbound e1 p1) as [[r2 e2] p2].
Qed.

Lemma relink_step cf d pkt step : step = (if cf_core cf =? 2 then step_eth_rewrite_wan_to_lan else step_eth_rewrite_lan_to_wan) ->
  match relinked cf pkt with
  | Some p2 => step cf d pkt = Some (false, d, p2)
  | None => exists p2, step cf d pkt = Some (true, d, p2)
  end.
Proof.
  intros ->. unfold relinked.
  destruct (cf_core cf =? 2); unfold step_eth_rewrite_wan_to_lan, step_eth_rewrite_lan_to_wan;
    destruct (rewrite_dst cf pkt) as [dst|]; try done.
  - by destruct (find_mac _ dst).
  - unfold wan_next_hop. destruct (wan_cfg_valid _); cbn [andb].
    + destruct (ipv4_in_subnet dst _ _).
      * destruct (resolve_mac_onlink _ dst); eauto.
      * destruct (default_gw_ip_configured _); cbn [andb negb]; [|eauto].
        destruct (gw_hw_valid _); cbn [negb]; eauto.
    + destruct (default_gw_ip_configured _); cbn [andb negb]; [|eauto].
      destruct (gw_hw_valid _); cbn [negb]; eauto.
Qed.

(** The rewrite of a core, and the pipeline as interception, translation, rewrite and routing. *)
Definition relink (core_id : Z) : PipelineStep :=
  if core_id =? 2 then step_eth_rewrite_wan_to_lan else step_eth_rewrite_lan_to_wan.
Lemma pipeline_stages cf d pkt :
  (cf_core cf = 3 /\ is_dhcp pkt = true /\ run_steps (pipeline (cf_core cf)) cf d pkt
     = Some (true, match d_dhcp d with Some e => set_dhcp d (DhcpEngine.intercept_request pkt e) | None => d end, pkt)) \/
  ((cf_core cf = 3 -> is_dhcp pkt = false) /\ run_steps (pipeline (cf_core cf)) cf d pkt
     = let '(nat, p1) := translated cf (d_nat d) pkt in
       run_steps [relink (cf_core cf); step_qos_routing] cf (with_nat d nat) p1).
Proof.
  assert (forall rest, run_steps (step_dhcp_interceptor :: rest) cf d pkt
    = if (cf_core cf =? 3) && is_dhcp pkt
      then Some (true, match d_dhcp d with Some e => set_dhcp d (DhcpEngine.intercept_request pkt e) | None => d end, pkt)
      else run_steps rest cf d pkt) as Hd.
  { intros rest. cbn [run_steps]. unfold step_dhcp_interceptor. by destruct (_ && _). }
  unfold pipeline, relink. destruct (Z.eqb_spec (cf_core cf) 2) as [E2|E2]; rewrite Hd.
  - destruct (Z.eqb_spec (cf_core cf) 3); [lia|]. right. split; [done|]. by apply nat_steps.
  - destruct (Z.eqb_spec (cf_core cf) 3) as [E3|E3]; cbn [andb]; [|right; split; [done|by apply nat_steps_up]].
    destruct (is_dhcp pkt); [by left|right]. split; [done|]. by apply nat_steps_up.
Qed.

(** A packet that the pipeline is done with has met one of the three ends. *)
Lemma pipeline_fate cf d pkt h d' pkt' :
  run_steps (pipeline (cf_core cf)) cf d pkt = Some (h, d', pkt') -> h = true /\ fate cf d pkt d'.
Proof.
  destruct (pipeline_stages cf d pkt) as [(Hc & Hd & ->)|[Hno ->]].
  - intros [= <- <- <-]. split; [done|]. by eapply Intercepted.
  - destruct (translated cf (d_nat d) pkt) as [nat p1] eqn:Et.
    pose proof (relink_step cf (with_nat d nat) p1 _ eq_refl) as Hr. fold (relink (cf_core cf)) in Hr. cbn [run_steps].
    destruct (relinked cf p1) as [p2|] eqn:Er.
    + rewrite Hr. destruct (step_qos_routing cf (with_nat d nat) p2) as [[[h2 d2] p3]|] eqn:Eq; [|done].
      apply qos_fate in Eq as [-> Hd]. intros [= <- <- <-]. split; [done|]. by eapply Routed.
    + destruct Hr as [p2 ->]. intros [= <- <- <-]. split; [done|]. by eapply Unreachable.
Qed.
Lemma pipeline_returns cf d pkt : (0 < answered (w_replies (d_world d)))%nat ->
  exists h d' pkt', run_steps (pipeline (cf_core cf)) cf d pkt = Some (h, d', pkt').
Proof.
  intros Ha. destruct (pipeline_stages cf d pkt) as [(_ & _ & ->)|[_ ->]]; [by eexists _, _, _|].
  destruct (translated cf (d_nat d) pkt) as [nat p1].
  pose proof (relink_step cf (with_nat d nat) p1 _ eq_refl) as Hr. fold (relink (cf_core cf)) in Hr. cbn [run_steps].
  destruct (relinked cf p1) as [p2|].
  - rewrite Hr. destruct (qos_returns cf (with_nat d nat) p2 Ha) as [d' ->]. by eexists _, _, _.
  - destruct Hr as [p2 ->]. by eexists _, _, _.
Qed.

(** C9: every packet meets exactly one of three ends, and reaches it as soon as the kernel
    has answered one send.  A LAN packet to a DHCP port goes to the DHCP engine and nowhere
    else; a packet without a known next hop after translation is discarded, leaving
    counters, shaper and wire alone; any other packet, translated and with its Ethernet
    header rewritten, is counted under the priority the classifier gives it and then sent
    at once (high priority, or bridge mode) or offered to the shaper. *)
Theorem packet_fate (cf : WorkerCfg) (d : DP) (pkt : ParsedPacket)
    (Ha : (0 < answered (w_replies (d_world d)))%nat) :
  exists d' pkt', run_steps (pipeline (cf_core cf)) cf d pkt = Some (true, d', pkt') /\ fate cf d pkt d'.
Proof.
  destruct (pipeline_returns cf d pkt Ha) as (h & d' & pkt' & E). destruct (pipeline_fate _ _ _ _ _ _ E) as [-> Hf]. eauto.
Qed.

(** * Ethernet rewrite *)
Definition mac_ok (m : list Z) : Prop := length m = 6%nat /\ bytes_ok m.
Definition snap_macs_ok (s : L2Snapshot) : Prop :=
  mac_ok (lan_hw s) /\ mac_ok (wan_hw s) /\ mac_ok (gw_hw s) /\ Forall (fun r => mac_ok (mac r)) (arp s).

Lemma find_mac_ok rows ip m : Forall (fun r => mac_ok (mac r)) rows -> find_mac rows ip = Some m -> mac_ok m.
Proof.
  intros Hr Hf%find_mac_elem. apply List.Forall_forall with (x := MkArpRow ip m) in Hr; [done|].
  by apply list_elem_of_In.
Qed.
Lemma wan_next_hop_ok s dst m : snap_macs_ok s -> wan_next_hop s dst = Some m -> mac_ok m.
Proof.
  intros (_ & _ & Hg & Ha). unfold wan_next_hop, resolve_mac_onlink. case_if.
  - by apply find_mac_ok.
  - case_if; [|done]. by intros [= <-].
Qed.

(** The addresses of a frame whose header was rewritten, and that nothing else moved. *)
Lemma rewrite_eth b src dst : (14 <= length b)%nat -> mac_ok src -> mac_ok dst ->
  let b' := copy_to (copy_to b EthernetHeader.src src) EthernetHeader.dest dst in
  slice b' EthernetHeader.dest 6 = dst /\ slice b' EthernetHeader.src 6 = src /\
  length b' = length b /\ forall i, (12 <= i)%nat -> rd b' i = rd b i.
Proof.
  intros Hb [Hsl Hs] [Hdl Hd] b'. subst b'. unfold EthernetHeader.src, EthernetHeader.dest. split_and!.
  - rewrite <- Hdl. apply slice_copy_to; [rewrite length_copy_to; lia|done].
  - rewrite <- (slice_copy_to b 6 src) at 2 by (lia || done). rewrite Hsl.
    unfold slice. apply map_ext_in. intros i Hi%in_seq. apply rd_copy_to_ne. lia.
  - by rewrite !length_copy_to.
  - intros i Hi. rewrite !rd_copy_to_ne by lia. done.
Qed.

(** C18: frames leave with the right Ethernet addresses.  When NAT is on, the snapshot is
    ready and the destination is unicast, the LAN-to-WAN step lets a packet through
    exactly when its next hop is known (the neighbour itself on the WAN subnet, else the
    default gateway); the frame then carries that hop's address and the WAN interface's
    own as source, and every byte after the two addresses is as before. *)
Theorem l2_rewrite_next_hop (cf : WorkerCfg) (d : DP) (pkt : ParsedPacket) (dst : Z)
    (Hdst : rewrite_dst cf pkt = Some dst) (Hlen : (14 <= length (raw_span pkt))%nat)
    (Hmacs : snap_macs_ok (snapshot (cf_plane cf))) :
  exists h pkt', step_eth_rewrite_lan_to_wan cf d pkt = Some (h, d, pkt') /\
    match wan_next_hop (snapshot (cf_plane cf)) dst with
    | None => h = true
    | Some hop => h = false /\
        slice (raw_span pkt') EthernetHeader.dest 6 = hop /\
        slice (raw_span pkt') EthernetHeader.src 6 = wan_hw (snapshot (cf_plane cf)) /\
        length (raw_span pkt') = length (raw_span pkt) /\
        forall i, (12 <= i)%nat -> rd (raw_span pkt') i = rd (raw_span pkt) i
    end.
Proof.
  pose proof (wan_next_hop_ok (snapshot (cf_plane cf)) dst) as Hok.
  set (cf2 := MkCfg (cf_tx_fd cf) 3 (cf_events cf) (cf_plane cf) (cf_enable_nat cf) (cf_threshold cf)).
  pose proof (relink_step cf2 d pkt step_eth_rewrite_lan_to_wan eq_refl) as Hr.
  change (step_eth_rewrite_lan_to_wan cf2 d pkt) with (step_eth_rewrite_lan_to_wan cf d pkt) in Hr.
  unfold relinked in Hr. change (rewrite_dst cf2 pkt) with (rewrite_dst cf pkt) in Hr. rewrite Hdst in Hr.
  change (cf_core cf2 =? 2) with false in Hr. change (cf_plane cf2) with (cf_plane cf) in Hr. cbv iota zeta in Hr.
  destruct (wan_next_hop (snapshot (cf_plane cf)) dst) as [hop|].
  - eexists _, _. split; [exact Hr|]. split; [done|]. unfold set_eth_dest, set_eth_src, with_span. cbn [raw_span].
    apply rewrite_eth; [done|apply Hmacs|by apply Hok].
  - destruct Hr as [p2 Hr]. eauto.
Qed.

(** * Accounting *)
(** What the worker has counted, committed or not; and where packets are accounted for:
    the wire, the drop counters of the worker's core, the shaper's queue and the
    shaper's two drop counters. *)
Definition counted (c : nat) (d : DP) : Z := pkts (core (w_tel (d_world d)) c) + b_pkts (d_stats d).
Definition drops (c : nat) (t : Telemetry) : Z := rd (dropped (core t c)) 0 + rd (dropped (core t c)) 1.
Definition refused (t : Telemetry) : Z :=
  shaper_queue_overflow_drops (shaper_counters t) + shaper_oversized_drops (shaper_counters t).
Definition queued (d : DP) : Z := match d_shaper d with Some s => Z.of_nat (length (Shaper.queue s)) | None => 0 end.
Definition accounted (c : nat) (d : DP) : Z :=
  Z.of_nat (length (w_wire (d_world d))) + drops c (w_tel (d_world d)) + queued d + refused (w_tel (d_world d)).
Definition ledger (c : nat) (d : DP) : Z := u64 (counted c d - accounted c d).

(** The state a worker runs in: telemetry well-formed, a shaper attached. *)
Record dp_ok (d : DP) : Prop := {
  dk_tel : tel_wf (w_tel (d_world d));
  dk_prio : length (b_prio_pkts (d_stats d)) = 2%nat /\ length (b_prio_bytes (d_stats d)) = 2%nat;
  dk_shaper : exists s, d_shaper d = Some s /\ shaper_ok s }.

Lemma core_drop t c p i : tel_wf t -> (c < 4)%nat ->
  core (count_drop t c p) i
  = if decide (i = c) then let m := core t i in
      MkCore (pkts m) (Telemetry.bytes m) (prio_pkts m) (prio_bytes m) (fetch_add64 (dropped m) p 1) (cpu_load_pct m)
    else core t i.
Proof.
  intros [Hl _] Hc. unfold count_drop, core, set_core_metrics. cbn [core_metrics]. case_decide as E.
  - subst i. rewrite list_lookup_alter_eq. destruct (core_metrics t !! c) eqn:El; [done|].
    apply lookup_ge_None in El. lia.
  - by rewrite list_lookup_alter_ne by done.
Qed.
Lemma core_wf_at t c : tel_wf t -> core_wf (core t c).
Proof.
  intros [Hl Hf]. unfold core. destruct (core_metrics t !! c) as [m|] eqn:E; simpl; [|by repeat constructor].
  by eapply Forall_lookup_1.
Qed.

Lemma drops_count_drop t c p : tel_wf t -> (c < 4)%nat -> (p < 2)%nat ->
  u64 (drops c (count_drop t c p)) = u64 (drops c t + 1).
Proof.
  intros Ht Hc Hp. unfold drops. rewrite core_drop by done. destruct (decide (c = c)); [|done]. cbv zeta. cbn [dropped].
  destruct (core_wf_at t c Ht) as (_ & _ & Hd). destruct (dropped (core t c)) as [|x [|y [|]]]; try done.
  unfold fetch_add64, rd. destruct p as [|[|]]; [..|lia]; simpl; unfold u64; divlia.
Qed.

(** One best-effort send puts the frame on the wire or counts one drop, and nothing else. *)
Lemma send_ledger fd pkt c p w w' : tel_wf (w_tel w) -> (c < 4)%nat -> (p < 2)%nat ->
  send_best_effort fd pkt c p w = Some w' ->
  tel_wf (w_tel w') /\ pkts (core (w_tel w') c) = pkts (core (w_tel w) c) /\
  shaper_counters (w_tel w') = shaper_counters (w_tel w) /\
  u64 (Z.of_nat (length (w_wire w')) + drops c (w_tel w'))
  = u64 (Z.of_nat (length (w_wire w)) + drops c (w_tel w) + 1).
Proof.
  intros Ht Hc Hp. unfold send_best_effort.
  destruct (try_send_packet_nonblocking fd pkt w) as [[res w1]|] eqn:E; [|done].
  destruct (try_send_frame _ _ _ _ _ E) as (_ & _ & Etel & [[-> Hw]|[Hne Hw]]).
  - intros [= <-]. rewrite Etel, Hw, length_app. cbn [length]. split_and!; try done. f_equal. lia.
  - intros H. assert (w' = set_tel w1 (count_drop (w_tel w1) c p)) as -> by (destruct res; simplify_eq; done).
    cbn [w_tel w_wire set_tel]. rewrite Etel, Hw. split_and!.
    + by apply count_drop_wf.
    + rewrite core_drop by done. by destruct (decide (c = c)).
    + done.
    + pose proof (drops_count_drop (w_tel w) c p Ht Hc Hp) as Hd. unfold u64 in *.
      rewrite <- Zplus_mod_idemp_r, Hd, Zplus_mod_idemp_r. f_equal. lia.
Qed.

(** Offering a packet to the shaper queues it or counts it refused. *)
Lemma enqueue_ledger pkt s w s' w' : shaper_ok s ->
  Shaper.enqueue_normal pkt s w = (s', w') ->
  shaper_ok s' /\ core_metrics (w_tel w') = core_metrics (w_tel w) /\ w_wire w' = w_wire w /\
  w_replies w' = w_replies w /\
  u64 (Z.of_nat (length (Shaper.queue s')) + refused (w_tel w'))
  = u64 (Z.of_nat (length (Shaper.queue s)) + refused (w_tel w) + 1).
Proof.
  intros Hs He. destruct (enqueue_normal_spec _ _ _ _ _ Hs He) as (Hs' & _ & Hq & ->). rewrite Hq, length_app.
  destruct (accepts s pkt); cbn [length].
  - split_and!; try done. f_equal. lia.
  - split_and!; try done. unfold refused, refused_counters. cbn [w_tel set_tel shaper_counters set_shaper_counters].
    case_if; cbn [shaper_queue_overflow_drops shaper_oversized_drops]; unfold u64; divlia.
Qed.

(** The registry the application builds: one observer, the telemetry's. *)
Definition app_events : CallbackRegistry.t :=
  CallbackRegistry.register_observer (Some TelemetryObserver) CallbackRegistry.empty.

Lemma count_packet_ok s pi len : length (b_prio_pkts s) = 2%nat /\ length (b_prio_bytes s) = 2%nat ->
  length (b_prio_pkts (count_packet s pi len)) = 2%nat /\ length (b_prio_bytes (count_packet s pi len)) = 2%nat.
Proof. intros [? ?]. simpl. unfold fetch_add64. by rewrite !length_alter. Qed.

Lemma prio_index_lt p : (prio_index p < 2)%nat.
Proof. destruct p; simpl; lia. Qed.

Lemma qos_ledger cf d pkt c : cf_events cf = app_events -> c = Z.to_nat (cf_core cf) -> (c < 4)%nat ->
  dp_ok d -> (0 < answered (w_replies (d_world d)))%nat ->
  exists d', step_qos_routing cf d pkt = Some (true, d', pkt) /\ dp_ok d' /\ ledger c d' = ledger c d /\
    (answered (w_replies (d_world d)) <= S (answered (w_replies (d_world d'))))%nat.
Proof.
  intros Hev Hcc Hc [Ht Hp (s & Hs & Hsok)] Ha. unfold step_qos_routing. cbv zeta. rewrite Hev.
  set (prio := HeuristicProcessor.process _ pkt).
  set (d1 := on_tel _ _).
  assert (d_world d1 = d_world d) as Hw1 by (subst d1; clear; by destruct d as [? ? ? ? []]).
  assert (d_stats d1 = count_packet (d_stats d) (prio_index prio) (Z.of_nat (length (raw_span pkt)))) as Hst1 by done.
  assert (d_shaper d1 = Some s) as Hs1 by done. clearbody d1.
  pose proof (count_packet_ok (d_stats d) (prio_index prio) (Z.of_nat (length (raw_span pkt))) Hp) as Hp1.
  pose proof (prio_index_lt prio) as Hpi.
  set (m := if effective_bridge_mode _ then 1%nat else 0%nat).
  assert (exists d', routes m (prio_index prio) cf (raw_span pkt) (prio_index prio) d1 = Some d' /\
    ((exists w', send_best_effort (cf_tx_fd cf) (raw_span pkt) c (prio_index prio) (d_world d1) = Some w' /\
        answered (w_replies (d_world d1)) = S (answered (w_replies w')) /\ d' = set_world d1 w') \/
     (exists s' w', Shaper.enqueue_normal (raw_span pkt) s (d_world d1) = (s', w') /\ d' = set_shaper d1 s' w')))
    as (d' & E & Hcase).
  { destruct (send_returns (cf_tx_fd cf) (raw_span pkt) c (prio_index prio) (d_world d1)) as (w' & Hw' & Ha');
      [by rewrite Hw1|].
    assert (fast_path_handler cf (raw_span pkt) (prio_index prio) d1 = Some (set_world d1 w')) as Hfast.
    { unfold fast_path_handler. rewrite <- Hcc, Hw'. done. }
    destruct (Shaper.enqueue_normal (raw_span pkt) s (d_world d1)) as [s' w2] eqn:Eq.
    assert (shaper_handler cf (raw_span pkt) (prio_index prio) d1 = Some (set_shaper d1 s' w2)) as Hsh.
    { unfold shaper_handler. by rewrite Hs1, Eq. }
    unfold routes. destruct m as [|m]; [|by eauto 10].
    destruct (prio_index prio) as [|[|]]; eauto 10. }
  rewrite E. cbn [mbind option_bind]. exists d'. split; [done|].
  clear E. unfold ledger, counted, accounted, queued.
  destruct Hcase as [(w' & Hsend & Ha' & ->)|(s' & w' & Henq & ->)]; rewrite Hw1 in *.
  - destruct (send_ledger _ _ _ _ _ _ Ht Hc Hpi Hsend) as (Ht' & Hpk & Hsc & Hl).
    split; [constructor; cbn; [done|by rewrite Hst1|eauto]|]. split; [|cbn; lia].
    cbn [d_world set_world d_stats d_shaper]. rewrite Hst1, Hs1, Hs, Hpk. unfold refused in *. rewrite Hsc.
    cbn [b_pkts count_packet]. unfold u64 in *. divlia.
  - destruct (enqueue_ledger _ _ _ _ _ Hsok Henq) as (Hs' & Hcm & Hwire & Hrep & Hl).
    split; [constructor; cbn; [unfold tel_wf; by rewrite Hcm|by rewrite Hst1|eauto]|].
    split; [|cbn [d_world set_shaper]; rewrite Hrep; lia].
    cbn [d_world set_shaper d_stats d_shaper]. rewrite Hst1, Hs, Hwire.
    unfold drops, core in *. rewrite Hcm. cbn [b_pkts count_packet]. unfold u64 in *. divlia.
Qed.

(** What one step of the worker keeps, given that the kernel answers a send. *)
Definition keeps (c : nat) (d d' : DP) : Prop :=
  dp_ok d' /\ ledger c d' = ledger c d /\
  (answered (w_replies (d_world d)) <= S (answered (w_replies (d_world d'))))%nat.

Lemma keeps_same c d d' : dp_ok d -> d_stats d' = d_stats d -> d_shaper d' = d_shaper d -> d_world d' = d_world d ->
  keeps c d d'.
Proof.
  intros [Ht Hp Hs] E1 E2 E3. split; [constructor; rewrite ?E1, ?E2, ?E3; done|].
  unfold ledger, counted, accounted, queued. rewrite E1, E2, E3. split; [done|lia].
Qed.

Lemma pipeline_keeps cf d pkt c : cf_events cf = app_events -> c = Z.to_nat (cf_core cf) -> (c < 4)%nat ->
  dp_ok d -> (0 < answered (w_replies (d_world d)))%nat ->
  exists d' pkt', run_steps (pipeline (cf_core cf)) cf d pkt = Some (true, d', pkt') /\ keeps c d d'.
Proof.
  intros Hev Hcc Hc Hd Ha. destruct (pipeline_stages cf d pkt) as [(_ & _ & ->)|[_ ->]].
  - eexists _, _. split; [done|]. destruct (d_dhcp d); by apply keeps_same.
  - destruct (translated cf (d_nat d) pkt) as [nat p1].
    pose proof (relink_step cf (with_nat d nat) p1 _ eq_refl) as Hr. fold (relink (cf_core cf)) in Hr. cbn [run_steps].
    destruct (relinked cf p1) as [p2|].
    + rewrite Hr. destruct (qos_ledger cf (with_nat d nat) p2 c Hev Hcc Hc) as (d' & -> & Hk & Hl & Hn);
        [by destruct Hd|done|]. by exists d', p2.
    + destruct Hr as [p2 ->]. exists (with_nat d nat), p2. split; [done|]. by apply keeps_same.
Qed.

(** Committing the batch moves the pending count to the core's counter. *)
Lemma commit_keeps d cid c : c = Z.to_nat cid -> 0 <= cid < 4 -> dp_ok d ->
  let d' := set_stats (on_tel d (CallbackRegistry.dispatch_batch app_events (d_stats d) cid)) BatchStats0 in
  dp_ok d' /\ ledger c d' = ledger c d /\ w_replies (d_world d') = w_replies (d_world d).
Proof.
  intros Hcc Hcid [Ht [Hp Hb] Hs] d'. pose proof (core_commit (w_tel (d_world d)) (d_stats d) cid c Ht Hcid) as Hcore.
  rewrite Hcc, decide_True in Hcore by done. subst c. split; [|split; [|done]].
  - constructor; [|done|done]. cbn. by apply commit_batch_wf.
  - unfold ledger, counted, accounted, queued, drops, refused. subst d'.
    cbn [d_world set_stats on_tel set_world w_tel set_tel w_wire d_stats d_shaper].
    change (CallbackRegistry.dispatch_batch app_events (d_stats d) cid (w_tel (d_world d)))
      with (commit_batch (w_tel (d_world d)) (d_stats d) cid).
    rewrite Hcore. cbn [pkts commit_core dropped b_pkts BatchStats0].
    replace (shaper_counters (commit_batch (w_tel (d_world d)) (d_stats d) cid))
      with (shaper_counters (w_tel (d_world d))) by (unfold commit_batch; by case_if).
    unfold u64. divlia.
Qed.

Lemma event_keeps cf d pkt c : cf_events cf = app_events -> c = Z.to_nat (cf_core cf) -> 0 <= cf_core cf < 4 ->
  dp_ok d -> (0 < answered (w_replies (d_world d)))%nat ->
  exists d', on_packet_event cf d pkt = Some d' /\ keeps c d d'.
Proof.
  intros Hev Hcc Hc Hd Ha. unfold on_packet_event.
  destruct (pipeline_keeps cf d pkt c Hev Hcc ltac:(lia) Hd Ha) as (d1 & p1 & -> & (Hd1 & Hl1 & Hn1)).
  cbn [mbind option_bind]. eexists. split; [done|]. rewrite Hev. case_if; [|done].
  destruct (commit_keeps d1 (cf_core cf) c Hcc Hc Hd1) as (Hd2 & Hl2 & Hr2).
  split; [done|]. rewrite Hl2, Hr2. done.
Qed.

Lemma proc_frame_keeps cf copy d c : cf_events cf = app_events -> c = Z.to_nat (cf_core cf) -> 0 <= cf_core cf < 4 ->
  dp_ok d -> (0 < answered (w_replies (d_world d)))%nat ->
  exists d', proc_frame cf copy d = Some d' /\ keeps c d d'.
Proof.
  intros Hev Hcc Hc Hd Ha. unfold proc_frame. rewrite Hev.
  set (d1 := on_tel d _). assert (d1 = d) as -> by (subst d1; clear; by destruct d as [? ? ? ? []]).
  by apply event_keeps.
Qed.

(** C10: a worker round loses no packet.  Draining the frame queue always comes to an end
    with the queue empty, provided the kernel answers one send per queued frame; and
    across it the books balance: the packets the worker has counted (committed to the
    telemetry or pending in its batch) and the packets accounted for (on the wire,
    dropped and counted, queued in the shaper, refused by the shaper and counted) grow by
    the same number, counters being modulo 2^64. *)
Theorem worker_drains_and_balances (cf : WorkerCfg) (q : SpscRingBuffer.t RxFrameCopy) (d : DP)
    (Hev : cf_events cf = app_events) (Hc : 0 <= cf_core cf < 4)
    (Hq : SpscRingBuffer.wf FRAME_QUEUE q) (Hd : dp_ok d)
    (Ha : (length (SpscRingBuffer.contents RxFrameCopy0 FRAME_QUEUE q) <= answered (w_replies (d_world d)))%nat) :
  exists q' d', proc_frames (S FRAME_QUEUE) cf q d = Some (q', d') /\
    SpscRingBuffer.contents RxFrameCopy0 FRAME_QUEUE q' = [] /\
    dp_ok d' /\ ledger (Z.to_nat (cf_core cf)) d' = ledger (Z.to_nat (cf_core cf)) d.
Proof.
  assert (1 < FRAME_QUEUE)%nat as HC by (unfold FRAME_QUEUE; lia).
  pose proof (SpscRingBuffer.contents_bounded RxFrameCopy0 FRAME_QUEUE HC q Hq) as Hbound.
  assert (length (SpscRingBuffer.contents RxFrameCopy0 FRAME_QUEUE q) < S FRAME_QUEUE)%nat as Hf by lia.
  clear Hbound. generalize dependent d. generalize dependent q.
  generalize (S FRAME_QUEUE) as fuel. induction fuel as [|f IH]; intros q Hq Hf d Hd Ha; [lia|].
  cbn [proc_frames]. destruct (SpscRingBuffer.spsc_pop_refines RxFrameCopy0 FRAME_QUEUE HC q Hq) as (Hwf & Hhd & Htl).
  destruct (SpscRingBuffer.pop RxFrameCopy0 FRAME_QUEUE q) as [o q1]. cbn [fst snd] in *.
  destruct (SpscRingBuffer.contents RxFrameCopy0 FRAME_QUEUE q) as [|copy rest]; cbn [head tail length] in *; subst o.
  { exists q1, d. done. }
  destruct (proc_frame_keeps cf copy d _ Hev eq_refl Hc Hd) as (d1 & -> & (Hd1 & Hl1 & Hn1)); [lia|].
  cbn [mbind option_bind].
  destruct (IH q1 Hwf) with (d := d1) as (q' & d' & E & He & Hd' & Hl'); [rewrite Htl; lia|done|rewrite Htl; lia|].
  exists q', d'. by rewrite E, He, Hl', Hl1.
Qed.

(** * A worker on concrete frames *)
Definition w_snap : L2Snapshot :=
  MkSnap [2; 0; 0; 0; 0; 2] [2; 0; 0; 0; 0; 1] [0; 16; 32; 48; 64; 80] 33554442 24
    [MkArpRow 4261412874 [0; 16; 32; 48; 64; 80]] true true true true.
Definition w_cf (core_id : Z) : WorkerCfg :=
  MkCfg 7 core_id app_events (MkFwd [w_snap; w_snap] 0) true 1000.
Definition w_start (rs : list SendReply) : shaper_trace :=
  shaper_start 500 (world0 (fun i => Z.of_nat i * 1000000) rs).
Definition w_dp (rs : list SendReply) : DP :=
  MkDP BatchStats0 (Some (NatEngine.set_wan_ip 33554442 NatEngine.make)) None
    (Some (tr_s (w_start rs))) (tr_w (w_start rs)).
(** A DNS query from 192.168.1.100 to 8.8.8.8. *)
Definition w_dns : list Z := make_udp_pkt 1677830336 134744072 5353 53.
Definition w_ring : SpscRingBuffer.t RxFrameCopy * Telemetry :=
  rx_frame 3 w_dns SpscRingBuffer.empty Telemetry0.

Lemma w_dp_ok rs : dp_ok (w_dp rs).
Proof.
  constructor; [apply tel_wf0|done|]. eexists. split; [reflexivity|].
  apply (shaper_start_ok 500 (world0 (fun i => Z.of_nat i * 1000000) rs)). vm_compute. discriminate.
Qed.

Lemma packet_fate_witness : exists d' pkt',
  run_steps (pipeline 3) (w_cf 3) (w_dp [Sent 42]) (parse w_dns) = Some (true, d', pkt') /\
  fate (w_cf 3) (w_dp [Sent 42]) (parse w_dns) d'.
Proof. apply (packet_fate (w_cf 3) (w_dp [Sent 42]) (parse w_dns)). vm_compute. constructor. Defined.

Lemma l2_rewrite_next_hop_witness : exists h pkt',
  step_eth_rewrite_lan_to_wan (w_cf 3) (w_dp []) (parse w_dns) = Some (h, w_dp [], pkt') /\
  h = false /\ slice (raw_span pkt') EthernetHeader.dest 6 = [0; 16; 32; 48; 64; 80] /\
  slice (raw_span pkt') EthernetHeader.src 6 = [2; 0; 0; 0; 0; 1] /\
  length (raw_span pkt') = length (raw_span (parse w_dns)) /\
  forall i, (12 <= i)%nat -> rd (raw_span pkt') i = rd (raw_span (parse w_dns)) i.
Proof.
  refine (l2_rewrite_next_hop (w_cf 3) (w_dp []) (parse w_dns) 134744072 _ _ _).
  - vm_compute. reflexivity.
  - vm_compute. repeat constructor.
  - repeat split; first [reflexivity | apply bytes_okb_ok; reflexivity | idtac].
    repeat constructor; vm_compute; discriminate.
Defined.

Lemma worker_drains_and_balances_witness : exists q' d',
  proc_frames (S FRAME_QUEUE) (w_cf 3) (fst w_ring) (w_dp [SendError EINTR; Sent 42]) = Some (q', d') /\
  SpscRingBuffer.contents RxFrameCopy0 FRAME_QUEUE q' = [] /\
  dp_ok d' /\ ledger 3 d' = ledger 3 (w_dp [SendError EINTR; Sent 42]).
Proof.
  apply (worker_drains_and_balances (w_cf 3) (fst w_ring) (w_dp [SendError EINTR; Sent 42])).
  - reflexivity.
  - cbn. lia.
  - split; vm_compute; lia.
  - apply w_dp_ok.
  - vm_compute. constructor.
Defined.
(** The query went out once, source-translated, towards the gateway. *)
Example worker_sends_query :
  option_map (fun r => (map fst (w_wire (d_world (snd r))), b_pkts (d_stats (snd r)),
    map (fun f => (slice (snd f) 0 6, get32 (snd f) 26)) (w_wire (d_world (snd r)))))
    (proc_frames (S FRAME_QUEUE) (w_cf 3) (fst w_ring) (w_dp [SendError EINTR; Sent 42]))
  = Some ([7], 1, [([0; 16; 32; 48; 64; 80], 33554442)]).
Proof. vm_compute. reflexivity. Qed.
