(* ===== verification/Workers.v ===== *)
(** The two threads of a data-plane worker ([Forward_Engine::worker_event_loop] in
    [App.cpp]) under interleaving.

    The receive thread moves frames from the socket to the frame queue and writes the
    frame eventfd after each; the processing thread drains the queue, lets the shaper
    send, and sleeps in [poll] on the frame and stop eventfds. The frame eventfd is a
    counter that a read sets to zero; the stop eventfd is a semaphore. A push, a pop, an
    eventfd operation, a poll, the processing of one frame and one drain of the shaper
    are one step each; the steps of the two threads, of the thread that stops the worker,
    of the kernel, and of the rest of the program on the shared engines interleave
    arbitrarily. The worker runs only after [open_poll_fds] succeeded, so both
    descriptors are open. *)
From Stdlib Require Import ZArith Lia.
From stdpp Require Import base numbers relations list.
From S2P Require Import Prelude Headers_util Telemetry TxFrame TestPackets Rings Scheduler Forward.
#[local] Open Scope nat_scope.

(** * State *)
(** Where the receive thread is. *)
Inductive rx_pc :=
  | RxLoop                 (* [while (running_)] *)
  | RxPoll                 (* in [poll] *)
  | RxStop                 (* about to read the stop eventfd *)
  | RxInner                (* [while (running_ && peek_rx_frame(raw))] *)
  | RxPush (raw : list Z)  (* about to push the copy of [raw] *)
  | RxNotify               (* pushed: about to write the frame eventfd *)
  | RxDrop                 (* queue full: about to count the drop *)
  | RxFinish               (* about to give the slot back *)
  | RxExit.
(** Where the processing thread is. *)
Inductive proc_pc :=
  | PLoop | PDrain | PFrame (copy : RxFrameCopy) | PShaper | PPoll | PStop | PFrameRead | PExit.

Record worker := Worker {
  wk_running : bool;
  wk_sock : list (list Z);                       (* incoming frames the kernel has handed over *)
  wk_q : SpscRingBuffer.t RxFrameCopy;           (* [frame_q] *)
  wk_frame : nat;                                (* [frame_efd] *)
  wk_stop : nat;                                 (* [stop_efd] *)
  wk_rx : rx_pc; wk_proc : proc_pc;
  wk_d : DP;                                     (* consumer, engines, telemetry *)
  wk_arrived : list (list Z);                    (* history: frames from the kernel *)
  wk_log : list (list Z * bool);                 (* history: frames copied, and whether queued *)
  wk_done : list RxFrameCopy }.                  (* history: frames processed *)

Definition set_rx (w : worker) (pc : rx_pc) : worker :=
  Worker (wk_running w) (wk_sock w) (wk_q w) (wk_frame w) (wk_stop w) pc (wk_proc w) (wk_d w)
    (wk_arrived w) (wk_log w) (wk_done w).
Definition set_proc (w : worker) (pc : proc_pc) : worker :=
  Worker (wk_running w) (wk_sock w) (wk_q w) (wk_frame w) (wk_stop w) (wk_rx w) pc (wk_d w)
    (wk_arrived w) (wk_log w) (wk_done w).
Definition set_d (w : worker) (d : DP) : worker :=
  Worker (wk_running w) (wk_sock w) (wk_q w) (wk_frame w) (wk_stop w) (wk_rx w) (wk_proc w) d
    (wk_arrived w) (wk_log w) (wk_done w).
Definition set_frame (w : worker) (n : nat) : worker :=
  Worker (wk_running w) (wk_sock w) (wk_q w) n (wk_stop w) (wk_rx w) (wk_proc w) (wk_d w)
    (wk_arrived w) (wk_log w) (wk_done w).
Definition set_stop (w : worker) (r : bool) (n : nat) : worker :=
  Worker r (wk_sock w) (wk_q w) (wk_frame w) n (wk_rx w) (wk_proc w) (wk_d w)
    (wk_arrived w) (wk_log w) (wk_done w).
Definition set_sock (w : worker) (sock arrived : list (list Z)) : worker :=
  Worker (wk_running w) sock (wk_q w) (wk_frame w) (wk_stop w) (wk_rx w) (wk_proc w) (wk_d w)
    arrived (wk_log w) (wk_done w).
Definition set_queue (w : worker) (q : SpscRingBuffer.t RxFrameCopy) : worker :=
  Worker (wk_running w) (wk_sock w) q (wk_frame w) (wk_stop w) (wk_rx w) (wk_proc w) (wk_d w)
    (wk_arrived w) (wk_log w) (wk_done w).
Definition log_frame (w : worker) (raw : list Z) (ok : bool) : worker :=
  Worker (wk_running w) (wk_sock w) (wk_q w) (wk_frame w) (wk_stop w) (wk_rx w) (wk_proc w) (wk_d w)
    (wk_arrived w) (wk_log w ++ [(raw, ok)]) (wk_done w).
Definition log_done (w : worker) (copy : RxFrameCopy) : worker :=
  Worker (wk_running w) (wk_sock w) (wk_q w) (wk_frame w) (wk_stop w) (wk_rx w) (wk_proc w) (wk_d w)
    (wk_arrived w) (wk_log w) (wk_done w ++ [copy]).

(** * Steps *)
Section Worker.
Context (cf : WorkerCfg).

(** The receive thread. An interrupted poll and one that reports only an error condition
    go round the loop; any other failure sets bit 1 of [raw_socket_poll_errors] and ends
    the thread. *)
Inductive rx_step (w : worker) : worker -> Prop :=
  | rx_enter : wk_rx w = RxLoop -> wk_running w = true -> rx_step w (set_rx w RxPoll)
  | rx_leave : wk_rx w = RxLoop -> wk_running w = false -> rx_step w (set_rx w RxExit)
  | rx_poll_again : wk_rx w = RxPoll -> rx_step w (set_rx w RxLoop)
  | rx_poll_fails : wk_rx w = RxPoll ->
      rx_step w (set_rx (set_d w (on_tel (wk_d w) (fun t =>
        set_raw_socket_poll_errors t (Z.lor (raw_socket_poll_errors t) 2)))) RxExit)
  | rx_poll_stop : wk_rx w = RxPoll -> 0 < wk_stop w -> rx_step w (set_rx w RxStop)
  | rx_poll_frames : wk_rx w = RxPoll -> wk_stop w = 0 -> wk_sock w <> [] -> rx_step w (set_rx w RxInner)
  | rx_read_stop : wk_rx w = RxStop -> 0 < wk_stop w ->
      rx_step w (set_rx (set_stop w (wk_running w) (wk_stop w - 1)) RxExit)
  | rx_inner_stopped : wk_rx w = RxInner -> wk_running w = false -> rx_step w (set_rx w RxLoop)
  | rx_inner_empty : wk_rx w = RxInner -> wk_sock w = [] -> rx_step w (set_rx w RxLoop)
  | rx_peek raw rest : wk_rx w = RxInner -> wk_running w = true -> wk_sock w = raw :: rest ->
      rx_step w (set_rx w (RxPush raw))
  | rx_pushed raw q' : wk_rx w = RxPush raw -> SpscRingBuffer.push FRAME_QUEUE (rx_copy raw) (wk_q w) = (true, q') ->
      rx_step w (set_rx (log_frame (set_queue w q') raw true) RxNotify)
  | rx_full raw q' : wk_rx w = RxPush raw -> SpscRingBuffer.push FRAME_QUEUE (rx_copy raw) (wk_q w) = (false, q') ->
      rx_step w (set_rx (log_frame (set_queue w q') raw false) RxDrop)
  | rx_notify : wk_rx w = RxNotify -> rx_step w (set_rx (set_frame w (wk_frame w + 1)) RxFinish)
  | rx_drop : wk_rx w = RxDrop ->
      rx_step w (set_rx (set_d w (on_tel (wk_d w) (fun t => count_drop t (Z.to_nat (cf_core cf)) 0))) RxFinish)
  | rx_finish raw rest : wk_rx w = RxFinish -> wk_sock w = raw :: rest ->
      rx_step w (set_rx (set_sock w rest (wk_arrived w)) RxInner).

(** The processing thread. A failed poll ends it, an interrupted one starts a new round. *)
Inductive proc_step (w : worker) : worker -> Prop :=
  | pr_enter : wk_proc w = PLoop -> wk_running w = true -> proc_step w (set_proc w PDrain)
  | pr_leave : wk_proc w = PLoop -> wk_running w = false -> proc_step w (set_proc w PExit)
  | pr_pop copy q' : wk_proc w = PDrain -> SpscRingBuffer.pop RxFrameCopy0 FRAME_QUEUE (wk_q w) = (Some copy, q') ->
      proc_step w (set_proc (set_queue w q') (PFrame copy))
  | pr_empty q' : wk_proc w = PDrain -> SpscRingBuffer.pop RxFrameCopy0 FRAME_QUEUE (wk_q w) = (None, q') ->
      proc_step w (set_proc (set_queue w q') PShaper)
  | pr_frame copy d' : wk_proc w = PFrame copy -> proc_frame cf copy (wk_d w) = Some d' ->
      proc_step w (set_proc (log_done (set_d w d') copy) PDrain)
  | pr_shaper d' : wk_proc w = PShaper -> drain_shaper cf (wk_d w) = Some d' ->
      proc_step w (set_proc (set_d w d') PPoll)
  | pr_poll_again : wk_proc w = PPoll -> proc_step w (set_proc w PLoop)
  | pr_poll_fails : wk_proc w = PPoll -> proc_step w (set_proc w PExit)
  | pr_poll_stop : wk_proc w = PPoll -> 0 < wk_stop w -> proc_step w (set_proc w PStop)
  | pr_poll_frame : wk_proc w = PPoll -> wk_stop w = 0 -> 0 < wk_frame w -> proc_step w (set_proc w PFrameRead)
  | pr_read_stop : wk_proc w = PStop -> 0 < wk_stop w ->
      proc_step w (set_proc (set_stop w (wk_running w) (wk_stop w - 1)) PExit)
  | pr_read_frame : wk_proc w = PFrameRead -> 0 < wk_frame w -> proc_step w (set_proc (set_frame w 0) PLoop).

(** Everything else: the kernel hands over a frame, [stop] clears [running_] and writes 2
    to the stop eventfd, other threads use the engines, telemetry and clock. *)
Inductive other_step (w : worker) : worker -> Prop :=
  | ot_arrive raw : other_step w (set_sock w (wk_sock w ++ [raw]) (wk_arrived w ++ [raw]))
  | ot_clear : other_step w (set_stop w false (wk_stop w))
  | ot_wake : other_step w (set_stop w (wk_running w) (wk_stop w + 2))
  | ot_engines d' : other_step w (set_d w d').

Definition worker_step (w w' : worker) : Prop := rx_step w w' \/ proc_step w w' \/ other_step w w'.
End Worker.

Definition worker0 (d : DP) : worker :=
  Worker true [] SpscRingBuffer.empty 0 0 RxLoop PLoop d [] [] [].

(** * Invariant *)
Definition queued (w : worker) : list RxFrameCopy := SpscRingBuffer.contents RxFrameCopy0 FRAME_QUEUE (wk_q w).
(** The frame the processing thread holds. *)
Definition in_hand (w : worker) : list RxFrameCopy := match wk_proc w with PFrame c => [c] | _ => [] end.
(** The copies that were queued, in order. *)
Definition accepted (w : worker) : list RxFrameCopy := map (rx_copy ∘ fst) (List.filter snd (wk_log w)).

(** The frames of the socket that have not been copied. *)
Definition uncopied (w : worker) : list (list Z) :=
  match wk_rx w with RxNotify | RxDrop | RxFinish => tail (wk_sock w) | _ => wk_sock w end.
Definition rx_holds (w : worker) : Prop :=
  match wk_rx w with
  | RxPush raw => head (wk_sock w) = Some raw
  | RxNotify | RxDrop | RxFinish => wk_sock w <> []
  | _ => True
  end.
(** A frame the processing thread has not seen since it found the queue empty has been
    announced, or is about to be. *)
Definition announced (w : worker) : Prop :=
  match wk_proc w with
  | PShaper | PPoll => queued w = [] \/ 0 < wk_frame w \/ wk_rx w = RxNotify
  | PFrameRead => 0 < wk_frame w
  | _ => True
  end.

Record worker_inv (w : worker) : Prop := {
  wi_queue : SpscRingBuffer.wf FRAME_QUEUE (wk_q w);
  wi_order : accepted w = wk_done w ++ in_hand w ++ queued w;
  wi_arrived : wk_arrived w = map fst (wk_log w) ++ uncopied w;
  wi_rx : rx_holds w;
  wi_announced : announced w }.

Lemma frame_queue_big : 1 < FRAME_QUEUE.
Proof. unfold FRAME_QUEUE. lia. Qed.

Lemma worker0_inv d : worker_inv (worker0 d).
Proof.
  assert (queued (worker0 d) = []) as Hq by (apply (spsc_empty_contents RxFrameCopy0)).
  constructor; rewrite ?Hq; try done.
  split; simpl; pose proof frame_queue_big; lia.
Qed.

(** A push queues the element last or leaves the queue as it is. *)
Lemma push_cases x q b q' : SpscRingBuffer.wf FRAME_QUEUE q -> SpscRingBuffer.push FRAME_QUEUE x q = (b, q') ->
  SpscRingBuffer.wf FRAME_QUEUE q' /\
  SpscRingBuffer.contents RxFrameCopy0 FRAME_QUEUE q'
  = SpscRingBuffer.contents RxFrameCopy0 FRAME_QUEUE q ++ (if b then [x] else []).
Proof.
  intros Hwf E. pose proof frame_queue_big as HC.
  destruct (decide (length (SpscRingBuffer.contents RxFrameCopy0 FRAME_QUEUE q) < FRAME_QUEUE - 1)) as [Hl|Hl].
  - destruct (SpscRingBuffer.spsc_push_accept RxFrameCopy0 FRAME_QUEUE HC q x Hwf Hl) as (r & Er & Hr & Hc).
    rewrite E in Er. injection Er as -> ->. done.
  - pose proof (SpscRingBuffer.contents_bounded RxFrameCopy0 FRAME_QUEUE HC q Hwf).
    rewrite (SpscRingBuffer.push_refuse RxFrameCopy0 FRAME_QUEUE HC q x Hwf) in E by lia.
    injection E as <- <-. by rewrite app_nil_r.
Qed.
Lemma pop_cases q o q' : SpscRingBuffer.wf FRAME_QUEUE q -> SpscRingBuffer.pop RxFrameCopy0 FRAME_QUEUE q = (o, q') ->
  SpscRingBuffer.wf FRAME_QUEUE q' /\
  SpscRingBuffer.contents RxFrameCopy0 FRAME_QUEUE q
  = match o with Some x => [x] | None => [] end ++ SpscRingBuffer.contents RxFrameCopy0 FRAME_QUEUE q' /\
  (o = None -> SpscRingBuffer.contents RxFrameCopy0 FRAME_QUEUE q' = []).
Proof.
  intros Hwf E.
  destruct (SpscRingBuffer.spsc_pop_refines RxFrameCopy0 FRAME_QUEUE frame_queue_big q Hwf) as (Hw & Hh & Ht).
  rewrite E in *. cbn [fst snd] in *. split; [done|]. rewrite Ht, Hh.
  by destruct (SpscRingBuffer.contents RxFrameCopy0 FRAME_QUEUE q).
Qed.

Lemma accepted_log w raw ok :
  accepted (log_frame w raw ok) = accepted w ++ (if ok then [rx_copy raw] else []).
Proof. unfold accepted. cbn [wk_log log_frame]. rewrite List.filter_app, map_app. by destruct ok. Qed.

(** Steps that only move a thread keep everything but what is said of its position. *)
Ltac worker_step_tac := constructor; unfold accepted, in_hand, queued, uncopied, rx_holds, announced in *;
  cbn in *; try done.

Lemma rx_step_inv cf w w' : worker_inv w -> rx_step cf w w' -> worker_inv w'.
Proof.
  intros [Hq Ho Ha Hr Hn] Hs.
  destruct Hs as [Hp|Hp|Hp|Hp|Hp|Hp|Hp|Hp|Hp|raw rest Hp ? Hsk|raw q' Hp E|raw q' Hp E|Hp|Hp|raw rest Hp Hsk];
    try (worker_step_tac; rewrite Hp in *; cbn in *; try done; destruct (wk_proc w); intuition (congruence || lia)).
  - worker_step_tac; rewrite Hp in *; cbn in *; [done|by rewrite Hsk|destruct (wk_proc w); naive_solver].
  - destruct (push_cases _ _ _ _ Hq E) as [Hq' Hc']. unfold rx_holds in Hr. rewrite Hp in Hr. constructor.
    + done.
    + change (accepted (set_rx (log_frame (set_queue w q') raw true) RxNotify)) with (accepted (log_frame w raw true)).
      rewrite accepted_log, Ho. unfold queued at 2. cbn. rewrite Hc'. by rewrite !app_assoc.
    + cbn. rewrite map_app, Ha. unfold uncopied. cbn. rewrite Hp. destruct (wk_sock w); [done|]. cbn in *.
      injection Hr as ->. by rewrite <- app_assoc.
    + unfold rx_holds. cbn. by destruct (wk_sock w).
    + unfold announced in *. cbn. destruct (wk_proc w); auto.
  - destruct (push_cases _ _ _ _ Hq E) as [Hq' Hc']. rewrite app_nil_r in Hc'.
    unfold rx_holds in Hr. rewrite Hp in Hr. constructor.
    + done.
    + change (accepted (set_rx (log_frame (set_queue w q') raw false) RxDrop)) with (accepted (log_frame w raw false)).
      rewrite accepted_log, Ho, app_nil_r. unfold queued. cbn. by rewrite Hc'.
    + cbn. rewrite map_app, Ha. unfold uncopied. cbn. rewrite Hp. destruct (wk_sock w); [done|]. cbn in *.
      injection Hr as ->. by rewrite <- app_assoc.
    + unfold rx_holds. cbn. by destruct (wk_sock w).
    + unfold announced, queued in *. cbn. rewrite Hc'. rewrite Hp in Hn. destruct (wk_proc w); naive_solver.
  - worker_step_tac; rewrite Hp, Hsk in *; cbn in *; [done|]. destruct (wk_proc w); naive_solver.
Qed.

Lemma proc_step_inv cf w w' : worker_inv w -> proc_step cf w w' -> worker_inv w'.
Proof.
  intros [Hq Ho Ha Hr Hn] Hs.
  destruct Hs as [Hp|Hp|copy q' Hp E|q' Hp E|copy d' Hp E|d' Hp E|Hp|Hp|Hp|Hp|Hp|Hp];
    try (worker_step_tac; rewrite Hp in *; cbn in *; naive_solver).
  - destruct (pop_cases _ _ _ Hq E) as (Hq' & Hc & _). worker_step_tac. rewrite Hp in Ho. rewrite Ho, Hc. done.
  - destruct (pop_cases _ _ _ Hq E) as (Hq' & Hc & He). worker_step_tac.
    + rewrite Hp in Ho. rewrite Ho, Hc. done.
    + left. by apply He.
  - worker_step_tac. rewrite Hp in Ho. rewrite Ho. by rewrite <- !app_assoc.
Qed.

Lemma other_step_inv w w' : worker_inv w -> other_step w w' -> worker_inv w'.
Proof.
  intros [Hq Ho Ha Hr Hn] Hs. destruct Hs; worker_step_tac.
  - rewrite Ha, <- app_assoc. f_equal. destruct (wk_rx w); try done; by destruct (wk_sock w).
  - destruct (wk_rx w); try done; by destruct (wk_sock w).
Qed.

Lemma reachable_worker_inv cf d w : rtc (worker_step cf) (worker0 d) w -> worker_inv w.
Proof.
  apply rtc_invariant; [|apply worker0_inv].
  intros a b Ha [Hs|[Hs|Hs]]; [by eapply rx_step_inv|by eapply proc_step_inv|by eapply other_step_inv].
Qed.

(** * Counting the drops *)
Section Drops.
Context (cf : WorkerCfg).
(** The telemetry counter of dropped frames of the worker's core, best-effort class: the
    one the receive thread adds to. *)
Definition drop_counter (w : worker) : Z :=
  rd (dropped (core (w_tel (d_world (wk_d w))) (Z.to_nat (cf_core cf)))) 0.
(** The frames the full queue turned away whose drop has been counted: all of the log but
    the one the receive thread is about to count. *)
Definition turned_away (w : worker) : Z :=
  (Z.of_nat (length (List.filter (negb ∘ snd) (wk_log w))) - match wk_rx w with RxDrop => 1 | _ => 0 end)%Z.

(** The runs of the worker, with what all steps but the receive thread's have added to the
    drop counter; the telemetry's arrays keep their sizes. *)
Inductive counted_run (d : DP) : Z -> worker -> Prop :=
  | cr_start : counted_run d 0 (worker0 d)
  | cr_rx n w w' : counted_run d n w -> rx_step cf w w' -> counted_run d n w'
  | cr_other n w w' : counted_run d n w -> proc_step cf w w' \/ other_step w w' ->
      tel_wf (w_tel (d_world (wk_d w'))) -> counted_run d (n + (drop_counter w' - drop_counter w))%Z w'.

Lemma counted_rtc d n w : counted_run d n w -> rtc (worker_step cf) (worker0 d) w.
Proof.
  induction 1 as [|n w w' _ IH Hs|n w w' _ IH Hs _]; [apply rtc_refl|..]; eapply rtc_r; [done| |done|].
  - by left.
  - right. by destruct Hs; [left|right].
Qed.

(** The counter is what it was at the start, what others added, and one per frame turned
    away. *)
Definition drops_ok (d : DP) (n : Z) (w : worker) : Prop :=
  tel_wf (w_tel (d_world (wk_d w))) /\
  u64 (drop_counter w) = u64 (drop_counter (worker0 d) + n + turned_away w).

Lemma rx_step_drops d n w w' : (0 <= cf_core cf < 4)%Z -> drops_ok d n w -> rx_step cf w w' -> drops_ok d n w'.
Proof.
  intros Hc [Hwf Hd] Hs.
  destruct Hs as [Hp|Hp|Hp|Hp|Hp|Hp|Hp|Hp|Hp|raw rest Hp|raw q' Hp E|raw q' Hp E|Hp|Hp|raw rest Hp Hsk];
    try (split; [exact Hwf|]; unfold drop_counter, turned_away in *; rewrite Hp in Hd; exact Hd).
  - split; [exact Hwf|]. unfold drop_counter, turned_away in *. rewrite Hp in Hd. cbn [wk_log log_frame set_rx].
    rewrite List.filter_app, length_app. cbn [compose negb snd List.filter length wk_rx].
    rewrite Nat.add_0_r. exact Hd.
  - split; [exact Hwf|]. unfold drop_counter, turned_away in *. rewrite Hp in Hd. cbn [wk_log log_frame set_rx].
    rewrite List.filter_app, length_app. cbn [compose negb snd List.filter length wk_rx].
    etransitivity; [exact Hd|]. f_equal. cbn [wk_log wk_rx set_rx log_frame set_queue]. lia.
  - split; [by apply count_drop_wf|]. unfold drop_counter, turned_away in *. rewrite Hp in Hd.
    cbn [wk_log wk_rx set_rx set_d wk_d on_tel set_world d_world set_tel w_tel].
    rewrite (core_drop _ (Z.to_nat (cf_core cf)) 0) by (first [exact Hwf|lia]). rewrite decide_True by done. cbv zeta. cbn [dropped].
    destruct (core_wf_at _ (Z.to_nat (cf_core cf)) Hwf) as (_ & _ & Hlen).
    destruct (dropped (core (w_tel (d_world (wk_d w))) _)) as [|x [|y [|]]]; try done.
    unfold fetch_add64, rd in *. cbn [alter list_alter nth] in *.
    change (wk_log (set_d w _)) with (wk_log w).
    set (k := nth 0 (dropped (core (w_tel (d_world (wk_d (worker0 d)))) _)) 0%Z) in *.
    set (m := length (List.filter _ _)) in *. unfold u64 in *. divlia.
Qed.

Lemma counted_drops d n w : (0 <= cf_core cf < 4)%Z -> tel_wf (w_tel (d_world d)) ->
  counted_run d n w -> drops_ok d n w.
Proof.
  intros Hc Hd. induction 1 as [|n w w' _ IH Hs|n w w' _ [_ IH] Hs Hwf].
  - split; [done|]. f_equal. unfold turned_away. cbn. lia.
  - by eapply rx_step_drops.
  - split; [done|]. assert (turned_away w' = turned_away w) as E by (by destruct Hs as [[]|[]]).
    rewrite E. set (k := drop_counter (worker0 d)) in *. unfold u64 in *. divlia.
Qed.
End Drops.

(** * The theorem *)
(** A thread sleeps when it is in [poll] and none of its descriptors is readable. *)
Definition rx_sleeps (w : worker) : Prop := wk_rx w = RxPoll /\ wk_sock w = [] /\ wk_stop w = 0.
Definition proc_sleeps (w : worker) : Prop := wk_proc w = PPoll /\ wk_frame w = 0 /\ wk_stop w = 0.

(** C37: a worker loses no frame and no wake-up, and counts what it drops.  However its two
    threads, the kernel, the stopping thread and the rest of the program interleave: the
    frames the kernel has handed over are, in order, those copied and those still in the
    socket; the copies that were queued are, in order and once each, those processed, the
    one being processed and those in the queue; for every other frame, those the full
    queue turned away, the core's telemetry counter of drops has been raised by one, no
    more and no less, the last one's possibly about to be ([n] is what the other threads
    add to the counter; it is a 64-bit counter); while the processing thread
    sleeps on a non-empty queue, the receive thread is about to wake it; and when both
    threads sleep, every frame has been processed or counted. *)
Theorem worker_loses_no_wakeup (cf : WorkerCfg) (d : DP) (n : Z) (w : worker)
    (Hcore : (0 <= cf_core cf < 4)%Z) (Htel : tel_wf (w_tel (d_world d)))
    (Hrun : counted_run cf d n w) :
  wk_arrived w = map fst (wk_log w) ++ uncopied w /\
  accepted w = wk_done w ++ in_hand w ++ queued w /\
  u64 (drop_counter cf w) = u64 (drop_counter cf (worker0 d) + n + turned_away w) /\
  length (queued w) < FRAME_QUEUE /\
  (proc_sleeps w -> queued w <> [] -> wk_rx w = RxNotify /\
     exists w', rx_step cf w w' /\ ~ proc_sleeps w' /\ wk_proc w' = PPoll) /\
  (rx_sleeps w -> proc_sleeps w -> wk_arrived w = map fst (wk_log w) /\ accepted w = wk_done w /\
     turned_away w = Z.of_nat (length (List.filter (negb ∘ snd) (wk_log w)))).
Proof.
  destruct (reachable_worker_inv _ _ _ (counted_rtc _ _ _ _ Hrun)) as [Hq Ho Ha Hr Hn].
  destruct (counted_drops cf d n w Hcore Htel Hrun) as [_ Hdrops].
  pose proof (SpscRingBuffer.contents_bounded RxFrameCopy0 FRAME_QUEUE frame_queue_big _ Hq) as Hb.
  pose proof frame_queue_big as Hbig.
  assert (proc_sleeps w -> queued w <> [] -> wk_rx w = RxNotify) as Hwake.
  { intros (Hp & Hf & _) Hne. unfold announced in Hn. rewrite Hp in Hn. naive_solver lia. }
  split_and!; [done|done|done|unfold queued; lia| |].
  - intros Hs Hne. pose proof (Hwake Hs Hne) as Hrx. split; [done|].
    eexists. split; [by apply rx_notify|]. split; [intros (_ & Hf & _); cbn in Hf; lia|apply Hs].
  - intros (Hrx & Hsk & _) Hs. destruct (decide (queued w = [])) as [He|He].
    + destruct Hs as (Hp & _). rewrite Ha, Ho, He. unfold uncopied, in_hand, turned_away.
      rewrite Hrx, Hsk, Hp, !app_nil_r. split_and!; [done|done|lia].
    + apply Hwake in He; [congruence|done].
Qed.

(** A frame that arrives while the processing thread sleeps. *)
Lemma worker_loses_no_wakeup_witness : exists w n,
  counted_run (w_cf 3) (w_dp []) n w /\ proc_sleeps w /\ queued w = [rx_copy w_dns] /\
  wk_rx w = RxNotify.
Proof.
  set (w1 := set_rx (set_proc (worker0 (w_dp [])) PDrain) RxPoll).
  set (d1 := default (w_dp []) (drain_shaper (w_cf 3) (w_dp []))).
  set (w2 := set_proc (set_d (set_proc w1 PShaper) d1) PPoll).
  set (w3 := set_rx (set_sock w2 [w_dns] [w_dns]) (RxPush w_dns)).
  set (w4 := set_rx (log_frame (set_queue w3 (snd (SpscRingBuffer.push FRAME_QUEUE (rx_copy w_dns) SpscRingBuffer.empty)))
                       w_dns true) RxNotify).
  assert (tel_wf (w_tel (d_world (w_dp [])))) as Ht by exact tel_wf0.
  assert (exists n, counted_run (w_cf 3) (w_dp []) n w4) as [n Hr].
  { eexists. eapply (cr_rx _ _ _ w3); [|refine (rx_pushed _ w3 w_dns _ eq_refl eq_refl)].
    eapply (cr_rx _ _ _ (set_rx w3 RxInner)); [|exact (rx_peek _ (set_rx w3 RxInner) w_dns [] eq_refl eq_refl eq_refl)].
    eapply (cr_rx _ _ _ (set_rx w3 RxPoll)); [|refine (rx_poll_frames _ (set_rx w3 RxPoll) eq_refl eq_refl _); discriminate].
    eapply (cr_other _ _ _ w2); [|right; exact (ot_arrive w2 w_dns)|repeat constructor].
    eapply (cr_other _ _ _ (set_proc w1 PShaper));
      [|left; apply (pr_shaper _ (set_proc w1 PShaper) d1 eq_refl); vm_compute; reflexivity|repeat constructor].
    eapply (cr_other _ _ _ w1); [|left; exact (pr_empty _ w1 SpscRingBuffer.empty eq_refl eq_refl)|exact Ht].
    eapply (cr_rx _ _ _ (set_proc (worker0 (w_dp [])) PDrain)); [|exact (rx_enter _ (set_proc (worker0 (w_dp [])) PDrain) eq_refl eq_refl)].
    eapply cr_other; [apply cr_start|left; exact (pr_enter _ (worker0 (w_dp [])) eq_refl eq_refl)|exact Ht]. }
  assert (proc_sleeps w4) as Hs by done.
  assert (queued w4 = [rx_copy w_dns]) as Hq by (vm_compute; reflexivity).
  exists w4, n. split; [exact Hr|]. split; [exact Hs|]. split; [exact Hq|].
  destruct (worker_loses_no_wakeup (w_cf 3) (w_dp []) n w4 ltac:(split; [discriminate|reflexivity]) Ht Hr)
    as (_ & _ & _ & _ & H & _).
  apply (proj1 (H Hs ltac:(rewrite Hq; discriminate))).
Defined.
