(* ===== verification/SnapshotConc.v ===== *)
(** The L2 snapshot under interleaving ([ForwardingState_util.cpp], its readers in
    [App.cpp]).

    [refresh_l2] fills the inactive buffer with plain stores and publishes it by storing
    [active_]; a worker loads [active_] once per packet and then reads the buffer field by
    field, without a lock. Here every store and every load is a step of its own. There is
    one refresher at a time: the call at the end of [App::start] comes before the first
    tick of the refresh service. *)
From Stdlib Require Import ZArith Lia Ascii String.
From stdpp Require Import base numbers strings relations list.
From S2P Require Import Prelude Text Types_util Config Network_util ProcNet ForwardingState Forward.
#[local] Open Scope Z_scope.
#[local] Open Scope list_scope.

(** * A buffer as it is in memory *)
(** [arp] has [MAX_ARP] entries, of which the first [arp_count] are meant. *)
Record RawSnap := MkRaw {
  r_lan_hw : list Z; r_wan_hw : list Z; r_gw_hw : list Z;
  r_wan_ip : Z; r_prefix : Z; r_arp : list ArpTableRow; r_count : nat;
  r_gw_valid : bool; r_cfg_valid : bool; r_gw_configured : bool; r_ready : bool }.
Definition RawSnap0 : RawSnap :=
  MkRaw (replicate 6 0) (replicate 6 0) (replicate 6 0) 0 (-1) (replicate MAX_ARP (MkArpRow 0 (replicate 6 0))) 0
    false false false false.
(** The snapshot it stands for. *)
Definition view (r : RawSnap) : L2Snapshot :=
  MkSnap (r_lan_hw r) (r_wan_hw r) (r_gw_hw r) (r_wan_ip r) (r_prefix r) (take (r_count r) (r_arp r))
    (r_gw_valid r) (r_cfg_valid r) (r_gw_configured r) (r_ready r).

Inductive store :=
  | StLan (m : list Z) | StWan (m : list Z) | StPrefix (p : Z) | StIp (a : Z) | StCfgValid (b : bool)
  | StGwConfigured (b : bool) | StGwValid (b : bool) | StGw (m : list Z) | StCount (n : nat)
  | StArpIp (i : nat) (a : Z) | StArpMac (i : nat) (m : list Z) | StReady (b : bool).
Definition do_store (r : RawSnap) (w : store) : RawSnap :=
  let '(MkRaw lan wan gw ip p arp n gv cv gc rd) := r in
  match w with
  | StLan m => MkRaw m wan gw ip p arp n gv cv gc rd
  | StWan m => MkRaw lan m gw ip p arp n gv cv gc rd
  | StPrefix p' => MkRaw lan wan gw ip p' arp n gv cv gc rd
  | StIp a => MkRaw lan wan gw a p arp n gv cv gc rd
  | StCfgValid b => MkRaw lan wan gw ip p arp n gv b gc rd
  | StGwConfigured b => MkRaw lan wan gw ip p arp n gv cv b rd
  | StGwValid b => MkRaw lan wan gw ip p arp n b cv gc rd
  | StGw m => MkRaw lan wan m ip p arp n gv cv gc rd
  | StCount n' => MkRaw lan wan gw ip p arp n' gv cv gc rd
  | StArpIp i a => MkRaw lan wan gw ip p (alter (fun e => MkArpRow a (mac e)) i arp) n gv cv gc rd
  | StArpMac i m => MkRaw lan wan gw ip p (alter (fun e => MkArpRow (ip_nbo e) m) i arp) n gv cv gc rd
  | StReady b => MkRaw lan wan gw ip p arp n gv cv gc b
  end.

(** * The refresh, store by store *)
(** What a refresh reads from outside: the kernel and the two files. *)
Record refresh_env (K : Type) := MkEnv { rf_cfg : Config; rf_k : K; rf_route : option (list Z); rf_arp : option (list Z) }.
Arguments MkEnv {K}. Arguments rf_cfg {K}. Arguments rf_k {K}. Arguments rf_route {K}. Arguments rf_arp {K}.

Fixpoint arp_stores (i : nat) (rows : list ArpTableRow) : list store :=
  match rows with
  | [] => []
  | e :: rows' => StArpIp i (ip_nbo e) :: StArpMac i (mac e) :: arp_stores (S i) rows'
  end.
(** The stores of [refresh_l2] into the buffer [old], in order. *)
Definition refresh_stores {K} (kern : Kernel K) (e : refresh_env K) (old : RawSnap) : option (list store) :=
  let c := rf_cfg e in
  let k := rf_k e in
  let '(lan_ok, lan) := get_iface_hwaddr kern (c_iface_lan c) (r_lan_hw old) k in
  let '(wan_ok, wan) := get_iface_hwaddr kern (c_iface_wan c) (r_wan_hw old) k in
  prefix ← get_iface_ipv4_prefix_len kern (c_iface_wan c) k;
  let wip := match resolve_nat_wan_ip kern c k with inr a => a | inl _ => 0 end in
  let cfg_valid := negb (wip =? 0) && negb (is_invalid_nat_wan wip) && (0 <=? prefix) && (prefix <=? 32) in
  let gw_ip := get_default_gateway_for_iface (c_iface_wan c) (rf_route e) in
  let gw_ip := match gw_ip with [] => get_gateway_ip (rf_route e) | _ => gw_ip end in
  let gw_configured := match gw_ip with [] => false | _ => true end in
  let rows := read_arp_table MAX_ARP (rf_arp e) in
  let found := if gw_configured : bool then
                 match inet_pton (cstr gw_ip) with Some b => find_mac rows (get32 b 0) | None => None end
               else None in
  let ac := Nat.min (length rows) MAX_ARP in
  Some ([StLan lan; StWan wan; StPrefix prefix; StIp wip; StCfgValid cfg_valid; StGwConfigured gw_configured;
         StGwValid false]
        ++ match found with Some m => [StGw m; StGwValid true] | None => [] end
        ++ [StCount ac] ++ arp_stores 0 (take ac rows)
        ++ [StReady (lan_ok && wan_ok && (match found with Some _ => true | None => false end || cfg_valid))]).

(** * The readers, load by load *)
Inductive cell :=
  | LdReady | LdCfgValid | LdPrefix | LdIp | LdWan | LdLan | LdGwConfigured | LdGwValid | LdGw
  | LdCount | LdArpIp (i : nat) | LdArpMac (i : nat).
Definition of_bool (b : bool) : list Z := [if b then 1 else 0].
Definition truth (v : list Z) : bool := negb (rd v 0 =? 0).
Definition row (r : RawSnap) (i : nat) : ArpTableRow := nth i (r_arp r) (MkArpRow 0 []).
(** A value is a list of words. *)
Definition do_load (r : RawSnap) (c : cell) : list Z :=
  match c with
  | LdReady => of_bool (r_ready r) | LdCfgValid => of_bool (r_cfg_valid r) | LdPrefix => [r_prefix r]
  | LdIp => [r_wan_ip r] | LdWan => r_wan_hw r | LdLan => r_lan_hw r
  | LdGwConfigured => of_bool (r_gw_configured r) | LdGwValid => of_bool (r_gw_valid r) | LdGw => r_gw_hw r
  | LdCount => [Z.of_nat (r_count r)] | LdArpIp i => [ip_nbo (row r i)] | LdArpMac i => mac (row r i)
  end.

(** A program over loads, and its result on a buffer that does not change. *)
Inductive prog (A : Type) := Ret (a : A) | Load (c : cell) (k : list Z -> prog A).
Arguments Ret {A}. Arguments Load {A}.
Fixpoint run {A} (p : prog A) (r : RawSnap) : A :=
  match p with Ret a => a | Load c k => run (k (do_load r c)) r end.

(** The search loop of [resolve_mac_onlink] and [step_eth_rewrite_wan_to_lan]; [left] is
    what remains of the table's capacity. *)
Fixpoint search {A} (left i : nat) (dst : Z) (found : nat -> prog A) (none : prog A) : prog A :=
  match left with
  | O => none
  | S l => Load LdCount (fun n =>
      if Z.of_nat i <? rd n 0
      then Load (LdArpIp i) (fun a => if rd a 0 =? dst then found i else search l (S i) dst found none)
      else none)
  end.
(** What the two rewriting steps read, up to the addresses they write into the frame:
    [None] when the snapshot is not ready; source and destination, [None] when the packet
    is dropped (LAN to WAN) or left alone (WAN to LAN). *)
Definition lan_hop_prog (dst : Z) (on_link : bool) : prog (option (list Z * option (list Z))) :=
  Load LdWan (fun src =>
    if on_link then search (S MAX_ARP) 0 dst (fun i => Load (LdArpMac i) (fun m => Ret (Some (src, Some m))))
                      (Ret (Some (src, None)))
    else Load LdGwConfigured (fun gc => if negb (truth gc) then Ret (Some (src, None)) else
         Load LdGwValid (fun gv => if negb (truth gv) then Ret (Some (src, None)) else
         Load LdGw (fun gw => Ret (Some (src, Some gw)))))).
Definition lan_to_wan_prog (dst : Z) : prog (option (list Z * option (list Z))) :=
  Load LdReady (fun v => if negb (truth v) then Ret None else
  Load LdCfgValid (fun cv =>
  if truth cv then Load LdPrefix (fun p => Load LdIp (fun a => lan_hop_prog dst (ipv4_in_subnet dst (rd p 0) (rd a 0))))
  else lan_hop_prog dst false)).
Definition wan_to_lan_prog (dst : Z) : prog (option (list Z * option (list Z))) :=
  Load LdReady (fun v => if negb (truth v) then Ret None else
  search (S MAX_ARP) 0 dst
    (fun i => Load LdLan (fun src => Load (LdArpMac i) (fun m => Ret (Some (src, Some m)))))
    (Ret (Some ([], None)))).

(** * Interleaving *)
Definition lookup_result : Type := option (list Z * option (list Z)).
(** A reader between packets, or inside a lookup: [m] publications had been made when it
    loaded [active_] (ghost), [b] is what it loaded, [p0] what it set out to read (ghost),
    [p] what is left. *)
Inductive reader := RdIdle | RdRun (m b : nat) (p0 p : prog lookup_result).
Definition may_acquire (r : reader) : Prop :=
  match r with RdIdle | RdRun _ _ _ (Ret _) => True | _ => False end.

(** The two buffers, [active_], the refresh under way with the stores it still has to make,
    the readers, and ghost state: refreshes begun and what has been published so far. *)
Record dbuf (K : Type) := Dbuf {
  b_bufs : list RawSnap; b_active : nat; b_writer : option (refresh_env K * list store);
  b_readers : list reader; b_started : nat; b_hist : list ForwardingState }.
Arguments Dbuf {K}. Arguments b_bufs {K}. Arguments b_active {K}. Arguments b_writer {K}.
Arguments b_readers {K}. Arguments b_started {K}. Arguments b_hist {K}.
Definition buf {K} (s : dbuf K) (i : nat) : RawSnap := nth i (b_bufs s) RawSnap0.
Definition published {K} (s : dbuf K) : nat := pred (length (b_hist s)).

Section Interleaving.
Context {K : Type} (kern : Kernel K).
Implicit Types s : dbuf K.

(** The atomic refresh of [ForwardingState]. *)
Definition refresh_spec (e : refresh_env K) (st : ForwardingState) : option ForwardingState :=
  refresh_l2 kern (rf_cfg e) (rf_k e) (rf_route e) (rf_arp e) st.
Definition set_reader s (j : nat) (r : reader) : dbuf K :=
  Dbuf (b_bufs s) (b_active s) (b_writer s) (<[j := r]> (b_readers s)) (b_started s) (b_hist s).

Inductive dbuf_step s : dbuf K -> Prop :=
  | d_begin e l : b_writer s = None -> refresh_stores kern e (buf s (1 - b_active s)) = Some l ->
      dbuf_step s (Dbuf (b_bufs s) (b_active s) (Some (e, l)) (b_readers s) (S (b_started s)) (b_hist s))
  | d_store e w l : b_writer s = Some (e, w :: l) ->
      dbuf_step s (Dbuf (alter (fun r => do_store r w) (1 - b_active s)%nat (b_bufs s)) (b_active s) (Some (e, l))
                     (b_readers s) (b_started s) (b_hist s))
  | d_publish e : b_writer s = Some (e, []) ->
      dbuf_step s (Dbuf (b_bufs s) (1 - b_active s) None (b_readers s) (b_started s)
                     (b_hist s ++ [MkFwd (map view (b_bufs s)) (1 - b_active s)]))
  | d_acquire j r p : b_readers s !! j = Some r -> may_acquire r ->
      dbuf_step s (set_reader s j (RdRun (published s) (b_active s) p p))
  | d_load j m b p0 c k : b_readers s !! j = Some (RdRun m b p0 (Load c k)) ->
      dbuf_step s (set_reader s j (RdRun m b p0 (k (do_load (buf s b) c)))).

Definition dbuf0 (readers : nat) : dbuf K :=
  Dbuf [RawSnap0; RawSnap0] 0 None (replicate readers RdIdle) 0 [ForwardingState0].

(** * The refresh refines the atomic one *)
Definition raw_ok (r : RawSnap) : Prop := length (r_arp r) = MAX_ARP /\ (r_count r <= MAX_ARP)%nat.
(** Filling the table leaves the rest of the buffer as it was. *)
Definition with_arp (r : RawSnap) (arp : list ArpTableRow) : RawSnap :=
  let '(MkRaw lan wan gw ip p _ n gv cv gc rd) := r in MkRaw lan wan gw ip p arp n gv cv gc rd.
Lemma alter_middle {A} (f : A -> A) (a b : list A) x : alter f (length a) (a ++ x :: b) = a ++ f x :: b.
Proof. induction a as [|y a IH]; [done|]. cbn. by f_equal. Qed.
Lemma arp_stores_fill rows done rest r : r_arp r = done ++ rest -> (length rows <= length rest)%nat ->
  fold_left do_store (arp_stores (length done) rows) r = with_arp r (done ++ rows ++ drop (length rows) rest).
Proof.
  revert done rest r. induction rows as [|[a m] rows IH]; intros dn rest r Hr Hl.
  { cbn [arp_stores fold_left app length]. rewrite drop_0, <- Hr. by destruct r. }
  destruct rest as [|[a0 m0] rest]; [cbn in Hl; lia|]. destruct r as [lan wan gw ip p arp n gv cv gc rd]. cbn in Hr. subst arp.
  cbn [arp_stores fold_left do_store]. rewrite !alter_middle. cbn [ip_nbo mac].
  replace (S (length dn)) with (length (dn ++ [MkArpRow a m])) by (rewrite length_app; cbn; lia).
  rewrite (IH (dn ++ [MkArpRow a m]) rest); [|exact (app_assoc dn [MkArpRow a m] rest)|cbn in Hl; lia].
  cbn. exact (f_equal (fun x => MkRaw lan wan gw ip p x n gv cv gc rd) (eq_sym (app_assoc dn [MkArpRow a m] _))).
Qed.

Lemma refresh_refines e r l st : raw_ok r -> fwd_ok st -> view r = nth (1 - active_ st) (snap_ st) L2Snapshot0 ->
  refresh_stores kern e r = Some l ->
  raw_ok (fold_left do_store l r) /\
  refresh_spec e st = Some (MkFwd (<[(1 - active_ st)%nat := view (fold_left do_store l r)]> (snap_ st)) (1 - active_ st)).
Proof.
  intros Hr Hst Hv. unfold refresh_stores, refresh_spec, refresh_l2. rewrite <- Hv.
  destruct r as [lan0 wan0 gw0 ip0 p0 arp0 n0 gv0 cv0 gc0 rd0]. destruct Hr as [Hlen Hn]. cbn in Hlen, Hn.
  cbn [view lan_hw wan_hw gw_hw r_lan_hw r_wan_hw r_gw_hw r_wan_ip r_prefix r_arp r_count r_gw_valid r_cfg_valid r_gw_configured r_ready].
  destruct (get_iface_hwaddr kern (c_iface_lan (rf_cfg e)) lan0 (rf_k e)) as [lo lan].
  destruct (get_iface_hwaddr kern (c_iface_wan (rf_cfg e)) wan0 (rf_k e)) as [wo wan].
  destruct (get_iface_ipv4_prefix_len kern (c_iface_wan (rf_cfg e)) (rf_k e)) as [prefix|]; [|done].
  cbn [mbind option_bind]. cbv zeta.
  fold (gateway_text (rf_cfg e) (rf_route e)).
  set (gc := match gateway_text (rf_cfg e) (rf_route e) with [] => false | _ => true end).
  set (found := if gc then _ else None).
  clearbody found. set (rows := read_arp_table MAX_ARP (rf_arp e)). pose proof (read_arp_length MAX_ARP (rf_arp e)) as Hrl.
  fold rows in Hrl. intros [= <-]. rewrite Nat.min_l by lia.
  pose proof (firstn_all rows) as Htk. change (firstn (length rows) rows) with (take (length rows) rows) in Htk. rewrite Htk.
  assert (forall gw gv rd, fold_left do_store (arp_stores 0 rows)
      (MkRaw lan wan gw (match resolve_nat_wan_ip kern (rf_cfg e) (rf_k e) with inr a => a | inl _ => 0 end) prefix arp0
         (length rows) gv rd gc rd0)
    = with_arp (MkRaw lan wan gw (match resolve_nat_wan_ip kern (rf_cfg e) (rf_k e) with inr a => a | inl _ => 0 end) prefix arp0
         (length rows) gv rd gc rd0) (rows ++ drop (length rows) arp0)) as Hfill.
  { intros gw gv rd. apply (arp_stores_fill rows [] arp0); [done|lia]. }
  destruct found as [m|]; cbn [app fold_left do_store]; rewrite fold_left_app, Hfill; cbn [with_arp fold_left do_store];
    (split; [split; cbn; [rewrite length_app, length_drop; lia|lia]|]); unfold view;
    cbn [r_lan_hw r_wan_hw r_gw_hw r_wan_ip r_prefix r_arp r_count r_gw_valid r_cfg_valid r_gw_configured r_ready default];
    by rewrite take_app_length.
Qed.

(** * What a lookup returns on a buffer that does not change *)
Lemma truth_of_bool b : truth (of_bool b) = b.
Proof. by destruct b. Qed.

Lemma search_run {A} left i dst (found : nat -> prog A) none r (F : list Z -> A) :
  raw_ok r -> (i <= r_count r < left + i)%nat -> (forall j, run (found j) r = F (mac (row r j))) ->
  run (search left i dst found none) r
  = match find_mac (drop i (arp (view r))) dst with Some m => F m | None => run none r end.
Proof.
  intros [Hl Hc] Hi HF. revert i Hi. induction left as [|n IH]; intros i Hi; [lia|].
  cbn [search run do_load]. cbn [rd nth]. change (arp (view r)) with (take (r_count r) (r_arp r)).
  destruct (Z.ltb_spec (Z.of_nat i) (Z.of_nat (r_count r))) as [Hlt|Hge].
  - destruct (lookup_lt_is_Some_2 (r_arp r) i ltac:(lia)) as [e He].
    assert (take (r_count r) (r_arp r) !! i = Some e) as He' by (rewrite lookup_take_lt by lia; done).
    rewrite (drop_S _ _ _ He'). cbn [find_mac].
    assert (row r i = e) as Er by (unfold row; rewrite nth_lookup, He; done).
    cbn [run do_load]. rewrite Er. cbn [rd nth].
    change (rd [ip_nbo e] 0) with (ip_nbo e). destruct (ip_nbo e =? dst); [by rewrite HF, Er|].
    rewrite IH by lia. done.
  - rewrite drop_ge by (rewrite length_take; lia). done.
Qed.

Lemma lan_hop_run dst on_link r : raw_ok r ->
  run (lan_hop_prog dst on_link) r
  = Some (r_wan_hw r, if on_link then resolve_mac_onlink (view r) dst
                      else if r_gw_configured r && r_gw_valid r then Some (r_gw_hw r) else None).
Proof.
  intros Hr. unfold lan_hop_prog. destruct on_link; cbn [run do_load].
  - rewrite (search_run _ _ _ _ _ _ (fun m => Some (r_wan_hw r, Some m))) by (done || (destruct Hr; lia)).
    unfold resolve_mac_onlink. rewrite drop_0. by destruct (find_mac _ _).
  - rewrite truth_of_bool. destruct (r_gw_configured r); cbn [negb run do_load andb]; [|done].
    rewrite truth_of_bool. by destruct (r_gw_valid r).
Qed.
Lemma lan_to_wan_run dst r : raw_ok r ->
  run (lan_to_wan_prog dst) r
  = if r_ready r then Some (r_wan_hw r, wan_next_hop (view r) dst) else None.
Proof.
  intros Hr. unfold lan_to_wan_prog. cbn [run do_load]. rewrite truth_of_bool.
  destruct (r_ready r); cbn [negb]; [|done]. cbn [run do_load]. rewrite truth_of_bool.
  unfold wan_next_hop. change (wan_cfg_valid (view r)) with (r_cfg_valid r).
  destruct (r_cfg_valid r); cbn [andb]; [|by rewrite lan_hop_run]. cbn [run do_load]. rewrite lan_hop_run by done. done.
Qed.

Lemma wan_to_lan_run dst r : raw_ok r ->
  run (wan_to_lan_prog dst) r
  = if r_ready r then Some (match find_mac (arp (view r)) dst with Some m => (r_lan_hw r, Some m) | None => ([], None) end)
    else None.
Proof.
  intros Hr. unfold wan_to_lan_prog. cbn [run do_load]. rewrite truth_of_bool. destruct (r_ready r); cbn [negb]; [|done].
  rewrite (search_run _ _ _ _ _ _ (fun m => Some (r_lan_hw r, Some m))) by (done || (destruct Hr; lia)).
  rewrite drop_0. by destruct (find_mac _ _).
Qed.

(** * Invariant *)
Definition chain (h : list ForwardingState) : Prop :=
  h !! 0%nat = Some ForwardingState0 /\
  forall n st st', h !! n = Some st -> h !! S n = Some st' -> exists e, refresh_spec e st = Some st'.

(** The published state is in memory, and the buffer being filled is as far as the stores
    made so far. *)
Definition memory_ok s : Prop := exists st, last (b_hist s) = Some st /\ fwd_ok st /\ active_ st = b_active s /\
  raw_ok (buf s (b_active s)) /\ view (buf s (b_active s)) = snapshot st /\
  match b_writer s with
  | None => raw_ok (buf s (1 - b_active s)) /\ view (buf s (1 - b_active s)) = nth (1 - active_ st) (snap_ st) L2Snapshot0
  | Some (e, l) => exists r0 done, raw_ok r0 /\ view r0 = nth (1 - active_ st) (snap_ st) L2Snapshot0 /\
      refresh_stores kern e r0 = Some (done ++ l) /\ buf s (1 - b_active s) = fold_left do_store done r0
  end.

(** A lookup in progress, as long as the second refresh after the publication it uses has
    not begun. *)
Definition reader_ok s (r : reader) : Prop :=
  match r with
  | RdIdle => True
  | RdRun m b p0 p => (m <= published s)%nat /\
      ((b_started s <= S m)%nat -> b = (if decide (published s = m) then b_active s else 1 - b_active s)%nat /\
        raw_ok (buf s b) /\ run p (buf s b) = run p0 (buf s b) /\
        exists st, b_hist s !! m = Some st /\ view (buf s b) = snapshot st)
  end.
Record dbuf_inv s : Prop := {
  di_len : length (b_bufs s) = 2%nat;
  di_memory : memory_ok s;
  di_chain : chain (b_hist s);
  di_started : b_started s = (published s + match b_writer s with Some _ => 1 | None => 0 end)%nat;
  di_readers : Forall (reader_ok s) (b_readers s) }.

Lemma buf_alter s f i j : i <> j -> nth i (alter f j (b_bufs s)) RawSnap0 = buf s i.
Proof. intros H. unfold buf. rewrite !nth_lookup. by rewrite list_lookup_alter_ne by done. Qed.
Lemma buf_alter_eq s f i : (i < length (b_bufs s))%nat -> nth i (alter f i (b_bufs s)) RawSnap0 = f (buf s i).
Proof.
  intros H. unfold buf. rewrite !nth_lookup, list_lookup_alter_eq.
  destruct (lookup_lt_is_Some_2 _ _ H) as [x ->]. done.
Qed.
Lemma published_app s st : b_hist s <> [] -> pred (length (b_hist s ++ [st])) = S (published s).
Proof. unfold published. rewrite length_app. destruct (b_hist s); cbn; [done|lia]. Qed.
Lemma hist_nonempty s : memory_ok s -> b_hist s <> [].
Proof. intros (st & H & _) E. by rewrite E in H. Qed.

(** A reader keeps what it has when its buffer, the history and the counts allow. *)
Lemma snap_reader_keep s s' r : reader_ok s r -> (published s <= published s')%nat ->
  (forall m b p0 p, r = RdRun m b p0 p -> (b_started s' <= S m)%nat ->
     (b_started s <= S m)%nat /\
     (b = (if decide (published s = m) then b_active s else 1 - b_active s)%nat ->
      b = (if decide (published s' = m) then b_active s' else 1 - b_active s')%nat /\ buf s' b = buf s b) /\
     (forall st, b_hist s !! m = Some st -> b_hist s' !! m = Some st)) ->
  reader_ok s' r.
Proof.
  intros Hr Hp H. destruct r as [|m b p0 p]; [done|]. destruct Hr as [Hm Hr]. split; [lia|]. intros Hst.
  destruct (H m b p0 p eq_refl Hst) as (H1 & H2 & H3). destruct (Hr H1) as (Hb & Hraw & Hrun & st & Hh & Hv).
  destruct (H2 Hb) as [Hb' ->]. split; [done|]. split; [done|]. split; [done|]. exists st. auto.
Qed.

Lemma active_lt s : memory_ok s -> (b_active s < 2)%nat.
Proof. intros (st & _ & [_ H] & <- & _). done. Qed.

Lemma publish_spec s e : length (b_bufs s) = 2%nat -> memory_ok s -> b_writer s = Some (e, []) ->
  let st' := MkFwd (map view (b_bufs s)) (1 - b_active s) in
  exists st, last (b_hist s) = Some st /\ refresh_spec e st = Some st' /\ fwd_ok st' /\
    raw_ok (buf s (1 - b_active s)) /\ view (buf s (1 - b_active s)) = snapshot st' /\
    raw_ok (buf s (b_active s)) /\ view (buf s (b_active s)) = nth (b_active s) (snap_ st') L2Snapshot0.
Proof.
  intros Hlen (st & Hl & Hok & Ha & Hr & Hv & Hw) Ew st'. rewrite Ew in Hw.
  destruct Hw as (r0 & dn & Hr0 & Hv0 & Hs & Hb). rewrite app_nil_r in Hs.
  destruct (refresh_refines e r0 dn st Hr0 Hok Hv0 Hs) as [Hraw Hspec]. rewrite <- Hb in Hraw, Hspec.
  exists st. split; [done|]. destruct Hok as [Hsl Hact]. unfold snapshot in Hv. rewrite Ha in *.
  destruct (b_bufs s) as [|x [|y [|]]] eqn:Eb; try done. destruct (snap_ st) as [|u [|v [|]]] eqn:Es; try done.
  unfold buf in *. rewrite Eb in *.
  assert (refresh_spec e st = Some st') as Hspec'.
  { rewrite Hspec. subst st'. destruct (b_active s) as [|[|]]; [| |lia]; cbn in *; by rewrite Hv. }
  split; [exact Hspec'|]. split; [split; [done|cbn; lia]|]. split; [exact Hraw|].
  destruct (b_active s) as [|[|]]; [| |lia]; cbn; done.
Qed.

Lemma chain_app h st st' e : chain h -> last h = Some st -> refresh_spec e st = Some st' -> chain (h ++ [st']).
Proof.
  intros [H0 Hc] Hl He. split; [by rewrite lookup_app_l by (by eapply lookup_lt_Some)|].
  intros n a b Ha Hb. apply lookup_app_Some in Hb as [Hb|[Hle Hb]].
  - apply (Hc n a b); [|done]. rewrite lookup_app_l in Ha; [done|]. apply lookup_lt_Some in Hb. lia.
  - apply list_lookup_singleton_Some in Hb as [Hn <-].
    assert (n = pred (length h)) as -> by (destruct h; [by rewrite last_nil in Hl|cbn in *; lia]).
    rewrite last_lookup in Hl. rewrite lookup_app_l, Hl in Ha by (by eapply lookup_lt_Some).
    injection Ha as <-. by exists e.
Qed.

Lemma dbuf_step_inv s s' : dbuf_inv s -> dbuf_step s s' -> dbuf_inv s'.
Proof.
  intros [Hlen Hmem Hch Hst Hrd] Hs. pose proof (active_lt s Hmem) as Hact. pose proof (hist_nonempty s Hmem) as Hne.
  destruct Hs as [e l Hw Hl|e w l Hw|e Hw|j r p Hj Ha|j m b p0 c k Hj]; rewrite ?Hw in Hst.
  - split; [done| |done|unfold published in *; cbn; lia|].
    + destruct Hmem as (st & Hls & Hok & Hac & Hr & Hv & Hwr). rewrite Hw in Hwr. exists st.
      repeat (split; [done|]). cbn. destruct Hwr as [H1 H2].
      exists (buf s (1 - b_active s)), []. done.
    + eapply Forall_impl; [exact Hrd|]. intros r Hr. eapply snap_reader_keep; [exact Hr|done|].
      intros m b p0 p -> Hle. cbn in Hle. split; [lia|]. done.
  - split; [cbn; by rewrite length_alter| |done|unfold published in *; cbn; lia|].
    + destruct Hmem as (st & Hls & Hok & Hac & Hr & Hv & Hwr). rewrite Hw in Hwr.
      destruct Hwr as (r0 & dn & Hr0 & Hv0 & Hs & Hb). exists st. unfold buf in *. cbn.
      rewrite (buf_alter s) by lia. repeat (split; [done|]). exists r0, (dn ++ [w]).
      split; [done|]. split; [done|]. split; [by rewrite <- app_assoc|].
      rewrite (buf_alter_eq s) by lia. unfold buf. rewrite Hb, fold_left_app. done.
    + eapply Forall_impl; [exact Hrd|]. intros r Hr. eapply snap_reader_keep; [exact Hr|done|].
      intros m b p0 p -> Hle. cbn in Hle. split; [done|]. split; [|done]. intros ->. split; [done|].
      destruct Hr as [Hm _]. rewrite decide_True by lia. by apply (buf_alter s); lia.
  - destruct (publish_spec s e Hlen Hmem Hw) as (st & Hls & Hspec & Hok & Hr & Hv & Hr' & Hv').
    pose proof (published_app s (MkFwd (map view (b_bufs s)) (1 - b_active s)) Hne) as Hpub.
    split; [done| |by eapply chain_app|unfold published in *; cbn; lia|].
    + eexists. cbn [b_hist b_active b_writer]. split; [by rewrite last_snoc|]. split; [done|]. split; [done|].
      split; [done|]. split; [done|]. cbn [active_]. replace (1 - (1 - b_active s))%nat with (b_active s) by lia. done.
    + eapply Forall_impl; [exact Hrd|]. intros r Hrk. eapply snap_reader_keep; [exact Hrk|unfold published in *; cbn; lia|].
      intros m b p0 p -> Hle. destruct Hrk as [Hm _]. cbn in Hle. split; [done|]. split.
      * intros ->. rewrite decide_True by lia. unfold published. cbn [b_hist b_active]. rewrite Hpub.
        rewrite decide_False by lia. split; [lia|done].
      * intros st0 H0. cbn. by rewrite lookup_app_l by (by eapply lookup_lt_Some).
  - split; [done|exact Hmem|done|done|]. apply Forall_insert.
    + eapply Forall_impl; [exact Hrd|]. intros r' Hr'. by destruct r'.
    + destruct Hmem as (st & Hls & Hok & Hac & Hr & Hv & _). split; [done|]. intros _.
      rewrite decide_True by done. split; [done|]. split; [done|]. split; [done|]. exists st. split; [|done].
      by rewrite last_lookup in Hls.
  - split; [done|exact Hmem|done|done|]. pose proof (Forall_lookup_1 _ _ _ _ Hrd Hj) as Hr. apply Forall_insert.
    + eapply Forall_impl; [exact Hrd|]. intros r' Hr'. by destruct r'.
    + destruct Hr as [Hm Hr]. split; [done|]. intros Hle. destruct (Hr Hle) as (Hb & Hraw & Hrun & Hh). done.
Qed.

Lemma dbuf0_inv n : dbuf_inv (dbuf0 n).
Proof.
  assert (view RawSnap0 = L2Snapshot0) as Hv by done.
  assert (raw_ok RawSnap0) as Hr by (split; [done|cbn; lia]).
  split; [done| |split; [done|by intros [|] st st' _]|done|].
  - exists ForwardingState0. split; [done|]. split; [split; [done|cbn; lia]|]. done.
  - apply Forall_replicate. done.
Qed.
Lemma dbuf_reachable n s : rtc dbuf_step (dbuf0 n) s -> dbuf_inv s.
Proof. apply rtc_invariant; [|apply dbuf0_inv]. intros a b Ha Hs. by eapply dbuf_step_inv. Qed.
End Interleaving.

(** C28: the workers never see a half-built L2 snapshot.  Whatever the interleaving of the
    stores of successive refreshes with the loads of any number of readers: what is
    published is, one after the other, exactly what the atomic [refresh_l2] would publish;
    and a lookup finished before the second refresh after the publication it started from
    has begun (refreshes are 5 s apart) returns what it would return on that published
    snapshot as a whole: on the LAN-to-WAN side the WAN interface's address and the next
    hop, on the WAN-to-LAN side the LAN interface's address and the neighbour's. *)
Theorem snapshot_reads_whole {K} (kern : Kernel K) (n : nat) (s : dbuf K)
    (Hreach : rtc (dbuf_step kern) (dbuf0 n) s) :
  (b_hist s !! 0%nat = Some ForwardingState0 /\
   forall i st st', b_hist s !! i = Some st -> b_hist s !! S i = Some st' -> exists e, refresh_spec kern e st = Some st') /\
  forall j m b p0 a, b_readers s !! j = Some (RdRun m b p0 (Ret a)) -> (b_started s <= S m)%nat ->
    exists st, b_hist s !! m = Some st /\
      (forall dst, p0 = lan_to_wan_prog dst ->
         a = if ready (snapshot st) then Some (wan_hw (snapshot st), wan_next_hop (snapshot st) dst) else None) /\
      (forall dst, p0 = wan_to_lan_prog dst ->
         a = if ready (snapshot st)
             then Some (match find_mac (arp (snapshot st)) dst with
                        | Some m => (lan_hw (snapshot st), Some m) | None => ([], None) end)
             else None).
Proof.
  destruct (dbuf_reachable kern n s Hreach) as [_ _ Hch _ Hrd]. split; [exact Hch|].
  intros j m b p0 a Hj Hle. destruct (Forall_lookup_1 _ _ _ _ Hrd Hj) as [_ Hr].
  destruct (Hr Hle) as (_ & Hraw & Hrun & st & Hh & Hv). exists st. split; [done|]. cbn [run] in Hrun.
  rewrite <- Hv. split; intros dst ->.
  - rewrite Hrun, lan_to_wan_run by done. done.
  - rewrite Hrun, wan_to_lan_run by done. done.
Qed.

(** One refresh published, one lookup on it that overlaps the next refresh. *)
Definition w_env : refresh_env unit :=
  MkEnv Config0 tt (Some w_route) (Some (arp_table (str "IP address") w_neighbours)).
Definition run_store {K} (s : dbuf K) : dbuf K :=
  match b_writer s with
  | Some (e, w :: l) => Dbuf (alter (fun r => do_store r w) (1 - b_active s)%nat (b_bufs s)) (b_active s) (Some (e, l))
                          (b_readers s) (b_started s) (b_hist s)
  | _ => s
  end.
Definition run_load {K} (j : nat) (s : dbuf K) : dbuf K :=
  match b_readers s !! j with
  | Some (RdRun m b p0 (Load c k)) => set_reader s j (RdRun m b p0 (k (do_load (buf s b) c)))
  | _ => s
  end.
Definition run_refresh {K} (kern : Kernel K) (e : refresh_env K) (s : dbuf K) : dbuf K :=
  match b_writer s, refresh_stores kern e (buf s (1 - b_active s)) with
  | None, Some l => Dbuf (b_bufs s) (b_active s) (Some (e, l)) (b_readers s) (S (b_started s)) (b_hist s)
  | _, _ => s
  end.
Definition run_publish {K} (s : dbuf K) : dbuf K :=
  match b_writer s with
  | Some (_, []) => Dbuf (b_bufs s) (1 - b_active s) None (b_readers s) (b_started s)
                      (b_hist s ++ [MkFwd (map view (b_bufs s)) (1 - b_active s)])
  | _ => s
  end.
Definition run_acquire {K} (j : nat) (p0 p : prog lookup_result) (s : dbuf K) : dbuf K :=
  match b_readers s !! j with
  | Some RdIdle => set_reader s j (RdRun (published s) (b_active s) p0 p)
  | _ => s
  end.
Inductive dbuf_run {K} (kern : Kernel K) : (dbuf K -> dbuf K) -> Prop :=
  | rn_store : dbuf_run kern run_store | rn_publish : dbuf_run kern run_publish
  | rn_load j : dbuf_run kern (run_load j) | rn_refresh e : dbuf_run kern (run_refresh kern e)
  | rn_acquire j p : dbuf_run kern (run_acquire j p p).
Lemma run_dbuf_steps {K} (kern : Kernel K) (q s : dbuf K) f n : dbuf_run kern f -> rtc (dbuf_step kern) q s ->
  rtc (dbuf_step kern) q (Nat.iter n f s).
Proof.
  intros Hf H. induction n as [|n IH]; [done|]. change (Nat.iter (S n) f s) with (f (Nat.iter n f s)).
  generalize dependent (Nat.iter n f s). clear s H n. intros s H.
  assert (f s = s \/ dbuf_step kern s (f s)) as [->|Hs]; [|done|by eapply rtc_r].
  destruct Hf as [| |j|e|j p].
  - unfold run_store. destruct (b_writer s) as [[e [|w l]]|] eqn:E; [by left| |by left]. right. by eapply d_store.
  - unfold run_publish. destruct (b_writer s) as [[e [|w l]]|] eqn:E; [|by left|by left]. right. by eapply d_publish.
  - unfold run_load. destruct (b_readers s !! j) as [[|m b p0 [a|c k]]|] eqn:E; try by left. right. by apply d_load.
  - unfold run_refresh. destruct (b_writer s) eqn:E; [by left|]. destruct (refresh_stores _ _ _) eqn:El; [|by left].
    right. by apply d_begin.
  - unfold run_acquire. destruct (b_readers s !! j) as [[|]|] eqn:E; try by left. right. by eapply d_acquire.
Qed.
Lemma snapshot_reads_whole_witness : exists s p0 st,
  rtc (dbuf_step w_kernel) (dbuf0 1) s /\ b_started s = 2%nat /\
  b_readers s !! 0%nat = Some (RdRun 1 1 p0 (Ret (Some ([2; 0; 0; 0; 0; 1], Some [0; 16; 32; 48; 64; 80])))) /\
  b_hist s !! 1%nat = Some st /\
  Some ([2; 0; 0; 0; 0; 1], Some [0; 16; 32; 48; 64; 80])
  = if ready (snapshot st) then Some (wan_hw (snapshot st), wan_next_hop (snapshot st) 134744072) else None.
Proof.
  set (prog := lan_to_wan_prog 134744072).
  set (s1 := Nat.iter 1 run_publish (Nat.iter 30 run_store (Nat.iter 1 (run_refresh w_kernel w_env) (dbuf0 1)))).
  set (s2 := fun p0 => Nat.iter 3 (run_load 0) (Nat.iter 1 (run_refresh w_kernel w_env)
               (Nat.iter 1 (run_acquire 0 p0 prog) s1))).
  set (s := fun p0 => Nat.iter 9 (run_load 0) (Nat.iter 2 run_store (s2 p0))).
  assert (rtc (dbuf_step w_kernel) (dbuf0 1) (s prog)) as Hr.
  { unfold s, s2, s1. clearbody prog. do 8 (apply run_dbuf_steps; [constructor|]). apply rtc_refl. }
  assert (forall p0, b_readers (s p0) !! 0%nat = Some (RdRun 1 1 p0
    (Ret (Some ([2; 0; 0; 0; 0; 1], Some [0; 16; 32; 48; 64; 80]))))) as Hj by (intros p0; vm_compute; reflexivity).
  assert (forall p0, b_started (s p0) = 2%nat) as Hst by (intros p0; vm_compute; reflexivity).
  specialize (Hj prog). specialize (Hst prog). generalize dependent (s prog). clear s s1 s2. intros s Hr Hj Hst.
  destruct (proj2 (snapshot_reads_whole w_kernel 1 s Hr) 0%nat 1%nat 1%nat _ _ Hj ltac:(by rewrite Hst)) as (st & Hh & Hl & _).
  exists s, prog, st. split; [exact Hr|]. split; [exact Hst|]. split; [exact Hj|]. split; [exact Hh|].
  exact (Hl _ eq_refl).
Defined.
