(* ===== verification/StopTokens.v ===== *)
(** Shutdown of the thread groups ([ControlPlane.cpp], [Forward_Engine] of [App.cpp]).

    Both groups stop the same way: [running_] is cleared, a number is written to an eventfd
    in semaphore mode, and the threads are joined. Each thread polls that descriptor and,
    when it is readable, takes one unit with a blocking [eventfd_read] and ends. The step
    relation interleaves the threads and the stopping thread at the granularity of these
    actions; what a thread does between polls is one step. *)
From Stdlib Require Import Lia.
From stdpp Require Import base list numbers relations.
From S2P Require Import Prelude.
#[local] Open Scope nat_scope.

(** Where a service or worker thread is. *)
Inductive thread_pc :=
  | TLoop   (* at the loop condition, [running_.load()] *)
  | TPoll   (* in [poll] *)
  | TRead   (* the stop descriptor was readable: about to [eventfd_read] it *)
  | TWork   (* a period elapsed or another descriptor was readable *)
  | TExit.
#[global] Instance thread_pc_eq_dec : EqDecision thread_pc.
Proof. solve_decision. Defined.

(** Where the thread that calls [stop] is. *)
Inductive stop_pc := SRunning | SCleared | SWoken | SJoined.

Record group := Group { g_running : bool; g_tokens : nat; g_threads : list thread_pc; g_stop : stop_pc }.

(** A group: how many threads share the descriptor and how much [stop] writes to it. *)
Record stop_system := StopSystem { ss_threads : nat; ss_wake : nat }.

(** [WATCHDOG_SERVICE_COUNT] service threads and the control event thread. *)
Definition WATCHDOG_SERVICE_COUNT : nat := 6.
Definition control_group : stop_system := StopSystem (WATCHDOG_SERVICE_COUNT + 1) (WATCHDOG_SERVICE_COUNT + 1).
(** Each worker of the data plane: a receive and a processing thread. *)
Definition worker_group : stop_system := StopSystem 2 2.

(** One action of a thread; [tok] are the units in the descriptor. A poll that returns
    while the descriptor is readable reports it, whatever else is ready; only an
    interrupted poll does not. *)
Inductive thread_step (running : bool) (tok : nat) : thread_pc -> thread_pc -> nat -> Prop :=
  | ts_continue : running = true -> thread_step running tok TLoop TPoll tok
  | ts_leave : running = false -> thread_step running tok TLoop TExit tok
  | ts_stop_seen : 0 < tok -> thread_step running tok TPoll TRead tok
  | ts_event : tok = 0 -> thread_step running tok TPoll TWork tok
  | ts_eintr : thread_step running tok TPoll TLoop tok
  | ts_eintr_period : thread_step running tok TPoll TWork tok
  | ts_poll_failed : thread_step running tok TPoll TExit tok
  | ts_read : 0 < tok -> thread_step running tok TRead TExit (tok - 1)
  | ts_work : thread_step running tok TWork TLoop tok
  | ts_recheck : running = false -> thread_step running tok TWork TExit tok.

Section Group.
Context (sys : stop_system).

Inductive group_step : group -> group -> Prop :=
  | gs_thread r tok ts sp i pc pc' tok' :
      ts !! i = Some pc -> thread_step r tok pc pc' tok' ->
      group_step (Group r tok ts sp) (Group r tok' (<[i := pc']> ts) sp)
  | gs_clear tok ts : group_step (Group true tok ts SRunning) (Group false tok ts SCleared)
  | gs_wake tok ts : group_step (Group false tok ts SCleared) (Group false (tok + ss_wake sys) ts SWoken)
  | gs_join tok ts : Forall (fun pc => pc = TExit) ts ->
      group_step (Group false tok ts SWoken) (Group false tok ts SJoined).

Definition started : group := Group true 0 (replicate (ss_threads sys) TLoop) SRunning.

(** ** Invariant *)
Definition live (pc : thread_pc) : bool := match pc with TExit => false | _ => true end.
Definition alive (ts : list thread_pc) : nat := length (List.filter live ts).

(** Before the write no unit exists and nobody reads; after it there is a unit for every
    thread that has not ended. *)
Definition group_inv (g : group) : Prop :=
  match g_stop g with
  | SRunning => g_running g = true /\ g_tokens g = 0 /\ Forall (fun pc => pc <> TRead) (g_threads g) /\
                length (g_threads g) = ss_threads sys
  | SCleared => g_running g = false /\ g_tokens g = 0 /\ Forall (fun pc => pc <> TRead) (g_threads g) /\
                length (g_threads g) = ss_threads sys
  | SWoken => g_running g = false /\ alive (g_threads g) <= g_tokens g
  | SJoined => g_running g = false /\ Forall (fun pc => pc = TExit) (g_threads g)
  end.

Lemma alive_insert ts i pc pc' : ts !! i = Some pc ->
  alive (<[i := pc']> ts) + (if live pc then 1 else 0) = alive ts + (if live pc' then 1 else 0).
Proof.
  unfold alive. revert i. induction ts as [|t ts IH]; intros [|i] Hi; simpl in *; try done.
  - injection Hi as ->. destruct (live pc), (live pc'); simpl; lia.
  - specialize (IH i Hi). destruct (live t); simpl; lia.
Qed.
Lemma alive_le ts : alive ts <= length ts.
Proof. unfold alive. induction ts; simpl; [lia|]. destruct (live a); simpl; lia. Qed.
Lemma thread_live r tok pc pc' tok' : thread_step r tok pc pc' tok' -> live pc = true.
Proof. by inversion 1. Qed.

Context (Hwake : ss_threads sys <= ss_wake sys).

Lemma group_inv_step g g' : group_inv g -> group_step g g' -> group_inv g'.
Proof.
  intros Hi Hs. destruct Hs as [r tok ts sp i pc pc' tok' Hl Ht|tok ts|tok ts|tok ts Hall]; unfold group_inv in *; simpl in *.
  - pose proof (alive_insert ts i pc pc' Hl) as Ha. rewrite (thread_live _ _ _ _ _ Ht) in Ha. destruct sp.
    + destruct Hi as (-> & -> & Hr & Hn). rewrite length_insert.
      assert (pc <> TRead) as Hne by (by apply (Forall_lookup_1 _ _ _ _ Hr Hl)).
      inversion Ht; subst; try done; try lia;
        (split_and!; [done|done|by apply Forall_insert|done]).
    + destruct Hi as (-> & -> & Hr & Hn). rewrite length_insert.
      assert (pc <> TRead) as Hne by (by apply (Forall_lookup_1 _ _ _ _ Hr Hl)).
      inversion Ht; subst; try done; try lia;
        (split_and!; [done|done|by apply Forall_insert|done]).
    + destruct Hi as (-> & Hle). split; [done|]. inversion Ht; subst; simpl in *; lia.
    + destruct Hi as (_ & Hex). pose proof (Forall_lookup_1 _ _ _ _ Hex Hl) as E. simpl in E. subst pc. inversion Ht.
  - destruct Hi as (_ & ? & ? & ?). done.
  - destruct Hi as (_ & -> & _ & Hn). split; [done|]. pose proof (alive_le ts). lia.
  - by destruct Hi.
Qed.
Lemma reachable_inv g : rtc group_step started g -> group_inv g.
Proof.
  apply rtc_invariant; [apply group_inv_step|].
  unfold group_inv, started. simpl. split_and!; [done|done|by apply Forall_replicate|apply length_replicate].
Qed.

(** ** After the write every action leads out *)
Definition weight (pc : thread_pc) : nat :=
  match pc with TExit => 0 | TLoop | TRead => 1 | TWork => 2 | TPoll => 3 end.
Definition total (ts : list thread_pc) : nat := sum_list_with weight ts.
Definition remaining (g : group) : nat :=
  total (g_threads g) + match g_stop g with SJoined => 0 | _ => 1 end.

Lemma total_insert ts i pc pc' : ts !! i = Some pc ->
  total (<[i := pc']> ts) + weight pc = total ts + weight pc'.
Proof.
  unfold total. revert i. induction ts as [|t ts IH]; intros [|i] Hi; simpl in *; try done.
  - injection Hi as ->. lia.
  - specialize (IH i Hi). lia.
Qed.
Lemma leaving_decreases tok pc pc' tok' : thread_step false tok pc pc' tok' -> weight pc' < weight pc.
Proof. inversion 1; simpl; lia || done. Qed.

Definition stopping (g : group) : Prop := g_stop g = SWoken \/ g_stop g = SJoined.
Lemma stopping_step g g' : group_inv g -> stopping g -> group_step g g' -> stopping g' /\ remaining g' < remaining g.
Proof.
  intros Hi Hst Hs. assert (g_running g = false) as Hrun.
  { unfold group_inv in Hi. destruct Hst as [E|E]; rewrite E in Hi; apply Hi. }
  destruct Hs as [r tok ts sp i pc pc' tok' Hl Ht|tok ts|tok ts|tok ts Hall]; simpl in *.
  - subst r. pose proof (total_insert ts i pc pc' Hl). pose proof (leaving_decreases _ _ _ _ Ht).
    split; [done|]. unfold remaining. simpl. lia.
  - by destruct Hst.
  - by destruct Hst.
  - split; [by right|]. unfold remaining. simpl. lia.
Qed.

Lemma stopping_sn g : group_inv g -> stopping g -> sn group_step g.
Proof.
  remember (remaining g) as n eqn:En. revert g En. induction (lt_wf n) as [n _ IH]. intros g -> Hi Hst.
  constructor. intros g' Hs. destruct (stopping_step g g' Hi Hst Hs) as [Hst' Hlt].
  eapply IH; [exact Hlt|done|by eapply group_inv_step|done].
Qed.

(** No thread that has not ended waits: in particular a read finds its unit. *)
Lemma thread_not_blocked g i pc : group_inv g -> g_stop g = SWoken -> g_threads g !! i = Some pc -> pc <> TExit ->
  exists pc' tok', thread_step (g_running g) (g_tokens g) pc pc' tok'.
Proof.
  intros Hi Hst Hl Hne. unfold group_inv in Hi. rewrite Hst in Hi. destruct Hi as [Hr Ha].
  assert (0 < g_tokens g) as Htok.
  { pose proof (alive_insert (g_threads g) i pc TExit Hl) as E. destruct pc; simpl in E; try done; lia. }
  rewrite Hr. destruct pc; try done; eexists _, _; by constructor.
Qed.

Lemma stuck_joined g : group_inv g -> stopping g -> nf group_step g ->
  g_stop g = SJoined /\ Forall (fun pc => pc = TExit) (g_threads g).
Proof.
  intros Hi [Hst|Hst] Hnf.
  - exfalso. assert (Forall (fun pc => pc = TExit) (g_threads g)) as Hall.
    { apply Forall_lookup_2. intros i pc Hl. destruct (decide (pc = TExit)) as [|Hne]; [done|].
      destruct (thread_not_blocked g i pc Hi Hst Hl Hne) as (pc' & tok' & Ht). destruct Hnf.
      destruct g as [r tok ts sp]. eexists. by eapply gs_thread. }
    unfold group_inv in Hi. rewrite Hst in Hi. destruct Hi as [Hr _]. destruct Hnf.
    destruct g as [r tok ts sp]. simpl in *. subst. eexists. by apply gs_join.
  - split; [done|]. unfold group_inv in Hi. rewrite Hst in Hi. apply Hi.
Qed.
End Group.

(** C13: [stop] always returns.  In the control plane (seven threads on one descriptor) and
    in each data-plane worker (two threads), in every reachable state after [stop] has
    written the descriptor: no thread that has not ended is blocked (a thread that saw the
    descriptor readable never finds it drained by the others), every continuation is
    finite, and one that cannot continue has ended all threads and returned from the
    join. *)
Theorem stop_returns (sys : stop_system) (g : group)
    (Hsys : sys = control_group \/ sys = worker_group)
    (Hreach : rtc (group_step sys) (started sys) g) (Hwoken : g_stop g = SWoken) :
  (forall i pc, g_threads g !! i = Some pc -> pc <> TExit ->
     exists pc' tok', thread_step (g_running g) (g_tokens g) pc pc' tok') /\
  sn (group_step sys) g /\
  (forall g', rtc (group_step sys) g g' -> nf (group_step sys) g' ->
     g_stop g' = SJoined /\ Forall (fun pc => pc = TExit) (g_threads g')).
Proof.
  assert (ss_threads sys <= ss_wake sys) as Hw by (destruct Hsys as [-> | ->]; simpl; lia).
  pose proof (reachable_inv sys Hw g Hreach) as Hi. split_and!.
  - intros i pc. by apply (thread_not_blocked sys).
  - apply stopping_sn; [done|done|by left].
  - intros g' Hr Hnf. assert (group_inv sys g' /\ stopping g') as [Hi' Hst'].
    { apply (rtc_invariant (group_step sys) (fun g => group_inv sys g /\ stopping g) g); [|by split; [|left]|done].
      intros a b [Ha Hsa] Hab. split; [by eapply group_inv_step|by eapply stopping_step]. }
    by apply (stuck_joined sys).
Qed.

Definition w_woken : group := Group false 2 [TPoll; TLoop] SWoken.
Lemma stop_returns_witness :
  rtc (group_step worker_group) (started worker_group) w_woken /\
  sn (group_step worker_group) w_woken.
Proof.
  assert (rtc (group_step worker_group) (started worker_group) w_woken) as Hr.
  { eapply rtc_l; [apply (gs_thread _ true 0 [TLoop; TLoop] SRunning 0 TLoop TPoll 0 eq_refl (ts_continue _ _ eq_refl))|].
    eapply rtc_l; [apply gs_clear|]. eapply rtc_l; [apply gs_wake|]. apply rtc_refl. }
  split; [exact Hr|].
  exact (proj1 (proj2 (stop_returns worker_group w_woken (or_intror eq_refl) Hr eq_refl))).
Defined.

(** Why the write is 2 and not 1: with one unit for two readers a state is reachable, after
    both have seen the descriptor readable, where one of them waits for ever. *)
Example one_token_deadlocks : exists g,
  rtc (group_step (StopSystem 2 1)) (started (StopSystem 2 1)) g /\
  g_threads g = [TExit; TRead] /\ nf (group_step (StopSystem 2 1)) g.
Proof.
  exists (Group false 0 [TExit; TRead] SWoken). split; [|split; [done|]].
  - eapply rtc_l; [apply (gs_thread _ true 0 [TLoop; TLoop] SRunning 0 TLoop TPoll 0 eq_refl (ts_continue _ _ eq_refl))|].
    eapply rtc_l; [apply (gs_thread _ true 0 [TPoll; TLoop] SRunning 1 TLoop TPoll 0 eq_refl (ts_continue _ _ eq_refl))|].
    eapply rtc_l; [apply gs_clear|]. eapply rtc_l; [apply gs_wake|]. simpl.
    eapply rtc_l; [apply (gs_thread _ false 1 [TPoll; TPoll] SWoken 0 TPoll TRead 1 eq_refl (ts_stop_seen false 1 (le_n 1)))|].
    eapply rtc_l; [apply (gs_thread _ false 1 [TRead; TPoll] SWoken 1 TPoll TRead 1 eq_refl (ts_stop_seen false 1 (le_n 1)))|].
    eapply rtc_l; [apply (gs_thread _ false 1 [TRead; TRead] SWoken 0 TRead TExit 0 eq_refl (ts_read false 1 (le_n 1)))|].
    apply rtc_refl.
  - intros [g' Hs]. inversion Hs as [? ? ? ? i pc pc' tok' Hl Ht| | |? ? Hall]; subst.
    + destruct i as [|[|i]]; simpl in Hl; simplify_eq; inversion Ht; lia.
    + by repeat (apply Forall_cons in Hall as [? Hall]).
Qed.
