(* ===== verification/QosService.v ===== *)
(** The QoS service ([QosController::tick1Hz]) and its lock-free handshake with the GUI
    ([QosPage::on_apply_global_bw]): the GUI stores the two pending limits and then a dirty
    flag; the service takes the flag, then reads and applies the limits. *)
From Stdlib Require Import ZArith Lia QArith.
From stdpp Require Import base numbers list relations.
From S2P Require Import Prelude Telemetry TxFrame Rings Scheduler.
#[local] Open Scope Z_scope.

(** * The service *)
(** [base_dl_] and [base_ul_] of the control plane, and [ENABLE_ACCELERATION]. *)
Record QosController := MkQosC {
  qc_accel : bool; qc_base_dl : Q; qc_base_ul : Q;
  qc_shaper_dl : option Shaper.t; qc_shaper_ul : option Shaper.t }.

Definition qos_mode_tick (tel : Telemetry) (q : QosController) : Telemetry * QosController :=
  let m := mode tel in
  if mode_config_dirty m then
    let accel_on := acceleration_pending m in
    (set_mode tel (MkMode (negb accel_on) accel_on false accel_on),
     MkQosC accel_on (qc_base_dl q) (qc_base_ul q) (qc_shaper_dl q) (qc_shaper_ul q))
  else (tel, q).

Definition qos_rate_tick (tel : Telemetry) (q : QosController) : Telemetry * QosController :=
  let s := qos tel in
  if qos_global_bw_dirty s then
    let dl := qos_global_dl_mbps_pending s in
    let ul := qos_global_ul_mbps_pending s in
    (set_qos tel (MkQos false dl ul dl ul),
     MkQosC (qc_accel q) dl ul
       (option_map (Shaper.set_rate_limit dl) (qc_shaper_dl q))
       (option_map (Shaper.set_rate_limit ul) (qc_shaper_ul q)))
  else (tel, q).

Definition qos_tick1Hz (tel : Telemetry) (q : QosController) : Telemetry * QosController :=
  let '(tel, q) := qos_mode_tick tel q in qos_rate_tick tel q.

(** * The handshake under interleaving *)
(** Shared variables: the telemetry's limits and the rate each shaper was last asked for. *)
Record shared := Shared {
  s_dl : Q; s_ul : Q; s_dirty : bool;      (* pending, written by the GUI *)
  s_eff_dl : Q; s_eff_ul : Q;              (* effective, read back by the GUI *)
  s_rate_dl : Q; s_rate_ul : Q }.          (* set_rate_limit of the two shapers *)

(** Inside [on_apply_global_bw]: the stores still to make. *)
Inductive gui_pc := GIdle | GStoreDl (dl ul : Q) | GStoreUl (ul : Q) | GStoreDirty.
(** Inside the tick: after the exchange found the flag set, one load or store each. *)
Inductive svc_pc :=
  | VIdle | VLoadDl | VLoadUl (dl : Q) | VEffDl (dl ul : Q) | VEffUl (dl ul : Q)
  | VRateDl (dl ul : Q) | VRateUl (ul : Q).

Record qstate := QState { q_sh : shared; q_gui : gui_pc; q_svc : svc_pc }.

Inductive qos_step : qstate -> qstate -> Prop :=
  | qs_apply dl ul sh v : qos_step (QState sh GIdle v) (QState sh (GStoreDl dl ul) v)
  | qs_store_dl dl ul a b d ea eb ra rb v :
      qos_step (QState (Shared a b d ea eb ra rb) (GStoreDl dl ul) v)
               (QState (Shared dl b d ea eb ra rb) (GStoreUl ul) v)
  | qs_store_ul ul a b d ea eb ra rb v :
      qos_step (QState (Shared a b d ea eb ra rb) (GStoreUl ul) v)
               (QState (Shared a ul d ea eb ra rb) GStoreDirty v)
  | qs_store_dirty a b d ea eb ra rb v :
      qos_step (QState (Shared a b d ea eb ra rb) GStoreDirty v)
               (QState (Shared a b true ea eb ra rb) GIdle v)
  | qs_clean a b ea eb ra rb g :
      qos_step (QState (Shared a b false ea eb ra rb) g VIdle) (QState (Shared a b false ea eb ra rb) g VIdle)
  | qs_exchange a b ea eb ra rb g :
      qos_step (QState (Shared a b true ea eb ra rb) g VIdle) (QState (Shared a b false ea eb ra rb) g VLoadDl)
  | qs_load_dl a b d ea eb ra rb g :
      qos_step (QState (Shared a b d ea eb ra rb) g VLoadDl) (QState (Shared a b d ea eb ra rb) g (VLoadUl a))
  | qs_load_ul dl a b d ea eb ra rb g :
      qos_step (QState (Shared a b d ea eb ra rb) g (VLoadUl dl)) (QState (Shared a b d ea eb ra rb) g (VEffDl dl b))
  | qs_eff_dl dl ul a b d ea eb ra rb g :
      qos_step (QState (Shared a b d ea eb ra rb) g (VEffDl dl ul)) (QState (Shared a b d dl eb ra rb) g (VEffUl dl ul))
  | qs_eff_ul dl ul a b d ea eb ra rb g :
      qos_step (QState (Shared a b d ea eb ra rb) g (VEffUl dl ul)) (QState (Shared a b d ea ul ra rb) g (VRateDl dl ul))
  | qs_rate_dl dl ul a b d ea eb ra rb g :
      qos_step (QState (Shared a b d ea eb ra rb) g (VRateDl dl ul)) (QState (Shared a b d ea eb dl rb) g (VRateUl ul))
  | qs_rate_ul ul a b d ea eb ra rb g :
      qos_step (QState (Shared a b d ea eb ra rb) g (VRateUl ul)) (QState (Shared a b d ea eb ra ul) g VIdle).

(** As [App::start] leaves it: everything at the pending limits. *)
Definition qstart (dl ul : Q) : qstate := QState (Shared dl ul false dl ul dl ul) GIdle VIdle.

(** What the service has applied so far agrees with the pending limits. *)
Definition agrees (sh : shared) (v : svc_pc) : Prop :=
  match v with
  | VIdle => s_eff_dl sh = s_dl sh /\ s_eff_ul sh = s_ul sh /\ s_rate_dl sh = s_dl sh /\ s_rate_ul sh = s_ul sh
  | VLoadDl => True
  | VLoadUl dl => dl = s_dl sh
  | VEffDl dl ul => dl = s_dl sh /\ ul = s_ul sh
  | VEffUl dl ul => dl = s_dl sh /\ ul = s_ul sh /\ s_eff_dl sh = s_dl sh
  | VRateDl dl ul => dl = s_dl sh /\ ul = s_ul sh /\ s_eff_dl sh = s_dl sh /\ s_eff_ul sh = s_ul sh
  | VRateUl ul => ul = s_ul sh /\ s_eff_dl sh = s_dl sh /\ s_eff_ul sh = s_ul sh /\ s_rate_dl sh = s_dl sh
  end.
Definition qos_inv (s : qstate) : Prop :=
  q_gui s = GIdle -> s_dirty (q_sh s) = false -> agrees (q_sh s) (q_svc s).

Lemma qos_inv_step s s' : qos_inv s -> qos_step s s' -> qos_inv s'.
Proof.
  unfold qos_inv. intros Hi Hs. destruct Hs; simpl in *; intros Hg Hd; try done;
    try (specialize (Hi Hg Hd); naive_solver); subst; naive_solver.
Qed.

(** The service, left to run, ends its tick and applies what is pending. *)
Definition finishes (sh : shared) (v : svc_pc) : Prop :=
  exists sh', rtc qos_step (QState sh GIdle v) (QState sh' GIdle VIdle) /\
    s_dl sh' = s_dl sh /\ s_ul sh' = s_ul sh /\ s_dirty sh' = s_dirty sh /\ agrees sh' VIdle.
Lemma finishes_step sh v sh1 v1 : qos_step (QState sh GIdle v) (QState sh1 GIdle v1) ->
  s_dl sh1 = s_dl sh -> s_ul sh1 = s_ul sh -> s_dirty sh1 = s_dirty sh -> finishes sh1 v1 -> finishes sh v.
Proof.
  intros Hs E1 E2 E3 (sh' & Hr & F1 & F2 & F3 & Ha). exists sh'. split; [by eapply rtc_l|].
  split_and!; [congruence..|done].
Qed.
Lemma svc_finishes sh v : agrees sh v -> finishes sh v.
Proof.
  assert (forall sh, agrees sh VIdle -> finishes sh VIdle) as H0.
  { intros s0 H. exists s0. split; [apply rtc_refl|done]. }
  assert (forall sh ul, agrees sh (VRateUl ul) -> finishes sh (VRateUl ul)) as H1.
  { intros [] ul H. eapply finishes_step; [constructor|done..|]. apply H0. simpl in *. naive_solver. }
  assert (forall sh dl ul, agrees sh (VRateDl dl ul) -> finishes sh (VRateDl dl ul)) as H2.
  { intros [] dl ul H. eapply finishes_step; [constructor|done..|]. apply H1. simpl in *. naive_solver. }
  assert (forall sh dl ul, agrees sh (VEffUl dl ul) -> finishes sh (VEffUl dl ul)) as H3.
  { intros [] dl ul H. eapply finishes_step; [constructor|done..|]. apply H2. simpl in *. naive_solver. }
  assert (forall sh dl ul, agrees sh (VEffDl dl ul) -> finishes sh (VEffDl dl ul)) as H4.
  { intros [] dl ul H. eapply finishes_step; [constructor|done..|]. apply H3. simpl in *. naive_solver. }
  assert (forall sh dl, agrees sh (VLoadUl dl) -> finishes sh (VLoadUl dl)) as H5.
  { intros [] dl H. eapply finishes_step; [constructor|done..|]. apply H4. simpl in *. naive_solver. }
  destruct v; auto. intros _. destruct sh. eapply finishes_step; [constructor|done..|]. by apply H5.
Qed.

(** Whatever it holds, the service reaches the end of its tick. *)
Lemma svc_to_idle sh v : exists sh', rtc qos_step (QState sh GIdle v) (QState sh' GIdle VIdle) /\
  s_dl sh' = s_dl sh /\ s_ul sh' = s_ul sh /\ s_dirty sh' = s_dirty sh.
Proof.
  destruct sh, v; eexists; (split;
    [repeat first [apply rtc_refl | eapply rtc_l; [first [apply qs_load_dl | apply qs_load_ul | apply qs_eff_dl
       | apply qs_eff_ul | apply qs_rate_dl | apply qs_rate_ul]|]]|done]).
Qed.

(** The rate limits a set of shared variables shows the rest of the program. *)
Definition applied (sh : shared) (dl ul : Q) : Prop :=
  s_eff_dl sh = dl /\ s_eff_ul sh = ul /\ s_rate_dl sh = dl /\ s_rate_ul sh = ul.

(** C29: no bandwidth change is lost.  However the GUI's stores and the service's loads and
    stores interleave over any number of changes and ticks: whenever the GUI is not in
    the middle of a change and the flag is clear, the service between two ticks has
    applied exactly the pending limits to the telemetry and to both shapers; and from any
    reachable state where the GUI is idle, the service by itself gets there (finishing
    the tick it is in and, if the flag is set, one more), without touching what is
    pending. *)
Theorem qos_no_lost_update (dl0 ul0 : Q) (s : qstate)
    (Hreach : rtc qos_step (qstart dl0 ul0) s) (Hgui : q_gui s = GIdle) :
  (s_dirty (q_sh s) = false -> q_svc s = VIdle -> applied (q_sh s) (s_dl (q_sh s)) (s_ul (q_sh s))) /\
  exists sh', rtc qos_step s (QState sh' GIdle VIdle) /\ s_dirty sh' = false /\
    applied sh' (s_dl (q_sh s)) (s_ul (q_sh s)).
Proof.
  assert (qos_inv s) as Hi.
  { eapply rtc_invariant; [exact qos_inv_step| |exact Hreach]. by intros _ _. }
  destruct s as [sh g v]. simpl in *. subst g. specialize (Hi eq_refl). simpl in Hi.
  split; [intros Hd ->; by apply Hi|].
  assert (forall sh v, s_dirty sh = false -> agrees sh v -> exists sh',
    rtc qos_step (QState sh GIdle v) (QState sh' GIdle VIdle) /\ s_dirty sh' = false /\
    applied sh' (s_dl sh) (s_ul sh)) as Hclean.
  { intros sh1 v1 Hd Ha. destruct (svc_finishes sh1 v1 Ha) as (sh' & Hr & E1 & E2 & E3 & Hag).
    exists sh'. split; [done|]. split; [congruence|]. unfold applied. simpl in Hag. rewrite <- E1, <- E2. naive_solver. }
  destruct (s_dirty sh) eqn:Ed; [|by apply Hclean; [|apply Hi]].
  destruct (svc_to_idle sh v) as (sh1 & Hr1 & E1 & E2 & E3).
  destruct sh1 as [a b d ea eb ra rb]. simpl in *. rewrite Ed in E3. subst d.
  destruct (Hclean (Shared a b false ea eb ra rb) VLoadDl) as (sh' & Hr & Hd' & Ha); [done|done|].
  exists sh'. split; [|split; [done|by rewrite <- E1, <- E2]].
  transitivity (QState (Shared a b true ea eb ra rb) GIdle VIdle); [exact Hr1|]. eapply rtc_l; [apply qs_exchange|exact Hr].
Qed.
Lemma qos_no_lost_update_witness : exists s, rtc qos_step (qstart 500 50) s /\ q_gui s = GIdle /\
  exists sh', rtc qos_step s (QState sh' GIdle VIdle) /\ s_dirty sh' = false /\ applied sh' 100 20.
Proof.
  (* the GUI changes both limits while the service has just loaded the old download limit *)
  set (s := QState (Shared 100 20 true 500 50 500 50) GIdle (VLoadUl 300)).
  assert (rtc qos_step (qstart 500 50) s) as Hr.
  { eapply rtc_l; [apply (qs_apply 300 50)|]. eapply rtc_l; [apply qs_store_dl|].
    eapply rtc_l; [apply qs_store_ul|]. eapply rtc_l; [apply qs_store_dirty|].
    eapply rtc_l; [apply qs_exchange|]. eapply rtc_l; [apply qs_load_dl|].
    eapply rtc_l; [apply (qs_apply 100 20)|]. eapply rtc_l; [apply qs_store_dl|].
    eapply rtc_l; [apply qs_store_ul|]. eapply rtc_l; [apply qs_store_dirty|]. apply rtc_refl. }
  exists s. split; [exact Hr|]. split; [reflexivity|].
  exact (proj2 (qos_no_lost_update 500 50 s Hr eq_refl)).
Defined.

(** The tick of the sequential model is the service's steps run without interruption. *)
Lemma qos_rate_tick_steps tel q sdl sul : qc_shaper_dl q = Some sdl -> qc_shaper_ul q = Some sul ->
  qos_global_bw_dirty (qos tel) = true -> forall ra rb,
  let s := qos tel in
  let '(tel', q') := qos_rate_tick tel q in
  rtc qos_step
    (QState (Shared (qos_global_dl_mbps_pending s) (qos_global_ul_mbps_pending s) true
       (effective_qos_global_dl_mbps s) (effective_qos_global_ul_mbps s) ra rb) GIdle VIdle)
    (QState (Shared (qos_global_dl_mbps_pending (qos tel')) (qos_global_ul_mbps_pending (qos tel'))
       (qos_global_bw_dirty (qos tel'))
       (effective_qos_global_dl_mbps (qos tel')) (effective_qos_global_ul_mbps (qos tel'))
       (qc_base_dl q') (qc_base_ul q')) GIdle VIdle) /\
  qc_shaper_dl q' = Some (Shaper.set_rate_limit (qc_base_dl q') sdl) /\
  qc_shaper_ul q' = Some (Shaper.set_rate_limit (qc_base_ul q') sul).
Proof.
  intros Hdl Hul Hd ra rb s. unfold qos_rate_tick. fold s in Hd |- *. rewrite Hd, Hdl, Hul. cbn.
  split; [|done].
  eapply rtc_l; [apply qs_exchange|]. eapply rtc_l; [apply qs_load_dl|]. eapply rtc_l; [apply qs_load_ul|].
  eapply rtc_l; [apply qs_eff_dl|]. eapply rtc_l; [apply qs_eff_ul|]. eapply rtc_l; [apply qs_rate_dl|].
  eapply rtc_l; [apply qs_rate_ul|]. apply rtc_refl.
Qed.
