(* ===== verification/RawSocket.v ===== *)
(** The kernel receive ring ([RawSocket_util.cpp]): [peek_frame] and [advance_frame].

    A slot of the [PACKET_RX_RING] is its header fields; the kernel hands a slot to the
    program by setting [TP_STATUS_USER] and takes it back when the status is cleared. A
    frame is the span (slot, offset, length) that [peek_frame] returns. *)
From Stdlib Require Import ZArith Lia.
From stdpp Require Import base numbers list.
From S2P Require Import Prelude.
#[local] Open Scope Z_scope.

Definition TP_STATUS_KERNEL : Z := 0.
Definition TP_STATUS_USER : Z := 1.
Definition PACKET_OUTGOING : Z := 4.
Definition FRAME_SIZE : Z := 2048.
(** [(BLOCK_SIZE * BLOCK_NR) / FRAME_SIZE] *)
Definition FRAME_NR : nat := Z.to_nat ((4096 * 16 * 1024) / FRAME_SIZE).

Record rx_slot := MkSlotHdr { tp_status : Z; tp_mac : Z; tp_len : Z; sll_pkttype : Z }.
Definition rx_slot0 : rx_slot := MkSlotHdr 0 0 0 0.
Definition release (s : rx_slot) : rx_slot := MkSlotHdr TP_STATUS_KERNEL (tp_mac s) (tp_len s) (sll_pkttype s).
Definition is_user (s : rx_slot) : bool := negb (Z.land (tp_status s) TP_STATUS_USER =? 0).
Definition is_outgoing (s : rx_slot) : bool := sll_pkttype s =? PACKET_OUTGOING.

Record RawSocketManager := MkRaw { ring : list rx_slot; rx_idx : nat }.
Definition slot_at (r : RawSocketManager) : rx_slot := nth (rx_idx r) (ring r) rx_slot0.

(** Clears the status of the current slot and moves on. *)
Definition advance_frame (r : RawSocketManager) : RawSocketManager :=
  MkRaw (<[rx_idx r := release (slot_at r)]> (ring r)) ((rx_idx r + 1) mod length (ring r)).

Record frame_span := MkSpan { fs_offset : Z; fs_len : Z }.
(** The span of the current slot, as an offset into the ring memory. *)
Definition current_span (r : RawSocketManager) : frame_span :=
  MkSpan (Z.of_nat (rx_idx r) * FRAME_SIZE + tp_mac (slot_at r)) (tp_len (slot_at r)).

(** Outgoing frames are released on the way. Each round that does not return releases one
    slot, so a ring's worth of rounds and one more are enough. *)
Fixpoint peek_loop (fuel : nat) (r : RawSocketManager) : option (option frame_span * RawSocketManager) :=
  match fuel with
  | O => None
  | S f =>
      if negb (is_user (slot_at r)) then Some (None, r)
      else if negb (is_outgoing (slot_at r)) then Some (Some (current_span r), r)
      else peek_loop f (advance_frame r)
  end.
Definition peek_frame (r : RawSocketManager) : option (option frame_span * RawSocketManager) :=
  peek_loop (S (length (ring r))) r.

(** The receive thread's inner loop: peek, use the frame, finish, until none is left. *)
Fixpoint drain (fuel : nat) (r : RawSocketManager) : option (list frame_span * RawSocketManager) :=
  match fuel with
  | O => None
  | S f =>
      '(o, r1) ← peek_frame r;
      match o with
      | None => Some ([], r1)
      | Some s => '(ss, r2) ← drain f (advance_frame r1); Some (s :: ss, r2)
      end
  end.

(** * Lemmas *)
Definition raw_ok (r : RawSocketManager) : Prop := (rx_idx r < length (ring r))%nat.
(** Slots from the read index on, once round, with their positions. *)
Definition order (r : RawSocketManager) : list (nat * rx_slot) :=
  drop (rx_idx r) (imap pair (ring r)) ++ take (rx_idx r) (imap pair (ring r)).
Fixpoint user_prefix (l : list (nat * rx_slot)) : list (nat * rx_slot) :=
  match l with
  | [] => []
  | x :: l' => if is_user (snd x) then x :: user_prefix l' else []
  end.
(** The slots the kernel has handed over and that are next to be read. *)
Definition pending (r : RawSocketManager) : list (nat * rx_slot) := user_prefix (order r).
Definition span_of (x : nat * rx_slot) : frame_span :=
  MkSpan (Z.of_nat (fst x) * FRAME_SIZE + tp_mac (snd x)) (tp_len (snd x)).
Definition incoming (l : list (nat * rx_slot)) : list (nat * rx_slot) :=
  List.filter (fun x => negb (is_outgoing (snd x))) l.

Lemma order_head r : raw_ok r -> exists rest, order r = (rx_idx r, slot_at r) :: rest /\
  order (advance_frame r) = rest ++ [(rx_idx r, release (slot_at r))].
Proof.
  unfold raw_ok, order, advance_frame, slot_at. intros Hr. cbn [ring rx_idx].
  set (i := rx_idx r) in *. set (l := ring r) in *. set (n := length l) in *.
  set (s := nth i l rx_slot0). set (k := release s).
  assert (l !! i = Some s) as Hl.
  { destruct (lookup_lt_is_Some_2 l i Hr) as [x Hx]. rewrite Hx. f_equal. symmetry.
    apply nth_lookup_Some with (d := rx_slot0) in Hx. done. }
  set (L := imap pair l). assert (L !! i = Some (i, s)) as HL by (unfold L; by rewrite list_lookup_imap, Hl).
  assert (length L = n) as HLn by apply length_imap.
  assert (imap pair (<[i := k]> l) = <[i := (i, k)]> L) as ->.
  { apply list_eq. intros j. rewrite list_lookup_imap. destruct (decide (i = j)) as [<-|Hne].
    - rewrite !list_lookup_insert_eq by (rewrite ?HLn; done). done.
    - rewrite !list_lookup_insert_ne by done. unfold L. by rewrite list_lookup_imap. }
  exists (drop (S i) L ++ take i L). split; [by rewrite (drop_S _ _ _ HL)|].
  assert (length (<[i := (i, k)]> L) = n) as HLi by (by rewrite length_insert).
  assert (take (S i) (<[i := (i, k)]> L) = take i L ++ [(i, k)]) as Htk.
  { rewrite (take_S_r _ _ (i, k)) by (apply list_lookup_insert_eq; lia). by rewrite take_insert_ge by lia. }
  destruct (decide (i + 1 = n)%nat) as [E|E].
  - rewrite E, Nat.Div0.mod_same. rewrite drop_0, take_0, app_nil_r.
    rewrite (drop_ge L) by lia. simpl. rewrite <- Htk. rewrite take_ge by lia. done.
  - rewrite Nat.mod_small by lia. replace (i + 1)%nat with (S i) by lia.
    rewrite Htk, drop_insert_lt by lia. by rewrite app_assoc.
Qed.

Lemma raw_ok_advance r : raw_ok r -> raw_ok (advance_frame r) /\ length (ring (advance_frame r)) = length (ring r).
Proof.
  unfold raw_ok, advance_frame. cbn [ring rx_idx]. intros Hr. rewrite length_insert.
  split; [apply Nat.mod_upper_bound; lia|done].
Qed.
Lemma user_prefix_snoc l x : is_user (snd x) = false -> user_prefix (l ++ [x]) = user_prefix l.
Proof.
  intros Hx. induction l as [|y l IH]; simpl; [by rewrite Hx|]. by rewrite IH.
Qed.
Lemma user_prefix_length l : (length (user_prefix l) <= length l)%nat.
Proof. induction l as [|y l IH]; simpl; [lia|]. destruct (is_user (snd y)); simpl; lia. Qed.

(** Moving on releases the slot read and nothing else. *)
Lemma pending_advance r : raw_ok r -> is_user (slot_at r) = true ->
  pending r = (rx_idx r, slot_at r) :: pending (advance_frame r).
Proof.
  intros Hr Hu. destruct (order_head r Hr) as (rest & E1 & E2). unfold pending.
  rewrite E1, E2, user_prefix_snoc by done. cbn [user_prefix snd]. by rewrite Hu.
Qed.
Lemma pending_none r : raw_ok r -> is_user (slot_at r) = false -> pending r = [].
Proof.
  intros Hr Hu. destruct (order_head r Hr) as (rest & E1 & _). unfold pending. rewrite E1. cbn [user_prefix snd].
  by rewrite Hu.
Qed.
Lemma pending_length r : raw_ok r -> (length (pending r) <= length (ring r))%nat.
Proof.
  intros Hr. unfold pending. pose proof (user_prefix_length (order r)). unfold order in *.
  rewrite length_app, length_drop, length_take, length_imap in *. unfold raw_ok in Hr. lia.
Qed.

Lemma incoming_cons x l : incoming (x :: l) = if negb (is_outgoing (snd x)) then x :: incoming l else incoming l.
Proof. done. Qed.

(** A slot the kernel owns again: status 0, the rest as it was. *)
Definition given_back (s : rx_slot) : rx_slot := MkSlotHdr 0 (tp_mac s) (tp_len s) (sll_pkttype s).
(** From [r] to [r'] the slots of [l] were passed: they belong to the kernel again, every
    other slot is as it was, and the read index has moved on by as many slots, round the
    ring. *)
Definition passed (l : list (nat * rx_slot)) (r r' : RawSocketManager) : Prop :=
  length (ring r') = length (ring r) /\
  rx_idx r' = ((rx_idx r + length l) mod length (ring r))%nat /\
  forall i, ring r' !! i =
    (fun s => if decide (i ∈ map fst l) then given_back s else s) <$> ring r !! i.

Lemma passed_nil r : raw_ok r -> passed [] r r.
Proof.
  intros Hr. split; [done|]. split; [rewrite Nat.add_0_r; by rewrite Nat.mod_small|].
  intros i. destruct (ring r !! i); [|done]. cbn. by rewrite decide_False by (by apply not_elem_of_nil).
Qed.
Lemma passed_advance r r' : raw_ok r -> is_user (slot_at r) = true ->
  passed (pending (advance_frame r)) (advance_frame r) r' -> passed (pending r) r r'.
Proof.
  intros Hr Hu (Hl & Hi & Hs). destruct (raw_ok_advance r Hr) as [_ Hla].
  rewrite (pending_advance r Hr Hu). rewrite Hla in *. split; [done|]. split.
  - rewrite Hi. cbn [advance_frame rx_idx length]. rewrite Nat.Div0.add_mod_idemp_l. f_equal. lia.
  - intros i. rewrite Hs. cbn [advance_frame ring map fst].
    destruct (decide (i = rx_idx r)) as [->|Hne].
    + rewrite list_lookup_insert_eq by done.
      destruct (lookup_lt_is_Some_2 (ring r) (rx_idx r) Hr) as [s Es].
      assert (slot_at r = s) as -> by (by apply (nth_lookup_Some (ring r)) with (d := rx_slot0) in Es).
      rewrite Es. cbn. rewrite (decide_True (P := rx_idx r ∈ _ :: _)) by left. by case_decide.
    + rewrite list_lookup_insert_ne by done.
      destruct (ring r !! i); [|done]. cbn [fmap option_fmap option_map]. f_equal.
      set (l := map fst _). repeat case_decide; try done; exfalso; rewrite elem_of_cons in *; tauto.
Qed.

Lemma peek_loop_spec fuel r : raw_ok r -> (length (pending r) < fuel)%nat ->
  exists o r', peek_loop fuel r = Some (o, r') /\ raw_ok r' /\ length (ring r') = length (ring r) /\
    incoming (pending r') = incoming (pending r) /\ (length (pending r') <= length (pending r))%nat /\
    (forall r2, passed (pending r') r' r2 -> passed (pending r) r r2) /\
    match o with
    | None => pending r' = []
    | Some s => exists rest, pending r' = (rx_idx r', slot_at r') :: rest /\ is_outgoing (slot_at r') = false /\
        is_user (slot_at r') = true /\ s = span_of (rx_idx r', slot_at r')
    end.
Proof.
  revert r. induction fuel as [|f IH]; intros r Hr Hf; [lia|]. cbn [peek_loop].
  destruct (is_user (slot_at r)) eqn:Hu; cbn [negb].
  2: { eexists _, _. split; [done|]. rewrite (pending_none r Hr Hu). done. }
  pose proof (pending_advance r Hr Hu) as Hp. destruct (is_outgoing (slot_at r)) eqn:Ho; cbn [negb].
  - destruct (raw_ok_advance r Hr) as [Hr1 Hl1]. rewrite Hp in Hf. simpl in Hf.
    destruct (IH (advance_frame r) Hr1) as (o & r' & E & Hr' & Hl' & Hin & Hle & Hps & Hm); [lia|].
    exists o, r'. split; [done|]. split; [done|]. split; [lia|].
    rewrite Hp at 1 2. rewrite incoming_cons. cbn [snd]. rewrite Ho. cbn [negb].
    split; [done|]. split; [simpl; lia|]. split; [|done].
    intros r2 H2. by apply passed_advance, Hps.
  - eexists _, _. split; [done|]. split; [done|]. split; [done|]. split; [done|]. split; [lia|].
    split; [done|]. eexists. split; [exact Hp|]. done.
Qed.

(** C30: the receive ring is read in order and completely.  The receive loop ends, with no
    frame handed over by the kernel left unread; it has delivered exactly the incoming
    frames among the slots that were pending, in ring order and once each; and it has given
    every pending slot, the program's own outgoing frames included, back to the kernel
    with status 0 and nothing else in it changed, touched no other slot, and moved the
    read index on by as many slots, round the ring ([passed]). *)
Theorem rx_ring_drained (r : RawSocketManager) (Hr : raw_ok r) :
  exists r', drain (S (length (ring r))) r = Some (map span_of (incoming (pending r)), r') /\
    raw_ok r' /\ pending r' = [] /\ passed (pending r) r r'.
Proof.
  pose proof (pending_length r Hr) as Hb.
  assert (forall fuel r1, raw_ok r1 -> (length (pending r1) < fuel)%nat ->
    exists r', drain fuel r1 = Some (map span_of (incoming (pending r1)), r') /\ raw_ok r' /\
      pending r' = [] /\ passed (pending r1) r1 r')
    as H; [|apply H; [done|lia]].
  clear r Hr Hb. induction fuel as [|f IH]; intros r Hr Hf; [lia|]. cbn [drain]. unfold peek_frame.
  destruct (peek_loop_spec (S (length (ring r))) r Hr) as (o & r1 & -> & Hr1 & Hl1 & Hin & Hle & Hps & Hm);
    [pose proof (pending_length r Hr); lia|].
  cbn [mbind option_bind]. rewrite <- Hin. destruct o as [s|].
  - destruct Hm as (rest & Ep & Ho & Hu & ->). pose proof (pending_advance r1 Hr1 Hu) as Ep2.
    destruct (IH (advance_frame r1)) as (r' & -> & Hr' & Hn & Hp); [by apply raw_ok_advance| |].
    { rewrite Ep2 in Hle. simpl in Hle. lia. }
    cbn [mbind option_bind]. exists r'. split; [|split_and!; try done; by apply Hps, passed_advance].
    rewrite Ep2, incoming_cons. cbn [snd]. by rewrite Ho.
  - exists r1. split; [by rewrite Hm|]. split; [done|]. split; [done|].
    apply Hps. rewrite Hm. by apply passed_nil.
Qed.
Definition w_raw : RawSocketManager :=
  MkRaw [MkSlotHdr 1 82 60 0; MkSlotHdr 0 0 0 0; MkSlotHdr 1 82 1500 0; MkSlotHdr 1 82 42 4] 2.
Lemma rx_ring_drained_witness :
  exists r', drain 5 w_raw = Some ([MkSpan 4178 1500; MkSpan 82 60], r') /\ raw_ok r' /\ pending r' = [] /\
    passed [(2%nat, MkSlotHdr 1 82 1500 0); (3%nat, MkSlotHdr 1 82 42 4); (0%nat, MkSlotHdr 1 82 60 0)] w_raw r'.
Proof. apply (rx_ring_drained w_raw). vm_compute. lia. Defined.
