(* ===== verification/Descriptors.v ===== *)
(** Descriptors and mappings: what the program opens it closes again, on every path.

    [RawSocketManager] ([RawSocket_util.cpp]), the eventfds of [Forward_Engine] ([App.cpp])
    and of [ControlPlane] ([ControlPlane.cpp]), the one-shot sockets of [Network_util.cpp]
    and the governor files of [SystemOptimizer_util.cpp]. The kernel's answer to each call
    that can fail is an input, one boolean per call; a call that succeeds and returns a
    descriptor returns the lowest one not in use. *)
From Stdlib Require Import ZArith Lia Ascii String.
From stdpp Require Import base numbers gmap strings list.
From S2P Require Import Prelude Text Telemetry Network_util RawSocket.
#[local] Open Scope Z_scope.
#[local] Open Scope list_scope.

(** * The process as the kernel sees it *)
Record Process := MkProc {
  p_open : gset nat;            (* open descriptors *)
  p_maps : nat;                 (* live memory mappings *)
  p_flags : gmap (list Z) Z;    (* interface flags *)
  p_plan : list bool }.         (* whether the next calls succeed *)

Definition next_answer (p : Process) : bool * Process :=
  match p_plan p with
  | [] => (false, p)
  | b :: plan => (b, MkProc (p_open p) (p_maps p) (p_flags p) plan)
  end.
Definition set_open (s : gset nat) (p : Process) : Process := MkProc s (p_maps p) (p_flags p) (p_plan p).
Definition set_maps (n : nat) (p : Process) : Process := MkProc (p_open p) n (p_flags p) (p_plan p).
Definition set_flags (m : gmap (list Z) Z) (p : Process) : Process := MkProc (p_open p) (p_maps p) m (p_plan p).

(** The lowest descriptor not in use. *)
Fixpoint first_free (n i : nat) (s : gset nat) : nat :=
  match n with
  | O => i
  | S n' => if decide (i ∈ s) then first_free n' (S i) s else i
  end.
Definition lowest (s : gset nat) : nat := first_free (size s) 0 s.

(** [socket], [open], [eventfd]: a descriptor, or -1. *)
Definition open_fd (p : Process) : Z * Process :=
  let '(ok, p) := next_answer p in
  if ok : bool then (Z.of_nat (lowest (p_open p)), set_open ({[lowest (p_open p)]} ∪ p_open p) p) else (-1, p).
Definition close_fd (fd : Z) (p : Process) : Process := set_open (p_open p ∖ {[Z.to_nat fd]}) p.

(** * Packet sockets *)
Definition IFF_PROMISC : Z := 256.
Definition BLOCK_SIZE : Z := 4096 * 16.
Definition BLOCK_NR : Z := 1024.
(** [ring]: [nullptr], [MAP_FAILED] or a mapping. *)
Inductive ring_ptr := RingNull | RingFailed | RingMapped.
Record RawSock := MkSock { rs_iface : list Z; rs_fd : Z; rs_ring : ring_ptr; rs_ring_size : Z }.

Definition rawsock_make (iface_name : list Z) : RawSock := MkSock (cstr (take 15 iface_name)) (-1) RingNull 0.

Inductive rawsock_error :=
  | SocketFailed | IfaceLookupFailed | GetFlagsFailed | SetPromiscFailed | RxRingFailed | MmapFailed | BindFailed.

(** [RawSocketManager::init], call by call. *)
Definition rawsock_init (s : RawSock) (p : Process) : (rawsock_error + unit) * RawSock * Process :=
  let '(fd, p) := open_fd p in
  let s := MkSock (rs_iface s) fd (rs_ring s) (rs_ring_size s) in
  if fd <? 0 then (inl SocketFailed, s, p) else
  let '(ok, p) := next_answer p in
  if negb ok then (inl IfaceLookupFailed, s, p) else
  let '(ok, p) := next_answer p in
  if negb ok then (inl GetFlagsFailed, s, p) else
  let ifr_flags := Z.lor (default 0 (p_flags p !! rs_iface s)) IFF_PROMISC in
  let '(ok, p) := next_answer p in
  if negb ok then (inl SetPromiscFailed, s, p) else
  let p := set_flags (<[rs_iface s := ifr_flags]> (p_flags p)) p in
  let '(ok, p) := next_answer p in
  if negb ok then (inl RxRingFailed, s, p) else
  let ring_size := BLOCK_SIZE * BLOCK_NR in
  let '(ok, p) := next_answer p in
  let '(ring, p) := if ok : bool then (RingMapped, set_maps (S (p_maps p)) p) else (RingFailed, p) in
  let s := MkSock (rs_iface s) (rs_fd s) ring ring_size in
  if negb ok then (inl MmapFailed, s, p) else
  let '(ok, p) := next_answer p in
  if negb ok then (inl BindFailed, s, p) else (inr tt, s, p).

(** The destructor. *)
Definition rawsock_destroy (s : RawSock) (p : Process) : Process :=
  let p := match rs_ring s with RingMapped => set_maps (p_maps p - 1) p | _ => p end in
  if 0 <=? rs_fd s then close_fd (rs_fd s) p else p.

(** [do_poll]: [Some true] an interrupted poll, [Some false] another failure. *)
Definition notify_rx_poll_fatal (telemetry_flag : Z) (tel : Telemetry) : Telemetry :=
  set_raw_socket_poll_errors tel (Z.lor (raw_socket_poll_errors tel) telemetry_flag).
Definition do_poll (failed : option bool) (s : RawSock) (tel : Telemetry) (p : Process) :
  RawSock * Telemetry * Process :=
  if rs_fd s <? 0 then (s, tel, p)
  else match failed with
       | Some false => (MkSock (rs_iface s) (-1) (rs_ring s) (rs_ring_size s),
                        notify_rx_poll_fatal 1 tel, close_fd (rs_fd s) p)
       | _ => (s, tel, p)
       end.

(** * Eventfds *)
(** [WorkerPollSync] and [poll_sync_]. *)
Record WorkerPollSync := MkSync { frame_efd : Z; stop_efd : Z }.
Definition poll_sync0 : list WorkerPollSync := replicate 2 (MkSync (-1) (-1)).

Definition close_if_open (fd : Z) (p : Process) : Process := if 0 <=? fd then close_fd fd p else p.
Definition close_poll_fds (ws : list WorkerPollSync) (p : Process) : list WorkerPollSync * Process :=
  (map (fun _ => MkSync (-1) (-1)) ws,
   fold_left (fun p w => close_if_open (stop_efd w) (close_if_open (frame_efd w) p)) ws p).

(** The loop of [open_poll_fds]: [done] are the workers before the current one. *)
Fixpoint open_loop (done todo : list WorkerPollSync) (p : Process) : bool * list WorkerPollSync * Process :=
  match todo with
  | [] => (true, done, p)
  | w :: todo' =>
      let '(f, p) := open_fd p in
      let '(s, p) := open_fd p in
      let ws := done ++ MkSync f s :: todo' in
      if (f <? 0) || (s <? 0)
      then let '(ws, p) := close_poll_fds ws p in (false, ws, p)
      else open_loop (done ++ [MkSync f s]) todo' p
  end.
Definition open_poll_fds (ws : list WorkerPollSync) (p : Process) : bool * list WorkerPollSync * Process :=
  let '(ws, p) := close_poll_fds ws p in open_loop [] ws p.

(** The two eventfds of the control plane. [start] exits the program when one cannot be
    opened: [None]. *)
Record ControlFds := MkCtl { watchdog_stop_efd_ : Z; dhcp_cfg_efd_ : Z }.
Definition ControlFds0 : ControlFds := MkCtl (-1) (-1).
Definition open_if_closed (fd : Z) (p : Process) : option (Z * Process) :=
  if fd <? 0 then let '(fd', p) := open_fd p in if fd' <? 0 then None else Some (fd', p) else Some (fd, p).
Definition control_open (c : ControlFds) (p : Process) : option (ControlFds * Process) :=
  '(w, p) ← open_if_closed (watchdog_stop_efd_ c) p;
  '(d, p) ← open_if_closed (dhcp_cfg_efd_ c) p;
  Some (MkCtl w d, p).
Definition close_watchdog_stop_efd (c : ControlFds) (p : Process) : ControlFds * Process :=
  if 0 <=? watchdog_stop_efd_ c then (MkCtl (-1) (dhcp_cfg_efd_ c), close_fd (watchdog_stop_efd_ c) p) else (c, p).
Definition close_dhcp_cfg_efd (c : ControlFds) (p : Process) : ControlFds * Process :=
  if 0 <=? dhcp_cfg_efd_ c then (MkCtl (watchdog_stop_efd_ c) (-1), close_fd (dhcp_cfg_efd_ c) p) else (c, p).
Definition control_close (c : ControlFds) (p : Process) : ControlFds * Process :=
  let '(c, p) := close_watchdog_stop_efd c p in close_dhcp_cfg_efd c p.

(** * One-shot descriptors *)
(** [disable_hardware_offloads]: generic receive, generic segmentation, TCP segmentation
    and scatter-gather offload, each tried. *)
Definition set_offload (st : bool * Process) : bool * Process :=
  let '(success, p) := st in
  let '(ok, p) := next_answer p in (if ok : bool then success else false, p).
Definition disable_hardware_offloads (p : Process) : bool * Process :=
  let '(fd, p) := open_fd p in
  if fd <? 0 then (false, p)
  else let '(success, p) := set_offload (set_offload (set_offload (set_offload (true, p)))) in
       (success, close_fd fd p).
(** [force_arp_resolution]: one datagram towards the address. *)
Definition force_arp_resolution (p : Process) : bool * Process :=
  let '(fd, p) := open_fd p in
  if fd <? 0 then (false, p)
  else let '(sent, p) := next_answer p in (sent, close_fd fd p).

(** [lock_cpu_frequency]: the governor files written, for [n] processors from [i]. *)
Definition governor_path (i : nat) : list Z :=
  str "/sys/devices/system/cpu/cpu" ++ dec (Z.of_nat i) ++ str "/cpufreq/scaling_governor".
Fixpoint governor_loop (n i : nat) (p : Process) : list (list Z) * Process :=
  match n with
  | O => ([], p)
  | S n' =>
      let '(fd, p) := open_fd p in
      let '(w, p) := if 0 <=? fd
                     then let '(ok, p) := next_answer p in
                          (if ok : bool then [governor_path i] else [], close_fd fd p)
                     else ([], p) in
      let '(ws, p) := governor_loop n' (S i) p in (w ++ ws, p)
  end.
Definition lock_cpu_frequency (nproc : Z) (p : Process) : list (list Z) * Process :=
  governor_loop (Z.to_nat (if nproc <? 1 then 4 else nproc)) 0 p.

(** * Lemmas *)
Lemma first_free_spec n i s : first_free n i s ∈ s -> set_seq i (S n) ⊆ s.
Proof.
  revert i. induction n as [|n IH]; intros i; simpl.
  - intros Hi x Hx. rewrite union_empty_r_L in Hx. apply elem_of_singleton in Hx. by subst.
  - case_decide as Hi; [|done]. intros H%IH. simpl in H. set_solver.
Qed.
Lemma lowest_fresh s : lowest s ∉ s.
Proof.
  intros H%first_free_spec. apply subseteq_size in H. rewrite size_set_seq in H. lia.
Qed.

(** Opening adds a descriptor that was not in use, or fails and changes nothing. *)
Lemma open_fd_spec p fd p' : open_fd p = (fd, p') ->
  p_maps p' = p_maps p /\
  ((fd = -1 /\ p_open p' = p_open p) \/
   exists n, fd = Z.of_nat n /\ n ∉ p_open p /\ p_open p' = {[n]} ∪ p_open p).
Proof.
  unfold open_fd, next_answer. destruct p as [o m fl [|[|] plan]]; cbn; intros [= <- <-]; cbn; eauto.
  split; [done|]. right. eexists. split; [done|]. split; [apply lowest_fresh|done].
Qed.
Lemma next_answer_spec p ok p' : next_answer p = (ok, p') -> p_open p' = p_open p /\ p_maps p' = p_maps p.
Proof. unfold next_answer. destruct p as [o m fl [|b plan]]; cbn; by intros [= <- <-]. Qed.
Lemma close_open (n : nat) (s : gset nat) : n ∉ s -> ({[n]} ∪ s) ∖ {[n]} = s.
Proof. set_solver. Qed.

(** Splits the calls of a straight-line sequence. *)
Ltac calls := repeat match goal with
  | |- context [next_answer ?p] =>
      let ok := fresh "ok" in let p' := fresh "p" in let E := fresh "E" in
      destruct (next_answer p) as [ok p'] eqn:E; apply next_answer_spec in E as [? ?]; destruct ok; cbn
  end.
Ltac close_tac := unfold close_fd; cbn; rewrite ?Nat2Z.id; repeat match goal with H : p_open _ = _ |- _ => rewrite H end;
  first [done | apply close_open; done | set_solver].

Definition same_resources (p p' : Process) : Prop := p_open p' = p_open p /\ p_maps p' = p_maps p.

Lemma rawsock_balanced s p r s' p' : rs_ring s = RingNull -> rawsock_init s p = (r, s', p') ->
  same_resources p (rawsock_destroy s' p') /\
  match r with
  | inr _ => exists n, rs_fd s' = Z.of_nat n /\ n ∉ p_open p /\ p_open p' = {[n]} ∪ p_open p /\ rs_ring s' = RingMapped
  | inl _ => True
  end.
Proof.
  intros Hring. unfold rawsock_init. destruct (open_fd p) as [fd p1] eqn:Ef.
  apply open_fd_spec in Ef as [Hm [[-> Ho]|(n & -> & Hn & Ho)]]; [by intros [= <- <- <-]; cbn; rewrite Hring|].
  assert (Z.of_nat n <? 0 = false) as -> by (apply Z.ltb_ge; lia).
  assert (0 <=? Z.of_nat n = true) as Hge by (apply Z.leb_le; lia).
  calls; intros [= <- <- <-]; unfold same_resources, rawsock_destroy; cbn in *; rewrite ?Hring, Hge; cbn;
    (split; [split; [close_tac|cbn; lia]|]); try done.
  exists n. split_and!; [done|done|congruence|done].
Qed.

(** Closing the eventfds of the workers gives back exactly those that are open. *)
Definition sync_fds (ws : list WorkerPollSync) : list Z := concat (map (fun w => [frame_efd w; stop_efd w]) ws).
Definition as_set (fds : list Z) : gset nat := list_to_set (map Z.to_nat (List.filter (fun fd => 0 <=? fd) fds)).

Lemma close_if_open_spec fd p : p_open (close_if_open fd p) = p_open p ∖ as_set [fd] /\
  p_maps (close_if_open fd p) = p_maps p.
Proof.
  unfold close_if_open, as_set. cbn. destruct (0 <=? fd); cbn; split; try done; set_solver.
Qed.
Lemma as_set_app a b : as_set (a ++ b) = as_set a ∪ as_set b.
Proof. unfold as_set. by rewrite List.filter_app, map_app, list_to_set_app_L. Qed.
Lemma close_poll_fds_spec ws p : forall ws' p', close_poll_fds ws p = (ws', p') ->
  ws' = map (fun _ => MkSync (-1) (-1)) ws /\ p_open p' = p_open p ∖ as_set (sync_fds ws) /\ p_maps p' = p_maps p.
Proof.
  unfold close_poll_fds. intros ws' p' [= <- <-]. split; [done|]. revert p.
  induction ws as [|w ws IH]; intros p; cbn [fold_left].
  - change (sync_fds []) with (@nil Z). unfold as_set. cbn. split; [set_solver|done].
  - destruct (IH (close_if_open (stop_efd w) (close_if_open (frame_efd w) p))) as [-> ->].
    destruct (close_if_open_spec (stop_efd w) (close_if_open (frame_efd w) p)) as [-> ->].
    destruct (close_if_open_spec (frame_efd w) p) as [-> ->]. split; [|done].
    change (sync_fds (w :: ws)) with ([frame_efd w] ++ [stop_efd w] ++ sync_fds ws).
    by rewrite !as_set_app, !difference_difference_l_L, union_assoc_L.
Qed.

Definition all_closed (ws : list WorkerPollSync) : Prop := Forall (fun w => w = MkSync (-1) (-1)) ws.
Lemma all_closed_map (ws : list WorkerPollSync) : all_closed (map (fun _ => MkSync (-1) (-1)) ws).
Proof. unfold all_closed. induction ws; cbn; by constructor. Qed.
Lemma all_closed_set ws : all_closed ws -> as_set (sync_fds ws) = ∅.
Proof.
  induction 1 as [|w ws -> _ IH]; [done|].
  change (sync_fds (MkSync (-1) (-1) :: ws)) with ([-1] ++ [-1] ++ sync_fds ws).
  rewrite !as_set_app, IH. unfold as_set. cbn. set_solver.
Qed.
Lemma sync_fds_app a b : sync_fds (a ++ b) = sync_fds a ++ sync_fds b.
Proof. unfold sync_fds. by rewrite map_app, concat_app. Qed.

(** Sets of descriptors opened one after the other. *)
Lemma as_set_nat n : as_set [Z.of_nat n] = {[n]}.
Proof. unfold as_set. cbn. assert (0 <=? Z.of_nat n = true) as -> by (apply Z.leb_le; lia). cbn. rewrite Nat2Z.id. set_solver. Qed.

Definition distinct_open (base : gset nat) (ws : list WorkerPollSync) : Prop :=
  NoDup (sync_fds ws) /\ Forall (fun fd => exists n, fd = Z.of_nat n /\ n ∉ base) (sync_fds ws).

(** The descriptor opened, as a set: empty when the call failed. *)
Lemma open_fd_set p fd p' : open_fd p = (fd, p') ->
  p_open p' = as_set [fd] ∪ p_open p /\ as_set [fd] ## p_open p /\ p_maps p' = p_maps p /\
  (fd = -1 \/ exists n, fd = Z.of_nat n /\ n ∉ p_open p).
Proof.
  intros [Hm [[-> Ho]|(n & -> & Hn & Ho)]]%open_fd_spec.
  - rewrite Ho. unfold as_set. cbn. split_and!; [set_solver|set_solver|done|by left].
  - rewrite Ho, as_set_nat. split_and!; [done|set_solver|done|eauto].
Qed.

Lemma distinct_snoc base ws n m : distinct_open base ws -> n ∉ as_set (sync_fds ws) ∪ base ->
  m ∉ {[n]} ∪ (as_set (sync_fds ws) ∪ base) -> distinct_open base (ws ++ [MkSync (Z.of_nat n) (Z.of_nat m)]).
Proof.
  intros [Hnd Hf] Hn Hm. assert (forall k, Z.of_nat k ∈ sync_fds ws -> k ∈ as_set (sync_fds ws)) as Hin.
  { intros k Hk. unfold as_set. apply elem_of_list_to_set. rewrite <- (Nat2Z.id k). apply list_elem_of_fmap_2.
    apply list_elem_of_In, List.filter_In. split; [by apply list_elem_of_In|apply Z.leb_le; lia]. }
  unfold distinct_open. rewrite sync_fds_app. change (sync_fds [_]) with ([Z.of_nat n; Z.of_nat m]). split.
  - apply NoDup_app. split_and!; [done| |].
    + intros x Hx Hx'. apply elem_of_cons in Hx' as [->|Hx']; [apply Hin in Hx; set_solver|].
      apply list_elem_of_singleton in Hx' as ->. apply Hin in Hx. set_solver.
    + apply NoDup_cons. split; [|apply NoDup_singleton]. intros Hx%list_elem_of_singleton. apply Nat2Z.inj in Hx. set_solver.
  - apply Forall_app. split; [done|]. repeat constructor; eexists; (split; [done|set_solver]).
Qed.

Lemma open_loop_spec base done todo p ok ws p' : all_closed todo -> distinct_open base done ->
  as_set (sync_fds done) ## base -> p_open p = as_set (sync_fds done) ∪ base ->
  open_loop done todo p = (ok, ws, p') ->
  p_maps p' = p_maps p /\ length ws = (length done + length todo)%nat /\
  if ok : bool
  then distinct_open base ws /\ as_set (sync_fds ws) ## base /\ p_open p' = as_set (sync_fds ws) ∪ base
  else all_closed ws /\ p_open p' = base.
Proof.
  revert done p. induction todo as [|w todo IH]; intros done p Hc Hd Hdj Hp; cbn [open_loop].
  { intros [= <- <- <-]. split_and!; try done; cbn; lia. }
  inversion Hc as [|? ? -> Hc']; subst.
  destruct (open_fd p) as [f p1] eqn:E1. destruct (open_fd p1) as [s p2] eqn:E2.
  apply open_fd_set in E1 as (Ho1 & Hj1 & Hm1 & Hf). apply open_fd_set in E2 as (Ho2 & Hj2 & Hm2 & Hs).
  rewrite Ho1, Hp in *. destruct ((f <? 0) || (s <? 0)) eqn:Efail.
  - destruct (close_poll_fds _ p2) as [ws2 p3] eqn:Ec. apply close_poll_fds_spec in Ec as (-> & Ho3 & Hm3).
    intros [= <- <- <-]. split_and!; [congruence|by rewrite length_map, length_app|apply all_closed_map|].
    rewrite Ho3, Ho2, sync_fds_app, as_set_app.
    change (sync_fds (MkSync f s :: todo)) with ([f] ++ [s] ++ sync_fds todo).
    rewrite !as_set_app, (all_closed_set todo Hc'). revert Hdj Hj1 Hj2. clear.
    generalize (as_set [f]) (as_set [s]) (as_set (sync_fds done)). set_solver.
  - apply orb_false_iff in Efail as [Ef Es]. apply Z.ltb_ge in Ef, Es.
    destruct Hf as [->|(n & -> & Hn)]; [lia|]. destruct Hs as [->|(m & -> & Hmf)]; [lia|].
    rewrite !as_set_nat in *. intros E. apply IH in E.
    + destruct E as (Hm & Hl & Hres). split; [congruence|]. split; [rewrite length_app in Hl; cbn in *; lia|done].
    + done.
    + by apply distinct_snoc.
    + rewrite sync_fds_app, as_set_app. change (sync_fds [_]) with ([Z.of_nat n] ++ [Z.of_nat m]).
      rewrite as_set_app, !as_set_nat. set_solver.
    + rewrite Ho2, sync_fds_app, as_set_app. change (sync_fds [_]) with ([Z.of_nat n] ++ [Z.of_nat m]).
      rewrite as_set_app, !as_set_nat. set_solver.
Qed.

Lemma open_poll_fds_balanced ws p ok ws' p' : all_closed ws -> open_poll_fds ws p = (ok, ws', p') ->
  same_resources p (snd (close_poll_fds ws' p')) /\ length ws' = length ws /\
  if ok : bool then distinct_open (p_open p) ws' /\ p_open p' = as_set (sync_fds ws') ∪ p_open p
  else all_closed ws' /\ p_open p' = p_open p.
Proof.
  intros Hc. unfold open_poll_fds. destruct (close_poll_fds ws p) as [ws1 p1] eqn:E1.
  apply close_poll_fds_spec in E1 as (-> & Ho1 & Hm1). rewrite (all_closed_set ws Hc), difference_empty_L in Ho1.
  intros E. apply (open_loop_spec (p_open p)) in E as (Hm & Hl & Hres).
  2: { apply all_closed_map. }
  2: { split; [apply NoDup_nil_2|constructor]. }
  2: { change (as_set (sync_fds [])) with (∅ : gset nat). set_solver. }
  2: { rewrite Ho1. change (as_set (sync_fds [])) with (∅ : gset nat). set_solver. }
  rewrite length_map in Hl. destruct (close_poll_fds ws' p') as [ws2 p2] eqn:E2.
  apply close_poll_fds_spec in E2 as (_ & Ho2 & Hm2). unfold same_resources. cbn [snd]. rewrite Ho2.
  destruct ok.
  - destruct Hres as (Hd & Hdj & Ho). split_and!; [|congruence|done|done|done]. rewrite Ho. set_solver.
  - destruct Hres as (Hcl & Ho). split_and!; [|congruence|done|done|done].
    rewrite Ho, (all_closed_set _ Hcl). set_solver.
Qed.

Lemma control_balanced p c p1 : control_open ControlFds0 p = Some (c, p1) ->
  exists n m, c = MkCtl (Z.of_nat n) (Z.of_nat m) /\ n <> m /\ n ∉ p_open p /\ m ∉ p_open p /\
    fst (control_close c p1) = ControlFds0 /\ same_resources p (snd (control_close c p1)).
Proof.
  unfold control_open, open_if_closed. cbn [watchdog_stop_efd_ dhcp_cfg_efd_ ControlFds0].
  change (-1 <? 0) with true. cbv iota. destruct (open_fd p) as [w q1] eqn:E1.
  apply open_fd_spec in E1 as [Hm1 [[-> Ho1]|(n & -> & Hn & Ho1)]]; [done|].
  assert (forall k, Z.of_nat k <? 0 = false) as Hneg by (intros; apply Z.ltb_ge; lia).
  assert (forall k, 0 <=? Z.of_nat k = true) as Hpos by (intros; apply Z.leb_le; lia).
  rewrite Hneg. cbn. destruct (open_fd q1) as [e q2] eqn:E2.
  apply open_fd_spec in E2 as [Hm2 [[-> Ho2]|(m & -> & Hm & Ho2)]]; [done|]. rewrite Hneg. cbn.
  intros [= <- <-]. exists n, m. rewrite Ho1 in *.
  unfold control_close, close_watchdog_stop_efd, close_dhcp_cfg_efd. cbn. rewrite Hpos. cbn. rewrite Hpos. cbn.
  unfold same_resources, close_fd. cbn. rewrite !Nat2Z.id, Ho2. split_and!; try done; [set_solver..| |congruence].
  set_solver.
Qed.

Lemma offloads_balanced p : same_resources p (snd (disable_hardware_offloads p)).
Proof.
  unfold disable_hardware_offloads. destruct (open_fd p) as [fd p1] eqn:E.
  apply open_fd_spec in E as [Hm [[-> Ho]|(n & -> & Hn & Ho)]]; [done|].
  assert (Z.of_nat n <? 0 = false) as -> by (apply Z.ltb_ge; lia). unfold set_offload.
  calls; unfold same_resources; (split; [close_tac|cbn; congruence]).
Qed.
Lemma force_arp_balanced p : same_resources p (snd (force_arp_resolution p)).
Proof.
  unfold force_arp_resolution. destruct (open_fd p) as [fd p1] eqn:E.
  apply open_fd_spec in E as [Hm [[-> Ho]|(n & -> & Hn & Ho)]]; [done|].
  assert (Z.of_nat n <? 0 = false) as -> by (apply Z.ltb_ge; lia).
  calls; unfold same_resources; (split; [close_tac|cbn; congruence]).
Qed.
Lemma governor_balanced n : forall i p, same_resources p (snd (governor_loop n i p)).
Proof.
  induction n as [|n IH]; intros i p; cbn [governor_loop]; [done|].
  destruct (open_fd p) as [fd p1] eqn:E. set (rest := if 0 <=? fd then _ else _).
  assert (same_resources p (snd rest)) as Hrest.
  { subst rest. apply open_fd_spec in E as [Hm [[-> Ho]|(k & -> & Hk & Ho)]]; [done|].
    assert (0 <=? Z.of_nat k = true) as -> by (apply Z.leb_le; lia).
    calls; unfold same_resources; (split; [close_tac|cbn; congruence]). }
  destruct rest as [w p2]. specialize (IH (S i) p2). destruct (governor_loop n (S i) p2) as [ws p3].
  cbn [snd] in *. destruct Hrest, IH. split; congruence.
Qed.

(** Which answers a sequence of calls needs. *)
Lemma rawsock_init_ok s p : fst (fst (rawsock_init s p)) = inr tt <-> take 7 (p_plan p) = replicate 7 true.
Proof.
  assert (forall k, Z.of_nat k <? 0 = false) as Hneg by (intros; apply Z.ltb_ge; lia).
  destruct p as [o m fl plan]. cbn [p_plan]. unfold rawsock_init, open_fd, next_answer.
  do 7 (destruct plan as [|[|] plan]; cbn; change (-1 <? 0) with true; rewrite ?Hneg; cbn; try (split; intros; congruence)).
  by split.
Qed.
Lemma open_poll_fds_ok p : fst (fst (open_poll_fds poll_sync0 p)) = true <-> take 4 (p_plan p) = replicate 4 true.
Proof.
  assert (forall k, Z.of_nat k <? 0 = false) as Hneg by (intros; apply Z.ltb_ge; lia).
  destruct p as [o m fl plan]. cbn [p_plan]. unfold open_poll_fds. cbn [close_poll_fds poll_sync0 replicate map].
  destruct plan as [|b1 [|b2 [|b3 [|b4 plan]]]];
    repeat match goal with b : bool |- _ => destruct b end;
    cbn; unfold open_fd, close_if_open, next_answer; change (0 <=? -1) with false; cbn; change (-1 <? 0) with true; rewrite ?Hneg; cbn; try (split; intros; congruence).
  by rewrite take_0.
Qed.

(** C38: the program gives back every descriptor and mapping, whichever calls fail.  For any
    answers of the kernel: setting up a packet socket succeeds exactly when its seven
    calls do, holds one fresh descriptor and one mapping if so, and whatever the outcome
    destroying the socket leaves the process as before; the workers' four eventfds are
    all opened, distinct and fresh, or none is left open; the control plane's two are
    closed by its stop; and the one-shot helpers (offload settings, ARP probe, CPU
    governor) leave the set of open descriptors unchanged. *)
Theorem descriptors_balanced (iface : list Z) (nproc : Z) (p : Process) :
  (let '(r, s, p1) := rawsock_init (rawsock_make iface) p in
   (r = inr tt <-> take 7 (p_plan p) = replicate 7 true) /\
   (r = inr tt -> exists n, rs_fd s = Z.of_nat n /\ n ∉ p_open p /\ p_open p1 = {[n]} ∪ p_open p /\ rs_ring s = RingMapped) /\
   same_resources p (rawsock_destroy s p1)) /\
  (let '(ok, ws, p1) := open_poll_fds poll_sync0 p in
   (ok = true <-> take 4 (p_plan p) = replicate 4 true) /\
   (if ok : bool then length ws = 2%nat /\ distinct_open (p_open p) ws /\ p_open p1 = as_set (sync_fds ws) ∪ p_open p
    else ws = poll_sync0 /\ p_open p1 = p_open p) /\
   same_resources p (snd (close_poll_fds ws p1))) /\
  (forall c p1, control_open ControlFds0 p = Some (c, p1) ->
     watchdog_stop_efd_ c <> dhcp_cfg_efd_ c /\
     fst (control_close c p1) = ControlFds0 /\ same_resources p (snd (control_close c p1))) /\
  same_resources p (snd (disable_hardware_offloads p)) /\
  same_resources p (snd (force_arp_resolution p)) /\
  same_resources p (snd (lock_cpu_frequency nproc p)).
Proof.
  split_and!.
  - pose proof (rawsock_init_ok (rawsock_make iface) p) as Hok.
    destruct (rawsock_init _ p) as [[r s] p1] eqn:E. apply rawsock_balanced in E as [Hb Hr]; [|done].
    split; [exact Hok|]. split; [|done]. by intros ->.
  - pose proof (open_poll_fds_ok p) as Hok. destruct (open_poll_fds poll_sync0 p) as [[ok ws] p1] eqn:E.
    apply open_poll_fds_balanced in E as (Hb & Hl & Hres); [|repeat constructor].
    split; [exact Hok|]. split; [|done]. destruct ok; [by destruct Hres|]. destruct Hres as [Hc Ho]. split; [|done].
    destruct ws as [|w1 [|w2 [|]]]; try done. inversion Hc as [|? ? -> Hc1]; subst. by inversion Hc1 as [|? ? -> _]; subst.
  - intros c p1 E. apply control_balanced in E as (n & m & -> & Hne & _ & _ & Hc & Hs). cbn.
    split; [lia|]. done.
  - apply offloads_balanced.
  - apply force_arp_balanced.
  - apply governor_balanced.
Qed.
Example rawsock_bind_fails :
  fst (fst (rawsock_init (rawsock_make (str "eth0")) (MkProc {[0; 1; 2]}%nat 0 ∅ [true; true; true; true; true; true; false])))
  = inl BindFailed.
Proof. reflexivity. Qed.
