(* ===== verification/Collector.v ===== *)
(** The telemetry collector ([ParameterServices.cpp]): per-core CPU load from [/proc/stat]
    and the device table from [/proc/net/arp]. *)
From Stdlib Require Import ZArith Lia Ascii String.
From stdpp Require Import base numbers strings list.
From S2P Require Import Prelude Text Types_util Config ProcNet.
#[local] Open Scope Z_scope.
#[local] Open Scope list_scope.

(** [readSysfd] into a buffer of [cap] bytes: the C string it leaves. One trailing newline
    is removed. *)
Definition readSysfd (cap : nat) (file : option (list Z)) : list Z :=
  match file with
  | None => []
  | Some content =>
      let b := take (cap - 1) content in
      cstr (match last b with Some c => if c =? 10 then removelast b else b | None => b end)
  end.

(** * CPU load *)
(** [strstr]: the rest of [s] after the first occurrence of [pat]. *)
Fixpoint strip_prefix (pat s : list Z) : option (list Z) :=
  match pat, s with
  | [], _ => Some s
  | a :: pat', b :: s' => if a =? b then strip_prefix pat' s' else None
  | _, [] => None
  end.
Fixpoint after_strstr (pat s : list Z) : option (list Z) :=
  match strip_prefix pat s with
  | Some r => Some r
  | None => match s with [] => None | _ :: s' => after_strstr pat s' end
  end.

(** An optional sign. *)
Definition scan_sign (s : list Z) : bool * list Z :=
  match s with 45 :: s' => (true, s') | 43 :: s' => (false, s') | _ => (false, s) end.
(** [%lu]: [strtoul], which saturates. *)
Definition scan_lu (s : list Z) : option (Z * list Z) :=
  let s := skip_space s in
  let '(neg, s) := scan_sign s in
  match digit_prefix s with
  | [] => None
  | ds => let v := digits_value ds in
          Some (if 18446744073709551615 <? v then 18446744073709551615 else u64 (if neg : bool then - v else v),
                drop (length ds) s)
  end.
Fixpoint scan_lus (n : nat) (s : list Z) : option (list Z) :=
  match n with
  | O => Some []
  | S n' => match scan_lu s with
            | Some (v, r) => match scan_lus n' r with Some vs => Some (v :: vs) | None => None end
            | None => None
            end
  end.

(** [static_cast<int>] of a [uint64_t]. *)
Definition int_of_u64 (v : Z) : Z := to_int (u32 v).
Definition cpu_pct (total idle stat_total stat_idle : Z) : Z :=
  let dt := u64 (total - stat_total) in
  let di := u64 (idle - stat_idle) in
  if 0 <? dt then int_of_u64 (u64 (100 * u64 (dt - di)) / dt) else 0.

(** [user nice sys idle iowait irq softirq] and their sum. *)
Definition stat_sum (vs : list Z) : Z := fold_left (fun a v => u64 (a + v)) vs 0.

(** [stat_total_], [stat_idle_] and the load of each core. *)
Record CpuState := MkCpu { c_total : list Z; c_idle : list Z; c_pct : list Z }.
Definition CpuState0 : CpuState := MkCpu (replicate 4 0) (replicate 4 0) (replicate 4 0).

(** The loop over cores [ci ..]; a missing line ends it. *)
Fixpoint cpu_loop (n ci : nat) (p : list Z) (st : CpuState) : CpuState :=
  match n with
  | O => st
  | S n' =>
      match after_strstr (str "cpu" ++ dec (Z.of_nat ci) ++ [32]) p with
      | None => st
      | Some ln =>
          cpu_loop n' (S ci) p
            (match scan_lus 7 ln with
             | Some vs =>
                 let total := stat_sum vs in
                 let idle := rd vs 3 in
                 MkCpu (<[ci := total]> (c_total st)) (<[ci := idle]> (c_idle st))
                       (<[ci := cpu_pct total idle (rd (c_total st) ci) (rd (c_idle st) ci)]> (c_pct st))
             | None => st
             end)
      end
  end.
Definition refreshCpu (stat : option (list Z)) (nproc : Z) (st : CpuState) : CpuState :=
  match readSysfd 1024 stat with
  | [] => st
  | p => let nproc := if nproc <? 1 then 1 else nproc in
         cpu_loop (Z.to_nat (Z.min nproc 4)) 0 p st
  end.

(** * Devices *)
Definition MAX_TRACKED_DEVICES : nat := 64.
(** A row of [device_table]; [d_mac] is the whole 18-byte buffer. *)
Record DeviceEntry := MkDev { d_ip : Z; d_mac : list Z }.
Definition DeviceEntry0 : DeviceEntry := MkDev 0 (replicate 18 0).
Record DeviceTable := MkDevs { device_table : list DeviceEntry; device_count : nat; device_table_revision : Z }.
Definition DeviceTable0 : DeviceTable := MkDevs (replicate MAX_TRACKED_DEVICES DeviceEntry0) 0 0.

Definition mac_buf (mac : list Z) : list Z := let m := take 17 mac in m ++ replicate (18 - length m) 0.

(** One line: the entry it describes, if any. *)
Definition device_line (p : list Z) : option DeviceEntry :=
  match scan_words [19; 7; 7; 19]%nat (cstr p) with
  | Some [ip_str; hw; flags; mac] =>
      match try_parse_ipv4 (Some ip_str) with
      | Some ip => if negb (streq flags "0x0") then Some (MkDev ip (mac_buf mac)) else None
      | None => None
      end
  | _ => None
  end.

(** The slot update: only fields that differ are written. *)
Definition update_slot (slot new : DeviceEntry) : DeviceEntry * bool :=
  let '(ip, ch1) := if d_ip slot =? d_ip new then (d_ip slot, false) else (d_ip new, true) in
  let '(mac, ch2) := if bool_decide (d_mac slot = d_mac new) then (d_mac slot, false) else (d_mac new, true) in
  (MkDev ip mac, ch1 || ch2).

Fixpoint device_loop (fuel : nat) (p : list Z) (table : list DeviceEntry) (dcnt : nat) (changed : bool) :
  list DeviceEntry * nat * bool :=
  match fuel with
  | O => (table, dcnt, changed)
  | S f =>
      match p with
      | [] => (table, dcnt, changed)
      | _ =>
          if (MAX_TRACKED_DEVICES <=? dcnt)%nat then (table, dcnt, changed)
          else match device_line p with
               | Some new =>
                   let '(slot, ch) := update_slot (nth dcnt table DeviceEntry0) new in
                   device_loop f (next_line p) (<[dcnt := slot]> table) (S dcnt) (changed || ch)
               | None => device_loop f (next_line p) table dcnt changed
               end
      end
  end.
Definition refreshDevices (arp : option (list Z)) (t : DeviceTable) : DeviceTable :=
  match arp with
  | None => t
  | Some [] => t
  | Some content =>
      let buf := take 4095 content in
      let '(table, dcnt, changed) := device_loop (length buf) (next_line buf) (device_table t) 0 false in
      let changed := changed || negb (dcnt =? device_count t)%nat in
      MkDevs table dcnt (if changed then u64 (device_table_revision t + 1) else device_table_revision t)
  end.

(** * Lemmas *)
(** Samples of a monotone set of counters. *)
Lemma stat_sum_fold vs a : 0 <= a -> Forall (fun v => 0 <= v) vs ->
  a + fold_right Z.add 0 vs < 18446744073709551616 ->
  fold_left (fun x v => u64 (x + v)) vs a = a + fold_right Z.add 0 vs.
Proof.
  revert a. induction vs as [|v vs IH]; intros a Ha Hv Hlt; simpl in *; [lia|].
  inversion Hv as [|? ? Hv0 Hv']; subst.
  assert (0 <= fold_right Z.add 0 vs) by (clear -Hv'; induction Hv'; simpl in *; lia).
  unfold u64 at 2. rewrite Z.mod_small by lia. rewrite IH by (done || lia). lia.
Qed.

(** The CPU load is a percentage.  For two successive readings of a core's seven
    counters that have not run backwards (and are far from wrapping), the stored load is
    exactly the share of non-idle time in the interval, rounded down, and lies between 0
    and 100. *)
Lemma cpu_load_in_range (vs0 vs1 : list Z)
    (Hlen : length vs0 = 7%nat /\ length vs1 = 7%nat)
    (Hmono : Forall2 (fun a b => 0 <= a <= b) vs0 vs1)
    (Hbig : fold_right Z.add 0 vs1 < 2 ^ 57) :
  let pct := cpu_pct (stat_sum vs1) (rd vs1 3) (stat_sum vs0) (rd vs0 3) in
  let dt := fold_right Z.add 0 vs1 - fold_right Z.add 0 vs0 in
  let di := rd vs1 3 - rd vs0 3 in
  0 <= pct <= 100 /\ (0 < dt -> pct = 100 * (dt - di) / dt) /\ (dt = 0 -> pct = 0).
Proof.
  destruct Hlen as [H0 H1].
  destruct vs0 as [|a0 [|a1 [|a2 [|a3 [|a4 [|a5 [|a6 [|]]]]]]]]; try done.
  destruct vs1 as [|b0 [|b1 [|b2 [|b3 [|b4 [|b5 [|b6 [|]]]]]]]]; try done.
  repeat match goal with H : Forall2 _ (_ :: _) (_ :: _) |- _ => inversion H; clear H; subst end.
  unfold stat_sum. rewrite !stat_sum_fold by first [lia | repeat constructor; lia | simpl in *; lia].
  unfold rd. cbn [nth fold_right] in *. unfold cpu_pct.
  set (t1 := 0 + _). set (t0 := 0 + _).
  replace (u64 (t1 - t0)) with (t1 - t0) by (unfold u64; rewrite Z.mod_small; subst t1 t0; lia).
  replace (u64 (b3 - a3)) with (b3 - a3) by (unfold u64; rewrite Z.mod_small; lia).
  replace (b0 + (b1 + (b2 + (b3 + (b4 + (b5 + (b6 + 0)))))) - (a0 + (a1 + (a2 + (a3 + (a4 + (a5 + (a6 + 0))))))))
    with (t1 - t0) by (subst t1 t0; lia).
  assert (0 <= b3 - a3 <= t1 - t0 /\ t1 - t0 < 2 ^ 57) as [Hdi Hdt] by (subst t1 t0; lia).
  set (dt := t1 - t0) in *. set (di := b3 - a3) in *. clearbody dt di.
  replace (u64 (dt - di)) with (dt - di) by (unfold u64; rewrite Z.mod_small; lia).
  replace (u64 (100 * (dt - di))) with (100 * (dt - di)) by (unfold u64; rewrite Z.mod_small; lia).
  destruct (Z.ltb_spec 0 dt) as [Hp|Hp]; [|split_and!; lia].
  assert (0 <= 100 * (dt - di) / dt <= 100) as Hq.
  { split; [apply Z.div_pos; lia|]. apply Z.div_le_upper_bound; lia. }
  unfold int_of_u64. rewrite u32_id by (unfold is_u32; lia). rewrite to_int_small by lia.
  split; [done|]. split; [done|lia].
Qed.

(** ** The device table *)
Lemma update_slot_spec slot new : fst (update_slot slot new) = new /\ (snd (update_slot slot new) = false <-> slot = new).
Proof.
  unfold update_slot. destruct slot as [ip m], new as [ip' m']. cbn [d_ip d_mac].
  destruct (Z.eqb_spec ip ip'); case_bool_decide; cbn [fst snd orb]; naive_solver.
Qed.

Lemma device_loop_spec fuel : forall p table dcnt changed table' dcnt' changed',
  (dcnt <= MAX_TRACKED_DEVICES)%nat -> length table = MAX_TRACKED_DEVICES ->
  device_loop fuel p table dcnt changed = (table', dcnt', changed') ->
  (dcnt <= dcnt' <= MAX_TRACKED_DEVICES)%nat /\ length table' = MAX_TRACKED_DEVICES /\
  take dcnt table' = take dcnt table /\
  (changed' = false <-> changed = false /\ take dcnt' table' = take dcnt' table).
Proof.
  induction fuel as [|f IH]; intros p table dcnt changed table' dcnt' changed' Hd Hl; cbn [device_loop].
  { intros [= <- <- <-]. split_and!; try done; naive_solver. }
  destruct p as [|c p]; [intros [= <- <- <-]; split_and!; try done; naive_solver|].
  destruct (Nat.leb_spec MAX_TRACKED_DEVICES dcnt); [intros [= <- <- <-]; split_and!; try done; naive_solver|].
  destruct (device_line (c :: p)) as [new|]; [|by apply IH].
  destruct (update_slot (nth dcnt table DeviceEntry0) new) as [slot ch] eqn:Eu. intros E.
  apply IH in E as (Hd' & Hl' & Htk & Hch); [|lia|by rewrite length_insert].
  pose proof (update_slot_spec (nth dcnt table DeviceEntry0) new) as [Hs Hsame]. rewrite Eu in Hs, Hsame. cbn [fst snd] in *.
  subst slot. assert (take dcnt table' = take dcnt table) as Htk0.
  { apply (f_equal (take dcnt)) in Htk. rewrite !take_take in Htk.
    replace (dcnt `min` S dcnt)%nat with dcnt in Htk by lia. by rewrite take_insert_ge in Htk by lia. }
  split; [lia|]. split; [done|]. split; [done|]. rewrite Hch.
  destruct ch.
  - rewrite orb_true_r. split; [by intros [? _]|]. intros [_ E]. exfalso.
    assert (nth dcnt table DeviceEntry0 = new) as Hn; [|apply Hsame in Hn; done].
    assert (table !! dcnt = Some new) as Hlk; [|by apply nth_lookup_Some].
    apply (f_equal (fun l => l !! dcnt)) in Htk, E. rewrite !lookup_take_lt in Htk, E by lia.
    rewrite list_lookup_insert_eq in Htk by lia. congruence.
  - assert (nth dcnt table DeviceEntry0 = new) as Hn by (by apply Hsame). rewrite orb_false_r.
    assert (<[dcnt := new]> table = table) as ->; [|done].
    apply list_insert_id. destruct (lookup_lt_is_Some_2 table dcnt) as [x Hx]; [lia|].
    rewrite Hx. f_equal. rewrite <- Hn. symmetry. by apply nth_lookup_Some.
Qed.

(** The rows the GUI shows. *)
Definition shown (t : DeviceTable) : list DeviceEntry := take (device_count t) (device_table t).
Definition devices_ok (t : DeviceTable) : Prop :=
  length (device_table t) = MAX_TRACKED_DEVICES /\ (device_count t <= MAX_TRACKED_DEVICES)%nat.

(** The device table's revision says when to redraw.  After any refresh the table is
    within its bounds, and the revision number is unchanged exactly when the rows shown
    (their number, addresses and hardware addresses) are. *)
Lemma device_revision (arp : option (list Z)) (t : DeviceTable)
    (Hok : devices_ok t) (Hrev : 0 <= device_table_revision t < 2 ^ 64) :
  devices_ok (refreshDevices arp t) /\
  (device_table_revision (refreshDevices arp t) = device_table_revision t <-> shown (refreshDevices arp t) = shown t).
Proof.
  destruct arp as [[|c content]|]; cbn [refreshDevices]; [done| |done].
  set (buf := take 4095 (c :: content)).
  destruct (device_loop (length buf) (next_line buf) (device_table t) 0 false) as [[table dcnt] changed] eqn:E.
  destruct Hok as [Hl Hc].
  destruct (device_loop_spec _ _ _ _ _ _ _ _ (Nat.le_0_l _) Hl E) as (Hd & Hl' & _ & Hch).
  split; [split; cbn; [done|lia]|]. unfold shown. cbn [device_table_revision device_count device_table].
  assert (u64 (device_table_revision t + 1) <> device_table_revision t) as Hne by (unfold u64; divlia).
  assert (length (take dcnt table) = dcnt /\ length (take (device_count t) (device_table t)) = device_count t) as [E1 E2]
    by (rewrite !length_take; lia).
  destruct (Nat.eqb_spec dcnt (device_count t)) as [Ed|Ed]; cbn [negb].
  - rewrite orb_false_r, <- Ed. destruct changed.
    + split; [done|]. intros Et. exfalso. enough (true = false) by done. by apply Hch.
    + split; [|done]. intros _. by apply Hch.
  - rewrite orb_true_r. split; [done|]. intros Et. rewrite Et in E1. lia.
Qed.
