(* ===== verification/HostInfo.v ===== *)
(** Host information: the periodic ticks of the telemetry collector
    ([ParameterServices.cpp]: temperature, uptime, memory, names) and the host checks that
    complete the self test ([SelfTest.cpp]). *)
From Stdlib Require Import ZArith Lia Ascii String QArith Qround.
From stdpp Require Import base numbers strings list.
From S2P Require Import Prelude Text Types_util Telemetry TxFrame Double ProcNet Collector SelfTest.
#[local] Open Scope Z_scope.
#[local] Open Scope list_scope.

(** * [atof] *)
(** The decimal syntax of [strtod]: spaces, sign, digits with an optional fraction, an
    optional exponent; the files read here contain nothing else. Without digits the
    value is 0. *)
Definition scan_exponent (s : list Z) : Z :=
  match s with
  | c :: s' => if (c =? 101) || (c =? 69)
               then let '(neg, s') := scan_sign s' in
                    let e := digits_value (digit_prefix s') in if neg : bool then - e else e
               else 0
  | [] => 0
  end.
Definition atof (s : list Z) : Q :=
  let '(neg, s) := scan_sign (skip_space s) in
  let ip := digit_prefix s in
  let s := drop (length ip) s in
  let fp := match s with 46 :: s' => digit_prefix s' | _ => [] end in
  let s := match s with 46 :: s' => drop (length fp) s' | _ => s end in
  match ip ++ fp with
  | [] => 0%Q
  | ds => let m := inject_Z (digits_value ds) in
          let v := rnd (m * (10 # 1) ^ (scan_exponent s - Z.of_nat (length fp)))%Q in
          if neg : bool then Qopp v else v
  end.

(** * The collector's ticks *)
(** [SystemInfo]; the two names are the C strings their buffers hold. *)
Record SystemInfo := MkSys {
  hostname : list Z; kernel_short : list Z;
  uptime_seconds : Z; mem_total_kb : Z; mem_avail_kb : Z }.
Definition SystemInfo0 : SystemInfo := MkSys [] [] 0 0 0.

(** What the collector publishes, with its own counters. *)
Record CollectorState := MkCollector {
  cs_cpu : CpuState; cs_temp : Q; cs_sys : SystemInfo; cs_devices : DeviceTable }.
Definition CollectorState0 : CollectorState := MkCollector CpuState0 0%Q SystemInfo0 DeviceTable0.

Definition collector_tick1Hz (thermal stat : option (list Z)) (nproc : Z) (c : CollectorState) : CollectorState :=
  let temp := match readSysfd 16 thermal with
              | [] => cs_temp c
              | tbuf => ddiv (atof tbuf) 1000
              end in
  MkCollector (refreshCpu stat nproc (cs_cpu c)) temp (cs_sys c) (cs_devices c).

(** [sscanf(strstr(buf, key), "key %lu", &v)] with [v] 0 before. *)
Definition meminfo_field (key : string) (mbuf : list Z) : Z :=
  match after_strstr (str key) mbuf with
  | Some r => match scan_lu r with Some (v, _) => v | None => 0 end
  | None => 0
  end.

Definition collector_tick5s (host version uptime meminfo arp : option (list Z)) (c : CollectorState) : CollectorState :=
  let si := cs_sys c in
  let up := match readSysfd 32 uptime with
            | [] => uptime_seconds si
            | ubuf => u64 (Qfloor (atof ubuf))
            end in
  let '(total, avail) := match readSysfd 512 meminfo with
                         | [] => (mem_total_kb si, mem_avail_kb si)
                         | mbuf => (meminfo_field "MemTotal:" mbuf, meminfo_field "MemAvailable:" mbuf)
                         end in
  MkCollector (cs_cpu c) (cs_temp c)
    (MkSys (readSysfd 64 host) (readSysfd 128 version) up total avail)
    (refreshDevices arp (cs_devices c)).

Example tick_values :
  let c := collector_tick1Hz (Some (str "48712" ++ [10])) None 4 CollectorState0 in
  let c := collector_tick5s (Some (str "router" ++ [10])) None (Some (str "86461.37 340000.10")) None None c in
  Qeq_bool (cs_temp c) (rnd (48712 # 1000)) = true /\ uptime_seconds (cs_sys c) = 86461 /\ hostname (cs_sys c) = str "router".
Proof. vm_compute. done. Qed.

(** * The host checks of the self test *)
Definition test_thermal (thermal : option (list Z)) : bool :=
  match thermal with
  | Some (c :: content) => if Qlt_le_dec 0 (atof (cstr (take 15 (c :: content)))) then true else false
  | _ => false
  end.
Definition test_memory (meminfo : option (list Z)) : bool :=
  match meminfo with
  | Some (c :: content) => 0 <? meminfo_field "MemTotal:" (cstr (take 511 (c :: content)))
  | _ => false
  end.
(** The entries of [/sys/class/net]; the counter has eight bits. *)
Definition counts_iface (d_name : list Z) : bool :=
  match d_name with 46 :: _ => false | _ => negb (bool_decide (d_name = str "lo")) end.
Definition iface_count (dir : option (list (list Z))) : Z :=
  match dir with
  | Some entries => fold_left (fun n e => if counts_iface e then u8 (n + 1) else n) entries 0
  | None => 0
  end.

Record HostFiles := MkHost {
  h_thermal : option (list Z); h_meminfo : option (list Z); h_net : option (list (list Z)) }.

Definition test_system (h : HostFiles) (r : Report.t) : Report.t :=
  let temp := test_thermal (h_thermal h) in
  let r := Report.add "SYS_Temp" temp
    (if temp then "CPU thermal sensor readable" else "cannot read /sys/class/thermal") r in
  let mem := test_memory (h_meminfo h) in
  let r := Report.add "SYS_Memory" mem
    (if mem then "MemTotal parsed from /proc/meminfo" else "cannot read memory info") r in
  let ifaces := 0 <? iface_count (h_net h) in
  Report.add "SYS_Ifaces" ifaces
    (if ifaces then "network interfaces detected" else "no network interfaces found") r.

(** [SelfTest::run]: the report handed to the callback. *)
Definition self_test_run (pair : option (Z * Z)) (h : HostFiles) (w : World) : option (Report.t * World) :=
  '(r, w') ← run_engines pair w; Some (test_system h r, w').

(** * Reading back [/proc/meminfo] *)
(** A line as the kernel prints it: key, padding, value, unit. *)
Definition mem_line (key : string) (pad : nat) (v : Z) : list Z :=
  str key ++ replicate pad 32 ++ dec v ++ str " kB" ++ [10].

Definition no_M (s : list Z) : Prop := Forall (fun c => c <> 77) s.

Lemma strip_prefix_app pat s : strip_prefix pat (pat ++ s) = Some s.
Proof. induction pat as [|c pat IH]; [done|]. cbn [strip_prefix app]. by rewrite Z.eqb_refl. Qed.
Lemma after_strstr_here pat s : after_strstr pat (pat ++ s) = Some s.
Proof.
  assert (forall x, strip_prefix pat x = Some s -> after_strstr pat x = Some s) as H.
  { intros x Hx. destruct x; cbn [after_strstr]; by rewrite Hx. }
  apply H, strip_prefix_app.
Qed.
(** Text without an [M] is skipped when looking for a key that starts with one. *)
Lemma after_strstr_skip pat a s : no_M a -> after_strstr (77 :: pat) (a ++ s) = after_strstr (77 :: pat) s.
Proof.
  induction 1 as [|c a Hc _ IH]; [done|]. cbn [app after_strstr strip_prefix].
  destruct (Z.eqb_spec 77 c); [congruence|]. exact IH.
Qed.

Lemma no_M_mem_tail pad v : 0 <= v -> no_M (replicate pad 32 ++ dec v ++ str " kB" ++ [10]).
Proof.
  intros Hv. unfold no_M. rewrite !Forall_app. split_and!.
  - apply Forall_replicate. done.
  - eapply Forall_impl; [apply dec_digits; done|]. cbn. intros c Hc%digit_range. lia.
  - repeat constructor; discriminate.
  - repeat constructor; discriminate.
Qed.

Lemma skip_space_pad pad s : skip_space (replicate pad 32 ++ s) = skip_space s.
Proof. induction pad; [done|]. cbn. exact IHpad. Qed.
Lemma skip_space_digit c s : is_digit c = true -> skip_space (c :: s) = c :: s.
Proof.
  intros Hc%digit_range. cbn [skip_space]. unfold is_space.
  destruct (Z.eqb_spec c 32); [lia|]. destruct (Z.leb_spec 9 c), (Z.leb_spec c 13); cbn; try done; lia.
Qed.

Lemma scan_sign_digit c s : is_digit c = true -> scan_sign (c :: s) = (false, c :: s).
Proof.
  intros Hc%digit_range. unfold scan_sign. destruct c as [|q|q]; try lia.
  repeat (destruct q as [q|q|]; try lia; try done).
Qed.

Lemma scan_lu_line pad v rest : 0 <= v < 2 ^ 64 ->
  scan_lu (replicate pad 32 ++ dec v ++ str " kB" ++ rest) = Some (v, str " kB" ++ rest).
Proof.
  intros Hv. unfold scan_lu. rewrite skip_space_pad.
  pose proof (dec_digits v ltac:(lia)) as Hd. pose proof (dec_fuel_nonempty 19 v) as Hne. fold (dec v) in Hne.
  assert (digits_value (dec v) = v) as Hval.
  { apply dec_fuel_value. change (10 ^ Z.of_nat 20) with 100000000000000000000. lia. }
  destruct (dec v) as [|c ds]; [done|]. pose proof Hd as [Hc Hds]%Forall_cons. cbn [app].
  rewrite skip_space_digit by done. pose proof (digit_range _ Hc).
  rewrite scan_sign_digit by done. change (c :: ds ++ str " kB" ++ rest) with ((c :: ds) ++ str " kB" ++ rest).
  rewrite digit_prefix_app by (done || (intros ? ? [= <- _]; reflexivity)). cbn [length]. rewrite Hval.
  destruct (Z.ltb_spec 18446744073709551615 v); [lia|]. unfold u64. rewrite Z.mod_small by lia.
  do 3 f_equal. cbn [drop app]. by rewrite drop_app_length.
Qed.

(** The first three lines of the file. *)
Definition mem_head (pt pf pa : nat) (total free avail : Z) : list Z :=
  mem_line "MemTotal:" pt total ++ mem_line "MemFree:" pf free ++ mem_line "MemAvailable:" pa avail.

(** A line with another key does not hide the one looked for. *)
Lemma skip_total pad v s : 0 <= v ->
  after_strstr (str "MemAvailable:") (mem_line "MemTotal:" pad v ++ s) = after_strstr (str "MemAvailable:") s.
Proof.
  intros Hv. set (a := str "emTotal:" ++ replicate pad 32 ++ dec v ++ str " kB" ++ [10]).
  transitivity (after_strstr (str "MemAvailable:") (a ++ s)).
  - subst a. unfold mem_line. rewrite <- !app_assoc. reflexivity.
  - apply (after_strstr_skip (str "emAvailable:") a s). unfold no_M, a. apply Forall_app.
    split; [repeat constructor; discriminate|]. by apply no_M_mem_tail.
Qed.
Lemma skip_free pad v s : 0 <= v ->
  after_strstr (str "MemAvailable:") (mem_line "MemFree:" pad v ++ s) = after_strstr (str "MemAvailable:") s.
Proof.
  intros Hv. set (a := str "emFree:" ++ replicate pad 32 ++ dec v ++ str " kB" ++ [10]).
  transitivity (after_strstr (str "MemAvailable:") (a ++ s)).
  - subst a. unfold mem_line. rewrite <- !app_assoc. reflexivity.
  - apply (after_strstr_skip (str "emAvailable:") a s). unfold no_M, a. apply Forall_app.
    split; [repeat constructor; discriminate|]. by apply no_M_mem_tail.
Qed.

Lemma meminfo_head pt pf pa total free avail rest :
  0 <= total < 2 ^ 64 -> 0 <= free -> 0 <= avail < 2 ^ 64 ->
  meminfo_field "MemTotal:" (mem_head pt pf pa total free avail ++ rest) = total /\
  meminfo_field "MemAvailable:" (mem_head pt pf pa total free avail ++ rest) = avail.
Proof.
  intros Ht Hf Ha. unfold meminfo_field, mem_head. rewrite <- !app_assoc. split.
  - unfold mem_line at 1. rewrite <- !app_assoc, after_strstr_here, scan_lu_line by done. done.
  - rewrite skip_total, skip_free by lia. unfold mem_line at 1.
    rewrite <- !app_assoc, after_strstr_here, scan_lu_line by done. done.
Qed.

Lemma cstr_app a b : Forall (fun c => c <> 0) a -> cstr (a ++ b) = a ++ cstr b.
Proof. induction 1 as [|c a Hc _ IH]; [done|]. cbn [cstr app]. destruct (Z.eqb_spec c 0); [done|]. by rewrite IH. Qed.
Lemma last_app_ne {A} (a b : list A) : b <> [] -> last (a ++ b) = last b.
Proof.
  intros Hb. destruct (exists_last Hb) as (b' & x & ->). by rewrite app_assoc, !last_snoc.
Qed.
(** Reading a file into a buffer that its first part does not fill. *)
Lemma readSysfd_head cap a b : Forall (fun c => c <> 0) a -> b <> [] -> (length a < cap - 1)%nat ->
  exists r, readSysfd cap (Some (a ++ b)) = a ++ r.
Proof.
  intros Ha Hb Hl. unfold readSysfd. rewrite take_app, (take_ge a) by lia.
  set (r := take _ b). assert (r <> []) as Hr.
  { subst r. destruct b as [|x b]; [done|]. destruct (cap - 1 - length a)%nat eqn:E; [lia|]. done. }
  rewrite last_app_ne by done. destruct (last r) as [c|]; [destruct (c =? 10)|];
    rewrite ?removelast_app by done; rewrite cstr_app by done; eauto.
Qed.

Lemma mem_line_no_nul key pad v : Forall (fun c => c <> 0) (str key) -> 0 <= v ->
  Forall (fun c => c <> 0) (mem_line key pad v).
Proof.
  intros Hk Hv. unfold mem_line. rewrite !Forall_app. split_and!.
  - done.
  - by apply Forall_replicate.
  - eapply Forall_impl; [apply dec_digits; done|]. cbn. intros c Hc%digit_range. lia.
  - repeat constructor; discriminate.
  - repeat constructor; discriminate.
Qed.

(** Memory figures are read back from the file the kernel prints, whatever the padding and
    the rest of the file. *)
Lemma meminfo_read_back (host version uptime arp : option (list Z)) (c : CollectorState) pt pf pa total free avail rest :
  0 <= total < 2 ^ 64 -> 0 <= free -> 0 <= avail < 2 ^ 64 -> rest <> [] ->
  (length (mem_head pt pf pa total free avail) < 511)%nat ->
  let c' := collector_tick5s host version uptime (Some (mem_head pt pf pa total free avail ++ rest)) arp c in
  mem_total_kb (cs_sys c') = total /\ mem_avail_kb (cs_sys c') = avail.
Proof.
  intros Ht Hf Ha Hr Hl. unfold collector_tick5s.
  assert (Forall (fun c => c <> 0) (mem_head pt pf pa total free avail)) as Hnn.
  { unfold mem_head. rewrite !Forall_app. split_and!; apply mem_line_no_nul; try lia; repeat constructor; discriminate. }
  destruct (readSysfd_head 512 _ rest Hnn Hr Hl) as [r E]. rewrite E.
  destruct (meminfo_head pt pf pa total free avail r Ht Hf Ha) as [H1 H2].
  destruct (mem_head pt pf pa total free avail ++ r) as [|x b] eqn:Eb; [done|]. cbn. done.
Qed.

(** * The complete self test *)
Lemma test_system_verdicts h r : report_ok r -> Report.count r = 4%nat ->
  report_ok (test_system h r) /\
  Report.verdicts (test_system h r)
  = Report.verdicts r ++ [test_thermal (h_thermal h); test_memory (h_meminfo h); 0 <? iface_count (h_net h)].
Proof.
  intros Hok Hc. unfold test_system. set (dt := if test_thermal _ then _ else _). set (dm := if test_memory _ then _ else _).
  set (r1 := Report.add "SYS_Temp" _ dt r). set (r2 := Report.add "SYS_Memory" _ dm r1).
  destruct (report_add_ok "SYS_Temp" (test_thermal (h_thermal h)) dt r Hok) as [Hok1 E1]. rewrite Hc in E1.
  destruct (report_add_ok "SYS_Memory" (test_memory (h_meminfo h)) dm r1 Hok1) as [Hok2 E2].
  assert (Report.count r1 = 5%nat) as Hc1 by (subst r1; unfold Report.add; by rewrite Hc). rewrite Hc1 in E2.
  assert (Report.count r2 = 6%nat) as Hc2 by (subst r2; unfold Report.add; by rewrite Hc1).
  destruct (report_add_ok "SYS_Ifaces" (0 <? iface_count (h_net h))
    (if 0 <? iface_count (h_net h) then "network interfaces detected" else "no network interfaces found") r2 Hok2) as [Hok3 E3].
  rewrite Hc2 in E3. fold r2 in E2. fold r1 in E1. split; [done|]. rewrite E3, E2, E1. by rewrite <- !app_assoc.
Qed.

(** The self test reports the truth about engines and host.  Its NAT cases (source
    rewrite, ephemeral port, echo request and reply) pass whatever the environment; its
    DHCP case passes exactly when the socket pair exists and its first answer to the
    engine's OFFER, interrupted calls aside, takes all 320 bytes; its host cases pass
    exactly when the thermal file holds a positive number, [/proc/meminfo] a positive
    [MemTotal], and a network interface other than [lo] exists (their number being taken
    modulo 256); and the report holds these seven rows and counts the passing ones. *)
Lemma self_test_verdict (pair : option (Z * Z)) (h : HostFiles) (w : World) (pre rs : list SendReply) (r : SendReply)
    (Hw : w_replies w = pre ++ r :: rs) (Hpre : Forall (fun x => x = SendError EINTR) pre)
    (Hr : answers r = true) :
  exists rep w', self_test_run pair h w = Some (rep, w') /\
    Report.count rep = 7%nat /\
    Report.verdicts rep = [true; true; true;
      match pair with Some _ => takes_whole r 320 | None => false end;
      test_thermal (h_thermal h); test_memory (h_meminfo h); 0 <? iface_count (h_net h)] /\
    Report.passed rep = length (List.filter id (Report.verdicts rep)).
Proof.
  destruct (engines_verdict pair w pre rs r Hw Hpre Hr) as (rep & w' & E & Hc & Hv & Hok).
  unfold self_test_run. rewrite E. cbn. eexists _, _. split; [done|].
  destruct (test_system_verdicts h rep Hok Hc) as [Hok' Hv']. rewrite Hv in Hv'. split; [|split; [exact Hv'|apply Hok']].
  destruct Hok' as (Hl & Hle & _). pose proof (f_equal length Hv') as Hlen. unfold Report.verdicts, Report.rows in Hlen.
  rewrite length_map, length_take in Hlen. cbn [app length] in Hlen. lia.
Qed.
Definition w_host : HostFiles :=
  MkHost (Some (str "51234" ++ [10])) (Some (mem_line "MemTotal:" 8 3885396)) (Some [str "."; str ".."; str "lo"; str "eth0"]).
Lemma self_test_verdict_example :
  exists rep w', self_test_run (Some (3, 4)) w_host (MkWorld (fun _ => 0) 0 [SendError EINTR; Sent 320] [] Telemetry0)
    = Some (rep, w') /\ Report.count rep = 7%nat /\ Report.passed rep = 7%nat.
Proof.
  destruct (self_test_verdict (Some (3, 4)) w_host (MkWorld (fun _ => 0) 0 [SendError EINTR; Sent 320] [] Telemetry0)
    [SendError EINTR] [] (Sent 320)) as (rep & w' & E & Hc & Hv & Hp); [repeat constructor..|].
  exists rep, w'. split; [exact E|]. split; [exact Hc|]. rewrite Hp, Hv. vm_compute. reflexivity.
Defined.
