(* ===== verification/NumPad.v ===== *)
(** The numeric keypad of the dashboard and its validators ([NumPadDialog] and the IPv4
    helpers of [GUI/Dashboard.cpp]).

    The Qt conversions the code calls are a parameter, the record [Qt], with their
    documented behaviour as the class [QtLaws]. A text is the list of its character
    codes; a regular expression is data, with its language as an inductive predicate. *)
From Stdlib Require Import ZArith Lia Ascii String QArith Qround Qabs Lqa.
From stdpp Require Import base numbers strings list.
From S2P Require Import Prelude Text Types_util Double Config.
#[local] Open Scope Z_scope.
#[local] Open Scope list_scope.

(** * Regular expressions without repetition *)
Inductive re :=
  | Cls (lo hi : Z)        (* one character in a range *)
  | Seq (r1 r2 : re)
  | Alt (r1 r2 : re).

Inductive re_match : re -> list Z -> Prop :=
  | m_cls lo hi c : lo <= c <= hi -> re_match (Cls lo hi) [c]
  | m_seq r1 r2 s1 s2 : re_match r1 s1 -> re_match r2 s2 -> re_match (Seq r1 r2) (s1 ++ s2)
  | m_alt_l r1 r2 s : re_match r1 s -> re_match (Alt r1 r2) s
  | m_alt_r r1 r2 s : re_match r2 s -> re_match (Alt r1 r2) s.

Definition Ch (c : Z) : re := Cls c c.
Definition Dig : re := Cls 48 57.
(** The validator of the DHCP dialog: an octet is
    [25[0-5]|2[0-4]\d|1\d{2}|[1-9]\d|\d]. *)
Definition octet_re : re :=
  Alt (Seq (Ch 50) (Seq (Ch 53) (Cls 48 53)))
 (Alt (Seq (Ch 50) (Seq (Cls 48 52) Dig))
 (Alt (Seq (Ch 49) (Seq Dig Dig))
 (Alt (Seq (Cls 49 57) Dig) Dig))).
Definition ip_re : re :=
  Seq (Seq octet_re (Ch 46)) (Seq (Seq octet_re (Ch 46)) (Seq (Seq octet_re (Ch 46)) octet_re)).

(** A matcher: what is left after each way to match a prefix. *)
Fixpoint re_rests (r : re) (s : list Z) : list (list Z) :=
  match r with
  | Cls lo hi => match s with c :: s' => if (lo <=? c) && (c <=? hi) then [s'] else [] | [] => [] end
  | Seq r1 r2 => concat (map (re_rests r2) (re_rests r1 s))
  | Alt r1 r2 => re_rests r1 s ++ re_rests r2 s
  end.
Definition re_matchb (r : re) (s : list Z) : bool := existsb (fun x => bool_decide (x = [])) (re_rests r s).

(** * Qt *)
Record Qt := MkQt {
  toDouble : list Z -> option Q;         (* [QString::toDouble], [None] when not ok *)
  toInt : list Z -> option Z;            (* [QString::toInt] *)
  number_int : Z -> list Z;              (* [QString::number(int)] *)
  number_g12 : Q -> list Z;              (* [QString::number(double, 'g', 12)] *)
  trimmed : list Z -> list Z;
  split_dot : list Z -> list (list Z);   (* [split('.')] *)
  re_accepts : re -> list Z -> bool;     (* [QRegularExpressionValidator]: acceptable *)
  bw_accepts : list Z -> bool }.         (* the bandwidth [QDoubleValidator]: acceptable *)

Fixpoint join_dot (ps : list (list Z)) : list Z :=
  match ps with
  | [] => []
  | [p] => p
  | p :: ps' => p ++ 46 :: join_dot ps'
  end.

Definition digits (s : list Z) : Prop := Forall (fun c => is_digit c = true) s.

Class QtLaws (qt : Qt) := {
  qt_toDouble ds : ds <> [] -> digits ds -> (length ds <= 20)%nat ->
    toDouble qt ds = Some (rnd (inject_Z (digits_value ds)));
  qt_number_int v : 0 <= v < 2147483648 -> number_int qt v = dec v;
  qt_toInt v : 0 <= v < 2147483648 -> toInt qt (dec v) = Some v;
  qt_trimmed s : Forall (fun c => 32 < c < 127) s -> trimmed qt s = s;
  qt_split ps : ps <> [] -> Forall (Forall (fun c => c <> 46)) ps -> split_dot qt (join_dot ps) = ps;
  qt_re r s : re_accepts qt r s = true <-> re_match r s }.

(** * The dialog *)
Record NumPad := MkPad {
  text_ : list Z; min_ : Q; max_ : Q; allow_negative_ : bool; allow_decimal_ : bool }.
Definition set_text (p : NumPad) (s : list Z) : NumPad :=
  MkPad s (min_ p) (max_ p) (allow_negative_ p) (allow_decimal_ p).

Inductive key := KDigit (d : Z) | KMinus | KDot | KBackspace.
(** The minus and dot buttons exist only in one layout each. *)
Definition has_key (p : NumPad) (k : key) : bool :=
  match k with
  | KDigit d => is_digit d
  | KMinus => allow_negative_ p && negb (allow_decimal_ p)
  | KDot => negb (allow_negative_ p) && allow_decimal_ p
  | KBackspace => true
  end.

Definition push_digit (d : Z) (p : NumPad) : NumPad :=
  if (20 <=? length (text_ p))%nat then p else set_text p (text_ p ++ [d]).
Definition on_minus (p : NumPad) : NumPad :=
  if negb (allow_negative_ p) then p
  else match text_ p with [] => set_text p [45] | _ => p end.
Definition has_dot (s : list Z) : bool := existsb (Z.eqb 46) s.
Definition on_dot (p : NumPad) : NumPad :=
  if negb (allow_decimal_ p) then p
  else if has_dot (text_ p) then p
  else if bool_decide (text_ p = []) || bool_decide (text_ p = [45]) then set_text p (text_ p ++ [48; 46])
  else set_text p (text_ p ++ [46]).
Definition do_backspace (p : NumPad) : NumPad := set_text p (removelast (text_ p)).
Definition press (p : NumPad) (k : key) : NumPad :=
  if negb (has_key p k) then p
  else match k with
       | KDigit d => push_digit d p
       | KMinus => on_minus p
       | KDot => on_dot p
       | KBackspace => do_backspace p
       end.

Definition truncQ (x : Q) : Z := if Qle_bool 0 x then Qfloor x else - Qfloor (- x).
Definition llround (x : Q) : Z :=
  if Qle_bool 0 x then Qfloor (x + (1 # 2)) else - Qfloor (- x + (1 # 2)).
(** Strict comparison of doubles. *)
Definition Qltb (x y : Q) : bool := negb (Qle_bool y x).

Section WithQt.
Context (qt : Qt).

(** [update_display]: whether the OK button is enabled and the display red. *)
Definition update_display (p : NumPad) : bool * bool :=
  let s := text_ p in
  if bool_decide (s = []) then (false, false)
  else if bool_decide (s = [45]) || bool_decide (s = [46]) || bool_decide (s = [45; 46]) then (false, false)
  else
    let val := default 0%Q (toDouble qt s) in
    let ok := match toDouble qt s with Some _ => true | None => false end in
    let ok := if negb (allow_decimal_ p) && has_dot s then false else ok in
    let ok := if negb (allow_negative_ p) && (Qltb val 0 || bool_decide (head s = Some 45)) then false else ok in
    let ok := if ok && negb (allow_decimal_ p) then Qeq_bool (inject_Z (truncQ val)) val else ok in
    if ok then (if Qle_bool (min_ p) val && Qle_bool val (max_ p) then (true, false) else (false, true))
    else (false, true).

(** A session: the keys pressed, then OK or Cancel. A disabled OK button does nothing, and
    the user is left with Cancel. *)
Record session := MkSession { ses_keys : list key; ses_accept : bool }.
Definition dlg_exec (p : NumPad) (u : session) : option (list Z) :=
  let p := fold_left press (ses_keys u) p in
  if ses_accept u && fst (update_display p) then Some (text_ p) else None.

Definition clampZ (x lo hi : Z) : Z := if x <? lo then lo else if hi <? x then hi else x.
Definition clampQ (x lo hi : Q) : Q := if Qltb x lo then lo else if Qltb hi x then hi else x.

(** [static_cast<int>] of a [long long]. *)
Definition int_of_ll (v : Z) : Z := to_int (u32 v).

Definition get_int (initial min max : Z) (u : session) : option Z :=
  let initial := clampZ initial min max in
  match dlg_exec (MkPad (number_int qt initial) (inject_Z min) (inject_Z max) false false) u with
  | None => None
  | Some [] => None
  | Some t =>
      match toDouble qt t with
      | None => None
      | Some dv =>
          let v := int_of_ll (llround dv) in
          if Qltb (rnd (1 # 1000000000)) (Qabs (dsub dv (inject_Z v))) then None
          else if (v <? min) || (max <? v) then None
          else Some v
      end
  end.

Definition get_double (initial min max : Q) (u : session) : option Q :=
  let initial := clampQ initial min max in
  match dlg_exec (MkPad (number_g12 qt initial) min max false true) u with
  | None => None
  | Some [] => None
  | Some t =>
      match toDouble qt t with
      | None => None
      | Some v => if Qle_bool v 0 || Qltb v min || Qltb max v then None else Some v
      end
  end.

(** ** IPv4 addresses, octet by octet *)
Fixpoint parse_octets (parts : list (list Z)) : option (list Z) :=
  match parts with
  | [] => Some []
  | p :: ps => match toInt qt p with
               | Some v => if (v <? 0) || (255 <? v) then None
                           else match parse_octets ps with Some vs => Some (v :: vs) | None => None end
               | None => None
               end
  end.
Definition parse_ipv4_quads (s : list Z) : option (list Z) :=
  let parts := split_dot qt (trimmed qt s) in
  if negb (length parts =? 4)%nat then None else parse_octets parts.
Definition format_ipv4_quads (q : list Z) : list Z := join_dot (map (number_int qt) q).

(** The four dialogs; the first cancelled one cancels all. *)
Fixpoint edit_octets (q : list Z) (us : list session) : option (list Z) :=
  match q, us with
  | [], _ => Some []
  | o :: q', u :: us' =>
      match get_int o 0 255 u with
      | Some v => match edit_octets q' us' with Some vs => Some (v :: vs) | None => None end
      | None => None
      end
  | _, [] => None
  end.
Definition numpad_edit_ipv4 (current : list Z) (us : list session) : option (list Z) :=
  let q := match trimmed qt current with
           | [] => [192; 168; 1; 1]
           | _ => default [192; 168; 1; 1] (parse_ipv4_quads current)
           end in
  match edit_octets q us with Some q' => Some (format_ipv4_quads q') | None => None end.
End WithQt.

(** * Lemmas *)
(** ** The language of the validator *)
Lemma re_rests_spec r : forall s x, x ∈ re_rests r s <-> exists p, s = p ++ x /\ re_match r p.
Proof.
  induction r as [lo hi|r1 IH1 r2 IH2|r1 IH1 r2 IH2]; intros s x; cbn [re_rests].
  - destruct s as [|c s]; [|destruct (Z.leb_spec lo c), (Z.leb_spec c hi); cbn [andb]].
    1,3-5: split; [by intros ?%elem_of_nil|intros (p & E & Hm); inversion Hm; subst; cbn in E; simplify_eq; lia].
    rewrite list_elem_of_singleton. split.
    + intros ->. exists [c]. split; [done|]. by constructor.
    + intros (p & E & Hm). inversion Hm; subst. cbn in E. by simplify_eq.
  - rewrite list_elem_of_In, in_concat. setoid_rewrite in_map_iff. split.
    + intros (l & (y & <- & Hy) & Hx). apply list_elem_of_In, IH1 in Hy as (p1 & -> & Hm1).
      apply list_elem_of_In, IH2 in Hx as (p2 & -> & Hm2). exists (p1 ++ p2). rewrite <- app_assoc.
      split; [done|]. by constructor.
    + intros (p & -> & Hm). inversion Hm as [|? ? s1 s2 Hm1 Hm2| |]; subst.
      exists (re_rests r2 (s2 ++ x)). split.
      * exists (s2 ++ x). split; [done|]. apply list_elem_of_In, IH1. exists s1. by rewrite app_assoc.
      * apply list_elem_of_In, IH2. eauto.
  - rewrite elem_of_app, IH1, IH2. split.
    + intros [(p & -> & Hm)|(p & -> & Hm)]; exists p; (split; [done|]); by constructor.
    + intros (p & -> & Hm). inversion Hm; subst; eauto.
Qed.
Lemma re_matchb_spec r s : re_matchb r s = true <-> re_match r s.
Proof.
  unfold re_matchb. rewrite existsb_exists. split.
  - intros (x & Hx%list_elem_of_In & ->%bool_decide_eq_true). apply re_rests_spec in Hx as (p & -> & Hm).
    by rewrite app_nil_r.
  - intros Hm. exists []. split; [|by apply bool_decide_eq_true]. apply list_elem_of_In, re_rests_spec.
    exists s. by rewrite app_nil_r.
Qed.

(** Takes a match of a concrete expression apart. *)
Ltac re_inv := repeat match goal with
  | H : re_match (Cls _ _) _ |- _ => inversion H; clear H; subst
  | H : re_match (Ch _) _ |- _ => inversion H; clear H; subst
  | H : re_match Dig _ |- _ => inversion H; clear H; subst
  | H : re_match (Seq _ _) _ |- _ => inversion H; clear H; subst
  | H : re_match (Alt _ _) _ |- _ => inversion H; clear H; subst
  end.

(** One, two or three digit characters that print an octet. *)
Lemma octet_1 x : 48 <= x <= 57 -> exists v, 0 <= v < 256 /\ [x] = dec v.
Proof.
  intros Hx. exists (x - 48). split; [lia|]. destruct (dec_octet (x - 48)) as [[_ ->]|[[? _]|[? _]]]; try lia.
  f_equal. lia.
Qed.
Lemma octet_2 x y : 49 <= x <= 57 -> 48 <= y <= 57 -> exists v, 0 <= v < 256 /\ [x; y] = dec v.
Proof.
  intros Hx Hy. exists (10 * (x - 48) + (y - 48)). split; [lia|].
  destruct (dec_octet (10 * (x - 48) + (y - 48))) as [[? _]|[[_ ->]|[? _]]]; try lia. f_equal; [divlia|f_equal; divlia].
Qed.
Lemma octet_3 x y z : 49 <= x <= 57 -> 48 <= y <= 57 -> 48 <= z <= 57 ->
  100 * (x - 48) + 10 * (y - 48) + (z - 48) < 256 -> exists v, 0 <= v < 256 /\ [x; y; z] = dec v.
Proof.
  intros Hx Hy Hz Hv. exists (100 * (x - 48) + 10 * (y - 48) + (z - 48)). split; [lia|].
  destruct (dec_octet (100 * (x - 48) + 10 * (y - 48) + (z - 48))) as [[? _]|[[? _]|[_ ->]]]; try lia.
  f_equal; [divlia|f_equal; [divlia|f_equal; divlia]].
Qed.

Lemma octet_re_spec s : re_match octet_re s <-> exists v, 0 <= v < 256 /\ s = dec v.
Proof.
  split.
  - unfold octet_re. intros H. re_inv; cbn [app]; first [apply octet_3; lia | apply octet_2; lia | apply octet_1; lia].
  - intros (v & Hv & ->). apply re_matchb_spec.
    destruct (dec_octet v Hv) as [[Hr ->]|[[Hr ->]|[Hr ->]]].
    + apply re_matchb_spec. do 4 apply m_alt_r. constructor. lia.
    + apply re_matchb_spec. do 3 apply m_alt_r. apply m_alt_l. apply (m_seq _ _ [_] [_]); constructor; divlia.
    + apply re_matchb_spec. assert (v / 10 / 10 = 1 \/ v / 10 / 10 = 2) as [E|E] by divlia; rewrite E.
      * do 2 apply m_alt_r. apply m_alt_l. apply (m_seq _ _ [_] [_; _]); [constructor; lia|].
        apply (m_seq _ _ [_] [_]); constructor; divlia.
      * destruct (Z.lt_ge_cases v 250).
        -- apply m_alt_r, m_alt_l. apply (m_seq _ _ [_] [_; _]); [constructor; lia|].
           apply (m_seq _ _ [_] [_]); constructor; divlia.
        -- apply m_alt_l. apply (m_seq _ _ [_] [_; _]); [constructor; lia|].
           apply (m_seq _ _ [_] [_]); constructor; divlia.
Qed.

Definition octets (q : list Z) : Prop := length q = 4%nat /\ Forall (fun v => 0 <= v < 256) q.
Lemma ip_re_spec s : re_match ip_re s <-> exists q, octets q /\ s = join_dot (map dec q).
Proof.
  split.
  - unfold ip_re. intros H.
    inversion H as [|? ? s1 s2 H1 H2| |]; clear H; subst. inversion H1 as [|? ? a d1 Ha Hd1| |]; clear H1; subst.
    inversion H2 as [|? ? s3 s4 H3 H4| |]; clear H2; subst. inversion H3 as [|? ? b d2 Hb Hd2| |]; clear H3; subst.
    inversion H4 as [|? ? s5 s6 H5 H6| |]; clear H4; subst. inversion H5 as [|? ? c d3 Hc Hd3| |]; clear H5; subst.
    apply octet_re_spec in Ha as (x & Hx & ->), Hb as (y & Hy & ->), Hc as (z & Hz & ->), H6 as (t & Ht & ->).
    inversion Hd1; inversion Hd2; inversion Hd3; subst. exists [x; y; z; t]. split; [by split; [|repeat (apply Forall_cons_2; [done|])]|].
    cbn. rewrite <- !app_assoc. cbn. assert (forall n, 46 <= n <= 46 -> n = 46) as E by lia.
    repeat match goal with H : 46 <= _ <= 46 |- _ => apply E in H; rewrite H; clear H end. done.
  - intros (q & [Hl Hq] & ->). destruct q as [|a [|b [|c [|d [|]]]]]; try done.
    repeat match goal with H : Forall _ (_ :: _) |- _ => apply Forall_cons in H as [? H] end.
    assert (forall v, 0 <= v < 256 -> re_match (Seq octet_re (Ch 46)) (dec v ++ [46])) as Hd.
    { intros v Hv. constructor; [apply octet_re_spec; eauto|]. constructor. lia. }
    assert (re_match octet_re (dec d)) as Hlast by (apply octet_re_spec; eauto).
    pose proof (m_seq _ _ _ _ (Hd a ltac:(done)) (m_seq _ _ _ _ (Hd b ltac:(done)) (m_seq _ _ _ _ (Hd c ltac:(done)) Hlast))) as Hm.
    cbn. rewrite <- !app_assoc in Hm. exact Hm.
Qed.

(** ** The keypad *)
(** In the integer layout the text is a string of at most 20 digits, whatever is pressed. *)
Definition int_pad (p : NumPad) : Prop :=
  digits (text_ p) /\ (length (text_ p) <= 20)%nat /\ allow_negative_ p = false /\ allow_decimal_ p = false.

Lemma digits_removelast s : digits s -> digits (removelast s).
Proof.
  unfold digits. induction 1 as [|c s Hc Hs IH]; [done|]. destruct s; [done|]. by apply Forall_cons_2.
Qed.
Lemma length_removelast {A} (s : list A) : (length (removelast s) <= length s)%nat.
Proof. induction s as [|c [|d s] IH]; cbn in *; lia. Qed.

Lemma press_int_pad p k : int_pad p -> int_pad (press p k) /\ min_ (press p k) = min_ p /\ max_ (press p k) = max_ p.
Proof.
  intros (Hd & Hl & Hn & Hdec). unfold press, has_key. rewrite Hn, Hdec. destruct k as [d| | |]; cbn [negb andb].
  - destruct (is_digit d) eqn:E; cbn [negb]; [|done]. unfold push_digit.
    destruct (Nat.leb_spec 20 (length (text_ p))); [done|]. split; [|done].
    split_and!; cbn; try done; [apply Forall_app; split; [done|by repeat constructor]|rewrite length_app; cbn; lia].
  - done.
  - done.
  - split; [|done]. split_and!; cbn; try done; [by apply digits_removelast|]. pose proof (length_removelast (text_ p)). lia.
Qed.
Lemma presses_int_pad ks : forall p, int_pad p ->
  int_pad (fold_left press ks p) /\ min_ (fold_left press ks p) = min_ p /\ max_ (fold_left press ks p) = max_ p.
Proof.
  induction ks as [|k ks IH]; intros p Hp; cbn [fold_left]; [done|].
  destruct (press_int_pad p k Hp) as (Hp1 & Hmin & Hmax). destruct (IH _ Hp1) as (Hp2 & H1 & H2).
  split; [done|]. by rewrite H1, H2.
Qed.

Lemma digits_value_nonneg s : digits s -> 0 <= digits_value s.
Proof.
  unfold digits_value. assert (forall v, 0 <= v -> digits s -> 0 <= fold_left (fun v c => v * 10 + (c - 48)) s v) as H;
    [|by apply H].
  induction s as [|c s IH]; intros v Hv Hs; cbn [fold_left]; [done|]. apply Forall_cons in Hs as [Hc%digit_range Hs].
  apply IH; [lia|done].
Qed.

Lemma rnd_int n : 0 <= n <= 2 ^ 53 -> (rnd (inject_Z n) == inject_Z n)%Q.
Proof. apply representable_Z. Qed.
(** An integer converted to a double compares with small bounds as the integer does. *)
Lemma rnd_int_le_iff n m : 0 <= n -> m < 2 ^ 53 -> Qle_bool (rnd (inject_Z n)) (inject_Z m) = (n <=? m).
Proof.
  intros Hn Hm. apply eq_true_iff_eq. rewrite Qle_bool_iff, Z.leb_le. destruct (Z.le_gt_cases n (2 ^ 53)).
  - rewrite rnd_int by lia. by rewrite <- Zle_Qle.
  - assert (inject_Z (2 ^ 53) <= rnd (inject_Z n))%Q as Hge.
    { rewrite <- (rnd_int (2 ^ 53)) by lia. apply rnd_mono; apply injZ_le; lia. }
    split; [intros Hle; exfalso|lia]. assert (inject_Z (2 ^ 53) <= inject_Z m)%Q as H2 by (by eapply Qle_trans).
    rewrite <- Zle_Qle in H2. lia.
Qed.
Lemma rnd_int_ge_iff n m : 0 <= n -> 0 <= m <= 2 ^ 53 -> Qle_bool (inject_Z m) (rnd (inject_Z n)) = (m <=? n).
Proof.
  intros Hn Hm. apply eq_true_iff_eq. rewrite Qle_bool_iff, Z.leb_le. destruct (Z.le_gt_cases n (2 ^ 53)).
  - rewrite rnd_int by lia. by rewrite <- Zle_Qle.
  - split; [lia|]. intros _. rewrite <- (rnd_int m) by lia. apply rnd_mono; apply injZ_le; lia.
Qed.
Lemma Qfloor_int x n : (x == inject_Z n)%Q -> Qfloor x = n.
Proof. intros ->. apply Qfloor_Z. Qed.
Lemma llround_int x n : (x == inject_Z n)%Q -> 0 <= n -> llround x = n.
Proof.
  intros E Hn. unfold llround. assert (Qle_bool 0 x = true) as ->.
  { apply Qle_bool_iff. rewrite E. change 0%Q with (inject_Z 0). by apply injZ_le. }
  rewrite E. pose proof (Qfloor_le (inject_Z n + (1 # 2))) as H1. pose proof (Qlt_floor (inject_Z n + (1 # 2))) as H2.
  set (f := Qfloor _) in *. clearbody f.
  assert (f < n + 1) by (rewrite Zlt_Qlt, inject_Z_plus; change (inject_Z 1) with 1%Q; lra).
  assert (n < f + 1); [|lia]. rewrite Zlt_Qlt. lra.
Qed.

Section Laws.
Context (qt : Qt) `{!QtLaws qt}.

Lemma digits_no_dot s : digits s -> has_dot s = false.
Proof.
  unfold has_dot. induction 1 as [|c s Hc%digit_range _ IH]; [done|]. cbn [existsb].
  destruct (Z.eqb_spec 46 c); [lia|done].
Qed.

Lemma update_display_int p mn mx : int_pad p -> min_ p = inject_Z mn -> max_ p = inject_Z mx ->
  0 <= mn <= mx -> mx < 2 ^ 53 ->
  fst (update_display qt p)
  = bool_decide (text_ p <> []) && (mn <=? digits_value (text_ p)) && (digits_value (text_ p) <=? mx).
Proof.
  intros (Hd & Hl & Hn & Hdec) Hmin Hmax Hm Hmx. unfold update_display.
  destruct (text_ p) as [|c s] eqn:Et; [done|]. rewrite bool_decide_eq_false_2 by done.
  rewrite (bool_decide_eq_true_2 (c :: s <> [])) by done. cbn [andb].
  pose proof Hd as [Hc _]%Forall_cons. apply digit_range in Hc.
  rewrite !(bool_decide_eq_false_2 (c :: s = _)) by (intros [= -> _]; lia). cbn [orb].
  rewrite (qt_toDouble (c :: s)) by done. cbn [default from_option]. unfold id.
  rewrite (digits_no_dot (c :: s)) by done. rewrite Hn, Hdec. cbn [negb andb].
  pose proof (digits_value_nonneg _ Hd) as Hv. set (n := digits_value (c :: s)) in *.
  assert (0 <= rnd (inject_Z n))%Q as Hnn by (apply rnd_nonneg; change 0%Q with (inject_Z 0); by apply injZ_le).
  assert (Qltb (rnd (inject_Z n)) 0 = false) as ->.
  { unfold Qltb. apply negb_false_iff. by apply Qle_bool_iff. }
  rewrite (bool_decide_eq_false_2 (head (c :: s) = Some 45)) by (intros [= ->]; lia). cbn [orb].
  rewrite Hmin, Hmax, rnd_int_ge_iff, rnd_int_le_iff by lia.
  destruct (Z.leb_spec n mx).
  - assert (Qeq_bool (inject_Z (truncQ (rnd (inject_Z n)))) (rnd (inject_Z n)) = true) as ->.
    { apply Qeq_bool_iff. unfold truncQ. assert (Qle_bool 0 (rnd (inject_Z n)) = true) as -> by (by apply Qle_bool_iff).
      rewrite (Qfloor_int _ n) by (apply rnd_int; lia). symmetry. apply rnd_int. lia. }
    by destruct (mn <=? n).
  - rewrite !andb_false_r. by destruct (Qeq_bool _ _).
Qed.

Lemma int_of_ll_small n : 0 <= n < 2147483648 -> int_of_ll n = n.
Proof. intros Hn. unfold int_of_ll, u32. rewrite Z.mod_small by lia. by apply to_int_small. Qed.

(** The text at the end of a session of the integer keypad. *)
Definition int_text (initial mn mx : Z) (u : session) : list Z :=
  text_ (fold_left press (ses_keys u) (MkPad (dec (clampZ initial mn mx)) (inject_Z mn) (inject_Z mx) false false)).

Lemma clampZ_range x lo hi : lo <= hi -> lo <= clampZ x lo hi <= hi.
Proof. intros H. unfold clampZ. destruct (Z.ltb_spec x lo), (Z.ltb_spec hi x); lia. Qed.
Lemma dec_length_20 v : (length (dec v) <= 20)%nat.
Proof.
  unfold dec. generalize 20%nat as f. intros f. revert v. induction f as [|f IH]; intros v; cbn [dec_fuel]; [done|].
  destruct (v <? 10); [cbn; lia|]. rewrite length_app. specialize (IH (v / 10)). cbn. lia.
Qed.
Lemma initial_int_pad v mn mx : 0 <= v -> int_pad (MkPad (dec v) (inject_Z mn) (inject_Z mx) false false).
Proof. intros Hv. split_and!; try done; [by apply dec_digits|apply dec_length_20]. Qed.

Lemma int_text_digits initial mn mx u : 0 <= mn <= mx ->
  digits (int_text initial mn mx u) /\ (length (int_text initial mn mx u) <= 20)%nat.
Proof.
  intros Hm. pose proof (clampZ_range initial mn mx ltac:(lia)).
  destruct (presses_int_pad (ses_keys u) _ (initial_int_pad (clampZ initial mn mx) mn mx ltac:(lia))) as ((Hd & Hl & _) & _).
  done.
Qed.

(** What the integer dialog returns, for any keys. *)
Lemma get_int_spec initial mn mx u : 0 <= mn <= mx -> mx < 2147483648 ->
  let t := int_text initial mn mx u in
  get_int qt initial mn mx u
  = if ses_accept u && (bool_decide (t <> []) && (mn <=? digits_value t) && (digits_value t <=? mx))
    then Some (digits_value t) else None.
Proof.
  intros Hm Hmx t. pose proof (clampZ_range initial mn mx ltac:(lia)) as Hcl.
  unfold get_int, dlg_exec. rewrite qt_number_int by lia.
  destruct (presses_int_pad (ses_keys u) _ (initial_int_pad (clampZ initial mn mx) mn mx ltac:(lia))) as (Hp & Hmin & Hmax).
  cbn [min_ max_] in *. rewrite (update_display_int _ mn mx) by (done || lia). fold (int_text initial mn mx u). fold t.
  destruct Hp as (Hd & Hl & _). fold (int_text initial mn mx u) in Hd, Hl. fold t in Hd, Hl.
  destruct (ses_accept u); [|done]. cbn [andb]. destruct t as [|c s] eqn:Et; [done|].
  rewrite (bool_decide_eq_true_2 (c :: s <> [])) by done. cbn [andb].
  set (n := digits_value (c :: s)) in *. destruct (Z.leb_spec mn n); [|done]. destruct (Z.leb_spec n mx); [|done]. cbn [andb].
  rewrite (qt_toDouble (c :: s)) by done. fold n.
  assert (rnd (inject_Z n) == inject_Z n)%Q as Er by (apply rnd_int; lia).
  rewrite (llround_int _ n Er) by lia. rewrite int_of_ll_small by lia.
  assert (Qltb (rnd (1 # 1000000000)) (Qabs (dsub (rnd (inject_Z n)) (inject_Z n))) = false) as ->.
  { unfold Qltb, dsub. apply negb_false_iff, Qle_bool_iff. rewrite rnd_0 by (rewrite Er; ring). vm_compute. discriminate. }
  destruct (Z.ltb_spec n mn); [lia|]. destruct (Z.ltb_spec mx n); [lia|]. done.
Qed.
Lemma get_int_range initial mn mx u v : 0 <= mn <= mx -> mx < 2147483648 ->
  get_int qt initial mn mx u = Some v -> mn <= v <= mx.
Proof.
  intros Hm Hmx. rewrite get_int_spec by done. cbv zeta. case_if; [|done]. intros [= <-].
  match goal with H : _ && _ = true |- _ => apply andb_true_iff in H as [_ H]; apply andb_true_iff in H as [H1 H2];
    apply andb_true_iff in H1 as [_ H1] end. apply Z.leb_le in H1, H2. lia.
Qed.

(** ** Addresses *)
Lemma edit_octets_range q us q' : edit_octets qt q us = Some q' ->
  length q' = length q /\ Forall (fun v => 0 <= v < 256) q'.
Proof.
  revert us q'. induction q as [|o q IH]; intros us q'; cbn [edit_octets]; [intros [= <-]; split; [done|constructor]|].
  destruct us as [|u us]; [done|]. destruct (get_int qt o 0 255 u) as [v|] eqn:E; [|done].
  destruct (edit_octets qt q us) as [vs|] eqn:E2; [|done]. intros [= <-].
  destruct (IH _ _ E2) as [Hl Hf]. apply get_int_range in E; [|lia..]. split; [cbn; by rewrite Hl|]. constructor; [lia|done].
Qed.
Lemma parse_octets_length ps vs : parse_octets qt ps = Some vs -> length vs = length ps.
Proof.
  revert vs. induction ps as [|p ps IH]; intros vs; cbn [parse_octets]; [by intros [= <-]|].
  destruct (toInt qt p) as [v|]; [|done]. case_if; [done|]. destruct (parse_octets qt ps) as [ws|]; [|done].
  intros [= <-]. cbn. by rewrite (IH ws).
Qed.

Lemma format_quads q : Forall (fun v => 0 <= v < 256) q -> format_ipv4_quads qt q = join_dot (map dec q).
Proof.
  intros Hq. unfold format_ipv4_quads. f_equal. apply map_ext_Forall. eapply Forall_impl; [exact Hq|].
  cbn. intros v Hv. apply qt_number_int. lia.
Qed.

(** The address dialog returns a dotted quad, whatever the user does. *)
Lemma numpad_edit_quad current us s : numpad_edit_ipv4 qt current us = Some s ->
  exists q, octets q /\ s = join_dot (map dec q).
Proof.
  unfold numpad_edit_ipv4. set (q0 := match trimmed qt current with [] => _ | _ => _ end).
  assert (length q0 = 4%nat) as Hq0.
  { subst q0. destruct (trimmed qt current); [done|]. unfold parse_ipv4_quads. case_if; [done|].
    destruct (parse_octets qt _) as [vs|] eqn:E; [|done]. cbn. apply parse_octets_length in E.
    bool2prop. congruence. }
  destruct (edit_octets qt q0 us) as [q|] eqn:E; [|done]. intros [= <-]. apply edit_octets_range in E as [Hl Hf].
  exists q. split; [split; [congruence|done]|]. by apply format_quads.
Qed.

(** A dotted quad is accepted by the validator and by [parse_ip_str], and stands for the
    address with these octets. *)
Lemma quad_accepted q : octets q ->
  re_accepts qt ip_re (join_dot (map dec q)) = true /\ parse_ip_str (join_dot (map dec q)) = inr (get32 q 0).
Proof.
  intros Hq. split; [apply qt_re, ip_re_spec; eauto|].
  destruct Hq as [Hl Hf]. destruct q as [|a [|b [|c [|d [|]]]]]; try done.
  repeat match goal with H : Forall _ (_ :: _) |- _ => apply Forall_cons in H as [? H] end.
  assert (get32 [a; b; c; d] 0 = a + 256 * b + 65536 * c + 16777216 * d) as Hg.
  { unfold get32, get16, rd. cbn. lia. }
  set (v := get32 [a; b; c; d] 0) in *.
  assert (is_u32 v) as Hv by wordlia.
  assert (join_dot (map dec [a; b; c; d]) = ip_to_str v) as ->.
  { unfold ip_to_str. autorewrite with bits. cbn [map join_dot].
    replace (v mod 256) with a by (rewrite Hg; divlia). replace (v / 256 mod 256) with b by (rewrite Hg; divlia).
    replace (v / 65536 mod 256) with c by (rewrite Hg; divlia). replace (v / 16777216 mod 256) with d by (rewrite Hg; divlia).
    done. }
  by apply parse_ip_to_str.
Qed.
Lemma accepted_quad s : re_accepts qt ip_re s = true -> exists q, octets q /\ s = join_dot (map dec q).
Proof. intros H%qt_re. by apply ip_re_spec. Qed.
End Laws.

(** * A Qt that behaves as documented *)
Definition digitsb (s : list Z) : bool := forallb is_digit s.
Fixpoint split_at_dot (s : list Z) : list (list Z) :=
  match s with
  | [] => [[]]
  | c :: s' => if c =? 46 then [] :: split_at_dot s'
               else match split_at_dot s' with [] => [[c]] | p :: ps => (c :: p) :: ps end
  end.
Fixpoint drop_spaces (s : list Z) : list Z :=
  match s with c :: s' => if c <=? 32 then drop_spaces s' else s | [] => [] end.
Definition qt_digits : Qt := MkQt
  (fun s => if digitsb s && negb (bool_decide (s = [])) then Some (rnd (inject_Z (digits_value s))) else None)
  (fun s => if digitsb s && negb (bool_decide (s = [])) then Some (digits_value s) else None)
  dec (fun x => dec (Qfloor x))
  (fun s => rev (drop_spaces (rev (drop_spaces s))))
  split_at_dot re_matchb (fun s => digitsb s && negb (bool_decide (s = []))).

Lemma digitsb_spec s : digitsb s = true <-> digits s.
Proof. unfold digitsb, digits. rewrite forallb_forall. rewrite List.Forall_forall. done. Qed.
Lemma drop_spaces_id s : Forall (fun c => 32 < c < 127) s -> drop_spaces s = s.
Proof. destruct 1 as [|c s Hc]; [done|]. cbn. destruct (Z.leb_spec c 32); [lia|done]. Qed.
Lemma split_at_dot_piece p s : Forall (fun c => c <> 46) p ->
  split_at_dot (p ++ 46 :: s) = p :: split_at_dot s /\ split_at_dot p = [p].
Proof.
  induction 1 as [|c p Hc _ [IH1 IH2]]; [done|]. cbn [app split_at_dot]. destruct (Z.eqb_spec c 46); [done|].
  by rewrite IH1, IH2.
Qed.

#[global] Instance qt_digits_laws : QtLaws qt_digits.
Proof.
  split.
  - intros ds Hne Hd _. cbn [toDouble qt_digits]. rewrite (proj2 (digitsb_spec ds) Hd). by rewrite bool_decide_eq_false_2.
  - done.
  - intros v Hv. cbn [toInt qt_digits]. pose proof (dec_fuel_nonempty 19 v). fold (dec v) in *.
    rewrite (proj2 (digitsb_spec (dec v))) by (apply dec_digits; lia). rewrite bool_decide_eq_false_2 by done.
    cbn [andb negb]. f_equal. apply dec_fuel_value. change (10 ^ Z.of_nat 20) with 100000000000000000000. lia.
  - intros s Hs. cbn [trimmed qt_digits]. rewrite (drop_spaces_id s) by done.
    rewrite (drop_spaces_id (rev s)) by (by apply Forall_rev). apply rev_involutive.
  - intros ps Hne Hps. cbn [split_dot qt_digits]. induction Hps as [|p ps Hp Hps IH]; [done|].
    destruct ps as [|p2 ps].
    + by apply (split_at_dot_piece p []).
    + change (join_dot (p :: p2 :: ps)) with (p ++ 46 :: join_dot (p2 :: ps)).
      destruct (split_at_dot_piece p (join_dot (p2 :: ps)) Hp) as [E _]. rewrite E. by rewrite IH.
  - intros r s. apply re_matchb_spec.
Qed.

Definition presses (s : string) : list key := map KDigit (str s).
(** C33: the keypad returns what it shows, and only values in range.  Whatever keys are
    pressed, the text of the integer dialog stays a string of at most 20 digits; the
    dialog returns a value exactly when the user presses OK on a non-empty text whose
    value lies within the bounds, and then returns that value, conversions to and from
    [double] notwithstanding.  An address entered octet by octet is accepted by the
    validator and by the address parser, and is the address of these octets; and the
    validator accepts nothing but such dotted quads. *)
Theorem keypad_returns_display (qt : Qt) `{!QtLaws qt} (initial mn mx : Z) (u : session)
    (Hm : 0 <= mn <= mx) (Hmx : mx < 2147483648) :
  digits (int_text initial mn mx u) /\ (length (int_text initial mn mx u) <= 20)%nat /\
  (forall v, get_int qt initial mn mx u = Some v <->
     ses_accept u = true /\ int_text initial mn mx u <> [] /\ v = digits_value (int_text initial mn mx u) /\ mn <= v <= mx) /\
  (forall current us s, numpad_edit_ipv4 qt current us = Some s ->
     re_accepts qt ip_re s = true /\
     exists q, octets q /\ s = join_dot (map dec q) /\ parse_ip_str s = inr (get32 q 0)) /\
  (forall s, re_accepts qt ip_re s = true <-> exists q, octets q /\ s = join_dot (map dec q)).
Proof.
  destruct (int_text_digits initial mn mx u Hm) as [Hd Hl]. split; [done|]. split; [done|]. split_and!.
  - intros v. rewrite get_int_spec by done. cbv zeta. set (t := int_text initial mn mx u).
    match goal with |- context [if ?b then _ else _] => destruct b eqn:E end.
    + bool2prop. match goal with H : bool_decide _ = true |- _ => apply bool_decide_eq_true in H end.
      split; [intros [= <-]; split_and!; done || lia|]. by intros (_ & _ & -> & _).
    + split; [done|]. intros (Ha & Hne & -> & Hr). exfalso. rewrite Ha, (bool_decide_eq_true_2 (t <> [])) in E by done.
      destruct (Z.leb_spec mn (digits_value t)); [|lia]. destruct (Z.leb_spec (digits_value t) mx); [|lia]. done.
  - intros current us s E. apply numpad_edit_quad in E as (q & Hq & ->); [|done].
    destruct (quad_accepted qt q Hq) as [H1 H2]. eauto.
  - intros s. split; [by apply accepted_quad|]. intros (q & Hq & ->). by apply quad_accepted.
Qed.
Lemma keypad_returns_display_witness :
  let u := MkSession (KBackspace :: KBackspace :: KBackspace :: presses "42") true in
  digits (int_text 192 0 255 u) /\ get_int qt_digits 192 0 255 u = Some 42.
Proof.
  intros u. destruct (keypad_returns_display qt_digits 192 0 255 u) as (Hd & _ & Hv & _); [lia|lia|].
  split; [exact Hd|]. apply Hv. repeat split; vm_compute; reflexivity || discriminate.
Defined.
