(* ===== verification/Dashboard.v ===== *)
(** The dashboard ([GUI/Dashboard.cpp]): the dialogs and pages that change or read the
    program's state. Layout, painting and style are left out; a widget is the text or
    value it holds, a user action is an argument. *)
From Stdlib Require Import ZArith Lia Ascii String QArith Qround Lqa.
From stdpp Require Import base numbers strings list.
From S2P Require Import Prelude Text Types_util Telemetry TxFrame Rings DhcpEngine DhcpProofs Double Scheduler Config.
From S2P Require Import Network_util NetworkConfig ProcNet Collector HostInfo NumPad.
#[local] Open Scope Z_scope.
#[local] Open Scope list_scope.

(** * DHCP pool dialog *)
Record DhcpDialog := MkDlg {
  edit_pool_start : list Z; edit_pool_end : list Z;
  spin_days : Z; spin_hours : Z; spin_minutes : Z }.

(** [QSpinBox::setValue] keeps the value in the box's range. *)
Definition set_days (v : Z) : Z := clampZ v 0 365.
Definition set_hours (v : Z) : Z := clampZ v 0 24.
Definition set_minutes (v : Z) : Z := clampZ v 0 60.

(** The constructor: fields from the configuration. *)
Definition dhcp_dialog_open (c : Config) : DhcpDialog :=
  MkDlg (c_dhcp_pool_start c) (c_dhcp_pool_end c)
    (set_days (int_of_ll (c_dhcp_lease c / 86400)))
    (set_hours (int_of_ll ((c_dhcp_lease c mod 86400) / 3600)))
    (set_minutes (int_of_ll ((c_dhcp_lease c mod 3600) / 60))).

(** A press on a field and what the user does in the keypads it opens. *)
Inductive dhcp_tap :=
  | TapStart (us : list session) | TapEnd (us : list session)
  | TapDays (u : session) | TapHours (u : session) | TapMinutes (u : session).

Section WithQt.
Context (qt : Qt).

Definition dhcp_dialog_event (d : DhcpDialog) (t : dhcp_tap) : DhcpDialog :=
  let '(MkDlg s e dd hh mm) := d in
  match t with
  | TapStart us => match numpad_edit_ipv4 qt s us with Some ip => MkDlg ip e dd hh mm | None => d end
  | TapEnd us => match numpad_edit_ipv4 qt e us with Some ip => MkDlg s ip dd hh mm | None => d end
  | TapDays u => match get_int qt dd 0 365 u with Some v => MkDlg s e (set_days v) hh mm | None => d end
  | TapHours u => match get_int qt hh 0 24 u with Some v => MkDlg s e dd (set_hours v) mm | None => d end
  | TapMinutes u => match get_int qt mm 0 60 u with Some v => MkDlg s e dd hh (set_minutes v) | None => d end
  end.

Definition lease_secs (d : DhcpDialog) : Z :=
  let secs := u32 (u32 (u32 (u32 (spin_days d) * 86400) + u32 (u32 (spin_hours d) * 3600))
                   + u32 (u32 (spin_minutes d) * 60)) in
  if secs =? 0 then 60 else secs.

(** [on_apply]: the configuration it stores, [None] when the input is refused. *)
Definition on_apply (d : DhcpDialog) (c : Config) : option Config :=
  if negb (re_accepts qt ip_re (edit_pool_start d)) || negb (re_accepts qt ip_re (edit_pool_end d)) then None
  else match parse_ip_str (edit_pool_start d), parse_ip_str (edit_pool_end d) with
       | inr start_ip, inr end_ip =>
           if ntohl end_ip <=? ntohl start_ip then None
           else let '(MkConfig wan lan rip app pre acc thr nat _ _ _) := c in
                Some (MkConfig wan lan rip app pre acc thr nat (edit_pool_start d) (edit_pool_end d) (lease_secs d))
       | _, _ => None
       end.

(** * QoS page *)
Definition k_qos_bw_min_mbps : Q := rnd (1 # 10).
Definition k_qos_bw_max_mbps : Q := 1000000.

Record QosPage := MkQosPage { sw_acceleration : bool; edit_dl_limit : list Z; edit_ul_limit : list Z }.
(** [refresh_from_backend], and the constructor's initial texts. *)
Definition qos_refresh_from_backend (tel : Telemetry) : QosPage :=
  MkQosPage (effective_acceleration (mode tel))
    (number_g12 qt (qos_global_dl_mbps_pending (Telemetry.qos tel)))
    (number_g12 qt (qos_global_ul_mbps_pending (Telemetry.qos tel))).

(** [eventFilter]: a press on one of the limits. *)
Definition edit_limit (text : list Z) (fallback : Q) (u : session) : list Z :=
  let cur := clampQ (default fallback (toDouble qt (trimmed qt text))) k_qos_bw_min_mbps k_qos_bw_max_mbps in
  match get_double qt cur k_qos_bw_min_mbps k_qos_bw_max_mbps u with
  | Some v => number_g12 qt v
  | None => text
  end.
Inductive qos_tap := TapDl (u : session) | TapUl (u : session).
Definition qos_page_event (p : QosPage) (t : qos_tap) : QosPage :=
  match t with
  | TapDl u => MkQosPage (sw_acceleration p) (edit_limit (edit_dl_limit p) 500 u) (edit_ul_limit p)
  | TapUl u => MkQosPage (sw_acceleration p) (edit_dl_limit p) (edit_limit (edit_ul_limit p) 50 u)
  end.

Definition on_apply_global_bw (p : QosPage) (tel : Telemetry) : Telemetry :=
  if negb (bw_accepts qt (edit_dl_limit p)) || negb (bw_accepts qt (edit_ul_limit p)) then tel
  else match toDouble qt (trimmed qt (edit_dl_limit p)), toDouble qt (trimmed qt (edit_ul_limit p)) with
       | Some dl, Some ul =>
           if Qle_bool dl 0 || Qle_bool ul 0 || Qltb dl k_qos_bw_min_mbps || Qltb ul k_qos_bw_min_mbps
              || Qltb k_qos_bw_max_mbps dl || Qltb k_qos_bw_max_mbps ul then tel
           else let q := Telemetry.qos tel in
                set_qos tel (MkQos true dl ul (effective_qos_global_dl_mbps q) (effective_qos_global_ul_mbps q))
       | _, _ => tel
       end.

(** A left click inside the switch toggles it and emits [toggled], which runs
    [on_toggle_accel]. *)
Definition on_toggle_accel (p : QosPage) (tel : Telemetry) : Telemetry :=
  let m := mode tel in
  set_mode tel (MkMode (effective_bridge_mode m) (effective_acceleration m) true (sw_acceleration p)).
Definition switch_released (left inside : bool) (p : QosPage) (tel : Telemetry) : QosPage * Telemetry :=
  if left && inside
  then let p := MkQosPage (negb (sw_acceleration p)) (edit_dl_limit p) (edit_ul_limit p) in (p, on_toggle_accel p tel)
  else (p, tel).
End WithQt.

(** * Plot *)
Definition SHIFT_BUFFER_SIZE : nat := 1000.
Record RealTimePlot := MkPlot { shift_buffer : list Q; shift_head : nat; current_max : Q; fixed_max_ : Q }.
Definition plot_make (max : Q) : RealTimePlot := MkPlot (replicate SHIFT_BUFFER_SIZE 0%Q) 0 max max.
Definition add_sample (val : Q) (p : RealTimePlot) : RealTimePlot :=
  MkPlot (<[shift_head p := val]> (shift_buffer p)) ((shift_head p + 1) mod SHIFT_BUFFER_SIZE) (current_max p) (fixed_max_ p).

Definition plot_y_max (p : RealTimePlot) : Q :=
  if Qlt_le_dec 0 (fixed_max_ p) then fixed_max_ p else dadd (current_max p) 1.
(** The sample drawn in column [col] of [cols], and its height as a share of the plot. *)
Definition plot_index (cols col : Z) : Z :=
  let t := if 1 <? cols then ddiv (inject_Z col) (inject_Z (cols - 1)) else 1%Q in
  llround (dmul t (inject_Z (Z.of_nat SHIFT_BUFFER_SIZE - 1))) mod Z.of_nat SHIFT_BUFFER_SIZE.
Definition plot_sample (p : RealTimePlot) (cols col : Z) : Q :=
  nth ((shift_head p + Z.to_nat (plot_index cols col)) mod SHIFT_BUFFER_SIZE) (shift_buffer p) 0%Q.
Definition plot_norm (p : RealTimePlot) (cols col : Z) : Q :=
  let sample := plot_sample p cols col in
  if Qltb sample 0 then 0%Q else if Qltb (plot_y_max p) sample then 1%Q else ddiv sample (plot_y_max p).

(** * Device page *)
(** A card shows the address and the C string of the hardware address. *)
Definition card_of (e : DeviceEntry) : Z * list Z := (d_ip e, cstr (d_mac e)).
Record DevicePage := MkDevPage {
  cards : list (Z * list Z); last_device_count : Z; last_device_table_revision_ : Z }.
Definition DevicePage0 : DevicePage := MkDevPage [] 255 0.
Definition device_page_refresh (t : DeviceTable) (p : DevicePage) : DevicePage :=
  let cnt := Z.of_nat (device_count t) in
  let drev := device_table_revision t in
  if (cnt =? last_device_count p) && (drev =? last_device_table_revision_ p) then p
  else MkDevPage (map card_of (take (device_count t) (device_table t))) cnt drev.

(** * The 60 Hz timer *)
Record DashTimer := MkTimer {
  last_bytes : list Z; last_high_bytes : Z; last_normal_bytes : Z;
  plot_tick_ : Z; plot_last_tick_ : Z }.
(** Rates of the header and of the two plots, in Mb/s. *)
Record Rates := MkRates { r_dl : Q; r_ul : Q; r_high : Q; r_normal : Q }.

Definition rate_mbps (delta : Z) (elapsed : Q) : Q := ddiv (ddiv (dmul (d_of_Z (u64 delta)) 8) elapsed) 1000000.
Definition clamp_elapsed (ns : Z) : Q :=
  clampQ (TokenBucket.seconds ns) (rnd (20 # 1000)) (rnd (200 # 1000)).
Definition prio_total (tel : Telemetry) (i : nat) : Z :=
  u64 (rd (prio_bytes (core tel 2)) i + rd (prio_bytes (core tel 3)) i).
(** [tel'] is the telemetry when the counters are read again at the end of the tick. *)
Definition timer_tick (tnow : Z) (tel tel' : Telemetry) (d : DashTimer) : Rates * DashTimer :=
  let elapsed := clamp_elapsed (tnow - plot_last_tick_ d) in
  let dl := rate_mbps (Telemetry.bytes (core tel 2) - rd (last_bytes d) 2) elapsed in
  let ul := rate_mbps (Telemetry.bytes (core tel 3) - rd (last_bytes d) 3) elapsed in
  let cur_high := prio_total tel 0 in
  let cur_norm := prio_total tel 1 in
  (MkRates dl ul (rate_mbps (cur_high - last_high_bytes d) elapsed) (rate_mbps (cur_norm - last_normal_bytes d) elapsed),
   MkTimer (map (fun i => Telemetry.bytes (core tel' i)) (seq 0 4)) cur_high cur_norm (u64 (plot_tick_ d + 1)) tnow).

(** * Overview page *)
Inductive load_colour := Green | Orange | Red.
Definition colour_of (load_pct : Z) : load_colour :=
  if load_pct <? 50 then Green else if load_pct <? 80 then Orange else Red.
(** The labels; a label that has not been filled yet shows two dashes, [None]. *)
Record OverviewPage := MkOverview {
  core_labels : list (Z * load_colour); lbl_mode_bridge : bool;
  high_plot : RealTimePlot; normal_plot : RealTimePlot;
  lbl_hostname : option (list Z); lbl_kernel : option (list Z);
  lbl_cpu_temp : option (Q * bool);             (* degrees, and whether shown as hot *)
  lbl_uptime : option (Z * Z);                  (* hours, minutes *)
  lbl_memory : option (Z * Z) }.                (* megabytes used, total *)
Definition OverviewPage0 : OverviewPage :=
  MkOverview (replicate 4 (0, Green)) false (plot_make 9) (plot_make 900) None None None None None.

Definition overview_refresh (loads : list Z) (tel : Telemetry) (r : Rates) (p : OverviewPage) : OverviewPage :=
  MkOverview (map (fun i => (rd loads i, colour_of (rd loads i))) (seq 0 4)) (effective_bridge_mode (mode tel))
    (add_sample (r_high r) (high_plot p)) (add_sample (r_normal r) (normal_plot p))
    (lbl_hostname p) (lbl_kernel p) (lbl_cpu_temp p) (lbl_uptime p) (lbl_memory p).

Definition nonempty (s : list Z) : option (list Z) := match s with [] => None | _ => Some s end.
Definition refresh_info (c : CollectorState) (p : OverviewPage) : OverviewPage :=
  let si := cs_sys c in
  let t := cs_temp c in
  let secs := uptime_seconds si in
  let total := mem_total_kb si in
  MkOverview (core_labels p) (lbl_mode_bridge p) (high_plot p) (normal_plot p)
    (nonempty (hostname si)) (nonempty (kernel_short si))
    (if Qltb 0 t then Some (t, Qltb 70 t) else lbl_cpu_temp p)
    (if 0 <? secs then Some (secs / 3600, (secs mod 3600) / 60) else lbl_uptime p)
    (if 0 <? total then Some (u64 (total - mem_avail_kb si) / 1024, total / 1024) else lbl_memory p).

(** * The main window *)
Record Dash := MkDash {
  ds_page : Z; ds_timer : DashTimer; ds_header : Rates * Q;
  ds_overview : OverviewPage; ds_qos : QosPage; ds_devices : DevicePage }.

(** [on_tab_clicked] and [run_page_enter_refresh]. *)
Definition on_tab_clicked (qt : Qt) (page_index : Z) (tel : Telemetry) (c : CollectorState) (d : Dash) : Dash :=
  MkDash page_index (ds_timer d) (ds_header d) (ds_overview d)
    (if page_index =? 1 then qos_refresh_from_backend qt tel else ds_qos d)
    (if page_index =? 3 then device_page_refresh (cs_devices c) (ds_devices d) else ds_devices d).

(** [timerEvent] for the plot timer. *)
Definition timer_event (tnow : Z) (tel tel' : Telemetry) (c : CollectorState) (d : Dash) : Dash :=
  let '(r, tm) := timer_tick tnow tel tel' (ds_timer d) in
  let t := cs_temp c in
  let ov := if ds_page d =? 0 then overview_refresh (c_pct (cs_cpu c)) tel r (ds_overview d) else ds_overview d in
  let ov := if plot_tick_ tm mod 25 =? 0 then refresh_info c ov else ov in
  MkDash (ds_page d) tm (r, if Qltb 0 t then t else 0%Q) ov (ds_qos d)
    (if ds_page d =? 3 then device_page_refresh (cs_devices c) (ds_devices d) else ds_devices d).

(** * Lemmas *)
(** ** Rates *)
(** The timer fires every 16 ms, below the clamp: a second at 100 Mb/s, seen as 200000 bytes
    per tick, is displayed as 80. *)
Example rates_understated :
  Qeq_bool (rate_mbps 200000 (clamp_elapsed 16000000)) 80 = true /\
  Qeq_bool (rate_mbps 200000 (TokenBucket.seconds 16000000)) 100 = true.
Proof. vm_compute. done. Qed.

(** ** The plot *)
(** The samples from the oldest to the newest. *)
Definition plot_window (p : RealTimePlot) : list Q :=
  map (fun i => nth ((shift_head p + i) mod SHIFT_BUFFER_SIZE) (shift_buffer p) 0%Q) (seq 0 SHIFT_BUFFER_SIZE).
Definition plot_ok (p : RealTimePlot) : Prop :=
  length (shift_buffer p) = SHIFT_BUFFER_SIZE /\ (shift_head p < SHIFT_BUFFER_SIZE)%nat.

(** A new sample pushes the oldest out. *)
Lemma add_sample_window v p : plot_ok p ->
  plot_ok (add_sample v p) /\ plot_window (add_sample v p) = tail (plot_window p) ++ [v].
Proof.
  intros [Hl Hh]. assert (SHIFT_BUFFER_SIZE <> 0)%nat as Hn0 by done. unfold plot_ok, plot_window, add_sample.
  cbn [shift_buffer shift_head]. split; [split; [by rewrite length_insert|by apply Nat.mod_upper_bound]|].
  remember SHIFT_BUFFER_SIZE as N eqn:EN. clear EN. destruct N as [|n]; [done|].
  rewrite (seq_S n) at 1. rewrite map_app. cbn [seq map tail]. f_equal.
  - rewrite <- seq_shift, map_map. apply map_ext_in. intros i Hi%in_seq. rewrite Nat.Div0.add_mod_idemp_l.
    replace (shift_head p + S i)%nat with (shift_head p + 1 + i)%nat by lia.
    set (j := ((shift_head p + 1 + i) mod S n)%nat). assert (j <> shift_head p) as Hj.
    { subst j. intros E. destruct (decide (shift_head p + 1 + i < S n)%nat).
      - rewrite Nat.mod_small in E by lia. lia.
      - replace (shift_head p + 1 + i)%nat with ((shift_head p + i - n) + 1 * S n)%nat in E by lia.
        rewrite Nat.Div0.mod_add, Nat.mod_small in E by lia. lia. }
    by rewrite !nth_lookup, list_lookup_insert_ne by done.
  - f_equal. rewrite Nat.Div0.add_mod_idemp_l.
    replace (shift_head p + 1 + (0 + n))%nat with (shift_head p + 1 * S n)%nat by lia.
    rewrite Nat.Div0.mod_add, Nat.mod_small by lia. by rewrite nth_lookup, list_lookup_insert_eq by lia.
Qed.

(** ** The DHCP dialog *)
Definition dialog_ok (d : DhcpDialog) : Prop :=
  0 <= spin_days d <= 365 /\ 0 <= spin_hours d <= 24 /\ 0 <= spin_minutes d <= 60.

Section Dialog.
Context (qt : Qt) `{!QtLaws qt}.

Lemma dialog_open_ok c : dialog_ok (dhcp_dialog_open c).
Proof. unfold dialog_ok. cbn. split_and!; apply clampZ_range; lia. Qed.
Lemma dialog_event_ok d t : dialog_ok d -> dialog_ok (dhcp_dialog_event qt d t).
Proof.
  intros (Hd & Hh & Hm). destruct d as [s e dd hh mm]. unfold dhcp_dialog_event.
  destruct t as [us|us|u|u|u].
  - by destruct (numpad_edit_ipv4 qt s us).
  - by destruct (numpad_edit_ipv4 qt e us).
  - destruct (get_int qt dd 0 365 u); [|done]. split_and!; cbn; try apply Hh; try apply Hm; apply clampZ_range; lia.
  - destruct (get_int qt hh 0 24 u); [|done]. split_and!; cbn; try apply Hd; try apply Hm; apply clampZ_range; lia.
  - destruct (get_int qt mm 0 60 u); [|done]. split_and!; cbn; try apply Hd; try apply Hh; apply clampZ_range; lia.
Qed.
Lemma dialog_events_ok ts : forall d, dialog_ok d -> dialog_ok (fold_left (dhcp_dialog_event qt) ts d).
Proof. induction ts as [|t ts IH]; intros d Hd; cbn; [done|]. by apply IH, dialog_event_ok. Qed.

(** The lease is the sum of the three boxes, at least a minute, and never overflows. *)
Lemma lease_secs_spec d : dialog_ok d ->
  lease_secs d = Z.max 60 (86400 * spin_days d + 3600 * spin_hours d + 60 * spin_minutes d) /\ 60 <= lease_secs d <= 31626000.
Proof.
  intros (Hd & Hh & Hm). unfold lease_secs.
  replace (u32 _) with (86400 * spin_days d + 3600 * spin_hours d + 60 * spin_minutes d) by wordlia.
  destruct (Z.eqb_spec (86400 * spin_days d + 3600 * spin_hours d + 60 * spin_minutes d) 0); lia.
Qed.

(** When the input is accepted. *)
Lemma on_apply_spec d c :
  match on_apply qt d c with
  | Some c' => exists s e, parse_ip_str (edit_pool_start d) = inr s /\ parse_ip_str (edit_pool_end d) = inr e /\
      to_host s < to_host e /\
      c' = MkConfig (c_iface_wan c) (c_iface_lan c) (c_router_ip c) (c_apply_router_ip c) (c_lan_prefix_len c)
             (c_enable_acceleration c) (c_large_packet_threshold c) (c_enable_nat c)
             (edit_pool_start d) (edit_pool_end d) (lease_secs d)
  | None => forall q1 q2, octets q1 -> octets q2 -> edit_pool_start d = join_dot (map dec q1) ->
      edit_pool_end d = join_dot (map dec q2) -> to_host (get32 q2 0) <= to_host (get32 q1 0)
  end.
Proof.
  unfold on_apply. destruct (re_accepts qt ip_re (edit_pool_start d)) eqn:E1; cbn [negb orb].
  2: { intros q1 q2 Hq1 _ H1 _. rewrite H1 in E1. destruct (quad_accepted qt q1 Hq1). congruence. }
  destruct (re_accepts qt ip_re (edit_pool_end d)) eqn:E2; cbn [negb].
  2: { intros q1 q2 _ Hq2 _ H2. rewrite H2 in E2. destruct (quad_accepted qt q2 Hq2). congruence. }
  apply accepted_quad in E1 as (p1 & Hp1 & E1), E2 as (p2 & Hp2 & E2); [|done..].
  rewrite E1, E2. rewrite (proj2 (quad_accepted qt p1 Hp1)), (proj2 (quad_accepted qt p2 Hp2)).
  destruct (Z.leb_spec (ntohl (get32 p2 0)) (ntohl (get32 p1 0))) as [Hle|Hlt].
  - intros q1 q2 Hq1 Hq2 H1 H2.
    assert (forall p q, octets p -> octets q -> join_dot (map dec p) = join_dot (map dec q) -> get32 p 0 = get32 q 0) as Hinj.
    { intros p q Hp Hq E. pose proof (proj2 (quad_accepted qt p Hp)) as A. pose proof (proj2 (quad_accepted qt q Hq)) as B.
      rewrite E in A. congruence. }
    rewrite <- (Hinj p1 q1), <- (Hinj p2 q2) by (done || congruence). exact Hle.
  - destruct c. cbn. eexists _, _. split_and!; try done.
Qed.
End Dialog.

(** C39: the pool dialog stores only what the engine accepts.  Opened on any configuration
    and after any sequence of presses and keypad sessions, Apply changes the configuration
    only when both fields are dotted quads with the first below the second; it changes
    nothing but the pool bounds and the lease time, which is the sum of the three boxes
    and at least a minute; and then the control plane's reconfiguration of the DHCP
    engine, whatever its state, succeeds and leaves a consistent lease table of free
    entries within the bounds. *)
Theorem dialog_feeds_engine (qt : Qt) `{!QtLaws qt} (c c' : Config) (taps : list dhcp_tap) (dhcp : DhcpEngine.t)
    (Happly : on_apply qt (fold_left (dhcp_dialog_event qt) taps (dhcp_dialog_open c)) c = Some c')
    (Hdhcp : length (DhcpEngine.leases dhcp) = MAX_POOL_SIZE) :
  let d := fold_left (dhcp_dialog_event qt) taps (dhcp_dialog_open c) in
  c' = MkConfig (c_iface_wan c) (c_iface_lan c) (c_router_ip c) (c_apply_router_ip c) (c_lan_prefix_len c)
         (c_enable_acceleration c) (c_large_packet_threshold c) (c_enable_nat c)
         (edit_pool_start d) (edit_pool_end d) (lease_secs d) /\
  lease_secs d = Z.max 60 (86400 * spin_days d + 3600 * spin_hours d + 60 * spin_minutes d) /\
  60 <= c_dhcp_lease c' <= 31626000 /\
  exists s e dhcp', parse_ip_str (c_dhcp_pool_start c') = inr s /\ parse_ip_str (c_dhcp_pool_end c') = inr e /\
    DhcpEngine.reconfigure (MkPool s e (c_dhcp_lease c')) dhcp = (inr tt, dhcp') /\
    lease_inv dhcp' /\ (1 < DhcpEngine.pool_count dhcp')%nat /\
    (forall i l, pool dhcp' !! i = Some l -> l_active l = false /\ to_host s <= to_host (l_ip l) <= to_host e).
Proof.
  intros d. pose proof (on_apply_spec qt d c) as Hs. unfold d in Hs. rewrite Happly in Hs. fold d in Hs.
  destruct Hs as (s & e & Hps & Hpe & Hlt & ->). pose proof (dialog_events_ok qt taps _ (dialog_open_ok c)) as Hok.
  destruct (lease_secs_spec d Hok) as [Hsum Hrange].
  split; [done|]. split; [done|]. split; [done|]. cbn [c_dhcp_pool_start c_dhcp_pool_end c_dhcp_lease].
  unfold DhcpEngine.reconfigure. cbn [pool_start pool_end lease].
  set (e0 := DhcpEngine.Mk _ _ _ _ _ _). destruct (DhcpEngine.init_pool s e e0) as [r e'] eqn:E.
  pose proof E as Ei. apply init_pool_spec in Ei as [(? & _)|(_ & -> & Hinv & Hcnt & Hfree)];
    [lia| |by eapply parse_ip_str_range..|done].
  exists s, e, e'. split; [done|]. split; [done|]. split; [done|]. split; [done|]. split; [|exact Hfree].
  unfold MAX_POOL_SIZE in Hcnt. lia.
Qed.

(** The user moves the pool to 192.168.12.60 - 192.168.12.90 for two days. *)
Definition clear3 : list key := [KBackspace; KBackspace; KBackspace].
Definition enter (s : string) : session := MkSession (clear3 ++ presses s) true.
Definition keep : session := MkSession [] true.
Definition w_taps : list dhcp_tap :=
  [TapStart [keep; keep; keep; enter "60"]; TapEnd [keep; keep; keep; enter "90"]; TapDays (enter "2")].
Lemma dialog_feeds_engine_witness : exists c',
  on_apply qt_digits (fold_left (dhcp_dialog_event qt_digits) w_taps (dhcp_dialog_open Config0)) Config0 = Some c' /\
  c_dhcp_pool_start c' = str "192.168.12.60" /\ c_dhcp_lease c' = 172800 /\
  exists s e dhcp', parse_ip_str (c_dhcp_pool_start c') = inr s /\ parse_ip_str (c_dhcp_pool_end c') = inr e /\
    DhcpEngine.reconfigure (MkPool s e (c_dhcp_lease c')) w_dhcp = (inr tt, dhcp').
Proof.
  destruct (on_apply qt_digits (fold_left (dhcp_dialog_event qt_digits) w_taps (dhcp_dialog_open Config0)) Config0)
    as [c'|] eqn:E; [|exfalso; vm_compute in E; discriminate].
  exists c'. split; [reflexivity|].
  destruct (dialog_feeds_engine qt_digits Config0 c' w_taps w_dhcp E) as (-> & _ & _ & s & e & dhcp' & H1 & H2 & H3 & _);
    [vm_compute; reflexivity|].
  split; [vm_compute; reflexivity|]. split; [vm_compute; reflexivity|].
  exists s, e, dhcp'. split; [exact H1|]. split; [exact H2|exact H3].
Defined.

(** The dialog does not look at the router's address: it accepts and saves a pool outside
    the router's subnet, and with that configuration the LAN can no longer be set up. *)
Definition w_far_taps : list dhcp_tap :=
  [TapStart [enter "10"; keep; keep; keep]; TapEnd [enter "10"; keep; keep; keep]].
Example dialog_accepts_unreachable_pool : exists c',
  on_apply qt_digits (fold_left (dhcp_dialog_event qt_digits) w_far_taps (dhcp_dialog_open Config0)) Config0 = Some c' /\
  c_dhcp_pool_start c' = str "10.168.12.50" /\
  snd (applyDhcpConfig one_iface c' w_dhcp (MkNetCfg 0) None) = Some (save_config c') /\
  fst (fst (fst (sync one_iface c' w_dhcp (MkNetCfg 0) None))) = inl (RouterNotInPool 24).
Proof. eexists. split; [vm_compute; reflexivity|]. split_and!; vm_compute; reflexivity. Qed.

(** ** Limits *)
(** A limit the page stores is within the bounds of the field. *)
Definition limit_ok (x : Q) : Prop := (k_qos_bw_min_mbps <= x <= k_qos_bw_max_mbps)%Q.
Lemma Qltb_false x y : Qltb x y = false <-> (y <= x)%Q.
Proof. unfold Qltb. rewrite negb_false_iff. apply Qle_bool_iff. Qed.
Lemma on_apply_bw_cases qt p tel :
  on_apply_global_bw qt p tel = tel \/
  exists dl ul, limit_ok dl /\ limit_ok ul /\
    on_apply_global_bw qt p tel = set_qos tel (MkQos true dl ul
      (effective_qos_global_dl_mbps (Telemetry.qos tel)) (effective_qos_global_ul_mbps (Telemetry.qos tel))).
Proof.
  unfold on_apply_global_bw. case_if; [by left|].
  destruct (toDouble qt (trimmed qt (edit_dl_limit p))) as [dl|]; [|by left].
  destruct (toDouble qt (trimmed qt (edit_ul_limit p))) as [ul|]; [|by left].
  match goal with |- context [if ?b then _ else _] => destruct b eqn:E end; [by left|]. right.
  bool2prop. repeat match goal with H : Qltb _ _ = false |- _ => apply Qltb_false in H end.
  exists dl, ul. split; [by split|]. split; [by split|]. done.
Qed.

(** ** Devices *)
(** What reaches the page: scans of the ARP table by the collector and redraws. *)
Inductive device_event := Scan (arp : option (list Z)) | Redraw.
Definition device_step (s : DeviceTable * DevicePage) (e : device_event) : DeviceTable * DevicePage :=
  match e with
  | Scan arp => (refreshDevices arp (fst s), snd s)
  | Redraw => (fst s, device_page_refresh (fst s) (snd s))
  end.

(** The numbers the page remembers identify the rows it shows. *)
Definition page_inv (n : Z) (s : DeviceTable * DevicePage) : Prop :=
  let '(t, p) := s in
  devices_ok t /\ 0 <= last_device_table_revision_ p <= device_table_revision t /\ device_table_revision t <= n /\
  (Z.of_nat (device_count t) = last_device_count p -> device_table_revision t = last_device_table_revision_ p ->
   cards p = map card_of (shown t)).

Lemma refresh_revision arp t : 0 <= device_table_revision t < 2 ^ 64 - 1 ->
  device_table_revision t <= device_table_revision (refreshDevices arp t) <= device_table_revision t + 1.
Proof.
  intros Hr. destruct arp as [[|c content]|]; cbn [refreshDevices]; try lia.
  destruct (device_loop _ _ _ _ _) as [[table dcnt] ch]. cbn [device_table_revision].
  case_if; unfold u64; [rewrite Z.mod_small by lia|]; lia.
Qed.
Lemma refresh_page_inv t p n : page_inv n (t, p) ->
  let p' := device_page_refresh t p in page_inv n (t, p') /\ cards p' = map card_of (shown t).
Proof.
  intros (Hok & Hl & Hn & Hc). unfold device_page_refresh.
  destruct (Z.eqb_spec (Z.of_nat (device_count t)) (last_device_count p)) as [E1|E1]; cbn [andb].
  - destruct (Z.eqb_spec (device_table_revision t) (last_device_table_revision_ p)) as [E2|E2].
    + split; [done|]. by apply Hc.
    + split; [|done]. split_and!; cbn; try done; lia.
  - split; [|done]. split_and!; cbn; try done; lia.
Qed.
Lemma scan_page_inv arp t p n : n < 2 ^ 64 - 1 -> page_inv n (t, p) -> page_inv (n + 1) (refreshDevices arp t, p).
Proof.
  intros Hb (Hok & Hl & Hn & Hc). destruct (device_revision arp t Hok) as [Hok' Hrev]; [lia|].
  pose proof (refresh_revision arp t ltac:(lia)). split_and!; [done|lia|lia|lia|].
  intros Ecnt Erev. assert (device_table_revision (refreshDevices arp t) = device_table_revision t) as Esame by lia.
  pose proof (proj1 Hrev Esame) as Hsh. rewrite Hsh. apply Hc; [|lia].
  rewrite <- Ecnt. f_equal. unfold shown in Hsh. apply (f_equal length) in Hsh. rewrite !length_take in Hsh.
  destruct Hok, Hok'. lia.
Qed.
Lemma run_page_inv es : forall n s, n + Z.of_nat (length es) < 2 ^ 64 -> page_inv n s ->
  page_inv (n + Z.of_nat (length es)) (fold_left device_step es s).
Proof.
  induction es as [|e es IH]; intros n [t p] Hb Hi; cbn [fold_left length] in *; [by rewrite Z.add_0_r|].
  destruct e as [arp|]; unfold device_step at 2; cbn [fst snd].
  - replace (n + Z.of_nat (S (length es))) with (n + 1 + Z.of_nat (length es)) by lia.
    apply IH; [lia|]. apply scan_page_inv; [lia|done].
  - assert (page_inv (n + 1) (t, device_page_refresh t p)) as Hi'.
    { destruct (refresh_page_inv t p n Hi) as [(? & ? & ? & ?) _]. split_and!; try done; lia. }
    replace (n + Z.of_nat (S (length es))) with (n + 1 + Z.of_nat (length es)) by lia. apply IH; [lia|done].
Qed.

(** The device page is never stale.  After any sequence of ARP scans and redraws, a
    redraw leaves on the page exactly the rows of the current device table (their number,
    addresses and hardware addresses, in order), although it rebuilds them only when the
    count or the revision number has changed. *)
Lemma device_page_current (es : list device_event) (Hlen : Z.of_nat (length es) < 2 ^ 64) :
  let '(t, p) := fold_left device_step es (DeviceTable0, DevicePage0) in
  cards (device_page_refresh t p) = map card_of (shown t) /\ (device_count t <= MAX_TRACKED_DEVICES)%nat.
Proof.
  pose proof (run_page_inv es 0 (DeviceTable0, DevicePage0)) as Hi.
  destruct (fold_left device_step es (DeviceTable0, DevicePage0)) as [t p].
  assert (page_inv (0 + Z.of_nat (length es)) (t, p)) as Hp.
  { apply Hi; [lia|]. split_and!; try done; try (cbn; lia). split; [done|cbn; unfold MAX_TRACKED_DEVICES; lia]. }
  destruct (refresh_page_inv t p _ Hp) as [_ Hc]. split; [exact Hc|]. apply Hp.
Qed.
Lemma device_page_current_example :
  let arp := Some (arp_table (str "IP address") w_neighbours) in
  let '(t, p) := fold_left device_step [Redraw; Scan arp; Redraw; Scan arp] (DeviceTable0, DevicePage0) in
  cards (device_page_refresh t p) = map card_of (shown t) /\ (device_count t <= MAX_TRACKED_DEVICES)%nat.
Proof.
  apply (device_page_current [Redraw; Scan (Some (arp_table (str "IP address") w_neighbours)); Redraw;
    Scan (Some (arp_table (str "IP address") w_neighbours))]). cbn. lia.
Defined.
