(* ===== verification/Paint.v ===== *)
(** What the dashboard's own widgets paint ([SwitchToggle], [RealTimePlot] and
    [NavTabButton] of [GUI/Dashboard.cpp]): a paint event is the list of drawing commands
    it issues for the widget's size. [QRect] is a parameter, the record [Rects] with its
    documented arithmetic as the class [RectLaws]. *)
From Stdlib Require Import ZArith Lia Ascii String QArith Qround Lqa.
From stdpp Require Import base numbers strings list.
From S2P Require Import Prelude Text Double NumPad Dashboard.
#[local] Open Scope Z_scope.
#[local] Open Scope list_scope.

(** * Rectangles and commands *)
Record Rects := MkRects {
  rect : Type; mkrect : Z -> Z -> Z -> Z -> rect;      (* x, y, width, height *)
  adjusted : rect -> Z -> Z -> Z -> Z -> rect;
  left : rect -> Z; right : rect -> Z; top : rect -> Z; bottom : rect -> Z;
  rheight : rect -> Z; center_y : rect -> Z }.
Class RectLaws (R : Rects) := {
  rl_left x y w h : left R (mkrect R x y w h) = x;
  rl_right x y w h : right R (mkrect R x y w h) = x + w - 1;
  rl_top x y w h : top R (mkrect R x y w h) = y;
  rl_bottom x y w h : bottom R (mkrect R x y w h) = y + h - 1;
  rl_height x y w h : rheight R (mkrect R x y w h) = h;
  rl_adjusted x y w h a b c d :
    adjusted R (mkrect R x y w h) a b c d = mkrect R (x + a) (y + b) (w - a + c) (h - b + d);
  rl_center_y x y w h : 0 <= y -> 0 < h -> center_y R (mkrect R x y w h) = (2 * y + h - 1) / 2 }.
#[export] Hint Rewrite @rl_left @rl_right @rl_top @rl_bottom @rl_height @rl_adjusted using typeclasses eauto : rects.

Inductive colour := RGB (r g b : Z) | RGBA (r g b a : Z).
Inductive draw (R : Rects) :=
  | FillRect (r : rect R) (c : colour)
  | RoundedRect (r : rect R) (radius : Q) (pen brush : colour)
  | Ellipse (r : rect R) (brush : colour)
  | DashLine (x1 y1 x2 y2 : Z) (pen : colour)
  | DrawText (r : rect R) (pixels : Z) (bold : bool) (pen : colour) (t : list Z)
  | Polyline (pts : list (Q * Q)) (pen : colour).
Arguments FillRect {R}. Arguments RoundedRect {R}. Arguments Ellipse {R}. Arguments DashLine {R}.
Arguments DrawText {R}. Arguments Polyline {R}.

Section Paint.
Context (R : Rects) (qt : Qt).

(** * The switch *)
(** The constructor fixes its size. *)
Definition SWITCH_WIDTH : Z := 58.
Definition SWITCH_HEIGHT : Z := 32.
Definition switch_paint (checked : bool) : list (draw R) :=
  let r := adjusted R (mkrect R 0 0 SWITCH_WIDTH SWITCH_HEIGHT) 1 1 (-2) (-2) in
  let trackOn := RGB 0 119 255 in
  let trackOff := RGB 42 42 74 in
  let border := RGB 58 58 90 in
  let thumb := RGB 238 238 245 in
  let diam := rheight R r - 6 in
  let x := if checked then right R r - diam - 2 else left R r + 2 in
  let y := center_y R r - diam / 2 in
  [RoundedRect r (ddiv (inject_Z (rheight R r)) 2) border (if checked then trackOn else trackOff);
   Ellipse (mkrect R x y diam diam) thumb].

(** * A tab of the bottom bar *)
Definition TAB_HEIGHT : Z := 96.
Definition nav_paint (icon text : list Z) (down checked : bool) (width : Z) : list (draw R) :=
  let accent := RGB 0 119 255 in
  let ink := if checked then accent else RGB 96 96 128 in
  [FillRect (mkrect R 0 0 width TAB_HEIGHT) (RGB 18 18 42)]
  ++ (if down then [FillRect (mkrect R 0 0 width TAB_HEIGHT) (RGBA 0 119 255 25)] else [])
  ++ (if checked then [FillRect (mkrect R 0 0 width 3) accent] else [])
  ++ [DrawText (mkrect R 0 4 width 44) 30 false ink icon; DrawText (mkrect R 0 52 width 38) 20 checked ink text].

(** * The plot *)
Definition PLOT_ML : Z := 50.
Definition PLOT_MT : Z := 6.
Definition PLOT_MB : Z := 6.
(** One grid line with its label. *)
Definition grid_ratio (i : Z) : Q := ddiv (inject_Z i) 5.
Definition grid_y (ph i : Z) : Z := PLOT_MT + ph - truncQ (dmul (grid_ratio i) (inject_Z ph)).
Definition grid_label (y_max : Q) (i : Z) : list Z :=
  if i =? 0 then [48]
  else if Qle_bool 10000 y_max
       then number_int qt (truncQ (ddiv (dmul y_max (grid_ratio i)) 1000)) ++ [75]
       else number_int qt (truncQ (dmul y_max (grid_ratio i))).
Definition grid_line (y_max : Q) (width ph i : Z) : list (draw R) :=
  let iy := grid_y ph i in
  [DashLine PLOT_ML iy width iy (RGBA 255 255 255 18);
   DrawText (mkrect R 0 (iy - 8) (PLOT_ML - 4) 16) 11 false (RGB 130 130 150) (grid_label y_max i)].

(** The point of column [col] of [cols]. *)
Definition plot_point (p : RealTimePlot) (ph cols col : Z) : Q * Q :=
  (dadd (inject_Z PLOT_ML) (inject_Z col),
   dsub (inject_Z (PLOT_MT + ph)) (dmul (plot_norm p cols col) (inject_Z ph))).
Definition plot_paint (p : RealTimePlot) (line_color : colour) (width height : Z) : list (draw R) :=
  let pw := width - PLOT_ML in
  let ph := height - PLOT_MT - PLOT_MB in
  [FillRect (mkrect R 0 0 width height) (RGB 18 18 32)]
  ++ concat (map (fun i => grid_line (plot_y_max p) width ph (Z.of_nat i)) (seq 0 6))
  ++ (if (pw <=? 0) || (ph <=? 0) then []
      else [Polyline (map (fun col => plot_point p ph pw (Z.of_nat col)) (seq 0 (Z.to_nat pw))) line_color]).

(** * What stays inside *)
(** A command that draws within [w] by [h] pixels, text boxes up to [m] rows outside. *)
Definition rect_inside (w h m : Z) (r : rect R) : Prop :=
  0 <= left R r /\ right R r < w /\ - m <= top R r /\ bottom R r < h + m.
Definition draw_inside (w h m : Z) (d : draw R) : Prop :=
  match d with
  | FillRect r _ | RoundedRect r _ _ _ | Ellipse r _ => rect_inside w h 0 r
  | DrawText r _ _ _ _ => rect_inside w h m r
  | DashLine x1 y1 x2 y2 _ => 0 <= x1 <= w /\ 0 <= y1 < h /\ 0 <= x2 <= w /\ 0 <= y2 < h
  | Polyline pts _ => Forall (fun q => (0 <= fst q < inject_Z w /\ 0 <= snd q < inject_Z h)%Q) pts
  end.
Context `{!RectLaws R}.

Ltac rects := unfold rect_inside, SWITCH_WIDTH, SWITCH_HEIGHT, TAB_HEIGHT, PLOT_ML, PLOT_MT, PLOT_MB in *;
  autorewrite with rects; rewrite ?rl_center_y by lia; try divlia.

Lemma switch_inside b : Forall (draw_inside SWITCH_WIDTH SWITCH_HEIGHT 0) (switch_paint b).
Proof. unfold switch_paint. repeat apply Forall_cons_2; [| |constructor]; destruct b; cbn; rects. Qed.
(** The thumb stands right of the middle when the switch is on and left of it when it is
    off, and the track has the colour of the state. *)
Definition switch_shows (checked : bool) : Prop :=
  exists track radius border thumb ink,
    switch_paint checked =
      [RoundedRect track radius border (if checked then RGB 0 119 255 else RGB 42 42 74); Ellipse thumb ink] /\
    if checked then SWITCH_WIDTH / 2 <= left R thumb else right R thumb < SWITCH_WIDTH / 2.
Lemma switch_shows_state b : switch_shows b.
Proof. unfold switch_shows, switch_paint. do 5 eexists. split; [reflexivity|]. destruct b; rects. Qed.

(** A tab has the accent strip at its top exactly when it is checked, and writes its
    icon and its text in the colour of the state. *)
Definition tab_shows (icon text : list Z) (down checked : bool) (w : Z) : Prop :=
  (FillRect (mkrect R 0 0 w 3) (RGB 0 119 255) ∈ nav_paint icon text down checked w <-> checked = true) /\
  (exists ri rt, DrawText ri 30 false (if checked then RGB 0 119 255 else RGB 96 96 128) icon
     ∈ nav_paint icon text down checked w /\
   DrawText rt 20 checked (if checked then RGB 0 119 255 else RGB 96 96 128) text
     ∈ nav_paint icon text down checked w).
Lemma tab_shows_state icon text down checked w : tab_shows icon text down checked w.
Proof.
  split.
  - destruct down, checked; unfold nav_paint; cbn [app]; rewrite ?elem_of_cons, ?elem_of_nil;
      intuition congruence.
  - eexists _, _. unfold nav_paint. rewrite !elem_of_app, !elem_of_cons. split; [tauto|].
    right; right; right; right; left. reflexivity.
Qed.
Lemma nav_inside icon text down checked w : 1 <= w ->
  Forall (draw_inside w TAB_HEIGHT 0) (nav_paint icon text down checked w).
Proof. intros Hw. unfold nav_paint. destruct down, checked; repeat apply Forall_cons_2; try constructor; cbn; rects. Qed.
End Paint.

(** * The curve *)
#[local] Open Scope Q_scope.
Lemma norm_range p cols col : 0 < plot_y_max p -> 0 <= plot_norm p cols col <= 1.
Proof.
  intros Hy. unfold plot_norm. set (x := plot_sample p cols col). unfold Qltb.
  destruct (Qle_bool 0 x) eqn:H0; cbn [negb]; [|split; lra]. apply Qle_bool_iff in H0.
  destruct (Qle_bool x (plot_y_max p)) eqn:H1; cbn [negb]; [|split; lra]. apply Qle_bool_iff in H1.
  assert (0 <= x / plot_y_max p) as Hd by (apply Qle_shift_div_l; lra).
  split; [by apply rnd_nonneg|]. assert (rnd 1 == 1) as <- by (apply (representable_Z 1); lia).
  apply rnd_mono; [done|]. apply Qle_shift_div_r; lra.
Qed.

(** Scaled by an integer height, a share of it stays a share of it. *)
Lemma share_range t n : (0 <= n <= 2 ^ 31)%Z -> 0 <= t <= 1 -> 0 <= dmul t (inject_Z n) <= inject_Z n.
Proof.
  intros Hn [H0 H1]. assert (0 <= inject_Z n) as Hn0 by (apply (injZ_le 0); lia).
  assert (rnd (inject_Z n) == inject_Z n) as En by (apply representable_Z; lia).
  split; [apply rnd_nonneg; nra|]. eapply Qle_trans; [apply (rnd_mono _ (inject_Z n)); nra|]. rewrite En. apply Qle_refl.
Qed.
Lemma below_range a n t : (0 <= a)%Z -> (0 <= n)%Z -> (a + n <= 2 ^ 31)%Z -> 0 <= t <= inject_Z n ->
  inject_Z a <= dsub (inject_Z (a + n)) t <= inject_Z (a + n).
Proof.
  intros Ha Hn Hle [H0 H1]. rewrite inject_Z_plus in *. pose proof (injZ_le 0 a ltac:(lia)) as H0a.
  change (inject_Z 0) with 0 in H0a. unfold dsub.
  assert (rnd (inject_Z a) == inject_Z a) as Ea by (apply representable_Z; lia).
  assert (rnd (inject_Z a + inject_Z n) == inject_Z a + inject_Z n) as Ean
    by (rewrite <- inject_Z_plus; apply representable_Z; lia).
  split.
  - eapply Qle_trans; [|apply (rnd_mono (inject_Z a)); lra]. rewrite Ea. apply Qle_refl.
  - eapply Qle_trans; [apply (rnd_mono _ (inject_Z a + inject_Z n)); lra|]. rewrite Ean. apply Qle_refl.
Qed.

Lemma trunc_range x n : (0 <= n)%Z -> 0 <= x <= inject_Z n -> (0 <= truncQ x <= n)%Z.
Proof.
  intros Hn [H0 H1]. unfold truncQ. rewrite (proj2 (Qle_bool_iff 0 x) H0).
  pose proof (Qfloor_resp_le _ _ H0) as F0. pose proof (Qfloor_resp_le _ _ H1) as F1. rewrite Qfloor_Z in F1.
  change (Qfloor 0) with 0%Z in F0. lia.
Qed.
Lemma grid_ratio_range i : (0 <= i <= 5)%Z -> 0 <= grid_ratio i <= 1.
Proof.
  intros Hi. assert (i = 0 \/ i = 1 \/ i = 2 \/ i = 3 \/ i = 4 \/ i = 5)%Z as H by lia.
  repeat destruct H as [->|H]; try subst i; split; vm_compute; discriminate.
Qed.
Lemma grid_y_range ph i : (0 <= ph <= 2 ^ 31)%Z -> (0 <= i <= 5)%Z -> (PLOT_MT <= grid_y ph i <= PLOT_MT + ph)%Z.
Proof.
  intros Hp Hi. unfold grid_y.
  pose proof (trunc_range _ ph ltac:(lia) (share_range (grid_ratio i) ph Hp (grid_ratio_range i Hi))). lia.
Qed.

(** Columns go through the window from the oldest sample to the newest. *)
Lemma llround_mono x y : 0 <= x -> x <= y -> (0 <= llround x <= llround y)%Z.
Proof.
  intros H0 H1. unfold llround. rewrite (proj2 (Qle_bool_iff 0 x)), (proj2 (Qle_bool_iff 0 y)) by lra.
  pose proof (Qfloor_resp_le 0 (x + (1 # 2)) ltac:(lra)) as F. change (Qfloor 0) with 0%Z in F.
  pose proof (Qfloor_resp_le (x + (1 # 2)) (y + (1 # 2)) ltac:(lra)). lia.
Qed.
Definition column_time (cols col : Z) : Q := ddiv (inject_Z col) (inject_Z (cols - 1)).
Lemma column_time_mono cols c c' : (1 < cols)%Z -> (0 <= c <= c')%Z -> 0 <= column_time cols c <= column_time cols c'.
Proof.
  intros Hc Hcc. unfold column_time, ddiv. pose proof (injZ_lt 0 (cols - 1) ltac:(lia)) as Hp.
  change (inject_Z 0) with 0 in Hp. pose proof (injZ_le 0 c ltac:(lia)) as H0. change (inject_Z 0) with 0 in H0.
  pose proof (injZ_le c c' ltac:(lia)) as H1.
  assert (0 <= inject_Z c / inject_Z (cols - 1)) as Hd by (apply Qle_shift_div_l; lra).
  split; [by apply rnd_nonneg|]. apply rnd_mono; [done|]. apply Qmult_le_compat_r; [done|].
  apply Qlt_le_weak. by apply Qinv_lt_0_compat.
Qed.
Lemma column_time_ends cols : (1 < cols)%Z -> column_time cols 0 == 0 /\ column_time cols (cols - 1) == 1.
Proof.
  intros Hc. unfold column_time, ddiv. pose proof (injZ_lt 0 (cols - 1) ltac:(lia)) as Hp. change (inject_Z 0) with 0 in Hp.
  split.
  - assert (inject_Z 0 / inject_Z (cols - 1) == 0) as E by (change (inject_Z 0) with 0; field; lra).
    rewrite rnd_0 by done. done.
  - assert (inject_Z (cols - 1) / inject_Z (cols - 1) == 1) as -> by (field; lra). apply (representable_Z 1). lia.
Qed.
Definition column_age (cols col : Z) : Z := llround (dmul (column_time cols col) (inject_Z (Z.of_nat SHIFT_BUFFER_SIZE - 1))).
#[global] Instance truncQ_proper : Proper (Qeq ==> eq) truncQ.
Proof.
  intros x y E. unfold truncQ. rewrite (Qleb_comp 0 0 (Qeq_refl 0) x y E).
  destruct (Qle_bool 0 y); [by apply Qfloor_comp|]. f_equal. apply Qfloor_comp. by rewrite E.
Qed.
#[global] Instance llround_proper : Proper (Qeq ==> eq) llround.
Proof.
  intros x y E. unfold llround. rewrite (Qleb_comp 0 0 (Qeq_refl 0) x y E). by destruct (Qle_bool 0 y); rewrite E.
Qed.
Lemma column_age_mono cols c c' : (1 < cols)%Z -> (0 <= c <= c')%Z -> (c' < cols)%Z ->
  (0 <= column_age cols c <= column_age cols c')%Z /\ (column_age cols c' <= 999)%Z.
Proof.
  intros Hc Hcc Hlt. destruct (column_time_mono cols c c' Hc Hcc) as [H0 H1]. unfold column_age.
  change (Z.of_nat SHIFT_BUFFER_SIZE - 1)%Z with 999%Z.
  destruct (column_time_mono cols c' (cols - 1) Hc ltac:(lia)) as [H2 H3]. rewrite (proj2 (column_time_ends cols Hc)) in H3.
  destruct (share_range (column_time cols c') 999 ltac:(lia) ltac:(split; lra)) as [S0 S1].
  assert (dmul (column_time cols c) (inject_Z 999) <= dmul (column_time cols c') (inject_Z 999)) as Hm.
  { apply rnd_mono; change (inject_Z 999) with 999; [nra|]. apply Qmult_le_compat_r; [done|lra]. }
  destruct (share_range (column_time cols c) 999 ltac:(lia) ltac:(split; lra)) as [R0 _].
  split; [by apply llround_mono|]. exact (proj2 (llround_mono _ _ S0 S1)).
Qed.
Lemma plot_index_age cols col : (1 < cols)%Z -> (0 <= col < cols)%Z -> plot_index cols col = column_age cols col.
Proof.
  intros Hc Hcol. unfold plot_index. rewrite (proj2 (Z.ltb_lt 1 cols) Hc). fold (column_time cols col). fold (column_age cols col).
  destruct (column_age_mono cols col col Hc ltac:(lia) ltac:(lia)). apply Z.mod_small. change (Z.of_nat SHIFT_BUFFER_SIZE) with 1000%Z. lia.
Qed.
Lemma column_age_ends cols : (1 < cols)%Z -> column_age cols 0 = 0%Z /\ column_age cols (cols - 1) = 999%Z.
Proof.
  intros Hc. destruct (column_time_ends cols Hc) as [E0 E1]. unfold column_age. rewrite E0, E1. split; reflexivity.
Qed.
Lemma plot_sample_window p cols col : (1 < cols)%Z -> (0 <= col < cols)%Z ->
  plot_sample p cols col = nth (Z.to_nat (column_age cols col)) (plot_window p) 0.
Proof.
  intros Hc Hcol. unfold plot_sample, plot_window. rewrite plot_index_age by done.
  destruct (column_age_mono cols col col Hc ltac:(lia) ltac:(lia)) as [_ H].
  assert (Z.to_nat (column_age cols col) < SHIFT_BUFFER_SIZE)%nat as Hlt by (change SHIFT_BUFFER_SIZE with (Z.to_nat 1000); lia).
  set (n := Z.to_nat (column_age cols col)) in *. clearbody n.
  rewrite (nth_indep (map _ _) 0 (nth ((shift_head p + 0) mod SHIFT_BUFFER_SIZE) (shift_buffer p) 0))
    by (rewrite length_map, length_seq; exact Hlt).
  rewrite (map_nth (fun i => nth ((shift_head p + i) mod SHIFT_BUFFER_SIZE) (shift_buffer p) 0)). by rewrite seq_nth.
Qed.

(** ** The plot's commands *)
Section Plot.
Context (R : Rects) (qt : Qt) `{!RectLaws R}.
#[local] Open Scope Z_scope.

Lemma grid_ends ph : 0 <= ph <= 2 ^ 31 -> grid_y ph 5 = PLOT_MT /\ grid_y ph 0 = PLOT_MT + ph.
Proof.
  intros Hp. unfold grid_y. assert (grid_ratio 5 == 1)%Q as E5 by (vm_compute; reflexivity).
  assert (grid_ratio 0 = 0%Q) as -> by (vm_compute; reflexivity).
  assert (dmul (grid_ratio 5) (inject_Z ph) == inject_Z ph)%Q as E.
  { rewrite E5. unfold dmul. rewrite Qmult_1_l. apply representable_Z. lia. }
  assert (dmul 0 (inject_Z ph) = 0%Q) as -> by (unfold dmul; apply rnd_0; ring).
  split; [|change (truncQ 0) with 0; lia]. rewrite E. unfold truncQ.
  rewrite (proj2 (Qle_bool_iff 0 (inject_Z ph)) (injZ_le 0 ph ltac:(lia))), Qfloor_Z. lia.
Qed.
Lemma grid_inside y_max w ph i : PLOT_ML <= w -> 0 <= ph <= 2 ^ 31 -> 0 <= i <= 5 ->
  Forall (draw_inside R w (PLOT_MT + ph + PLOT_MB) 2) (grid_line R qt y_max w ph i).
Proof.
  intros Hw Hp Hi. pose proof (grid_y_range ph i Hp Hi) as Hy. unfold grid_line.
  set (iy := grid_y ph i) in *. clearbody iy. unfold PLOT_MT, PLOT_MB, PLOT_ML in *.
  repeat apply Forall_cons_2; [| |constructor]; cbn; unfold rect_inside; autorewrite with rects; lia.
Qed.

Lemma point_range p ph cols col : (0 < plot_y_max p)%Q -> 0 <= col < cols -> PLOT_ML + cols <= 2 ^ 31 ->
  0 <= ph -> PLOT_MT + ph <= 2 ^ 31 ->
  (fst (plot_point p ph cols col) == inject_Z (PLOT_ML + col))%Q /\
  (inject_Z PLOT_MT <= snd (plot_point p ph cols col) <= inject_Z (PLOT_MT + ph))%Q.
Proof.
  intros Hy Hcol Hcols Hph Hp. unfold plot_point, PLOT_ML, PLOT_MT in *. cbn [fst snd]. split.
  - unfold dadd. rewrite <- inject_Z_plus. apply representable_Z. lia.
  - apply below_range; [lia..|]. apply share_range; [lia|]. by apply norm_range.
Qed.

(** The higher the sample, the higher the point; samples below the scale lie on its lower
    edge, those above on its upper edge. *)
Lemma point_order p ph cols col col' : (0 < plot_y_max p)%Q -> 0 <= ph -> PLOT_MT + ph <= 2 ^ 31 ->
  (plot_sample p cols col <= plot_sample p cols col')%Q ->
  (snd (plot_point p ph cols col') <= snd (plot_point p ph cols col))%Q.
Proof.
  intros Hy Hph Hp Hs. assert (0 <= ph <= 2 ^ 31) as Hph' by (unfold PLOT_MT in Hp; lia). clear Hp.
  destruct (norm_range p cols col Hy) as [A0 A1], (norm_range p cols col' Hy) as [B0 B1].
  assert (plot_norm p cols col <= plot_norm p cols col')%Q as Hn.
  { clear A0 A1 B0 B1. unfold plot_norm. cbv zeta. set (x := plot_sample p cols col) in *. set (y := plot_sample p cols col') in *.
    assert (forall z, (0 <= z)%Q -> (z <= plot_y_max p)%Q -> (0 <= ddiv z (plot_y_max p) <= 1)%Q) as Hd.
    { intros z H0 H1. assert (0 <= z / plot_y_max p)%Q by (apply Qle_shift_div_l; lra). split; [by apply rnd_nonneg|].
      eapply Qle_trans; [apply (rnd_mono _ 1); [done|apply Qle_shift_div_r; lra]|]. vm_compute. discriminate. }
    unfold Qltb. destruct (Qle_bool 0 x) eqn:X0, (Qle_bool 0 y) eqn:Y0; cbn [negb];
      repeat match goal with
      | H : Qle_bool _ _ = true |- _ => apply Qle_bool_iff in H
      | H : Qle_bool _ _ = false |- _ => apply not_true_iff_false in H; rewrite Qle_bool_iff in H
      end; try lra;
      destruct (Qle_bool x (plot_y_max p)) eqn:X1, (Qle_bool y (plot_y_max p)) eqn:Y1; cbn [negb];
      repeat match goal with
      | H : Qle_bool _ _ = true |- _ => apply Qle_bool_iff in H
      | H : Qle_bool _ _ = false |- _ => apply not_true_iff_false in H; rewrite Qle_bool_iff in H
      end; try lra; try (apply Hd; lra).
    apply rnd_mono; [apply Qle_shift_div_l; lra|]. apply Qmult_le_compat_r; [done|].
    apply Qlt_le_weak. by apply Qinv_lt_0_compat. }
  pose proof (injZ_le 0 ph Hph) as Hph0. change (inject_Z 0) with 0%Q in Hph0.
  assert (dmul (plot_norm p cols col) (inject_Z ph) <= dmul (plot_norm p cols col') (inject_Z ph))%Q as Hm.
  { apply rnd_mono; [nra|]. by apply Qmult_le_compat_r. }
  destruct (share_range (plot_norm p cols col') ph Hph' (conj B0 B1)) as [_ S1].
  unfold plot_point. cbn [snd]. unfold dsub. rewrite inject_Z_plus.
  change (inject_Z PLOT_MT) with 6%Q. apply rnd_mono; lra.
Qed.

Lemma points_inside p w h : (0 < plot_y_max p)%Q -> PLOT_ML < w <= 2 ^ 31 -> PLOT_MT + PLOT_MB < h <= 2 ^ 31 ->
  Forall (fun q => (0 <= fst q < inject_Z w /\ 0 <= snd q < inject_Z h)%Q)
    (map (fun col => plot_point p (h - PLOT_MT - PLOT_MB) (w - PLOT_ML) (Z.of_nat col)) (seq 0 (Z.to_nat (w - PLOT_ML)))).
Proof.
  intros Hy Hw Hh. unfold PLOT_MB in *. apply Forall_map, Forall_forall. intros col Hc%elem_of_seq. unfold compose.
  destruct (point_range p (h - PLOT_MT - 6) (w - PLOT_ML) (Z.of_nat col) Hy) as [Hx Hyy];
    [unfold PLOT_ML, PLOT_MT in *; lia..|]. rewrite Hx.
  pose proof (injZ_le 0 (PLOT_ML + Z.of_nat col) ltac:(unfold PLOT_ML; lia)).
  pose proof (injZ_lt (PLOT_ML + Z.of_nat col) w ltac:(lia)).
  pose proof (injZ_lt (PLOT_MT + (h - PLOT_MT - 6)) h ltac:(lia)). change (inject_Z 0) with 0%Q in *.
  change (inject_Z PLOT_MT) with 6%Q in Hyy. split; lra.
Qed.

(** C23: what the custom widgets paint stays inside them and shows their state.  The
    switch and the tabs draw within their fixed sizes; the switch's thumb stands in the
    right half when it is on and in the left half when it is off, on a track of the state's
    colour ([switch_shows]), and a tab has its accent strip and ink exactly when it is
    checked ([tab_shows]).  A plot of at least the minimum
    size the constructor sets (200 by 300) draws within its area but for the labels of the
    outermost grid lines, whose boxes overhang by at most two rows; its curve has one point
    per column right of the axis, from the oldest sample of the window (first column) to
    the newest (last column), no column going back in time, all between the top and the
    bottom grid line, and a larger sample is never drawn lower. *)
Theorem painting_inside (icon text : list Z) (down checked : bool) (p : RealTimePlot) (c : colour) (w h : Z)
    (Hp : plot_ok p) (Hy : (0 < plot_y_max p)%Q) (Hw : 200 <= w <= 2 ^ 31) (Hh : 300 <= h <= 2 ^ 31) :
  (Forall (draw_inside R SWITCH_WIDTH SWITCH_HEIGHT 0) (switch_paint R checked) /\ switch_shows R checked) /\
  (Forall (draw_inside R w TAB_HEIGHT 0) (nav_paint R icon text down checked w) /\
   tab_shows R icon text down checked w) /\
  Forall (draw_inside R w h 2) (plot_paint R qt p c w h) /\
  let cols := w - PLOT_ML in
  let point := plot_point p (h - PLOT_MT - PLOT_MB) cols in
  last (plot_paint R qt p c w h) = Some (Polyline (map (fun col => point (Z.of_nat col)) (seq 0 (Z.to_nat cols))) c) /\
  (forall col, 0 <= col < cols ->
     plot_sample p cols col = nth (Z.to_nat (column_age cols col)) (plot_window p) 0%Q /\
     0 <= column_age cols col <= 999 /\ (fst (point col) == inject_Z (PLOT_ML + col))%Q /\
     (inject_Z (grid_y (h - PLOT_MT - PLOT_MB) 5) <= snd (point col) <= inject_Z (grid_y (h - PLOT_MT - PLOT_MB) 0))%Q) /\
  column_age cols 0 = 0 /\ column_age cols (cols - 1) = 999 /\
  (forall col col', 0 <= col <= col' -> col' < cols -> column_age cols col <= column_age cols col') /\
  (forall col col', (plot_sample p cols col <= plot_sample p cols col')%Q -> (snd (point col') <= snd (point col))%Q).
Proof.
  assert (1 < w - PLOT_ML) as Hcols by (unfold PLOT_ML; lia).
  assert (0 < h - PLOT_MT - PLOT_MB) as Hph by (unfold PLOT_MT, PLOT_MB; lia).
  split; [split; [by apply switch_inside|by apply switch_shows_state]|].
  split; [split; [apply nav_inside; [done|lia]|by apply tab_shows_state]|].
  assert (plot_paint R qt p c w h =
    ([FillRect (mkrect R 0 0 w h) (RGB 18 18 32)]
     ++ concat (map (fun i => grid_line R qt (plot_y_max p) w (h - PLOT_MT - PLOT_MB) (Z.of_nat i)) (seq 0 6)))
    ++ [Polyline (map (fun col => plot_point p (h - PLOT_MT - PLOT_MB) (w - PLOT_ML) (Z.of_nat col))
          (seq 0 (Z.to_nat (w - PLOT_ML)))) c]) as Epaint.
  { unfold plot_paint. rewrite (proj2 (Z.leb_gt (w - PLOT_ML) 0)), (proj2 (Z.leb_gt (h - PLOT_MT - PLOT_MB) 0)) by lia.
    by rewrite app_assoc. }
  split; [|intros cols point; split; [by rewrite Epaint, last_snoc|]].
  - rewrite Epaint. apply Forall_app_2; [apply Forall_app_2|].
    + apply Forall_singleton. cbn. unfold rect_inside. autorewrite with rects. lia.
    + apply Forall_concat, Forall_map, Forall_forall. intros i Hi%elem_of_seq. unfold compose.
      replace h with (PLOT_MT + (h - PLOT_MT - PLOT_MB) + PLOT_MB) at 1 by lia.
      apply grid_inside; unfold PLOT_ML, PLOT_MT, PLOT_MB in *; lia.
    + apply Forall_singleton. apply points_inside; unfold PLOT_ML, PLOT_MT, PLOT_MB in *; first [done|lia].
  - split; [|split; [by apply column_age_ends|split; [by apply column_age_ends|split]]].
    + intros col Hcol. split; [by apply plot_sample_window|].
      destruct (column_age_mono cols col col Hcols ltac:(lia) ltac:(lia)) as [H0 H9]. split; [lia|].
      destruct (point_range p (h - PLOT_MT - PLOT_MB) cols col Hy Hcol) as [Hx Hr];
        [unfold cols, PLOT_ML, PLOT_MT, PLOT_MB in *; lia..|].
      split; [exact Hx|]. destruct (grid_ends (h - PLOT_MT - PLOT_MB)) as [-> ->]; [|exact Hr].
      unfold PLOT_MT, PLOT_MB in *. lia.
    + intros col col' Hc Hlt. apply column_age_mono; done.
    + intros col col'. apply point_order; [done|lia|]. unfold PLOT_MT, PLOT_MB in *. lia.
Qed.
End Plot.

(** Rectangles as quadruples, and a plot of 300 by 300 with one sample. *)
Definition rects_z : Rects := MkRects (Z * Z * Z * Z) (fun x y w h => (x, y, w, h))
  (fun '(x, y, w, h) a b c d => (x + a, y + b, w - a + c, h - b + d)%Z)
  (fun '(x, _, _, _) => x) (fun '(x, _, w, _) => x + w - 1)%Z (fun '(_, y, _, _) => y)
  (fun '(_, y, _, h) => y + h - 1)%Z (fun '(_, _, _, h) => h) (fun '(_, y, _, h) => (2 * y + h - 1) / 2)%Z.
#[global] Instance rects_z_laws : RectLaws rects_z.
Proof. by split. Qed.
Lemma painting_inside_witness :
  let p := add_sample 450 (plot_make 900) in
  switch_shows rects_z true /\
  Forall (draw_inside rects_z 300 300 2) (plot_paint rects_z qt_digits p (RGB 80 230 120) 300 300) /\
  (snd (plot_point p 288 250 249) == 150)%Q /\ (snd (plot_point p 288 250 0) == 294)%Q.
Proof.
  intros p. enough (switch_shows rects_z true /\
    Forall (draw_inside rects_z 300 300 2) (plot_paint rects_z qt_digits p (RGB 80 230 120) 300 300)) as [H1 H2].
  { split; [exact H1|]. split; [exact H2|]. split; vm_compute; reflexivity. }
  destruct (painting_inside rects_z qt_digits [] [] false true p (RGB 80 230 120) 300 300) as ([_ H1] & _ & H2 & _).
  - apply add_sample_window. split; [reflexivity|]. apply Nat.ltb_lt. vm_compute. reflexivity.
  - vm_compute. reflexivity.
  - lia.
  - lia.
  - exact (conj H1 H2).
Defined.
