(* ===== verification/Widgets.v ===== *)
(** The widget trees the dashboard's constructors build ([GUI/Dashboard.cpp]): what is
    shown, in which order and size, and which slot each widget is connected to. *)
From Stdlib Require Import ZArith Lia Ascii String QArith.
From stdpp Require Import base numbers strings list.
From S2P Require Import Prelude Text Types_util Double Config NumPad Dashboard.
#[local] Open Scope Z_scope.
#[local] Open Scope list_scope.
#[local] Open Scope string_scope.

(** * Trees *)
(** The slots and event filters a widget can be connected to. *)
Inductive slot :=
  | SlShutdown | SlTab (page_idx : Z)
  | SlToggleAccel | SlDlLimit | SlUlLimit | SlApplyBw
  | SlSetDhcp | SlPoolStart | SlPoolEnd | SlDays | SlHours | SlMinutes | SlApplyPool
  | SlKey (k : key) | SlAccept | SlReject | SlSave | SlNoSave.

#[export] Instance key_eq_dec : EqDecision key.
Proof. solve_decision. Defined.
#[export] Instance slot_eq_dec : EqDecision slot.
Proof. solve_decision. Defined.

Inductive align := AlignCenter | AlignRightVCenter | AlignVCenter.
(** What is set on a widget; [Shows] is text that depends on the state. The last four say
    who is told of a click, a toggle, or a press seen by an event filter, and whether the
    widget reacts at all. *)
Inductive attr :=
  | Label (t : string) | Shows (t : list Z) | ObjectName (n : string) | StyleSheet (css : string) | DarkStyle
  | WindowTitle (t : string) | Frameless
  | FixedHeight (h : Z) | FixedWidth (w : Z) | FixedSize (w h : Z) | MinimumSize (w h : Z)
  | WordWrap | RichText | Aligned (a : align) | BoldFont (pixels : Z)
  | ReadOnly | Placeholder (t : string) | BwValidator (lo hi : Q) (decimals : Z) | IpValidator (r : re)
  | Range (lo hi : Z) | Suffix (t : string) | NoSpinButtons | Value (v : Z) | ClickFocus
  | Checked (b : bool) | Checkable | Icon (t : string) | FixedMax (v : Q) | LineColor (r g b : Z)
  | WidgetResizable | NoHorizontalScroll | NoFrame | TransparentForMouse | Hidden
  | Clicked (s : slot) | Toggled (s : slot) | Pressed (s : slot) | Enabled (b : bool).

Inductive layout := VBox | HBox | FormLayout | GridLayout.
Inductive layout_attr :=
  | Spacing (n : Z) | Margins (l t r b : Z) | DontWrapRows | WrapAllRows | ColumnStretch (col n : Z).
(** Widgets with children, layouts with items; an item may have a stretch factor, a label
    or a grid cell, and a layout may hold empty stretch. *)
Inductive node :=
  | Wid (cls : string) (attrs : list attr) (children : list node)
  | Lay (k : layout) (attrs : list layout_attr) (items : list node)
  | Stretched (n : Z) (item : node) | FormRow (label : string) (item : node) | AtCell (row col : Z) (item : node)
  | AddStretch.
Definition QLabel (attrs : list attr) : node := Wid "QLabel" attrs [].
Definition QPushButton (attrs : list attr) : node := Wid "QPushButton" attrs [].
Definition section_title (t : string) : node := QLabel [Label t; ObjectName "section_title"].

(** * The pages *)
Definition SwitchToggle (checked : bool) (s : slot) : node := Wid "SwitchToggle" [FixedSize 58 32; Checked checked; Toggled s] [].
Definition RealTimePlot_node (max : Q) (r g b : Z) : node :=
  Wid "RealTimePlot" [MinimumSize 200 300; FixedMax max; LineColor r g b] [].

Definition core_label_css : string :=
  "background-color: #22223a; border: 1px solid #2a2a4a; border-radius: 6px; padding: 10px; font-size: 15px;".
(** The texts are those shown before the first refresh. *)
Definition OverviewPage_node : node :=
  let info wrap := QLabel (Label "--" :: if wrap : bool then [WordWrap] else []) in
  Wid "OverviewPage" []
    [Lay VBox []
      [section_title "System Overview";
       Lay HBox [] [QLabel [Label "Mode: Acceleration"; StyleSheet "color: #00cc66; font-weight: bold; font-size: 15px;"];
                    AddStretch];
       Lay HBox []
         [Wid "QGroupBox" [Label "High priority (Mb)"] [Lay VBox [] [RealTimePlot_node 9 0 200 255]];
          Wid "QGroupBox" [Label "Normal (Mb)"] [Lay VBox [] [RealTimePlot_node 900 80 230 120]]];
       Lay HBox []
         (map (fun i => QLabel [Shows (str "Core " ++ dec (Z.of_nat i) ++ [10] ++ str "0%")%list; StyleSheet core_label_css;
                                Aligned AlignCenter]) (seq 0 4));
       section_title "System Info";
       Wid "QGroupBox" [Label "Hardware & Runtime"]
         [Lay FormLayout [Spacing 8; DontWrapRows]
           [FormRow "Hostname:" (info true); FormRow "Kernel:" (info true); FormRow "CPU Temp:" (info false);
            FormRow "Uptime:" (info true); FormRow "Memory:" (info true)]];
       AddStretch]].

Definition bw_edit (text : list Z) (s : slot) : node :=
  Wid "QLineEdit" [Shows text; ReadOnly; BwValidator k_qos_bw_min_mbps k_qos_bw_max_mbps 12; Pressed s] [].
Definition QosPage_node (p : QosPage) : node :=
  Wid "QosPage" []
    [Lay VBox []
      [section_title "QoS & Traffic Control";
       Lay HBox []
         [Stretched 1 (QLabel [Label "Enable Gaming Traffic Acceleration (Heuristic Priority Scheduling)"; WordWrap;
                               StyleSheet "font-size: 15px; color: #e0e0e0;"]);
          Stretched 0 (SwitchToggle (sw_acceleration p) SlToggleAccel)];
       Wid "QGroupBox" [Label "Global Bandwidth Limits"]
         [Lay FormLayout []
           [FormRow "Download Limit (Mb):" (bw_edit (edit_dl_limit p) SlDlLimit);
            FormRow "Upload Limit (Mb):" (bw_edit (edit_ul_limit p) SlUlLimit);
            Lay HBox [] [AddStretch;
              QPushButton [Label "Apply"; ObjectName "btn_primary"; FixedHeight 40; Clicked SlApplyBw]]]]]].

Definition row_frame_css : string :=
  "QFrame { background-color: #22223a; border: 1px solid #2a2a4a; border-radius: 6px; padding: 8px; margin: 2px 0px; }".
(** [refresh_status] sets this again on every entry of the page. *)
Definition running_status : list attr := [Label "● Running"; StyleSheet "color: #00cc66; font-weight: bold;"].
Definition ServicePage_node : node :=
  Wid "ServicePage" []
    [Lay VBox []
      [section_title "Services";
       QLabel [Label "DHCP is always active and assigns IP addresses to LAN clients.";
               StyleSheet "color: #707080; font-size: 13px; margin-bottom: 8px;"];
       Wid "QFrame" [StyleSheet row_frame_css]
         [Lay HBox []
           [Stretched 1 (Lay VBox []
              [QLabel [Label "DHCP (Dynamic Host Config)"; StyleSheet "font-size: 15px; font-weight: bold; color: #e0e0e0;"];
               QLabel [Label "Automatically assigns IP addresses to LAN clients"; StyleSheet "color: #808090; font-size: 12px;"]]);
            QPushButton [Label "Set DHCP"; Clicked SlSetDhcp];
            QLabel running_status]];
       AddStretch]].

(** A card per device above the stretch; its text holds the address and the hardware
    address as rich text. *)
Definition card_text (ip : Z) (mac : list Z) : list Z :=
  (str "<b>" ++ ip_to_str ip ++ str "</b>  <span style='color:#707080;font-size:12px;'>" ++ mac ++ str "</span>")%list.
Definition card_node (c : Z * list Z) : node :=
  Wid "QFrame" [StyleSheet "QFrame { background:#1e1e3a; border:1px solid #2a2a4a; border-radius:6px; }"]
    [Lay VBox [Spacing 6; Margins 12 8 12 8] [QLabel [Shows (card_text (fst c) (snd c)); RichText]]].
Definition DevicePage_node (p : DevicePage) : node :=
  Wid "DevicePage" []
    [Lay VBox []
      [section_title "Devices";
       QLabel [Label "LAN devices currently in the ARP table (read-only).";
               StyleSheet "color: #707080; font-size: 13px; margin-bottom: 8px;"];
       Stretched 1 (Wid "QScrollArea" [WidgetResizable; NoHorizontalScroll; StyleSheet "QScrollArea { border: none; }"]
         [Wid "QWidget" [] [Lay VBox [Spacing 8; Margins 4 4 4 4] (map card_node (cards p) ++ [AddStretch])%list]])]].

(** * The main window *)
Record TabDef := MkTab { tab_icon : string; tab_label : string; tab_page : Z }.
Definition TABS : list TabDef :=
  [MkTab "⌂" "Overview" 0; MkTab "⚡" "QoS" 1; MkTab "⚙" "Services" 2; MkTab "▭" "Devices" 3].
Definition NavTabButton (t : TabDef) (checked : bool) : node :=
  Wid "NavTabButton" [Icon (tab_icon t); Label (tab_label t); Checkable; FixedHeight 96; Checked checked; Clicked (SlTab (tab_page t))] [].
(** The exclusive button group's state is the list of checked flags. *)
Definition setup_tabbar (checked : list bool) : node :=
  Wid "QFrame" [ObjectName "tab_bar_frame"; FixedHeight 96]
    [Lay HBox [Spacing 0; Margins 0 0 0 0]
      (map (fun '(t, b) => Stretched 1 (NavTabButton t b)) (zip TABS checked))].

Definition header_icon_css : string :=
  "QPushButton#btn_header_icon { color: #cc4444; }QPushButton#btn_header_icon:pressed { background-color: rgba(204,68,68,40); }".
Definition header_node (info : list attr) : node :=
  Wid "QFrame" [ObjectName "header_frame"]
    [Lay HBox [Margins 12 0 12 0; Spacing 8]
      [QPushButton [Label "Shutdown"; ObjectName "btn_header_icon"; StyleSheet header_icon_css; Clicked SlShutdown];
       QLabel [Label "HPGTP"; ObjectName "header_title"];
       AddStretch;
       QLabel (info ++ [StyleSheet "color: #a0b8d0; font-size: 13px;"])%list]].
(** Before the first tick. *)
Definition header_info0 : list attr := [Label "↓ --  ↑ --  🌡 --"].

Definition wrap (page : node) : node := Wid "QScrollArea" [WidgetResizable; NoFrame; NoHorizontalScroll] [page].
Definition setup_ui (info : list attr) (checked : list bool) (overview : node) (q : QosPage) (dev : DevicePage) : node :=
  Wid "QMainWindow" [WindowTitle "High-Performance Gaming Traffic Prioritizer"; DarkStyle]
    [Wid "QStatusBar" [Hidden] [];
     Wid "QWidget" []
      [Lay VBox [Margins 0 0 0 0; Spacing 0]
        [header_node info;
         Stretched 1 (Wid "QStackedWidget" []
           [wrap overview; wrap (QosPage_node q); wrap ServicePage_node; wrap (DevicePage_node dev)]);
         setup_tabbar checked]]].

(** * The dialogs *)
(** The keypad; [p] tells which layout of the last row is built, and the display's and the
    button's state come from [update_display]. *)
Definition make_btn (t : string) (row col : Z) (extra : list attr) (s : slot) : node :=
  AtCell row col (QPushButton ([Label t; FixedHeight 84; StyleSheet "font-size:33px; font-weight:bold;"] ++ extra ++ [Clicked s])%list).
Definition digit_btn (t : string) (row col : Z) (d : Z) : node := make_btn t row col [] (SlKey (KDigit d)).
Definition last_row (p : NumPad) : list node :=
  let del := make_btn "⌫" 3 2 [ObjectName "btn_danger"] (SlKey KBackspace) in
  if allow_negative_ p && negb (allow_decimal_ p) then [digit_btn "0" 3 0 48; make_btn "−" 3 1 [] (SlKey KMinus); del]
  else if negb (allow_negative_ p) && allow_decimal_ p then [digit_btn "0" 3 0 48; make_btn "." 3 1 [] (SlKey KDot); del]
  else [digit_btn "0" 3 0 48; AtCell 3 1 (Wid "QWidget" [FixedHeight 84; TransparentForMouse] []); del].
Definition NumPadDialog (qt : Qt) (title : string) (p : NumPad) : node :=
  Wid "QDialog" [Frameless; DarkStyle; FixedWidth 540]
    [Lay VBox [Margins 30 30 30 30; Spacing 15]
      [QLabel [Label title; Aligned AlignCenter; WordWrap;
               StyleSheet "font-size:24px; font-weight:bold; color:#ffffff; padding-bottom:6px;"];
       QLabel [Aligned AlignRightVCenter; FixedHeight 87; Shows (text_ p)];
       Lay GridLayout [Spacing 12; ColumnStretch 0 1; ColumnStretch 1 1; ColumnStretch 2 1]
         ([digit_btn "7" 0 0 55; digit_btn "8" 0 1 56; digit_btn "9" 0 2 57;
           digit_btn "4" 1 0 52; digit_btn "5" 1 1 53; digit_btn "6" 1 2 54;
           digit_btn "1" 2 0 49; digit_btn "2" 2 1 50; digit_btn "3" 2 2 51] ++ last_row p)%list;
       Lay HBox [Spacing 15]
         [Stretched 1 (QPushButton [Label "Cancel"; BoldFont 23; FixedHeight 84; Clicked SlReject]);
          Stretched 1 (QPushButton [Label "OK"; ObjectName "btn_primary"; BoldFont 23; FixedHeight 84;
                                    Enabled (fst (update_display qt p)); Clicked SlAccept])]]].

Definition ip_edit (text : list Z) (s : slot) : node :=
  Wid "QLineEdit" [Shows text; IpValidator ip_re; ReadOnly; Placeholder "Tap to enter (keypad)"; Pressed s] [].
(** The filter is on the line edit inside the spin box, found by its object name. *)
Definition lease_spin (hi : Z) (suffix name : string) (v : Z) (s : slot) : node :=
  Wid "QSpinBox" [Range 0 hi; Suffix suffix; NoSpinButtons; Value v; ClickFocus]
    [Wid "QLineEdit" [ReadOnly; ObjectName name; Pressed s] []].
Definition DhcpConfigDialog (d : DhcpDialog) : node :=
  Wid "QDialog" [WindowTitle "DHCP Pool Configuration"; MinimumSize 700 520]
    [Lay VBox []
      [Lay FormLayout [WrapAllRows]
        [FormRow "Pool Start:" (ip_edit (edit_pool_start d) SlPoolStart);
         FormRow "Pool End:" (ip_edit (edit_pool_end d) SlPoolEnd);
         FormRow "Lease Duration (tap each):"
           (Lay HBox [] [lease_spin 365 " d" "dhcp_lease_days" (spin_days d) SlDays;
                         lease_spin 24 " h" "dhcp_lease_hours" (spin_hours d) SlHours;
                         lease_spin 60 " min" "dhcp_lease_minutes" (spin_minutes d) SlMinutes])];
       Lay HBox [] [AddStretch; QPushButton [Label "Apply"; ObjectName "btn_primary"; Clicked SlApplyPool]]]].

(** The buttons are disabled once saving has begun. *)
Definition ShutdownDialog (saving : bool) : node :=
  Wid "QDialog" [Frameless; DarkStyle; FixedWidth 420]
    [Lay VBox [Margins 24 24 24 24; Spacing 12]
      [QLabel [Label "Exit application?"; Aligned AlignCenter;
               StyleSheet "font-size: 17px; font-weight: bold; color: #ffffff; padding: 8px 0 16px 0;"];
       QPushButton [Label "Yes, Save Settings"; ObjectName "btn_primary"; Enabled (negb saving); Clicked SlSave];
       QPushButton [Label "Yes, Don't Save"; ObjectName "btn_danger"; Enabled (negb saving); Clicked SlNoSave];
       QPushButton [Label "Cancel"; Enabled (negb saving); Clicked SlReject]]].

(** * What can be touched *)
(** The slot of an enabled widget. *)
Definition enabled (attrs : list attr) : bool :=
  forallb (fun a => match a with Enabled b => b | TransparentForMouse | Hidden => false | _ => true end) attrs.
Definition slots_of (attrs : list attr) : list slot :=
  concat (map (fun a => match a with Clicked s | Toggled s | Pressed s => [s] | _ => [] end) attrs).
(** The slots on screen; a stacked widget shows its current page only. *)
Fixpoint touchable (cur : nat) (n : node) : list slot :=
  match n with
  | Wid cls attrs ch =>
      ((if enabled attrs then slots_of attrs else []) ++
       (if bool_decide (cls = "QStackedWidget"%string) then nth cur (map (touchable cur) ch) []
        else concat (map (touchable cur) ch)))%list
  | Lay _ _ items => concat (map (touchable cur) items)
  | Stretched _ i | FormRow _ i | AtCell _ _ i => touchable cur i
  | AddStretch => []
  end.

(** Class and object name of every named widget. *)
Definition names_of (attrs : list attr) : list string :=
  concat (map (fun a => match a with ObjectName n => [n] | _ => [] end) attrs).
Fixpoint named (n : node) : list (string * string) :=
  match n with
  | Wid cls attrs ch => (map (fun x => (cls, x)) (names_of attrs) ++ concat (map named ch))%list
  | Lay _ _ items => concat (map named items)
  | Stretched _ i | FormRow _ i | AtCell _ _ i => named i
  | AddStretch => []
  end.
