(* ===== verification/StyleSheet.v ===== *)
(** The style sheet of the dashboard ([GUI/StyleSheet.hpp]) as a list of rules, and what
    can be said of it as data. *)
From Stdlib Require Import ZArith Lia Ascii String.
From stdpp Require Import base strings list.
From S2P Require Import Prelude.
#[local] Open Scope list_scope.
#[local] Open Scope string_scope.

(** [Sel ancestor class name part states] is
    [ancestor class#name::part:state:state]. *)
Record selector := Sel {
  s_ancestor : option string; s_class : string; s_name : option string; s_part : option string; s_states : list string }.
#[export] Instance selector_eq_dec : EqDecision selector.
Proof. solve_decision. Defined.
(** The selectors of a rule share its declarations. *)
Record rule := Rule { r_selectors : list selector; r_decls : list (string * string) }.
(** A value in double quotes. *)
Definition quoted (s : string) : string := String "034" (s ++ String "034" EmptyString).

(** * The rules, section by section *)
(** Global Basics. *)
Definition sheet_basics : list rule :=
  [Rule [Sel None "QWidget" None None []]
     [("background-color", "#1a1a2e"); ("color", "#e0e0e0");
      ("font-family", (quoted "Times New Roman" ++ ", Times, serif")); ("font-size", "15px")];
   Rule [Sel None "QMainWindow" None None []]
     [("background-color", "#0f0f1a")]].
(** Left Navigation (touch: 220px wide, 64px items). *)
Definition sheet_navigation : list rule :=
  [Rule [Sel None "QListWidget" (Some "nav_list") None []]
     [("background-color", "#12122a"); ("border", "none"); ("border-right", "1px solid #2a2a4a");
      ("outline", "none"); ("padding", "8px 0px")];
   Rule [Sel None "QListWidget" (Some "nav_list") (Some "item") []]
     [("color", "#a0a0c0"); ("padding", "20px 18px"); ("border-left", "4px solid transparent");
      ("font-size", "15px"); ("min-height", "64px")];
   Rule [Sel None "QListWidget" (Some "nav_list") (Some "item") ["selected"]]
     [("background-color", "#1e1e3a"); ("color", "#ffffff"); ("border-left", "4px solid #0077ff");
      ("font-weight", "bold")]].
(** Header Bar (64px tall). *)
Definition sheet_header : list rule :=
  [Rule [Sel None "QFrame" (Some "header_frame") None []]
     [("background-color", "#12122a"); ("border-bottom", "1px solid #2a2a4a"); ("min-height", "64px")];
   Rule [Sel None "QLabel" (Some "header_title") None []]
     [("color", "#ffffff"); ("font-size", "16px"); ("font-weight", "bold")]].
(** Status Bar. *)
Definition sheet_status : list rule :=
  [Rule [Sel None "QStatusBar" None None []]
     [("background-color", "#12122a"); ("border-top", "1px solid #2a2a4a"); ("color", "#808090");
      ("font-size", "13px"); ("min-height", "32px")]].
(** Labels. *)
Definition sheet_labels : list rule :=
  [Rule [Sel None "QLabel" None None []]
     [("color", "#c0c0d0"); ("padding", "2px 0px 8px 0px")];
   Rule [Sel None "QLabel" (Some "section_title") None []]
     [("color", "#ffffff"); ("font-size", "17px"); ("font-weight", "bold"); ("padding", "10px 0px 6px 0px");
      ("border-bottom", "1px solid #2a2a4a"); ("margin-bottom", "10px")];
   Rule [Sel None "QLabel" (Some "field_label") None []]
     [("color", "#a0a0b0"); ("font-size", "14px"); ("min-width", "120px")]].
(** Text Inputs (touch: min-height 48px). *)
Definition sheet_inputs : list rule :=
  [Rule [Sel None "QLineEdit" None None []]
     [("background-color", "#22223a"); ("border", "1px solid #3a3a5a"); ("border-radius", "8px");
      ("padding", "0px 14px"); ("color", "#ffffff"); ("font-size", "15px"); ("min-height", "48px")];
   Rule [Sel None "QLineEdit" None None ["focus"]]
     [("border", "2px solid #0077ff")];
   Rule [Sel None "QLineEdit" None None ["disabled"]]
     [("background-color", "#1a1a2e"); ("color", "#606070")]].
(** SpinBox (touch: min-height 48px). *)
Definition sheet_spinbox : list rule :=
  [Rule [Sel None "QSpinBox" None None []; Sel None "QDoubleSpinBox" None None []]
     [("background-color", "#22223a"); ("border", "1px solid #3a3a5a"); ("border-radius", "8px");
      ("padding", "0px 10px"); ("color", "#ffffff"); ("font-size", "15px"); ("min-height", "48px")];
   Rule [Sel None "QSpinBox" None None ["focus"]; Sel None "QDoubleSpinBox" None None ["focus"]]
     [("border", "2px solid #0077ff")];
   Rule [Sel None "QSpinBox" None (Some "up-button") []; Sel None "QDoubleSpinBox" None (Some "up-button") [];
         Sel None "QSpinBox" None (Some "down-button") []; Sel None "QDoubleSpinBox" None (Some "down-button") []]
     [("width", "36px"); ("border-radius", "6px"); ("background-color", "#2a2a4a")];
   Rule [Sel None "QSpinBox" None (Some "up-button") ["pressed"];
         Sel None "QDoubleSpinBox" None (Some "up-button") ["pressed"];
         Sel None "QSpinBox" None (Some "down-button") ["pressed"];
         Sel None "QDoubleSpinBox" None (Some "down-button") ["pressed"]]
     [("background-color", "#0055cc")]].
(** ComboBox (touch: min-height 48px). *)
Definition sheet_combobox : list rule :=
  [Rule [Sel None "QComboBox" None None []]
     [("background-color", "#22223a"); ("border", "1px solid #3a3a5a"); ("border-radius", "8px");
      ("padding", "0px 14px"); ("color", "#ffffff"); ("font-size", "15px"); ("min-height", "48px")];
   Rule [Sel None "QComboBox" None None ["focus"]]
     [("border", "2px solid #0077ff")];
   Rule [Sel None "QComboBox" None (Some "drop-down") []]
     [("width", "40px"); ("border-left", "1px solid #3a3a5a"); ("border-top-right-radius", "8px");
      ("border-bottom-right-radius", "8px")];
   Rule [Sel (Some "QComboBox") "QAbstractItemView" None None []]
     [("background-color", "#22223a"); ("border", "1px solid #3a3a5a"); ("selection-background-color", "#0077ff");
      ("font-size", "15px")];
   Rule [Sel (Some "QComboBox") "QAbstractItemView" None (Some "item") []]
     [("min-height", "48px"); ("padding", "0px 14px")]].
(** Checkboxes (touch: 26px indicator, 48px row). *)
Definition sheet_checkboxes : list rule :=
  [Rule [Sel None "QCheckBox" None None []]
     [("spacing", "14px"); ("color", "#c0c0d0"); ("font-size", "15px"); ("padding", "10px 4px");
      ("min-height", "48px")];
   Rule [Sel None "QCheckBox" None (Some "indicator") []]
     [("width", "26px"); ("height", "26px"); ("border", "2px solid #4a4a6a"); ("border-radius", "6px");
      ("background-color", "#22223a")];
   Rule [Sel None "QCheckBox" None (Some "indicator") ["checked"]]
     [("background-color", "#0077ff"); ("border-color", "#0077ff")]].
(** Buttons (touch: min-height 52px). *)
Definition sheet_buttons : list rule :=
  [Rule [Sel None "QPushButton" None None []]
     [("background-color", "#2a2a4a"); ("border", "1px solid #3a3a5a"); ("border-radius", "10px");
      ("padding", "0px 24px"); ("color", "#e0e0e0"); ("font-size", "15px"); ("font-weight", "bold");
      ("min-height", "52px")];
   Rule [Sel None "QPushButton" None None ["pressed"]]
     [("background-color", "#1a1a3a"); ("border-color", "#0077ff")];
   Rule [Sel None "QPushButton" None None ["disabled"]]
     [("background-color", "#1e1e30"); ("border-color", "#2a2a3a"); ("color", "#505060")];
   Rule [Sel None "QPushButton" (Some "btn_primary") None []]
     [("background-color", "#0077ff"); ("border-color", "#0066dd"); ("color", "#ffffff")];
   Rule [Sel None "QPushButton" (Some "btn_primary") None ["pressed"]]
     [("background-color", "#0055cc")];
   Rule [Sel None "QPushButton" (Some "btn_primary") None ["disabled"]]
     [("background-color", "#1a3a6a"); ("border-color", "#1a3a6a"); ("color", "#607090")];
   Rule [Sel None "QPushButton" (Some "btn_danger") None []]
     [("background-color", "#cc3333"); ("border-color", "#aa2222"); ("color", "#ffffff")];
   Rule [Sel None "QPushButton" (Some "btn_danger") None ["pressed"]]
     [("background-color", "#aa2222")]].
(** Tables (touch: 52px rows). *)
Definition sheet_tables : list rule :=
  [Rule [Sel None "QTableWidget" None None []]
     [("background-color", "#1a1a2e"); ("border", "1px solid #2a2a4a"); ("gridline-color", "#2a2a4a");
      ("color", "#e0e0e0"); ("font-size", "15px")];
   Rule [Sel None "QTableWidget" None (Some "item") []]
     [("padding", "14px 10px"); ("min-height", "52px")];
   Rule [Sel None "QTableWidget" None (Some "item") ["selected"]]
     [("background-color", "#0077ff")];
   Rule [Sel None "QHeaderView" None (Some "section") []]
     [("background-color", "#22223a"); ("color", "#a0a0b0"); ("padding", "0px 10px"); ("min-height", "44px");
      ("border", "1px solid #2a2a4a"); ("font-weight", "bold"); ("font-size", "14px")]].
(** Scrollbars (touch: 16px wide, large handle). *)
Definition sheet_scrollbars : list rule :=
  [Rule [Sel None "QScrollBar" None None ["vertical"]]
     [("background-color", "#12122a"); ("width", "16px"); ("border", "none"); ("margin", "0px")];
   Rule [Sel None "QScrollBar" None (Some "handle") ["vertical"]]
     [("background-color", "#3a3a5a"); ("border-radius", "8px"); ("min-height", "48px"); ("margin", "2px")];
   Rule [Sel None "QScrollBar" None (Some "handle") ["vertical"; "pressed"]]
     [("background-color", "#5a5a7a")];
   Rule [Sel None "QScrollBar" None (Some "add-line") ["vertical"];
         Sel None "QScrollBar" None (Some "sub-line") ["vertical"]]
     [("height", "0px")];
   Rule [Sel None "QScrollBar" None None ["horizontal"]]
     [("background-color", "#12122a"); ("height", "16px"); ("border", "none")];
   Rule [Sel None "QScrollBar" None (Some "handle") ["horizontal"]]
     [("background-color", "#3a3a5a"); ("border-radius", "8px"); ("min-width", "48px"); ("margin", "2px")];
   Rule [Sel None "QScrollBar" None (Some "add-line") ["horizontal"];
         Sel None "QScrollBar" None (Some "sub-line") ["horizontal"]]
     [("width", "0px")]].
(** GroupBox. *)
Definition sheet_groupbox : list rule :=
  [Rule [Sel None "QGroupBox" None None []]
     [("border", "1px solid #2a2a4a"); ("border-radius", "8px"); ("margin-top", "16px"); ("padding-top", "20px");
      ("font-size", "15px"); ("font-weight", "bold"); ("color", "#ffffff")];
   Rule [Sel None "QGroupBox" None (Some "title") []]
     [("subcontrol-origin", "margin"); ("left", "14px"); ("padding", "0 8px")]].
(** Tab Component. *)
Definition sheet_tabs : list rule :=
  [Rule [Sel None "QTabWidget" None (Some "pane") []]
     [("border", "1px solid #2a2a4a"); ("border-radius", "6px"); ("background-color", "#1a1a2e")];
   Rule [Sel None "QTabBar" None (Some "tab") []]
     [("background-color", "#22223a"); ("border", "1px solid #2a2a4a"); ("border-bottom", "none");
      ("padding", "0px 24px"); ("min-height", "52px"); ("color", "#a0a0b0"); ("font-size", "15px");
      ("border-top-left-radius", "6px"); ("border-top-right-radius", "6px"); ("margin-right", "2px")];
   Rule [Sel None "QTabBar" None (Some "tab") ["selected"]]
     [("background-color", "#1a1a2e"); ("color", "#ffffff"); ("font-weight", "bold");
      ("border-bottom", "3px solid #0077ff")]].
(** Dialogs. *)
Definition sheet_dialogs : list rule :=
  [Rule [Sel None "QDialog" None None []]
     [("background-color", "#1a1a2e")];
   Rule [Sel None "QMessageBox" None None []]
     [("background-color", "#1a1a2e"); ("font-size", "15px")];
   Rule [Sel (Some "QMessageBox") "QPushButton" None None []]
     [("min-width", "100px")]].
(** Bottom Tab Bar. *)
Definition sheet_tabbar : list rule :=
  [Rule [Sel None "QFrame" (Some "tab_bar_frame") None []]
     [("background-color", "#12122a"); ("border-top", "1px solid #2a2a4a")]].
(** Header icon buttons (notif, hamburger). *)
Definition sheet_header_icons : list rule :=
  [Rule [Sel None "QPushButton" (Some "btn_header_icon") None []]
     [("background", "transparent"); ("border", "none"); ("border-radius", "8px"); ("min-width", "52px");
      ("min-height", "52px"); ("font-size", "22px"); ("color", "#c0c0d0"); ("padding", "0")];
   Rule [Sel None "QPushButton" (Some "btn_header_icon") None ["pressed"]]
     [("background-color", "rgba(255,255,255,18)")]].
(** Interface role buttons (4-way segmented). *)
Definition sheet_role_buttons : list rule :=
  [Rule [Sel None "QPushButton" (Some "role_btn") None []]
     [("background-color", "#22223a"); ("border", "1px solid #3a3a5a"); ("border-radius", "6px"); ("padding", "0");
      ("min-height", "52px"); ("font-size", "14px"); ("font-weight", "normal"); ("color", "#a0a0c0")];
   Rule [Sel None "QPushButton" (Some "role_btn") None ["checked"]]
     [("background-color", "#0077ff"); ("border-color", "#0055cc"); ("color", "#ffffff"); ("font-weight", "bold")];
   Rule [Sel None "QPushButton" (Some "role_btn") None ["pressed"]]
     [("background-color", "#0055cc")]].
(** Device plus/minus spinner buttons. *)
Definition sheet_spin_buttons : list rule :=
  [Rule [Sel None "QPushButton" (Some "spin_btn") None []]
     [("background-color", "#2a2a4a"); ("border", "1px solid #3a3a5a"); ("border-radius", "8px");
      ("min-width", "48px"); ("min-height", "48px"); ("max-width", "48px"); ("max-height", "48px");
      ("font-size", "20px"); ("font-weight", "bold"); ("padding", "0"); ("color", "#c0c0e0")];
   Rule [Sel None "QPushButton" (Some "spin_btn") None ["pressed"]]
     [("background-color", "#0055cc"); ("border-color", "#0077ff")];
   Rule [Sel None "QPushButton" (Some "spin_btn") None ["disabled"]]
     [("color", "#404050"); ("border-color", "#252535")]].

Definition DARK_STYLESHEET : list rule :=
  concat [sheet_basics; sheet_navigation; sheet_header; sheet_status; sheet_labels; sheet_inputs; sheet_spinbox;
          sheet_combobox; sheet_checkboxes; sheet_buttons; sheet_tables; sheet_scrollbars; sheet_groupbox;
          sheet_tabs; sheet_dialogs; sheet_tabbar; sheet_header_icons; sheet_role_buttons; sheet_spin_buttons].

(** * Facts *)
Definition selectors (sheet : list rule) : list selector := concat (map r_selectors sheet).
(** The declarations for a selector. *)
Definition declared (sheet : list rule) (s : selector) : list (string * string) :=
  concat (map (fun r => if bool_decide (s ∈ r_selectors r) then r_decls r else []) sheet).

(** Colours are six hexadecimal digits, an [rgba] term or [transparent]. *)
Definition hex_digit (c : ascii) : bool :=
  let n := nat_of_ascii c in ((48 <=? n) && (n <=? 57) || (97 <=? n) && (n <=? 102))%nat.
Definition colour_ok (v : string) : bool :=
  match v with
  | String "#" d => (String.length d =? 6)%nat && forallb hex_digit (list_ascii_of_string d)
  | _ => String.prefix "rgba(" v || String.eqb v "transparent"
  end.
Definition colour_keys : list string :=
  ["color"; "background-color"; "background"; "border-color"; "gridline-color"; "selection-background-color"].
Definition decl_ok (d : string * string) : bool :=
  if existsb (String.eqb (fst d)) colour_keys then colour_ok (snd d) else true.

(** No selector occurs twice, no rule sets a property twice, and colours are colours: the
    result of the cascade does not depend on the order of equally specific rules. *)
Lemma sheet_unambiguous : NoDup (selectors DARK_STYLESHEET) /\
  Forall (fun r => NoDup (map fst (r_decls r)) /\ forallb decl_ok (r_decls r) = true) DARK_STYLESHEET.
Proof.
  split; [apply (bool_decide_unpack _); vm_compute; exact I|].
  apply Forall_forall. intros r Hr.
  assert (forallb (fun r => bool_decide (NoDup (map fst (r_decls r))) && forallb decl_ok (r_decls r)) DARK_STYLESHEET = true)
    as H by (vm_compute; reflexivity).
  rewrite forallb_forall in H. apply list_elem_of_In, H, andb_true_iff in Hr as [H1 H2].
  split; [by apply bool_decide_eq_true in H1|done].
Qed.

(** Selectors that style a widget by its object name. *)
Definition styled_names (sheet : list rule) : list (string * string) :=
  concat (map (fun s => match s_ancestor s, s_name s, s_part s, s_states s with
                        | None, Some n, None, [] => [(s_class s, n)]
                        | _, _, _, _ => []
                        end) (selectors sheet)).
(** The selector of a class, with its object name if it has one. *)
Definition class_sel (cls : string) (name : option string) : selector := Sel None cls name None [].
