(* ===== verification/App.v ===== *)
(** The application object ([App.cpp], [Lifecycle.hpp]): construction, [init], [start] and
    the once-only [stop]. *)
From Stdlib Require Import ZArith Lia QArith Ascii String.
From stdpp Require Import base numbers strings list.
From S2P Require Import Prelude Text Types_util Telemetry TxFrame Rings NatEngine DhcpEngine Scheduler.
From S2P Require Import Config Network_util NetworkConfig ProcNet ForwardingState Forward QosService.
#[local] Open Scope Z_scope.
#[local] Open Scope list_scope.

(** * Lifecycle *)
Record Lifecycle := MkLife { started_ : bool; complete_ : bool }.
Definition Lifecycle0 : Lifecycle := MkLife false false.
Definition begin_stop (l : Lifecycle) : bool * Lifecycle := (negb (started_ l), MkLife true (complete_ l)).
Definition mark_complete (l : Lifecycle) : Lifecycle := MkLife (started_ l) true.

(** What [stop] does, in order. *)
Inductive stop_action := StopForward | StopControl | MarkComplete.
(** [App::stop]; the two flags say whether the engines have been created. *)
Definition app_stop (has_forward has_control : bool) (l : Lifecycle) : list stop_action * Lifecycle :=
  let '(first, l) := begin_stop l in
  if negb first then ([], l)
  else ((if has_forward then [StopForward] else []) ++ (if has_control then [StopControl] else []) ++ [MarkComplete],
        mark_complete l).

(** * Construction and [init] *)
Record AppState := MkApp { a_nat : NatEngine.t; a_dhcp : DhcpEngine.t; a_netcfg : NetCfg; a_lifecycle : Lifecycle }.

Definition app_make (c : Config) (lan_mac : option (list Z)) : AppState :=
  MkApp NatEngine.make
    (DhcpEngine.make (c_router_ip c)
       (MkPool (parse_ipv4 (c_dhcp_pool_start c)) (parse_ipv4 (c_dhcp_pool_end c)) (c_dhcp_lease c)) lan_mac)
    (MkNetCfg 0) Lifecycle0.

Inductive init_error := RawSocketFailed (lan : bool) | SyncFailed (e : sync_error) | WanFailed (e : wan_error).

Section Init.
Context {K : Type} (kern : Kernel K).

(** [wan_raw] and [lan_raw]: whether the two packet sockets could be set up. *)
Definition app_init (c : Config) (wan_raw lan_raw : bool) (a : AppState) (k : K) :
  (init_error + unit) * AppState * K :=
  if negb wan_raw then (inl (RawSocketFailed false), a, k)
  else if negb lan_raw then (inl (RawSocketFailed true), a, k)
  else
    let '(r, dhcp, n, k1) := sync kern c (a_dhcp a) (a_netcfg a) k in
    let a1 := MkApp (a_nat a) dhcp n (a_lifecycle a) in
    match r with
    | inl e => (inl (SyncFailed e), a1, k1)
    | inr _ =>
        if c_enable_nat c then
          match resolve_nat_wan_ip kern c k1 with
          | inl e => (inl (WanFailed e), a1, k1)
          | inr w => (inr tt, MkApp (NatEngine.set_wan_ip w (a_nat a1)) dhcp n (a_lifecycle a), k1)
          end
        else (inr tt, MkApp (NatEngine.set_wan_ip 0 (a_nat a1)) dhcp n (a_lifecycle a), k1)
    end.

(** The WAN address the program accepts is never 0.0.0.0 nor a loopback address. *)
Lemma resolve_wan_usable c k a : resolve_nat_wan_ip kern c k = inr a ->
  is_u32 a /\ a <> 0 /\ Z.shiftr (ntohl a) 24 <> 127 /\
  parse_kern (get_local_ip kern (c_iface_wan c) k) = Some a.
Proof.
  unfold resolve_nat_wan_ip, parse_kern. destruct (get_local_ip kern (c_iface_wan c) k) as [|ch s]; [done|].
  destruct (parse_ip_str (ch :: s)) as [|v] eqn:E; [done|].
  unfold is_invalid_nat_wan. destruct (Z.eqb_spec v 0); [done|].
  destruct (Z.eqb_spec (Z.shiftr (ntohl v) 24) 127); [done|]. intros [= <-].
  split; [by eapply parse_ip_str_range|]. done.
Qed.

(** A started router has consistent addresses.  When [init] succeeds, whatever the
    kernel answered: with NAT on, the translation address is the one the kernel reports
    for the WAN interface and is neither 0.0.0.0 nor loopback; with NAT off it is zero;
    and the DHCP gateway is the LAN interface's address, inside the subnet of the pool.
    When it fails, the NAT engine is untouched. *)
Lemma init_addresses (c : Config) (wan_raw lan_raw : bool) (a : AppState) (k : K) :
  let '(r, a', k') := app_init c wan_raw lan_raw a k in
  match r with
  | inl _ => a_nat a' = a_nat a
  | inr _ =>
      (if c_enable_nat c
       then exists w, NatEngine.wan_ip_snapshot (a_nat a') = w /\ is_u32 w /\ w <> 0 /\ Z.shiftr (ntohl w) 24 <> 127 /\
              parse_kern (get_local_ip kern (c_iface_wan c) k') = Some w
       else NatEngine.wan_ip_snapshot (a_nat a') = 0) /\
      exists s e, parse_ip_str (c_dhcp_pool_start c) = inr s /\ parse_ip_str (c_dhcp_pool_end c) = inr e /\
        parse_kern (get_local_ip kern (c_iface_lan c) k') = Some (DhcpEngine.router_ip_snapshot (a_dhcp a')) /\
        ipv4_in_subnet (DhcpEngine.router_ip_snapshot (a_dhcp a')) (infer_prefix_covering_pool s e) s = true
  end.
Proof.
  unfold app_init. destruct wan_raw; [|done]. destruct lan_raw; [|done]. cbn [negb].
  pose proof (sync_spec kern c (a_dhcp a) (a_netcfg a) k) as Hsync.
  destruct (sync kern c (a_dhcp a) (a_netcfg a) k) as [[[r dhcp] n] k1]. destruct r as [e|u]; [done|].
  destruct Hsync as (s & e & g & Hs & He & Hord & -> & -> & Hk & Hin).
  assert (exists s0 e0, parse_ip_str (c_dhcp_pool_start c) = inr s0 /\ parse_ip_str (c_dhcp_pool_end c) = inr e0 /\
    parse_kern (get_local_ip kern (c_iface_lan c) k1) = Some g /\
    ipv4_in_subnet g (infer_prefix_covering_pool s0 e0) s0 = true) as Hgw.
  { exists s, e. split_and!; [done|done|done|]. apply Hin; [by eapply parse_ip_str_range|lia]. }
  destruct (c_enable_nat c); [|done].
  destruct (resolve_nat_wan_ip kern c k1) as [err|w] eqn:Ew; [done|].
  destruct (resolve_wan_usable c k1 w Ew) as (Hu & Hn0 & Hlo & Hkern).
  split; [|done]. exists w. split_and!; done.
Qed.
End Init.

(** * [start] *)
(** The telemetry part and the two shapers; [world] reads the clock twice. *)
Definition app_start (accel : bool) (tel : Telemetry) (w : World) :
  Telemetry * Shaper.t * Shaper.t * World :=
  let tel := set_mode tel (MkMode (negb accel) accel false accel) in
  let q := qos tel in
  let dl := qos_global_dl_mbps_pending q in
  let ul := qos_global_ul_mbps_pending q in
  let tel := set_qos tel (MkQos (qos_global_bw_dirty q) dl ul dl ul) in
  let '(sdl, w) := Shaper.make dl w in
  let '(sul, w) := Shaper.make ul w in
  (tel, sdl, sul, w).

(** [stop] runs once.  However many times it is called, from the GUI, from [main] or
    from the destructor path, the engines are stopped exactly once, the data plane before
    the control plane, and completion is announced after both. *)
Lemma stop_runs_once (n : nat) (fwd ctl : bool) :
  let calls := fix calls (n : nat) (l : Lifecycle) : list stop_action * Lifecycle :=
    match n with
    | O => ([], l)
    | S n' => let '(acts, l1) := app_stop fwd ctl l in
              let '(rest, l2) := calls n' l1 in (acts ++ rest, l2)
    end in
  calls (S n) Lifecycle0 =
    ((if fwd then [StopForward] else []) ++ (if ctl then [StopControl] else []) ++ [MarkComplete],
     MkLife true true).
Proof.
  intros calls. assert (forall m, calls m (MkLife true true) = ([], MkLife true true)) as H.
  { induction m as [|m IH]; [done|]. cbn. by rewrite IH. }
  cbn. rewrite H. by rewrite app_nil_r.
Qed.
