(* ===== verification/Main.v ===== *)
(** The entry point ([main.cpp]), the shutdown dialog ([Dashboard::on_shutdown_clicked]) and
    the end of the program: who writes [config/config.txt], and when.

    The main thread runs the GUI event loop and, in the handlers of the shutdown dialog,
    [App::stop]; a detached thread per click on "Yes, Save Settings" saves the file; the
    notifier waits for [Lifecycle] and asks the event loop to quit; the control event
    thread saves after a pool change. Their steps interleave. *)
From Stdlib Require Import ZArith Lia String.
From stdpp Require Import base numbers relations list.
From S2P Require Import Prelude Text Config SelfTest App.
#[local] Open Scope Z_scope.
#[local] Open Scope list_scope.

(** * Before the event loop *)
(** What [print_selftest_report] prints: the score, a row per case, and the warning with
    the number of failures. *)
Definition print_selftest_report (r : Report.t) : (nat * nat) * list TestCase * option nat :=
  ((Report.passed r, Report.count r), Report.rows r,
   if (Report.passed r <? Report.count r)%nat then Some (Report.count r - Report.passed r)%nat else None).

(** [main] up to the event loop: load the configuration, construct and initialise the
    application. The exit code when it ends here, else the configuration it runs with. *)
Definition main_begin (file : open_result) (init : Config -> init_error + unit) : Z + Config :=
  match load_config file Config0 with
  | (inl _, _) => inl 1
  | (inr _, c) => match init c with inl _ => inl 1 | inr _ => inr c end
  end.

(** * The shutdown protocol *)
Inductive dialog := DClosed | DOpen | DSaving.
(** A saving thread: in [save_config], about to clear [SAVE_ON_EXIT], about to post to the
    GUI, finished. *)
Inductive saver := SvWrite | SvClear | SvPost | SvDone.
(** The main thread: in the event loop, inside [App::stop] called from a handler (stopping
    the data plane, joining the control plane, marking completion), after the loop, inside
    the [App::stop] there, joining the notifier, at the final save, ended. *)
Inductive main_pc :=
  | MExec | MStopFwd | MJoinAll | MMark
  | MAfter | MStopFwd2 | MJoinAll2 | MMark2 | MJoin | MTail | MSaving | MExit.
#[global] Instance main_pc_eq : EqDecision main_pc. Proof. solve_decision. Defined.
Inductive notifier := NWait | NPost | NDone.
(** Who completed a save; what the user asked for. *)
Inductive writer := ByDialog | ByTail | ByControl.
Inductive choice := ChoseSave | ChoseNoSave | ChoseClose.

Record closing := Closing {
  x_main : main_pc; x_dialog : dialog; x_savers : list saver; x_posted : nat; x_quit : bool;
  x_notify : notifier; x_life : Lifecycle; x_running : bool; x_control : bool;  (* control thread is saving *)
  x_save_on_exit : bool; x_choice : option choice; x_log : list writer }.
Definition closing0 : closing := Closing MExec DClosed [] 0 false NWait Lifecycle0 true false true None [].

Definition set_main (x : closing) (pc : main_pc) : closing :=
  Closing pc (x_dialog x) (x_savers x) (x_posted x) (x_quit x) (x_notify x) (x_life x) (x_running x) (x_control x)
    (x_save_on_exit x) (x_choice x) (x_log x).
Definition set_dialog (x : closing) (d : dialog) : closing :=
  Closing (x_main x) d (x_savers x) (x_posted x) (x_quit x) (x_notify x) (x_life x) (x_running x) (x_control x)
    (x_save_on_exit x) (x_choice x) (x_log x).
Definition set_savers (x : closing) (l : list saver) : closing :=
  Closing (x_main x) (x_dialog x) l (x_posted x) (x_quit x) (x_notify x) (x_life x) (x_running x) (x_control x)
    (x_save_on_exit x) (x_choice x) (x_log x).
Definition set_posted (x : closing) (n : nat) : closing :=
  Closing (x_main x) (x_dialog x) (x_savers x) n (x_quit x) (x_notify x) (x_life x) (x_running x) (x_control x)
    (x_save_on_exit x) (x_choice x) (x_log x).
Definition set_notify (x : closing) (q : bool) (n : notifier) : closing :=
  Closing (x_main x) (x_dialog x) (x_savers x) (x_posted x) q n (x_life x) (x_running x) (x_control x)
    (x_save_on_exit x) (x_choice x) (x_log x).
Definition set_life (x : closing) (l : Lifecycle) (running : bool) : closing :=
  Closing (x_main x) (x_dialog x) (x_savers x) (x_posted x) (x_quit x) (x_notify x) l running (x_control x)
    (x_save_on_exit x) (x_choice x) (x_log x).
Definition set_control (x : closing) (b : bool) : closing :=
  Closing (x_main x) (x_dialog x) (x_savers x) (x_posted x) (x_quit x) (x_notify x) (x_life x) (x_running x) b
    (x_save_on_exit x) (x_choice x) (x_log x).
Definition clear_save (x : closing) : closing :=
  Closing (x_main x) (x_dialog x) (x_savers x) (x_posted x) (x_quit x) (x_notify x) (x_life x) (x_running x) (x_control x)
    false (x_choice x) (x_log x).
Definition chose (x : closing) (c : choice) : closing :=
  Closing (x_main x) (x_dialog x) (x_savers x) (x_posted x) (x_quit x) (x_notify x) (x_life x) (x_running x) (x_control x)
    (x_save_on_exit x) (Some c) (x_log x).
Definition saved (x : closing) (w : writer) : closing :=
  Closing (x_main x) (x_dialog x) (x_savers x) (x_posted x) (x_quit x) (x_notify x) (x_life x) (x_running x) (x_control x)
    (x_save_on_exit x) (x_choice x) (x_log x ++ [w]).

(** [App::stop]: the first call goes on at [stopping], a second returns to [back]. *)
Definition enter_stop (x : closing) (stopping back : main_pc) : closing :=
  let '(first, l) := begin_stop (x_life x) in
  set_main (set_life x l (x_running x)) (if first then stopping else back).

Section Closing.
(** Whether the user goes on acting after having chosen how to leave. *)
Context (impatient : bool).
Definition may_act (x : closing) : Prop := x_choice x = None \/ impatient = true.

Inductive closing_step (x : closing) : closing -> Prop :=
  (* the user *)
  | c_open : x_main x = MExec -> may_act x -> x_dialog x = DClosed -> closing_step x (set_dialog x DOpen)
  | c_cancel : x_main x = MExec -> may_act x -> x_dialog x <> DClosed -> closing_step x (set_dialog x DClosed)
  | c_save : x_main x = MExec -> may_act x -> x_dialog x = DOpen ->
      closing_step x (chose (set_savers (set_dialog x DSaving) (x_savers x ++ [SvWrite])) ChoseSave)
  | c_nosave : x_main x = MExec -> may_act x -> x_dialog x = DOpen ->
      closing_step x (enter_stop (chose (clear_save (set_dialog x DClosed)) ChoseNoSave) MStopFwd MExec)
  | c_close : x_main x = MExec -> may_act x -> x_dialog x = DClosed -> closing_step x (set_main (chose x ChoseClose) MAfter)
  (* a saving thread *)
  | c_sv_write i : x_savers x !! i = Some SvWrite ->
      closing_step x (saved (set_savers x (<[i := SvClear]> (x_savers x))) ByDialog)
  | c_sv_clear i : x_savers x !! i = Some SvClear ->
      closing_step x (clear_save (set_savers x (<[i := SvPost]> (x_savers x))))
  | c_sv_post i : x_savers x !! i = Some SvPost ->
      closing_step x (set_posted (set_savers x (<[i := SvDone]> (x_savers x))) (S (x_posted x)))
  (* the event loop: the handler a saving thread posted, and the request to quit *)
  | c_posted n : x_main x = MExec -> x_posted x = S n ->
      closing_step x (enter_stop (set_posted (set_dialog x DClosed) n) MStopFwd MExec)
  | c_quit : x_main x = MExec -> x_quit x = true -> closing_step x (set_main (set_dialog x DClosed) MAfter)
  (* [App::stop] in a handler: the workers are joined, [running_] of the control plane is
     cleared, and its joins wait for the control thread *)
  | c_stopping : x_main x = MStopFwd -> closing_step x (set_main (set_life x (x_life x) false) MJoinAll)
  | c_joined : x_main x = MJoinAll -> x_control x = false -> closing_step x (set_main x MMark)
  | c_marked : x_main x = MMark -> closing_step x (set_main (set_life x (mark_complete (x_life x)) (x_running x)) MExec)
  (* after the loop *)
  | c_after : x_main x = MAfter -> closing_step x (enter_stop x MStopFwd2 MJoin)
  | c_stopping2 : x_main x = MStopFwd2 -> closing_step x (set_main (set_life x (x_life x) false) MJoinAll2)
  | c_joined2 : x_main x = MJoinAll2 -> x_control x = false -> closing_step x (set_main x MMark2)
  | c_marked2 : x_main x = MMark2 -> closing_step x (set_main (set_life x (mark_complete (x_life x)) (x_running x)) MJoin)
  | c_join : x_main x = MJoin -> x_notify x = NDone -> closing_step x (set_main x MTail)
  | c_tail_save : x_main x = MTail -> x_save_on_exit x = true -> closing_step x (set_main x MSaving)
  | c_tail_skip : x_main x = MTail -> x_save_on_exit x = false -> closing_step x (set_main x MExit)
  | c_tail_saved : x_main x = MSaving -> closing_step x (set_main (saved x ByTail) MExit)
  (* the notifier *)
  | c_waited : x_notify x = NWait -> complete_ (x_life x) = true -> closing_step x (set_notify x (x_quit x) NPost)
  | c_post_quit : x_notify x = NPost -> closing_step x (set_notify x true NDone)
  (* the control event thread, while it runs *)
  | c_ctl_save : x_running x = true -> x_control x = false -> closing_step x (set_control x true)
  | c_ctl_saved : x_control x = true -> closing_step x (saved (set_control x false) ByControl).
End Closing.

(** * Invariant *)
(** Saves of [config.txt] other than the control thread's. *)
Definition is_own (w : writer) : bool := match w with ByControl => false | _ => true end.
Definition own (x : closing) : list writer := List.filter is_own (x_log x).

Definition before_stop (x : closing) : Prop :=
  x_life x = Lifecycle0 /\ x_running x = true /\ x_notify x = NWait /\ x_quit x = false.
Definition in_stop (x : closing) : Prop := x_life x = MkLife true false /\ x_notify x = NWait /\ x_quit x = false.
Definition after_stop (x : closing) : Prop :=
  x_life x = MkLife true true /\ x_running x = false /\ x_control x = false /\ (x_notify x = NDone -> x_quit x = true).
(** How far [stop] is, by where the main thread is. *)
Definition phase_inv (x : closing) : Prop :=
  match x_main x with
  | MExec | MAfter => before_stop x \/ after_stop x
  | MStopFwd | MStopFwd2 => in_stop x
  | MJoinAll | MJoinAll2 => in_stop x /\ x_running x = false
  | MMark | MMark2 => in_stop x /\ x_running x = false /\ x_control x = false
  | MJoin => after_stop x
  | MTail | MSaving | MExit => after_stop x /\ x_notify x = NDone
  end.

(** What the user's choice has led to. *)
Definition saver_inv (sv : saver) (x : closing) : Prop :=
  match sv with
  | SvWrite => x_main x = MExec /\ x_life x = Lifecycle0 /\ x_posted x = 0%nat /\ own x = []
  | SvClear => x_main x = MExec /\ x_life x = Lifecycle0 /\ x_posted x = 0%nat /\ own x = [ByDialog]
  | SvPost => x_main x = MExec /\ x_life x = Lifecycle0 /\ x_posted x = 0%nat /\ own x = [ByDialog] /\ x_save_on_exit x = false
  | SvDone => own x = [ByDialog] /\ x_save_on_exit x = false /\
      ((x_posted x = 1%nat /\ x_main x = MExec /\ x_life x = Lifecycle0) \/
       (x_posted x = 0%nat /\ x_main x <> MSaving /\ (x_main x = MExec -> x_life x = MkLife true true)))
  end.
Definition choice_inv (x : closing) : Prop :=
  match x_choice x with
  | None => x_main x = MExec /\ x_life x = Lifecycle0 /\ x_savers x = [] /\ x_posted x = 0%nat /\ x_dialog x <> DSaving /\
      x_save_on_exit x = true /\ own x = []
  | Some ChoseSave => exists sv, x_savers x = [sv] /\ saver_inv sv x
  | Some ChoseNoSave => x_savers x = [] /\ x_posted x = 0%nat /\ x_save_on_exit x = false /\ own x = [] /\
      x_main x <> MSaving /\ (x_main x = MExec -> x_life x = MkLife true true)
  | Some ChoseClose => x_savers x = [] /\ x_posted x = 0%nat /\ x_save_on_exit x = true /\
      match x_main x with
      | MExec | MStopFwd | MJoinAll | MMark => False
      | MExit => own x = [ByTail]
      | _ => own x = []
      end
  end.

Lemma own_saved x w : own (saved x w) = own x ++ (if is_own w then [w] else []).
Proof. unfold own. cbn. rewrite List.filter_app. cbn. by destruct (is_own w). Qed.

Ltac closing_simpl := cbn [x_main x_dialog x_savers x_posted x_quit x_notify x_life x_running x_control x_save_on_exit
  x_choice x_log set_main set_dialog set_savers set_posted set_notify set_life set_control clear_save chose saved] in *.

Lemma phase_step x x' : phase_inv x -> choice_inv x -> closing_step false x x' -> phase_inv x'.
Proof.
  intros Hp Hc Hs. destruct x as [pc dl sv po qu no li ru co so ch lg].
  destruct Hs; closing_simpl; subst; unfold phase_inv, before_stop, in_stop, after_stop, enter_stop, begin_stop, mark_complete in *;
    closing_simpl; destruct li as [[] []]; cbn [started_ complete_ negb] in *; closing_simpl; try done;
    try (destruct pc; naive_solver); naive_solver.
Qed.

(** A step of the only saving thread. *)
Lemma single_saver (l : list saver) sv i a b : l = [sv] -> l !! i = Some a -> sv = a /\ <[i := b]> l = [b].
Proof. intros ->. destruct i as [|[|]]; cbn; [|done|done]. by intros [= ->]. Qed.

Lemma choice_step x x' : phase_inv x -> choice_inv x -> closing_step false x x' -> choice_inv x'.
Proof.
  intros Hp Hc Hs. assert (forall i a, x_savers x !! i = Some a -> x_choice x = Some ChoseSave) as Hsv.
  { intros i a Hl. unfold choice_inv in Hc. destruct (x_choice x) as [[]|]; [done|..];
      exfalso; assert (x_savers x = []) as E by (by apply Hc); rewrite E in Hl; done. }
  assert (forall i a, x_savers x !! i = Some a -> saver_inv a x /\ forall b, <[i := b]> (x_savers x) = [b]) as Hone.
  { intros i a Hl. pose proof (Hsv i a Hl) as E. unfold choice_inv in Hc. rewrite E in Hc. destruct Hc as (sv & E1 & H).
    destruct (single_saver _ sv i a a E1 Hl) as [-> _]. split; [exact H|]. intros b. exact (proj2 (single_saver _ a i a b E1 Hl)). }
  destruct Hs as [| | | | |i Hl|i Hl|i Hl| | | | | | | | | | | | | | | | |];
    try (specialize (Hsv _ _ Hl); destruct (Hone _ _ Hl) as [Hi Hins]);
    unfold choice_inv, phase_inv, before_stop, in_stop, after_stop, enter_stop, begin_stop, mark_complete, may_act, own in *;
    destruct x as [pc dl svs po qu no li ru co so ch lg]; closing_simpl;
    rewrite ?List.filter_app; cbn [List.filter is_own]; rewrite ?app_nil_r.
  all: try (rewrite Hsv, Hins; eexists; split; [reflexivity|]; clear Hc Hone Hsv;
            unfold saver_inv, own in *; closing_simpl; rewrite ?List.filter_app; destruct_and?;
            match goal with H : List.filter is_own _ = _ |- _ => rewrite H end; naive_solver).
  all: clear Hsv Hone; subst; destruct li as [[] []]; cbn [started_ complete_ negb Lifecycle0] in *; closing_simpl; try done.
  all: destruct ch as [[]|];
    [destruct Hc as ([] & -> & Hc); unfold saver_inv, own in *; closing_simpl; rewrite ?List.filter_app;
       cbn [List.filter is_own]; rewrite ?app_nil_r|..].
  all: try naive_solver.
  destruct Hc as (? & ? & ? & ->). done.
Qed.

Lemma closing_inv x : rtc (closing_step false) closing0 x -> phase_inv x /\ choice_inv x.
Proof.
  apply (rtc_invariant (closing_step false) (fun x => phase_inv x /\ choice_inv x) closing0).
  - intros a b [Hp Hc] Hs. split; [by eapply phase_step|by eapply choice_step].
  - split; [by left|]. split_and!; done.
Qed.

(** ** Getting out *)
(** What the threads other than the control thread still have to do: the stages of the main
    thread, the notifier and the saving threads, and the handlers posted. *)
Definition main_left (pc : main_pc) : nat :=
  match pc with
  | MStopFwd => 11 | MJoinAll => 10 | MMark => 9 | MExec => 8 | MAfter => 7 | MStopFwd2 => 6
  | MJoinAll2 => 5 | MMark2 => 4 | MJoin => 3 | MTail => 2 | MSaving => 1 | MExit => 0
  end.
Definition saver_left (sv : saver) : nat := match sv with SvWrite => 7 | SvClear => 6 | SvPost => 5 | SvDone => 0 end.
Definition notifier_left (n : notifier) : nat := match n with NWait => 2 | NPost => 1 | NDone => 0 end.
Fixpoint savers_left (l : list saver) : nat := match l with [] => 0 | sv :: l' => saver_left sv + savers_left l' end.
Definition remaining (x : closing) : nat :=
  main_left (x_main x) + savers_left (x_savers x) + 4 * x_posted x + notifier_left (x_notify x).
(** A step of the control thread: it starts or ends a save of its own. *)
Definition control_step (x x' : closing) : Prop :=
  x' = set_control x true \/ x' = saved (set_control x false) ByControl.

Lemma savers_left_insert l i a b : l !! i = Some a ->
  (savers_left (<[i := b]> l) + saver_left a = savers_left l + saver_left b)%nat.
Proof.
  revert i. induction l as [|sv l IH]; intros [|i]; try done.
  - intros [= ->]. cbn. lia.
  - intros H. specialize (IH i H). change (<[S i := b]> (sv :: l)) with (sv :: <[i := b]> l).
    cbn [savers_left]. lia.
Qed.

(** After the choice every step of a thread other than the control thread brings the end
    nearer, and no step moves it away. *)
Lemma step_remaining x x' c : x_choice x = Some c -> closing_step false x x' ->
  x_choice x' = Some c /\
  ((remaining x' < remaining x)%nat \/ control_step x x' /\ remaining x' = remaining x).
Proof.
  intros Hc Hs. assert (may_act false x -> False) as Hact by (intros [H|H]; congruence).
  destruct Hs as [? Ha|? Ha|? Ha|? Ha|? Ha|i Hl|i Hl|i Hl| | | | | | | | | | | | | | | | |];
    try (by destruct (Hact Ha));
    try (pose proof (savers_left_insert _ i _ SvClear Hl)); try (pose proof (savers_left_insert _ i _ SvPost Hl));
    try (pose proof (savers_left_insert _ i _ SvDone Hl));
    try (split; [done|]; right; split; [by (left + right)|reflexivity]).
  all: unfold remaining, enter_stop, begin_stop in *; destruct x as [pc dl svs po qu no li ru co so ch lg];
    closing_simpl; subst; cbn [saver_left main_left notifier_left] in *.
  all: try (split; [done|]; left; lia).
  all: destruct li as [[] cm]; cbn [started_ complete_] in *; closing_simpl; (split; [done|]); left;
    cbn [negb main_left]; lia.
Qed.

(** Once the user has chosen, and until the program has ended, some thread other than the
    control thread can go on, or the control thread is finishing a save after which it
    cannot start another. *)
Ltac goes step := left; eexists; split; [by eapply step|];
  unfold remaining, enter_stop, begin_stop, mark_complete in *;
  match goal with x : closing |- _ => destruct x as [? ? ? ? ? ? [[] ?] ? ? ? ? ?] end; closing_simpl; subst;
  cbn [negb started_ main_left notifier_left savers_left saver_left insert list_insert] in *; closing_simpl;
  cbn [main_left]; lia.
Lemma closing_progress x c : phase_inv x -> choice_inv x -> x_choice x = Some c -> x_main x <> MExit ->
  (exists x', closing_step false x x' /\ (remaining x' < remaining x)%nat) \/
  (x_running x = false /\ x_control x = true).
Proof.
  intros Hp Hc Ech Hne. unfold choice_inv in Hc. rewrite Ech in Hc.
  destruct (x_notify x) eqn:En; [destruct (complete_ (x_life x)) eqn:El|..].
  - goes c_waited.
  - (* [stop] has not completed *)
    unfold phase_inv, after_stop in Hp. destruct (x_main x) eqn:Em; try (by destruct Hp as [Hp _]; rewrite Hp in El);
      try (by destruct Hp as [[Hp _] _]; rewrite Hp in El).
    + destruct c; [|by destruct Hc as (_ & _ & _ & _ & _ & H); rewrite (H eq_refl) in El|by destruct Hc as (_ & _ & _ & [])].
      destruct Hc as (sv & Esv & Hsv). assert (x_savers x !! 0%nat = Some sv) as Hl by (by rewrite Esv).
      destruct sv.
      * goes (c_sv_write false x 0).
      * goes (c_sv_clear false x 0).
      * goes (c_sv_post false x 0).
      * destruct Hsv as (_ & _ & [(Hpo & _)|(_ & _ & H)]); [|by rewrite (H Em) in El]. goes c_posted.
    + goes c_stopping.
    + destruct (x_control x) eqn:Eco; [right; by destruct Hp|]. goes c_joined.
    + goes c_marked.
    + goes c_after.
    + goes c_stopping2.
    + destruct (x_control x) eqn:Eco; [right; by destruct Hp|]. goes c_joined2.
    + goes c_marked2.
  - goes c_post_quit.
  - (* the notifier has ended *)
    assert (x_main x = MExec -> x_quit x = true) as Hq.
    { intros Em. unfold phase_inv in Hp. rewrite Em in Hp. destruct Hp as [(_ & _ & H & _)|(_ & _ & _ & H)]; [congruence|by apply H]. }
    unfold phase_inv, in_stop in Hp. destruct (x_main x) eqn:Em; try (by exfalso; destruct_and?; congruence).
    + specialize (Hq eq_refl). goes c_quit.
    + goes c_after.
    + goes c_join.
    + destruct (x_save_on_exit x) eqn:Es; [goes c_tail_save|goes c_tail_skip].
    + goes c_tail_saved.
Qed.

(** So the program can be brought to its end from wherever it is, by steps that start no
    save of the control thread. *)
Lemma closing_ends x c : phase_inv x -> choice_inv x -> x_choice x = Some c ->
  exists x', rtc (closing_step false) x x' /\ x_main x' = MExit.
Proof.
  remember (2 * remaining x + (if x_control x then 1 else 0))%nat as n eqn:En.
  revert x En. induction (lt_wf n) as [n _ IH]. intros x -> Hp Hc Ech.
  destruct (decide (x_main x = MExit)) as [E|E]; [exists x; split; [apply rtc_refl|done]|].
  assert (forall x', closing_step false x x' ->
    (2 * remaining x' + (if x_control x' then 1 else 0) < 2 * remaining x + (if x_control x then 1 else 0))%nat ->
    exists x', rtc (closing_step false) x x' /\ x_main x' = MExit) as Hgo.
  { intros x1 Hs Hlt. destruct (IH _ Hlt x1 eq_refl) as (x2 & Hr & He).
    - by eapply phase_step.
    - by eapply choice_step.
    - by apply (step_remaining x x1 c Ech Hs).
    - exists x2. split; [by eapply rtc_l|done]. }
  destruct (closing_progress x c Hp Hc Ech E) as [(x1 & Hs & Hlt)|[_ Hco]].
  - apply (Hgo x1 Hs). destruct (x_control x1), (x_control x); lia.
  - apply (Hgo _ (c_ctl_saved false x Hco)). rewrite Hco. unfold remaining. destruct x; closing_simpl. lia.
Qed.

(** C36: leaving the program saves the settings as asked, for a user who makes one choice
    how to leave and no further one while the program closes.  In every
    interleaving of the event loop, the saving thread, the notifier and the control
    thread from then on: the final save of [main] never overlaps another save; when [main]
    ends, [stop] has completed, the notifier and the saving thread have finished, and the
    file was written, apart from saves after pool changes, exactly once by the dialog
    ("Save"), never ("Don't Save"), or exactly once by [main] (window closed).  And the
    program does end: there is a count of what the threads other than the control thread
    have left to do, [remaining], that each of their steps lowers and no step raises;
    until the end such a step is possible, or the control thread is finishing a save and
    may not start another; and the end can be reached from everywhere.  (The choice is
    part of the hypothesis, the transition system of a patient user: with a user
    who goes on clicking, two saves can overlap, see [impatient_saves_overlap].) *)
Theorem exit_saves_as_asked (x : closing) (Hreach : rtc (closing_step false) closing0 x) :
  (x_main x = MSaving -> x_savers x = [] /\ x_control x = false) /\
  (x_main x = MExit ->
     complete_ (x_life x) = true /\ x_notify x = NDone /\ x_control x = false /\
     Forall (fun sv => sv = SvDone) (x_savers x) /\
     match x_choice x with
     | Some ChoseSave => own x = [ByDialog]
     | Some ChoseNoSave => own x = []
     | Some ChoseClose => own x = [ByTail]
     | None => False
     end) /\
  (forall c, x_choice x = Some c ->
     (forall x', closing_step false x x' -> x_choice x' = Some c /\
        ((remaining x' < remaining x)%nat \/ control_step x x' /\ remaining x' = remaining x)) /\
     (x_main x <> MExit -> (exists x', closing_step false x x' /\ (remaining x' < remaining x)%nat) \/
        (x_running x = false /\ x_control x = true /\
         closing_step false x (saved (set_control x false) ByControl))) /\
     (exists x', rtc (closing_step false) x x' /\ x_main x' = MExit)).
Proof.
  destruct (closing_inv x Hreach) as [Hp Hc]. split_and!.
  - intros Em. unfold phase_inv, choice_inv in *. rewrite Em in *.
    destruct Hp as [(_ & _ & Hco & _) _]. split; [|exact Hco].
    destruct (x_choice x) as [[]|]; [|naive_solver..].
    destruct Hc as ([] & _ & Hs); unfold saver_inv in Hs; rewrite Em in Hs; naive_solver.
  - intros Em. unfold phase_inv, choice_inv in *. rewrite Em in *.
    destruct Hp as [(Hl & _ & Hco & _) Hn]. rewrite Hl. split_and!; [done..| |].
    + destruct (x_choice x) as [[]|]; [|by destruct Hc as [-> _]..|naive_solver].
      destruct Hc as (sv & -> & Hs). constructor; [|constructor].
      destruct sv; unfold saver_inv in Hs; rewrite Em in Hs; naive_solver.
    + destruct (x_choice x) as [[]|]; [|naive_solver..].
      destruct Hc as ([] & _ & Hs); unfold saver_inv in Hs; rewrite Em in Hs; naive_solver.
  - intros c Ech. split; [intros x'; by apply step_remaining|]. split; [|by eapply closing_ends].
    intros Hne. destruct (closing_progress x c Hp Hc Ech Hne) as [H|[Hr Hco]]; [by left|right].
    split; [done|]. split; [done|]. by apply c_ctl_saved.
Qed.

(** Save, from the click to the end of [main]. *)
Definition w_exit : closing :=
  Closing MExit DClosed [SvDone] 0 true NDone (MkLife true true) false false false (Some ChoseSave) [ByDialog].
Lemma exit_saves_as_asked_witness : rtc (closing_step false) closing0 w_exit /\
  complete_ (x_life w_exit) = true /\ Forall (fun sv => sv = SvDone) (x_savers w_exit) /\ own w_exit = [ByDialog].
Proof.
  assert (rtc (closing_step false) closing0 w_exit) as Hr.
  { eapply rtc_l; [apply c_open; [done|by left|done]|]. eapply rtc_l; [apply c_save; [done|by left|done]|].
    eapply rtc_l; [by apply (c_sv_write _ _ 0)|]. eapply rtc_l; [by apply (c_sv_clear _ _ 0)|].
    eapply rtc_l; [by apply (c_sv_post _ _ 0)|]. eapply rtc_l; [by apply (c_posted _ _ 0)|].
    eapply rtc_l; [by apply c_stopping|]. eapply rtc_l; [by apply c_joined|]. eapply rtc_l; [by apply c_marked|].
    eapply rtc_l; [by apply c_waited|]. eapply rtc_l; [by apply c_post_quit|]. eapply rtc_l; [by apply c_quit|].
    eapply rtc_l; [by apply c_after|]. eapply rtc_l; [by apply c_join|]. eapply rtc_l; [by apply c_tail_skip|].
    apply rtc_refl. }
  split; [exact Hr|].
  destruct (proj1 (proj2 (exit_saves_as_asked w_exit Hr)) eq_refl) as (H1 & _ & _ & H2 & H3). split; [exact H1|]. by split.
Defined.

(** A user who dismisses the dialog while it saves and closes the window: the final save
    of [main] starts while the saving thread is still writing the same file. *)
Example impatient_saves_overlap : exists x, rtc (closing_step true) closing0 x /\
  x_main x = MSaving /\ x_savers x = [SvWrite].
Proof.
  eexists. split.
  { eapply rtc_l; [apply c_open; [done|by right|done]|]. eapply rtc_l; [apply c_save; [done|by right|done]|].
    eapply rtc_l; [apply c_cancel; [done|by right|done]|]. eapply rtc_l; [apply c_close; [done|by right|done]|].
    eapply rtc_l; [by apply c_after|]. eapply rtc_l; [by apply c_stopping2|]. eapply rtc_l; [by apply c_joined2|].
    eapply rtc_l; [by apply c_marked2|]. eapply rtc_l; [by apply c_waited|]. eapply rtc_l; [by apply c_post_quit|].
    eapply rtc_l; [by apply c_join|]. eapply rtc_l; [by apply c_tail_save|]. apply rtc_refl. }
  done.
Qed.
(** Even a patient user's save can overlap the control thread's save after a pool change. *)
Example dialog_and_control_overlap : exists x, rtc (closing_step false) closing0 x /\
  x_savers x = [SvWrite] /\ x_control x = true.
Proof.
  eexists. split.
  { eapply rtc_l; [apply c_open; [done|by left|done]|]. eapply rtc_l; [apply c_save; [done|by left|done]|].
    eapply rtc_l; [by apply c_ctl_save|]. apply rtc_refl. }
  done.
Qed.

(** ** The start *)
(** The warning is printed exactly when a case failed. *)
Lemma report_warns r : report_ok r ->
  snd (print_selftest_report r) = None <-> Forall (fun c => pass c = true) (Report.rows r).
Proof.
  intros (Hl & Hc & Hp). unfold print_selftest_report. cbn [snd].
  assert (Report.count r = length (Report.rows r)) as Hn by (unfold Report.rows; rewrite length_take; lia).
  rewrite Hp, Hn. unfold Report.verdicts. clear. induction (Report.rows r) as [|c l IH]; cbn; [done|].
  pose proof (filter_length_le (@id bool) (map pass l)) as Hle. rewrite length_map in Hle.
  rewrite Forall_cons, <- IH. clear IH. change (fun x : bool => x) with (@id bool).
  set (k := length (List.filter id (map pass l))) in *. destruct (pass c); cbn [id length]; fold k; clearbody k.
  - destruct (Nat.ltb_spec (S k) (S (length l))), (Nat.ltb_spec k (length l)); try lia; naive_solver.
  - destruct (Nat.ltb_spec k (S (length l))); [|lia]. naive_solver.
Qed.
(** The program runs exactly when the configuration loads and the application initialises;
    otherwise it ends with code 1. *)
Lemma main_begin_spec file init :
  match main_begin file init with
  | inl code => code = 1
  | inr c => load_config file Config0 = (inr tt, c) /\ init c = inr tt
  end.
Proof.
  unfold main_begin. destruct (load_config file Config0) as [[e|[]] c]; [done|]. by destruct (init c) as [|[]] eqn:E.
Qed.
