(* ===== verification/Threads.v ===== *)
(** Where the program's threads run: the scheduling calls of [SystemOptimizer_util.cpp] and
    the places that start threads ([main.cpp], [App.cpp], [ControlPlane.cpp],
    [SelfTest.hpp], [GUI/Dashboard.cpp]).

    A thread inherits the processor set and the scheduling policy of the thread that starts
    it, then makes its own calls, each of which the kernel may refuse (a warning is
    printed); the steps of all threads interleave. *)
From Stdlib Require Import ZArith Lia String.
From stdpp Require Import base numbers relations list.
From S2P Require Import Prelude.
#[local] Open Scope Z_scope.
#[local] Open Scope list_scope.

(** * The calls *)
(** [cpu_set_t] as a bit mask. *)
Definition CPU_SET (core s : Z) : Z := Z.setbit s core.
Inductive policy := SCHED_OTHER | SCHED_FIFO (sched_priority : Z).
Inductive warning := NotBoundToCore (core_id : Z) | NotBoundToControl | NotRealtime.

(** What the scheduler knows of a thread, and the warnings it has printed. *)
Record attrs := Attrs { a_cpus : Z; a_policy : policy; a_warned : list warning }.
Definition warn (a : attrs) (w : warning) : attrs := Attrs (a_cpus a) (a_policy a) (a_warned a ++ [w]).

(** [granted] is the kernel's answer. *)
Definition set_current_thread_affinity (granted : bool) (core_id : Z) (a : attrs) : attrs :=
  let cpuset := CPU_SET core_id 0 in
  if granted then Attrs cpuset (a_policy a) (a_warned a) else warn a (NotBoundToCore core_id).
Definition set_current_thread_affinity_control (granted : bool) (a : attrs) : attrs :=
  let cpuset := CPU_SET 1 (CPU_SET 0 0) in
  if granted then Attrs cpuset (a_policy a) (a_warned a) else warn a NotBoundToControl.
Definition set_realtime_priority (granted : bool) (a : attrs) : attrs :=
  if granted then Attrs (a_cpus a) (SCHED_FIFO 50) (a_warned a) else warn a NotRealtime.

(** * The threads *)
Inductive role :=
  | MainThread | SelfTestThread | ServiceThread (i : nat) | ControlThread
  | WorkerThread (core : Z) | RxThread (core : Z) | ProcThread (core : Z)
  | NotifyThread | SaveThread.
#[export] Instance role_eq_dec : EqDecision role.
Proof. solve_decision. Defined.

Inductive act := AffinityControl | Affinity (core : Z) | Realtime | Spawn (r : role).

(** The scheduling calls and thread starts of each thread function, in order. *)
Definition selftest_code : list act := [AffinityControl].
Definition service_code : list act := [AffinityControl].
Definition notify_code : list act := [AffinityControl].
Definition save_code : list act := [AffinityControl].
Definition rx_code (core : Z) : list act := [Affinity core; Realtime].
Definition proc_code (core : Z) : list act := [Affinity core; Realtime].
Definition worker_code (core : Z) : list act := [AffinityControl; Spawn (RxThread core); Spawn (ProcThread core)].
Definition control_start : list act := map (Spawn ∘ ServiceThread) (seq 0 6) ++ [Spawn ControlThread].
Definition forward_start : list act := [Spawn (WorkerThread 2); Spawn (WorkerThread 3)].
Definition main_code : list act :=
  [AffinityControl; Spawn SelfTestThread] ++ control_start ++ forward_start ++ [Spawn NotifyThread].
Definition code (r : role) : list act :=
  match r with
  | MainThread => main_code
  | SelfTestThread => selftest_code
  | ServiceThread _ | ControlThread => service_code
  | WorkerThread core => worker_code core
  | RxThread core => rx_code core
  | ProcThread core => proc_code core
  | NotifyThread => notify_code
  | SaveThread => save_code
  end.

Record thr := Thr { t_role : role; t_todo : list act; t_attrs : attrs }.
(** A new thread inherits processors and policy. *)
Definition child (r : role) (a : attrs) : thr := Thr r (code r) (Attrs (a_cpus a) (a_policy a) []).
Definition call (granted : bool) (c : act) (a : attrs) : attrs :=
  match c with
  | AffinityControl => set_current_thread_affinity_control granted a
  | Affinity core => set_current_thread_affinity granted core a
  | Realtime => set_realtime_priority granted a
  | Spawn _ => a
  end.

(** A start may be left out: [App::start] returns early when an eventfd cannot be made. A
    saving thread is started by a click, once the main thread is in its event loop. *)
Inductive sched_step (p : list thr) : list thr -> Prop :=
  | s_call i r c todo a granted : p !! i = Some (Thr r (c :: todo) a) -> (forall r', c <> Spawn r') ->
      sched_step p (<[i := Thr r todo (call granted c a)]> p)
  | s_spawn i r r' todo a : p !! i = Some (Thr r (Spawn r' :: todo) a) ->
      sched_step p (<[i := Thr r todo a]> p ++ [child r' a])
  | s_skip i r r' todo a : p !! i = Some (Thr r (Spawn r' :: todo) a) -> sched_step p (<[i := Thr r todo a]> p)
  | s_save i a : p !! i = Some (Thr MainThread [] a) -> sched_step p (p ++ [child SaveThread a]).

(** The process starts with one thread on the processors [cpus]. *)
Definition start_thread (cpus : Z) : thr := Thr MainThread main_code (Attrs cpus SCHED_OTHER []).

(** * Invariant *)
(** The processors of the control plane, 0 and 1, and of one data-plane core. *)
Definition control_cpus : Z := CPU_SET 1 (CPU_SET 0 0).
Definition core_cpus (core : Z) : Z := CPU_SET core 0.
Definition data_plane (r : role) : option Z :=
  match r with RxThread core | ProcThread core => Some core | _ => None end.

Section Invariant.
(** [cpus] is what the process started with, [granted] whether the main thread's own
    request was. *)
Context (cpus : Z) (granted : bool).
Definition inherited (m : Z) : Prop := m = control_cpus \/ granted = false /\ m = cpus.

(** A control thread: before its call as inherited, after it as asked or warned. *)
Definition control_ok (t : thr) : Prop :=
  a_policy (t_attrs t) = SCHED_OTHER /\ inherited (a_cpus (t_attrs t)) /\
  ((t_todo t = code (t_role t) /\ a_warned (t_attrs t) = []) \/
   (~ AffinityControl ∈ t_todo t /\ suffix (t_todo t) (code (t_role t)) /\
    ((a_cpus (t_attrs t) = control_cpus /\ a_warned (t_attrs t) = []) \/ a_warned (t_attrs t) = [NotBoundToControl]))).

(** A data-plane thread: [w] is the warning of its first call. *)
Definition bound_ok (core : Z) (m : Z) (w : list warning) : Prop :=
  (m = core_cpus core /\ w = []) \/ (inherited m /\ w = [NotBoundToCore core]).
Definition data_ok (core : Z) (t : thr) : Prop :=
  let a := t_attrs t in
  (t_todo t = [Affinity core; Realtime] /\ a_policy a = SCHED_OTHER /\ inherited (a_cpus a) /\ a_warned a = []) \/
  (t_todo t = [Realtime] /\ a_policy a = SCHED_OTHER /\ bound_ok core (a_cpus a) (a_warned a)) \/
  (t_todo t = [] /\ exists w, bound_ok core (a_cpus a) w /\
    ((a_policy a = SCHED_FIFO 50 /\ a_warned a = w) \/ (a_policy a = SCHED_OTHER /\ a_warned a = w ++ [NotRealtime]))).

Definition main_ok (t : thr) : Prop :=
  ~ AffinityControl ∈ t_todo t /\ suffix (t_todo t) main_code /\
  t_attrs t = (if granted then Attrs control_cpus SCHED_OTHER [] else Attrs cpus SCHED_OTHER [NotBoundToControl]).

Definition thr_ok (t : thr) : Prop :=
  match t_role t with
  | MainThread => main_ok t
  | RxThread core | ProcThread core => data_ok core t
  | _ => control_ok t
  end.
Definition pool_ok (p : list thr) : Prop :=
  Forall thr_ok p /\ exists t, t ∈ p /\ t_role t = MainThread.

Lemma main_inherited t : main_ok t -> inherited (a_cpus (t_attrs t)).
Proof. intros (_ & _ & ->). unfold inherited. destruct granted; cbn; auto. Qed.

(** No thread starts another but the main thread and the workers, which are no data-plane
    threads; what they hand on is as a new thread needs it. *)
Lemma thr_spawns r r' todo a : thr_ok (Thr r (Spawn r' :: todo) a) ->
  thr_ok (Thr r todo a) /\ r' <> MainThread /\ inherited (a_cpus a) /\ a_policy a = SCHED_OTHER.
Proof.
  assert (forall c, suffix (Spawn r' :: todo) c -> suffix todo c) as Hsuf
    by (intros c; apply suffix_cons_l).
  assert (forall c, suffix (Spawn r' :: todo) (AffinityControl :: c) -> Spawn r' ∈ c) as Hin.
  { intros c ([|x l] & E); injection E; intros; subst; [done|]. apply elem_of_app. right. by left. }
  unfold thr_ok. cbn [t_role].
  assert (control_ok (Thr r (Spawn r' :: todo) a) -> (exists c, code r = AffinityControl :: c /\ Spawn MainThread ∉ c) ->
    control_ok (Thr r todo a) /\ r' <> MainThread /\ inherited (a_cpus a) /\ a_policy a = SCHED_OTHER) as Hctl.
  { intros (Hp & Hi & Hc) (c & Ec & Hm). cbn [t_todo t_role t_attrs] in *. rewrite Ec in Hc.
    destruct Hc as [[? _]|(Hna & Hs & Hw)]; [done|].
    split; [|split; [intros ->; by apply Hm, Hin|done]]. split; [done|]. split; [done|]. right. cbn [t_todo t_role t_attrs].
    split; [|rewrite Ec; auto]. intros ?. apply Hna. by right. }
  destruct r; try (intros H; apply Hctl; [exact H|]; eexists; split; [reflexivity|]; set_solver).
  - intros Hm. pose proof (main_inherited _ Hm) as Hi. destruct Hm as (Hna & Hs & Ha). cbn [t_todo t_attrs] in *.
    split; [split; [intros ?; apply Hna; by right|auto]|]. split; [|split; [exact Hi|]].
    + intros ->. apply Hin in Hs. revert Hs. cbn. set_solver.
    + rewrite Ha. by destruct granted.
  - intros [(E & _)|[(E & _)|(E & _)]]; done.
  - intros [(E & _)|[(E & _)|(E & _)]]; done.
Qed.

Lemma child_ok r a : r <> MainThread -> inherited (a_cpus a) -> a_policy a = SCHED_OTHER -> thr_ok (child r a).
Proof.
  intros Hr Hi Hp. unfold thr_ok, child. cbn [t_role].
  destruct r; try done; first [left; done | split; [done|split; [done|by left]]].
Qed.

Lemma data_calls core r c todo a b : data_ok core (Thr r (c :: todo) a) -> data_ok core (Thr r todo (call b c a)).
Proof.
  unfold data_ok, bound_ok. cbn [t_todo t_attrs].
  intros [(E & Hp & Hi & Hw)|[(E & Hp & Hb)|(E & _)]]; simplify_eq; cbn [call].
  - right. left. split; [done|]. destruct b; cbn; rewrite ?Hw; naive_solver.
  - right. right. split; [done|]. exists (a_warned a). destruct b; cbn; naive_solver.
Qed.
Lemma thr_calls r c todo a b : thr_ok (Thr r (c :: todo) a) -> (forall r', c <> Spawn r') -> thr_ok (Thr r todo (call b c a)).
Proof.
  unfold thr_ok. cbn [t_role]. intros H Hc.
  assert (control_ok (Thr r (c :: todo) a) -> (exists l, code r = AffinityControl :: l /\ Forall (fun x => exists r', x = Spawn r') l) ->
    control_ok (Thr r todo (call b c a))) as Hctl.
  { intros (Hp & Hi & Hw) (l & El & Hl). cbn [t_todo t_role t_attrs] in *. rewrite El in Hw.
    destruct Hw as [[[= -> ->] Hw]|(Hna & [k Hs] & _)].
    - split; [by destruct b|]. split; [destruct b; [by left|exact Hi]|]. right. cbn [t_todo t_role t_attrs].
      split; [intros Hin; rewrite Forall_forall in Hl; destruct (Hl _ Hin); congruence|].
      split; [rewrite El; by apply suffix_cons_r|]. destruct b; cbn; rewrite Hw; auto.
    - destruct k as [|x k]; cbn in Hs; simplify_eq; [by destruct Hna; left|].
      apply Forall_app in Hl as [_ [[r' ->] _]%Forall_cons]. by destruct (Hc r'). }
  destruct r; try (apply Hctl; [exact H|]; eexists; split; [reflexivity|]; repeat constructor; eauto).
  - destruct H as (Hna & [k Hs] & _). cbn [t_todo] in *. destruct k as [|x k]; injection Hs as <- Hs; [set_solver|].
    assert (c ∈ control_start ++ forward_start ++ [Spawn NotifyThread] ++ [Spawn SelfTestThread]) as Hin.
    { assert (c ∈ k ++ c :: todo) as Hin by set_solver. rewrite <- Hs in Hin. set_solver. }
    exfalso. revert Hin. cbn. rewrite !elem_of_cons, elem_of_nil. unfold compose. naive_solver.
  - by apply data_calls.
  - by apply data_calls.
Qed.
End Invariant.

Lemma elem_insert {A} (p : list A) i x y : y ∈ <[i := x]> p -> y = x \/ y ∈ p.
Proof. intros (j & Hj)%list_elem_of_lookup. apply list_lookup_insert_Some in Hj as [(_ & -> & _)|(_ & Hj)]; eauto using list_elem_of_lookup_2. Qed.

(** A step that replaces thread [i] by one of the same role. *)
Lemma pool_insert cpus g p i t t' : pool_ok cpus g p -> p !! i = Some t -> t_role t' = t_role t -> thr_ok cpus g t' ->
  pool_ok cpus g (<[i := t']> p).
Proof.
  intros [Hp (m & Hm & Hr)] Hi Er Ht. split; [by apply Forall_insert|].
  apply list_elem_of_lookup in Hm as [j Hj]. destruct (decide (i = j)) as [->|Hne].
  - exists t'. split; [|congruence]. apply (list_elem_of_lookup_2 _ j). apply list_lookup_insert_eq. by eapply lookup_lt_Some.
  - exists m. split; [|done]. eapply (list_elem_of_lookup_2 _ j). by rewrite list_lookup_insert_ne.
Qed.
Lemma pool_app cpus g p t : pool_ok cpus g p -> thr_ok cpus g t -> pool_ok cpus g (p ++ [t]).
Proof. intros [Hp (m & Hm & Hr)] Ht. split; [apply Forall_app_2; [done|by constructor]|]. exists m. set_solver. Qed.

Definition sched_inv (cpus : Z) (p : list thr) : Prop := p = [start_thread cpus] \/ exists g, pool_ok cpus g p.
Lemma sched_step_inv cpus p p' : sched_inv cpus p -> sched_step p p' -> sched_inv cpus p'.
Proof.
  intros [->|(g & Hp)] Hs.
  - assert (forall i t, [start_thread cpus] !! i = Some t -> i = 0%nat /\ t = start_thread cpus) as Hone
      by (intros [|i] t; cbn; [intros [= <-]; done|destruct i; done]).
    destruct Hs as [i r c todo a b Hi Hc|i r r' todo a Hi|i r r' todo a Hi|i a Hi]; apply Hone in Hi as [-> Hi];
      unfold start_thread, main_code in Hi; cbn in Hi; simplify_eq.
    right. exists b. split; [|eexists; split; [by left|done]]. apply Forall_singleton. split; [|split].
    + cbn. rewrite !elem_of_cons, elem_of_nil. unfold compose. naive_solver.
    + by exists [AffinityControl].
    + by destruct b.
  - right. exists g. destruct Hs as [i r c todo a b Hi Hc|i r r' todo a Hi|i r r' todo a Hi|i a Hi];
      pose proof (Forall_lookup_1 _ _ _ _ (proj1 Hp) Hi) as Ht.
    + eapply pool_insert; [done..|]. by apply thr_calls with (c := c).
    + apply thr_spawns in Ht as (Ht & Hr & Hin & Hpol). apply pool_app; [by eapply pool_insert|by apply child_ok].
    + apply thr_spawns in Ht as (Ht & _). by eapply pool_insert.
    + apply pool_app; [done|]. pose proof (main_inherited _ _ _ Ht). destruct Ht as (_ & _ & Ha). cbn in Ha.
      apply child_ok; [done|done|]. rewrite Ha. by destruct g.
Qed.

(** ** One thread per role *)
(** Saving threads aside, the roles there are and those that will be started. *)
Definition own_role (r : role) : list role := match r with SaveThread => [] | _ => [r] end.
Definition started (next : role -> list role) (todo : list act) : list role :=
  concat (map (fun c => match c with Spawn r => next r | _ => [] end) todo).
Definition future (r : role) : list role := own_role r ++ started own_role (code r).
Definition owed (p : list thr) : list role := concat (map (fun t => own_role (t_role t) ++ started future (t_todo t)) p).

Lemma owed_app p q : owed (p ++ q) = owed p ++ owed q.
Proof. unfold owed. by rewrite map_app, concat_app. Qed.
Lemma owed_insert p i t t' : p !! i = Some t ->
  exists a b, owed p = a ++ (own_role (t_role t) ++ started future (t_todo t)) ++ b /\
    owed (<[i := t']> p) = a ++ (own_role (t_role t') ++ started future (t_todo t')) ++ b.
Proof.
  intros Hi. exists (owed (take i p)), (owed (drop (S i) p)).
  rewrite insert_take_drop by (by eapply lookup_lt_Some). rewrite <- (take_drop_middle p i t Hi) at 1.
  split; rewrite owed_app; unfold owed; cbn [map concat]; done.
Qed.
Lemma future_child r a : r <> MainThread -> owed [child r a] = future r.
Proof. destruct r; done. Qed.

Lemma owed_step cpus p p' : sched_inv cpus p -> sched_step p p' -> owed p' ⊆+ owed p.
Proof.
  intros Hinv Hs. destruct Hs as [i r c todo a b Hi Hc|i r r' todo a Hi|i r r' todo a Hi|i a Hi].
  - destruct (owed_insert p i _ (Thr r todo (call b c a)) Hi) as (x & y & -> & ->).
    cbn [t_role t_todo]. destruct c as [| | |r']; try reflexivity. by destruct (Hc r').
  - assert (r' <> MainThread) as Hr.
    { destruct Hinv as [->|(g & Hp & _)]; [|by apply (Forall_lookup_1 _ _ _ _ Hp), thr_spawns in Hi as (_ & ? & _)].
      destruct i as [|i]; cbn in Hi; [done|by destruct i]. }
    rewrite owed_app, (future_child r' a Hr).
    destruct (owed_insert p i _ (Thr r todo a) Hi) as (x & y & -> & ->). cbn [t_role t_todo].
    change (started future (Spawn r' :: todo)) with (future r' ++ started future todo).
    apply Permutation_submseteq. solve_Permutation.
  - destruct (owed_insert p i _ (Thr r todo a) Hi) as (x & y & -> & ->). cbn [t_role t_todo].
    change (started future (Spawn r' :: todo)) with (future r' ++ started future todo).
    apply submseteq_app; [done|]. apply submseteq_app; [|done]. apply submseteq_app; [done|]. by apply submseteq_inserts_l.
  - rewrite owed_app. cbn. by rewrite app_nil_r.
Qed.

Lemma reachable_sched cpus p : rtc sched_step [start_thread cpus] p ->
  sched_inv cpus p /\ owed p ⊆+ owed [start_thread cpus].
Proof.
  apply (rtc_ind_r (fun p => sched_inv cpus p /\ owed p ⊆+ owed [start_thread cpus])); [split; [by left|done]|].
  intros q r _ Hs [Hi Ho]. split; [by eapply sched_step_inv|]. etrans; [by eapply owed_step|done].
Qed.

(** The roles in use, saving threads aside. *)
Definition roles_in_use (p : list thr) : list role := concat (map (own_role ∘ t_role) p).
Lemma roles_owed p : roles_in_use p ⊆+ owed p.
Proof.
  induction p as [|t p IH]; [done|]. unfold roles_in_use, owed. cbn [map concat].
  apply submseteq_app; [|exact IH]. by apply submseteq_inserts_r.
Qed.
Lemma role_in_use p t : t ∈ p -> t_role t <> SaveThread -> t_role t ∈ roles_in_use p.
Proof.
  intros Ht Hr. unfold roles_in_use. apply list_elem_of_In, in_concat. exists (own_role (t_role t)). split.
  - apply in_map_iff. exists t. split; [done|]. by apply list_elem_of_In.
  - destruct (t_role t); try done; by left.
Qed.

(** What [thr_ok] says of the policy, of a thread that is done, and of the processors. *)
Lemma data_fifo cpus g core t prio : data_ok cpus g core t -> a_policy (t_attrs t) = SCHED_FIFO prio ->
  prio = 50 /\ t_todo t = [] /\ (a_cpus (t_attrs t) = core_cpus core \/ NotBoundToCore core ∈ a_warned (t_attrs t)).
Proof.
  intros [(_ & E & _)|[(_ & E & _)|(Ht & w & Hb & [[E ->]|[E _]])]] Hp; try congruence.
  split; [congruence|]. split; [done|]. destruct Hb as [[-> _]|[_ ->]]; [by left|right; by left].
Qed.
Lemma thr_done cpus g r m pol : thr_ok cpus g (Thr r [] (Attrs m pol [])) ->
  Attrs m pol [] = match data_plane r with
                   | Some core => Attrs (core_cpus core) (SCHED_FIFO 50) []
                   | None => Attrs control_cpus SCHED_OTHER []
                   end.
Proof.
  assert (forall core, data_ok cpus g core (Thr r [] (Attrs m pol [])) ->
    Attrs m pol [] = Attrs (core_cpus core) (SCHED_FIFO 50) []) as Hdata.
  { intros core [(E & _)|[(E & _)|(_ & w & Hb & [[Ep Ew]|[_ Ew]])]]; [done|done| |by destruct w].
    cbn in Ep, Ew. subst w. destruct Hb as [[Em _]|[_ Ew]]; [|done]. cbn in Em. by subst. }
  assert (control_ok cpus g (Thr r [] (Attrs m pol [])) -> code r <> [] ->
    Attrs m pol [] = Attrs control_cpus SCHED_OTHER []) as Hctl.
  { intros (Ep & _ & [[E _]|(_ & _ & [[Em _]|E])]) Hc; cbn [t_todo t_role t_attrs a_cpus a_policy a_warned] in *; congruence. }
  unfold thr_ok. cbn [t_role data_plane]. destruct r; try (intros H; by apply Hctl); try apply Hdata.
  intros (_ & _ & E). cbn [t_attrs data_plane] in *. destruct g; congruence.
Qed.
Lemma thr_granted cpus t : thr_ok cpus true t -> (forall core, data_plane (t_role t) = Some core -> core = 2 \/ core = 3) ->
  a_cpus (t_attrs t) = control_cpus \/
  exists core, data_plane (t_role t) = Some core /\ (core = 2 \/ core = 3) /\ a_cpus (t_attrs t) = core_cpus core.
Proof.
  assert (forall m, inherited cpus true m -> m = control_cpus) as Hin by (by intros m [?|[? _]]).
  unfold thr_ok. intros H Hc. destruct (t_role t) eqn:Er; try (left; apply Hin, H).
  - left. destruct H as (_ & _ & ->). done.
  - destruct H as [(_ & _ & Hi & _)|[(_ & _ & Hb)|(_ & w & Hb & _)]]; [left; auto| |];
      (destruct Hb as [[E _]|[Hi _]]; [right; exists core; auto|left; auto]).
  - destruct H as [(_ & _ & Hi & _)|[(_ & _ & Hb)|(_ & w & Hb & _)]]; [left; auto| |];
      (destruct Hb as [[E _]|[Hi _]]; [right; exists core; auto|left; auto]).
Qed.

(** C34: threads keep to their cores.  However the threads interleave and whichever
    scheduling calls the kernel refuses: there is at most one thread per role; only the
    receive and processing threads of cores 2 and 3 ever become real-time (priority 50),
    after their affinity call, and then run on their own core unless they have warned that
    the call was refused; a thread that has made its calls without a warning runs where it
    should (its own core, real-time; or processors 0 and 1, with the ordinary policy); and
    once the main thread's own call has been granted, no other thread is ever allowed on
    cores 2 and 3 than those whose cores they are, and nothing else on any further one. *)
Theorem threads_keep_their_cores (cpus : Z) (p : list thr) (Hreach : rtc sched_step [start_thread cpus] p) :
  NoDup (roles_in_use p) /\
  (forall t prio, t ∈ p -> a_policy (t_attrs t) = SCHED_FIFO prio ->
     exists core, data_plane (t_role t) = Some core /\ (core = 2 \/ core = 3) /\ prio = 50 /\ t_todo t = [] /\
       (a_cpus (t_attrs t) = core_cpus core \/ NotBoundToCore core ∈ a_warned (t_attrs t))) /\
  (forall t, t ∈ p -> t_todo t = [] -> a_warned (t_attrs t) = [] ->
     t_attrs t = match data_plane (t_role t) with
                 | Some core => Attrs (core_cpus core) (SCHED_FIFO 50) []
                 | None => Attrs control_cpus SCHED_OTHER []
                 end) /\
  ((forall t, t ∈ p -> t_role t = MainThread -> t_todo t <> main_code /\ a_warned (t_attrs t) = []) ->
   forall t, t ∈ p -> a_cpus (t_attrs t) = control_cpus \/
     exists core, data_plane (t_role t) = Some core /\ (core = 2 \/ core = 3) /\ a_cpus (t_attrs t) = core_cpus core).
Proof.
  destruct (reachable_sched cpus p Hreach) as [Hinv Hsub].
  pose proof (roles_owed p) as Hroles. rewrite Hsub in Hroles.
  assert (forall t core, t ∈ p -> data_plane (t_role t) = Some core -> core = 2 \/ core = 3) as Hcore.
  { intros t core Ht Hd. pose proof (role_in_use p t Ht ltac:(by intros E; rewrite E in Hd)) as Hin.
    eapply elem_of_submseteq in Hin; [|exact Hroles]. destruct (t_role t); try done; injection Hd as ->;
      revert Hin; cbn; rewrite !elem_of_cons, elem_of_nil; unfold compose; naive_solver. }
  split; [|split; [|split]].
  - apply submseteq_Permutation in Hroles as [l Hl].
    assert (NoDup (owed [start_thread cpus])) as Hnd by (apply (bool_decide_unpack _); vm_compute; exact I).
    rewrite Hl in Hnd. by apply NoDup_app in Hnd as [? _].
  - intros t prio Ht Hpol. destruct Hinv as [->|(g & Hp & _)]; [by apply list_elem_of_singleton in Ht as ->|].
    eapply Forall_forall in Hp; [|exact Ht]. unfold thr_ok in Hp. pose proof (Hcore t) as Hc.
    destruct (t_role t) as [| | | | |core|core| |] eqn:Er; try (destruct Hp as (Hp & _); congruence).
    + destruct Hp as (_ & _ & Ha). rewrite Ha in Hpol. by destruct g.
    + exists core. split; [done|]. split; [by apply Hc|]. by apply (data_fifo cpus g).
    + exists core. split; [done|]. split; [by apply Hc|]. by apply (data_fifo cpus g).
  - intros t Ht Hd Hw. destruct Hinv as [->|(g & Hp & _)]; [by apply list_elem_of_singleton in Ht as ->|].
    eapply Forall_forall in Hp; [|exact Ht]. unfold thr_ok in Hp.
    destruct t as [r todo [m pol w]]. cbn in *. subst. by apply (thr_done cpus g).
  - intros Hm t Ht. destruct Hinv as [->|(g & Hp & (tm & Htm & Hr))].
    { destruct (Hm (start_thread cpus)) as [? _]; [by left|done|done]. }
    destruct (Hm tm Htm Hr) as [_ Hw]. pose proof (Forall_forall (thr_ok cpus g) p) as [Hall _]. specialize (Hall Hp).
    pose proof (Hall _ Htm) as Hmain. unfold thr_ok in Hmain. rewrite Hr in Hmain.
    destruct Hmain as (_ & _ & Ha). rewrite Ha in Hw. destruct g; [|done].
    apply (thr_granted cpus t (Hall _ Ht)). intros core Hd. by apply (Hcore t).
Qed.

(** Steps as functions: thread [i] makes a call, or starts a thread. *)
Definition run_call (granted : bool) (i : nat) (p : list thr) : list thr :=
  match p !! i with
  | Some (Thr r (Spawn _ :: _) a) => p
  | Some (Thr r (c :: todo) a) => <[i := Thr r todo (call granted c a)]> p
  | _ => p
  end.
Definition run_spawn (i : nat) (p : list thr) : list thr :=
  match p !! i with Some (Thr r (Spawn r' :: todo) a) => <[i := Thr r todo a]> p ++ [child r' a] | _ => p end.
Lemma run_call_steps b i p q : rtc sched_step q p -> rtc sched_step q (run_call b i p).
Proof.
  intros H. unfold run_call. destruct (p !! i) as [[r [|c todo] a]|] eqn:E; try exact H.
  destruct c; try exact H; (eapply rtc_r; [exact H|]; by eapply (s_call _ _ _ _ _ _ b E)).
Qed.
Lemma run_spawn_steps i p q : rtc sched_step q p -> rtc sched_step q (run_spawn i p).
Proof.
  intros H. unfold run_spawn. destruct (p !! i) as [[r [|[] todo] a]|] eqn:E; try exact H.
  eapply rtc_r; [exact H|]. by apply s_spawn.
Qed.
(** A run up to the receive thread of core 2, whose affinity call is refused. *)
Lemma threads_keep_their_cores_witness : exists p a,
  rtc sched_step [start_thread 15] p /\ Thr (RxThread 2) [] a ∈ p /\
  a = Attrs 3 (SCHED_FIFO 50) [NotBoundToCore 2] /\ NoDup (roles_in_use p).
Proof.
  set (p2 := Nat.iter 9 (run_spawn 0) (run_call true 0 [start_thread 15])).
  set (p4 := run_call true 10 (run_call false 10 (run_spawn 9 (run_call true 9 p2)))).
  assert (rtc sched_step [start_thread 15] p4) as Hr.
  { do 2 apply run_call_steps. apply run_spawn_steps, run_call_steps. do 9 apply run_spawn_steps.
    apply run_call_steps, rtc_refl. }
  exists p4, (Attrs 3 (SCHED_FIFO 50) [NotBoundToCore 2]). split; [exact Hr|].
  split; [apply (list_elem_of_lookup_2 _ 10); vm_compute; reflexivity|]. split; [reflexivity|].
  exact (proj1 (threads_keep_their_cores 15 p4 Hr)).
Defined.
