(* ===== verification/ControlPlane.v ===== *)
(** The control plane ([ControlPlane.cpp]) inside the running program: the state the
    application owns, the six periodic services and the control event thread that work on
    it, and the actions of the data plane, the GUI and the environment they interleave
    with.

    A thread waits in [poll] between two actions; what it does when woken is one step, as
    are the processing of one frame, one drain of a shaper and one GUI handler. Shared
    objects are internally synchronised; the interleavings inside them are the subject of
    [NatSeqlock], [SpscConc], [QosService], [StopTokens] and [Workers]. *)
From Stdlib Require Import ZArith Lia Ascii String QArith.
From stdpp Require Import base numbers strings list.
From S2P Require Import Prelude Text Types_util Telemetry TxFrame Rings NatEngine DhcpEngine Scheduler Config Network_util.
From S2P Require Import NetworkConfig ProcNet ForwardingState Forward StopTokens QosService Descriptors Collector HostInfo.
From S2P Require Import NumPad Dashboard App.
#[local] Open Scope Z_scope.
#[local] Open Scope list_scope.

(** * State *)
(** The engines and tables that packets and services share. *)
Record Engines := MkEngines {
  e_nat : NatEngine.t; e_dhcp : DhcpEngine.t; e_netcfg : NetCfg; e_plane : ForwardingState }.
(** One direction of traffic: pending counters, shaper, frame queue. *)
Record Side := MkSide { sd_batch : BatchStats; sd_shaper : Shaper.t; sd_queue : SpscRingBuffer.t RxFrameCopy }.
(** Where a control-plane thread is: at its loop condition, in [poll], or ended. *)
Inductive svc_state := AtTop | Waiting | Ended.
#[global] Instance svc_state_eq_dec : EqDecision svc_state.
Proof. solve_decision. Defined.
(** [ControlPlane]: [running_], the two eventfd counters, the threads, the base limits. *)
Record Control := MkControl {
  ct_running : bool; ct_stop_efd : Z; ct_cfg_efd : Z; ct_threads : list svc_state;
  ct_base_dl : Q; ct_base_ul : Q }.
(** Local variables of the service threads; [t_printed] is the console. *)
Record Locals := MkLocals { t_tick5 : Z; t_prev_pe : Z; t_printed : list Z; h_tick5 : Z }.
(** The QoS page and the DHCP dialog when it is open. *)
Record Gui := MkGui { g_page : QosPage; g_dialog : option DhcpDialog }.

Record system (K : Type) := System {
  y_cfg : Config; y_eng : Engines; y_down : Side; y_up : Side;
  y_world : World; y_info : CollectorState;
  y_ctl : Control; y_locals : Locals; y_gui : Gui;
  y_kernel : K; y_file : option (list Z) }.
Arguments System {K}. Arguments y_cfg {K}. Arguments y_eng {K}. Arguments y_down {K}. Arguments y_up {K}.
Arguments y_world {K}. Arguments y_info {K}. Arguments y_ctl {K}. Arguments y_locals {K}. Arguments y_gui {K}.
Arguments y_kernel {K}. Arguments y_file {K}.

(** * Waiting for a period or for shutdown *)
Inductive poll_reply := PollTimeout | PollReadable | PollFailed (eintr : bool).
(** Which answers the kernel can give for a semaphore holding [efd] units. *)
Definition poll_can (r : poll_reply) (efd : Z) : bool :=
  match r with PollTimeout => efd =? 0 | PollReadable => 0 <? efd | PollFailed _ => true end.
(** The result, and the descriptor after the read. *)
Definition wait_watchdog_period (r : poll_reply) (efd : Z) : Z * Z :=
  match r with
  | PollFailed eintr => (if eintr then 0 else -1, efd)
  | PollReadable => (1, efd - 1)
  | PollTimeout => (0, efd)
  end.

Section Program.
Context {K : Type} (kern : Kernel K) (qt : Qt) (fd_wan fd_lan : Z).
Implicit Types s : system K.

Definition set_eng s (e : Engines) : system K :=
  System (y_cfg s) e (y_down s) (y_up s) (y_world s) (y_info s) (y_ctl s) (y_locals s) (y_gui s) (y_kernel s) (y_file s).
Definition set_ctl s (c : Control) : system K :=
  System (y_cfg s) (y_eng s) (y_down s) (y_up s) (y_world s) (y_info s) c (y_locals s) (y_gui s) (y_kernel s) (y_file s).
Definition set_gui s (g : Gui) : system K :=
  System (y_cfg s) (y_eng s) (y_down s) (y_up s) (y_world s) (y_info s) (y_ctl s) (y_locals s) g (y_kernel s) (y_file s).
Definition put_world s (w : World) : system K :=
  System (y_cfg s) (y_eng s) (y_down s) (y_up s) w (y_info s) (y_ctl s) (y_locals s) (y_gui s) (y_kernel s) (y_file s).
Definition put_tel s (t : Telemetry) : system K := put_world s (set_tel (y_world s) t).
Definition tel s : Telemetry := w_tel (y_world s).
Definition side (up : bool) s : Side := if up then y_up s else y_down s.
Definition put_side (up : bool) s (d : Side) : system K :=
  System (y_cfg s) (y_eng s) (if up then y_down s else d) (if up then d else y_up s) (y_world s) (y_info s)
    (y_ctl s) (y_locals s) (y_gui s) (y_kernel s) (y_file s).

(** * The data plane *)
(** The worker of a direction: core 2 sends to the LAN, core 3 to the WAN. *)
Definition worker_cfg (up : bool) s : WorkerCfg :=
  MkCfg (if up then fd_wan else fd_lan) (if up then 3 else 2) app_events (e_plane (y_eng s))
    (c_enable_nat (y_cfg s)) (c_large_packet_threshold (y_cfg s)).
Definition consumer (up : bool) s : DP :=
  MkDP (sd_batch (side up s)) (Some (e_nat (y_eng s))) (Some (e_dhcp (y_eng s))) (Some (sd_shaper (side up s))) (y_world s).
Definition put_consumer (up : bool) s (d : DP) : system K :=
  let e := y_eng s in
  put_world (set_eng (put_side up s (MkSide (d_stats d) (default (sd_shaper (side up s)) (d_shaper d)) (sd_queue (side up s))))
      (MkEngines (default (e_nat e) (d_nat d)) (default (e_dhcp e) (d_dhcp d)) (e_netcfg e) (e_plane e)))
    (d_world d).

(** The receive thread hands over a frame; the processing thread takes one; the shaper
    sends; the receive thread's poll fails. *)
Definition data_rx (up : bool) (raw : list Z) s : system K :=
  let '(q, t) := rx_frame (if up then 3 else 2) raw (sd_queue (side up s)) (tel s) in
  put_tel (put_side up s (MkSide (sd_batch (side up s)) (sd_shaper (side up s)) q)) t.
Definition data_frame (up : bool) s : option (system K) :=
  match SpscRingBuffer.pop RxFrameCopy0 FRAME_QUEUE (sd_queue (side up s)) with
  | (None, _) => Some s
  | (Some copy, q) =>
      let s := put_side up s (MkSide (sd_batch (side up s)) (sd_shaper (side up s)) q) in
      d ← proc_frame (worker_cfg up s) copy (consumer up s); Some (put_consumer up s d)
  end.
Definition data_drain (up : bool) s : option (system K) :=
  d ← drain_shaper (worker_cfg up s) (consumer up s); Some (put_consumer up s d).
Definition data_rx_fatal s : system K := put_tel s (notify_rx_poll_fatal 2 (tel s)).

(** * The services' work *)
(** The files the telemetry service reads. *)
Record ProcFiles := MkFiles {
  f_thermal : option (list Z); f_stat : option (list Z); f_nproc : Z;
  f_host : option (list Z); f_version : option (list Z); f_uptime : option (list Z);
  f_meminfo : option (list Z); f_arp : option (list Z) }.

Definition telemetry_tick (f : ProcFiles) s : system K :=
  let info := collector_tick1Hz (f_thermal f) (f_stat f) (f_nproc f) (y_info s) in
  let l := y_locals s in
  let tick5 := u64 (t_tick5 l + 1) in
  let info := if tick5 mod 5 =? 0
              then collector_tick5s (f_host f) (f_version f) (f_uptime f) (f_meminfo f) (f_arp f) info else info in
  let pe := raw_socket_poll_errors (tel s) in
  let l := if negb (pe =? t_prev_pe l) && negb (pe =? 0)
           then MkLocals tick5 pe (t_printed l ++ [pe]) (h_tick5 l)
           else MkLocals tick5 (t_prev_pe l) (t_printed l) (h_tick5 l) in
  System (y_cfg s) (y_eng s) (y_down s) (y_up s) (y_world s) info (y_ctl s) l (y_gui s) (y_kernel s) (y_file s).

Definition l2_tick (route arp_file : option (list Z)) s : option (system K) :=
  let e := y_eng s in
  plane ← refresh_l2 kern (y_cfg s) (y_kernel s) route arp_file (e_plane e);
  Some (set_eng s (MkEngines (e_nat e) (e_dhcp e) (e_netcfg e) plane)).

Definition wan_tick s : system K :=
  let e := y_eng s in
  set_eng s (MkEngines (wan_tracker_tick5s kern (y_cfg s) (e_nat e) (y_kernel s)) (e_dhcp e) (e_netcfg e) (e_plane e)).

Definition dhcp_tick s : option (system K) :=
  let e := y_eng s in
  '(dhcp, w) ← DhcpEngine.process_background_tasks fd_lan (e_dhcp e) (y_world s);
  let l := y_locals s in
  let tick5 := u64 (h_tick5 l + 1) in
  let dhcp := if tick5 mod 5 =? 0 then refresh_dhcp_router kern (y_cfg s) dhcp (y_kernel s) else dhcp in
  Some (System (y_cfg s) (MkEngines (e_nat e) dhcp (e_netcfg e) (e_plane e)) (y_down s) (y_up s) w (y_info s)
          (y_ctl s) (MkLocals (t_tick5 l) (t_prev_pe l) (t_printed l) tick5) (y_gui s) (y_kernel s) (y_file s)).

(** The QoS controller also stores [ENABLE_ACCELERATION] in the configuration. *)
Definition set_acceleration (c : Config) (b : bool) : Config :=
  let '(MkConfig wan lan rip app pre _ thr nat ps pe ls) := c in MkConfig wan lan rip app pre b thr nat ps pe ls.
Definition qos_tick s : system K :=
  let c := y_ctl s in
  let '(t, q) := qos_tick1Hz (tel s)
    (MkQosC (c_enable_acceleration (y_cfg s)) (ct_base_dl c) (ct_base_ul c)
       (Some (sd_shaper (y_down s))) (Some (sd_shaper (y_up s)))) in
  let shaped d sh := MkSide (sd_batch d) (default (sd_shaper d) sh) (sd_queue d) in
  System (set_acceleration (y_cfg s) (qc_accel q)) (y_eng s)
    (shaped (y_down s) (qc_shaper_dl q)) (shaped (y_up s) (qc_shaper_ul q))
    (set_tel (y_world s) t) (y_info s)
    (MkControl (ct_running c) (ct_stop_efd c) (ct_cfg_efd c) (ct_threads c) (qc_base_dl q) (qc_base_ul q))
    (y_locals s) (y_gui s) (y_kernel s) (y_file s).

Definition nat_tick s : system K :=
  let e := y_eng s in set_eng s (MkEngines (NatEngine.tick (e_nat e)) (e_dhcp e) (e_netcfg e) (e_plane e)).

(** [applyDhcpConfig] with the callback [App::start] installs. *)
Definition apply_dhcp s : system K :=
  let e := y_eng s in
  let '(dhcp, n, k, saved) := applyDhcpConfig kern (y_cfg s) (e_dhcp e) (e_netcfg e) (y_kernel s) in
  System (y_cfg s) (MkEngines (e_nat e) dhcp n (e_plane e)) (y_down s) (y_up s) (y_world s) (y_info s)
    (y_ctl s) (y_locals s) (y_gui s) k (match saved with Some f => Some f | None => y_file s end).

(** * The loops *)
(** The services in the order of [service_threads_], with what each reads on a tick. *)
Inductive service :=
  | SvcTelemetry (f : ProcFiles) | SvcL2 (route arp_file : option (list Z)) | SvcWan | SvcDhcp | SvcQos | SvcNat.
Definition svc_index (v : service) : nat :=
  match v with SvcTelemetry _ => 0 | SvcL2 _ _ => 1 | SvcWan => 2 | SvcDhcp => 3 | SvcQos => 4 | SvcNat => 5 end%nat.
Definition svc_tick (v : service) s : option (system K) :=
  match v with
  | SvcTelemetry f => Some (telemetry_tick f s)
  | SvcL2 route arp_file => l2_tick route arp_file s
  | SvcWan => Some (wan_tick s)
  | SvcDhcp => dhcp_tick s
  | SvcQos => Some (qos_tick s)
  | SvcNat => Some (nat_tick s)
  end.

Definition thread s (i : nat) : svc_state := nth i (ct_threads (y_ctl s)) Ended.
Definition set_thread s (i : nat) (st : svc_state) : system K :=
  let c := y_ctl s in
  set_ctl s (MkControl (ct_running c) (ct_stop_efd c) (ct_cfg_efd c) (<[i := st]> (ct_threads c)) (ct_base_dl c) (ct_base_ul c)).
Definition set_stop_efd s (n : Z) : system K :=
  let c := y_ctl s in
  set_ctl s (MkControl (ct_running c) n (ct_cfg_efd c) (ct_threads c) (ct_base_dl c) (ct_base_ul c)).
Definition set_cfg_efd s (n : Z) : system K :=
  let c := y_ctl s in
  set_ctl s (MkControl (ct_running c) (ct_stop_efd c) n (ct_threads c) (ct_base_dl c) (ct_base_ul c)).

(** [while (running_.load())] of thread [i]. *)
Definition loop_top (i : nat) s : option (system K) :=
  if bool_decide (thread s i = AtTop)
  then Some (set_thread s i (if ct_running (y_ctl s) then Waiting else Ended)) else None.

(** The rest of a service's loop body. *)
Definition service_wakes (v : service) (r : poll_reply) s : option (system K) :=
  let i := svc_index v in
  if negb (bool_decide (thread s i = Waiting)) || negb (poll_can r (ct_stop_efd (y_ctl s))) then None
  else
    let '(res, efd) := wait_watchdog_period r (ct_stop_efd (y_ctl s)) in
    let s := set_stop_efd s efd in
    if negb (res =? 0) then Some (set_thread s i Ended)
    else if negb (ct_running (y_ctl s)) then Some (set_thread s i Ended)
    else s' ← svc_tick v s; Some (set_thread s' i AtTop).

(** The control event thread polls the configuration eventfd and the stop eventfd without
    a timeout; the stop eventfd has precedence. *)
Definition control_wakes (failed : option bool) s : option (system K) :=
  let i := WATCHDOG_SERVICE_COUNT in
  let c := y_ctl s in
  if negb (bool_decide (thread s i = Waiting)) then None
  else match failed with
       | Some eintr => Some (set_thread s i (if eintr then AtTop else Ended))
       | None =>
           if 0 <? ct_stop_efd c then Some (set_thread (set_stop_efd s (ct_stop_efd c - 1)) i Ended)
           else if 0 <? ct_cfg_efd c then
             let s := set_cfg_efd s 0 in
             Some (set_thread (if ct_running c then apply_dhcp s else s) i AtTop)
           else None
       end.

(** [request_dhcp_config_apply], and [stop] up to the joins. *)
Definition request_dhcp_config_apply s : system K := set_cfg_efd s (ct_cfg_efd (y_ctl s) + 1).
Definition wake_watchdog s : system K :=
  set_stop_efd s (ct_stop_efd (y_ctl s) + Z.of_nat (WATCHDOG_SERVICE_COUNT + 1)).
Definition control_stop s : system K :=
  let c := y_ctl s in
  wake_watchdog (set_ctl s (MkControl false (ct_stop_efd c) (ct_cfg_efd c) (ct_threads c) (ct_base_dl c) (ct_base_ul c))).

(** * The GUI's handlers *)
Definition gui_page s (p : QosPage) : system K := set_gui s (MkGui p (g_dialog (y_gui s))).
Definition gui_switch (lb inside : bool) s : system K :=
  let '(p, t) := switch_released lb inside (g_page (y_gui s)) (tel s) in put_tel (gui_page s p) t.
Definition gui_apply_bw s : system K := put_tel s (on_apply_global_bw qt (g_page (y_gui s)) (tel s)).
Definition gui_dialog s (d : option DhcpDialog) : system K := set_gui s (MkGui (g_page (y_gui s)) d).
(** Apply: store the pool, ask the control plane to apply it, close. *)
Definition gui_apply_pool s : system K :=
  match g_dialog (y_gui s) with
  | Some d =>
      match on_apply qt d (y_cfg s) with
      | Some c =>
          gui_dialog (request_dhcp_config_apply
            (System c (y_eng s) (y_down s) (y_up s) (y_world s) (y_info s) (y_ctl s) (y_locals s) (y_gui s)
               (y_kernel s) (y_file s))) None
      | None => s
      end
  | None => s
  end.

(** * Events *)
Inductive event :=
  | EvRx (up : bool) (raw : list Z) | EvFrame (up : bool) | EvDrain (up : bool) | EvRxFatal
  | EvTop (i : nat) | EvService (v : service) (r : poll_reply) | EvControl (failed : option bool)
  | EvRefresh (route arp_file : option (list Z))     (* the refresh at the end of [App::start] *)
  | EvStop
  | EvPageEnter | EvQosTap (t : qos_tap) | EvSwitch (lb inside : bool) | EvApplyBw
  | EvDialogOpen | EvDialogTap (t : dhcp_tap) | EvDialogApply | EvDialogCancel
  | EvKernel (k : K) | EvReplies (rs : list SendReply).

Definition sys_step (e : event) s : option (system K) :=
  match e with
  | EvRx up raw => Some (data_rx up raw s)
  | EvFrame up => data_frame up s
  | EvDrain up => data_drain up s
  | EvRxFatal => Some (data_rx_fatal s)
  | EvTop i => loop_top i s
  | EvService v r => service_wakes v r s
  | EvControl failed => control_wakes failed s
  | EvRefresh route arp_file => l2_tick route arp_file s
  | EvStop => Some (control_stop s)
  | EvPageEnter => Some (gui_page s (qos_refresh_from_backend qt (tel s)))
  | EvQosTap t => Some (gui_page s (qos_page_event qt (g_page (y_gui s)) t))
  | EvSwitch lb inside => Some (gui_switch lb inside s)
  | EvApplyBw => Some (gui_apply_bw s)
  | EvDialogOpen => Some (gui_dialog s (Some (dhcp_dialog_open (y_cfg s))))
  | EvDialogTap t => Some (gui_dialog s (option_map (fun d => dhcp_dialog_event qt d t) (g_dialog (y_gui s))))
  | EvDialogApply => Some (gui_apply_pool s)
  | EvDialogCancel => Some (gui_dialog s None)
  | EvKernel k =>
      Some (System (y_cfg s) (y_eng s) (y_down s) (y_up s) (y_world s) (y_info s) (y_ctl s) (y_locals s) (y_gui s) k (y_file s))
  | EvReplies rs =>
      let w := y_world s in
      Some (put_world s (MkWorld (w_clock w) (w_clk w) (w_replies w ++ rs) (w_wire w) (w_tel w)))
  end.

Fixpoint sys_run (es : list event) s : option (system K) :=
  match es with
  | [] => Some s
  | e :: es' => match sys_step e s with Some s' => sys_run es' s' | None => None end
  end.

(** * Start *)
(** The application constructed from [c], initialised and started, up to
    [ControlPlane::start]; [None] when [init] fails. *)
Definition boot (c : Config) (lan_mac : option (list Z)) (wan_raw lan_raw : bool) (k : K) (w : World) : option (system K) :=
  match app_init kern c wan_raw lan_raw (app_make c lan_mac) k with
  | (inr _, a, k') =>
      let '(t, sdl, sul, w') := app_start (c_enable_acceleration c) (w_tel w) w in
      Some (System c (MkEngines (a_nat a) (a_dhcp a) (a_netcfg a) ForwardingState0)
              (MkSide BatchStats0 sdl SpscRingBuffer.empty) (MkSide BatchStats0 sul SpscRingBuffer.empty)
              (set_tel w' t) CollectorState0
              (MkControl true 0 0 (replicate (WATCHDOG_SERVICE_COUNT + 1) AtTop)
                 (qos_global_dl_mbps_pending (qos t)) (qos_global_ul_mbps_pending (qos t)))
              (MkLocals 0 0 [] 0) (MkGui (qos_refresh_from_backend qt (w_tel w)) None) k' None)
  | (inl _, _, _) => None
  end.
End Program.
