(* ===== verification/System.v ===== *)
(** The running program as a whole: every component's invariant holds in every reachable
    state, whatever the interleaving of packets, services, GUI actions and the kernel. *)
From Stdlib Require Import ZArith Lia Ascii String QArith.
From stdpp Require Import base numbers strings list.
From S2P Require Import Prelude Text Types_util Headers_util Processor Telemetry TxFrame Rings NatEngine NatTable NatProofs NatReply.
From S2P Require Import DhcpEngine DhcpProofs Double Scheduler Config Network_util NetworkConfig ProcNet ForwardingState Forward.
From S2P Require Import StopTokens QosService Descriptors Collector HostInfo NumPad Dashboard App ControlPlane.
#[local] Open Scope Z_scope.
#[local] Open Scope list_scope.

(** * The rate a shaper runs at *)
(** Bytes per second for a limit in Mb/s, and the rate in force at the next refill. *)
Definition rate_of (limit : Q) : Q := ddiv (dmul limit 1000000) 8.
Definition bucket_rate (b : TokenBucket.t) : Q :=
  if Qle_bool 0 (TokenBucket.requested_limit b) then rate_of (TokenBucket.requested_limit b)
  else TokenBucket.rate_bytes_per_sec b.
Definition shaper_rate (s : Shaper.t) : Q := bucket_rate (Shaper.bucket s).

Lemma refill_rate b w : bucket_rate (fst (TokenBucket.refill b w)) = bucket_rate b.
Proof.
  unfold TokenBucket.refill, bucket_rate at 2. destruct (Qle_bool 0 (TokenBucket.requested_limit b)); cbn;
    destruct (Qlt_le_dec _ _); reflexivity.
Qed.
Lemma consume_rate n b w : bucket_rate (snd (fst (TokenBucket.try_consume n b w))) = bucket_rate b.
Proof.
  rewrite <- (refill_rate b w). unfold TokenBucket.try_consume.
  destruct (TokenBucket.refill b w) as [b1 w1]. by case_if.
Qed.
Lemma result_rate res n s w : shaper_rate (fst (Shaper.handle_result res n s w)) = shaper_rate s.
Proof. by destruct res. Qed.
Lemma enqueue_rate pkt s w : shaper_rate (fst (Shaper.enqueue_normal pkt s w)) = shaper_rate s.
Proof.
  unfold Shaper.enqueue_normal. destruct (ZeroAllocRingBuffer.push _ _ _) as [[] q]; reflexivity.
Qed.

(** Parts of the telemetry a drain or a send leaves alone. *)
Definition settings (t : Telemetry) : ModeState * QosState := (mode t, Telemetry.qos t).

Lemma hardware_send_tel fd pkt w res w' : try_hardware_send fd pkt w = Some (res, w') -> w_tel w' = w_tel w.
Proof.
  unfold try_hardware_send. destruct (try_send_packet_nonblocking fd pkt w) as [[r w1]|] eqn:E; [|done].
  destruct (try_send_frame _ _ _ _ _ E) as (_ & _ & Ht & _). destruct r; intros [= _ <-]; exact Ht.
Qed.

Lemma process_loop_keeps f fd s w ev s' w' ev' : shaper_ok s ->
  Shaper.process_loop f fd s w ev = Some (s', w', ev') ->
  shaper_rate s' = shaper_rate s /\ core_metrics (w_tel w') = core_metrics (w_tel w) /\
  settings (w_tel w') = settings (w_tel w) /\ refused (w_tel w') = refused (w_tel w).
Proof.
  revert s w ev. induction f as [|f IH]; intros s w ev Hs; [done|]. intros Hrun. pose proof Hrun as Hr.
  apply process_loop_round in Hr; [|done].
  destruct Hr as [(_ & -> & -> & _)|(pkt & rest & ok & b & w1 & Hq & Hl & Hc & Hr)]; [done|].
  pose proof (consume_rate (Z.of_nat (length pkt)) (Shaper.bucket s) w) as Hrate.
  destruct (try_consume_frame _ _ _ _ _ _ Hc) as (_ & _ & Ht & _). rewrite Hc in Hrate. cbn [fst snd] in Hrate.
  pose proof (try_consume_ok (Z.of_nat (length pkt)) (Shaper.bucket s) w ltac:(lia) ltac:(apply Hs)) as Hb.
  rewrite Hc in Hb. cbn [fst snd] in Hb. pose proof (shaper_ok_bucket s b Hs Hb) as Hs1.
  destruct Hr as [(_ & -> & -> & _)|(res & w2 & s2 & w3 & _ & Hsend & Hh & Hr)]; [by rewrite Ht|].
  apply hardware_send_tel in Hsend. set (s1 := Shaper.Mk (Shaper.normal_queue s) b) in *.
  pose proof (result_rate res (u16 (Z.of_nat (length pkt))) s1 w2) as Hrr. rewrite Hh in Hrr. cbn [fst] in Hrr.
  assert (core_metrics (w_tel w3) = core_metrics (w_tel w) /\ settings (w_tel w3) = settings (w_tel w) /\
    refused (w_tel w3) = refused (w_tel w)) as (H1 & H2 & H2').
  { rewrite <- Ht, <- Hsend. destruct res; cbn in Hh; injection Hh as _ <-; done. }
  assert (shaper_rate s2 = shaper_rate s) as H3 by (rewrite Hrr; exact Hrate).
  destruct Hr as [(_ & -> & -> & _)|(Hres & Hrec)]; [done|].
  destruct (handle_result_spec _ _ _ _ _ _ _ Hs1 Hq Hh) as (Hs2 & _).
  destruct (IH _ _ _ Hs2 Hrec) as (E1 & E2 & E3 & E4). split_and!; congruence.
Qed.

(** * What processing a frame keeps *)
(** The invariant of the objects a worker points to: [wan] is the NAT engine's address,
    [set] the settings, [rate] the shaper's rate, [n] bounds the packets in the batch. *)
Record dp_inv (wan : Z) (set : ModeState * QosState) (rate : Q) (n : Z) (d : DP) : Prop := {
  dv_nat : forall e, d_nat d = Some e -> any_inv e /\ NatEngine.wan_ip_snapshot e = wan;
  dv_dhcp : forall e, d_dhcp d = Some e -> lease_inv e;
  dv_ok : dp_ok d;
  dv_rate : forall s, d_shaper d = Some s -> shaper_rate s = rate;
  dv_set : settings (w_tel (d_world d)) = set;
  dv_batch : 0 <= b_pkts (d_stats d) <= n }.

Section Frame.
Context (cf : WorkerCfg) (Hev : cf_events cf = app_events) (Hcore : 0 <= cf_core cf < 4).
Context (wan : Z) (set : ModeState * QosState) (rate : Q).

(** A step of the pipeline counts a packet only when it ends the pipeline. *)
Definition step_keeps (step : PipelineStep) : Prop := forall d pkt h d' pkt',
  dp_inv wan set rate 31 d -> step cf d pkt = Some (h, d', pkt') ->
  dp_inv wan set rate (if h then 32 else 31) d'.

Lemma dp_inv_weaken n m d : n <= m -> dp_inv wan set rate n d -> dp_inv wan set rate m d.
Proof. intros Hle []. split; try done. lia. Qed.

Lemma dp_inv_nat n d e : dp_inv wan set rate n d -> any_inv e -> NatEngine.wan_ip_snapshot e = wan ->
  dp_inv wan set rate n (set_nat d e).
Proof. intros [H1 H2 [] H4 H5 H6] He Hw. split; try done. by intros ? [= <-]. Qed.

Lemma intercept_keeps : step_keeps step_dhcp_interceptor.
Proof.
  intros d pkt h d' pkt' Hi. unfold step_dhcp_interceptor. case_if; [|by intros [= <- <- <-]].
  intros [= <- <- <-]. apply (dp_inv_weaken 31); [lia|]. destruct (d_dhcp d) as [e|] eqn:Ed; [|done].
  destruct Hi as [H1 H2 [] H4 H5 H6]. split; try done. intros ? [= <-].
  by destruct (H2 e Ed).
Qed.
Lemma downstream_keeps : step_keeps step_nat_downstream.
Proof.
  intros d pkt h d' pkt' Hi. unfold step_nat_downstream. case_if; [by intros [= <- <- <-]|].
  destruct (d_nat d) as [e|] eqn:En; [|by intros [= <- <- <-]].
  destruct (dv_nat _ _ _ _ _ Hi e En) as [Hn Hw].
  pose proof (inbound_inv _ _ e pkt Hn) as Hn'. destruct (inbound_env e pkt Hn) as [Hw' _].
  destruct (NatEngine.process_inbound e pkt) as [[r e'] p']. intros [= <- <- <-].
  apply dp_inv_nat; [done|exact Hn'|]. cbn in Hw'. unfold NatEngine.wan_ip_snapshot in *. congruence.
Qed.
Lemma upstream_keeps : step_keeps step_nat_upstream.
Proof.
  intros d pkt h d' pkt' Hi. unfold step_nat_upstream. case_if; [by intros [= <- <- <-]|].
  destruct (d_nat d) as [e|] eqn:En; [|by intros [= <- <- <-]].
  destruct (dv_nat _ _ _ _ _ Hi e En) as [Hn Hw].
  pose proof (outbound_inv _ _ e pkt Hn ltac:(done) ltac:(done)) as Hn'. destruct (outbound_env e pkt Hn) as [Hw' _].
  destruct (NatEngine.process_outbound e pkt) as [[r e'] p']. intros [= <- <- <-].
  apply dp_inv_nat; [done|exact Hn'|]. cbn in Hw'. unfold NatEngine.wan_ip_snapshot in *. congruence.
Qed.
Lemma rewrite_keeps : step_keeps step_eth_rewrite_wan_to_lan /\ step_keeps step_eth_rewrite_lan_to_wan.
Proof.
  split; intros d pkt h d' pkt' Hi; unfold step_eth_rewrite_wan_to_lan, step_eth_rewrite_lan_to_wan;
    intros E; repeat (case_match; simplify_eq); first [done | by apply (dp_inv_weaken 31)].
Qed.

(** A packet handed to the kernel or to the shaper. *)
Lemma send_keeps n d fd pkt p w' : (p < 2)%nat -> dp_inv wan set rate n d ->
  send_best_effort fd pkt (Z.to_nat (cf_core cf)) p (d_world d) = Some w' ->
  dp_inv wan set rate n (set_world d w').
Proof.
  intros Hp [H1 H2 [Ht Hb Hs] H4 H5 H6] Hsend.
  assert (Z.to_nat (cf_core cf) < 4)%nat as Hc by lia. destruct (send_ledger _ _ _ _ _ _ Ht Hc Hp Hsend) as (Ht' & _).
  split; [done|done|split; done|done| |done]. rewrite <- H5. unfold send_best_effort in Hsend.
  destruct (try_send_packet_nonblocking _ _ _) as [[r w1]|] eqn:E; [|done].
  destruct (try_send_frame _ _ _ _ _ E) as (_ & _ & Etel & _). cbn [d_world set_world].
  destruct r; injection Hsend as <-; cbn [w_tel set_tel]; rewrite Etel; done.
Qed.
Lemma shape_keeps n d s pkt s' w' : dp_inv wan set rate n d -> d_shaper d = Some s ->
  Shaper.enqueue_normal pkt s (d_world d) = (s', w') -> dp_inv wan set rate n (set_shaper d s' w').
Proof.
  intros [H1 H2 [Ht Hb (s0 & Hs & Hok)] H4 H5 H6] Es He. assert (s0 = s) as -> by congruence.
  destruct (enqueue_ledger _ _ _ _ _ Hok He) as (Hok' & Hcm & _).
  pose proof (enqueue_rate pkt s (d_world d)) as Hr. rewrite He in Hr. cbn [fst] in Hr.
  destruct (enqueue_normal_spec _ _ _ _ _ Hok He) as (_ & _ & _ & Ew).
  split; try done.
  - split; [|done|by exists s']. cbn. unfold tel_wf. by rewrite Hcm.
  - intros ? [= <-]. rewrite Hr. by apply H4.
  - rewrite <- H5, Ew. by destruct (accepts s pkt).
Qed.

Lemma routing_keeps : step_keeps step_qos_routing.
Proof.
  intros d pkt h d' pkt' Hi. unfold step_qos_routing. cbv zeta. rewrite Hev.
  set (prio := HeuristicProcessor.process _ pkt). pose proof (prio_index_lt prio) as Hpi.
  set (d1 := on_tel _ _). assert (dp_inv wan set rate 32 d1) as Hi1.
  { subst d1. destruct Hi as [H1 H2 [Ht Hb Hs] H4 H5 H6]. split; try done.
    - split; [done|by apply count_packet_ok|done].
    - cbn [d_stats on_tel set_world set_stats b_pkts count_packet]. unfold u64. rewrite Z.mod_small; lia. }
  clearbody d1. set (m := if effective_bridge_mode _ then 1%nat else 0%nat).
  destruct (routes m (prio_index prio) cf (raw_span pkt) (prio_index prio) d1) as [d2|] eqn:E; [|done].
  cbn. intros [= <- <- <-].
  assert (fast_path_handler cf (raw_span pkt) (prio_index prio) d1 = Some d2 \/
          shaper_handler cf (raw_span pkt) (prio_index prio) d1 = Some d2) as [Hf|Hf].
  { unfold routes in E. destruct m as [|m]; [|by left]. destruct (prio_index prio) as [|[|]]; auto. }
  - unfold fast_path_handler in Hf. destruct (send_best_effort _ _ _ _ _) as [w'|] eqn:Es; [|done].
    cbn in Hf. injection Hf as <-. by eapply send_keeps.
  - unfold shaper_handler in Hf. destruct (d_shaper d1) as [s|] eqn:Es; [|by injection Hf as <-].
    destruct (Shaper.enqueue_normal _ s _) as [s' w'] eqn:Eq. injection Hf as <-. by eapply shape_keeps.
Qed.

Lemma run_steps_keep steps : Forall step_keeps steps -> step_keeps (run_steps steps).
Proof.
  induction 1 as [|step steps Hs _ IH]; intros d pkt h d' pkt' Hi; cbn [run_steps]; [by intros [= <- <- <-]|].
  destruct (step cf d pkt) as [[[[] d1] p1]|] eqn:E; [| |done].
  - intros [= <- <- <-]. by eapply Hs in E.
  - apply IH. by eapply Hs in E.
Qed.
Lemma pipeline_keeps_inv : step_keeps (run_steps (pipeline (cf_core cf))).
Proof.
  destruct rewrite_keeps as [H1 H2]. apply run_steps_keep. unfold pipeline.
  case_if; rewrite !Forall_cons, Forall_nil;
    auto 10 using intercept_keeps, downstream_keeps, upstream_keeps, routing_keeps.
Qed.

(** At most 31 packets are pending between two frames: the batch is committed at 32. *)
Lemma proc_frame_inv copy d d' : dp_inv wan set rate 31 d -> proc_frame cf copy d = Some d' -> dp_inv wan set rate 31 d'.
Proof.
  intros Hi. unfold proc_frame. rewrite Hev. set (d0 := on_tel d _).
  assert (d0 = d) as -> by (subst d0; clear; by destruct d as [? ? ? ? []]).
  unfold on_packet_event. destruct (run_steps _ cf d _) as [[[h d1] p1]|] eqn:E; [|done]. cbn. intros [= <-].
  eapply pipeline_keeps_inv in E; [|done].
  assert (dp_inv wan set rate 32 d1) as Hi1 by (destruct h; [done|by apply (dp_inv_weaken 31)]).
  rewrite Hev. destruct Hi1 as [H1 H2 Hok H4 H5 H6]. destruct (Z.eqb_spec (Z.land (b_pkts (d_stats d1)) 31) 0) as [Hz|Hz].
  - destruct (commit_keeps d1 (cf_core cf) _ eq_refl Hcore Hok) as (Hok' & _). split; [done|done|done|done| |cbn; lia].
    rewrite <- H5.
    change (settings (commit_batch (w_tel (d_world d1)) (d_stats d1) (cf_core cf)) = settings (w_tel (d_world d1))).
    unfold commit_batch. by case_if.
  - split; try done. assert (b_pkts (d_stats d1) <> 32) by (intros Eq; rewrite Eq in Hz; done). lia.
Qed.

Lemma drain_inv d d' : dp_inv wan set rate 31 d -> drain_shaper cf d = Some d' -> dp_inv wan set rate 31 d'.
Proof.
  intros [H1 H2 [Ht Hb (s & Es & Hs)] H4 H5 H6]. unfold drain_shaper. rewrite Es.
  destruct (Shaper.process_queue _ s _) as [[[s' w'] ev]|] eqn:E; [|done]. cbn [mbind option_bind]. intros [= <-].
  destruct (process_loop_fifo _ _ _ _ _ _ _ _ Hs E) as (Hs' & _).
  destruct (process_loop_keeps _ _ _ _ _ _ _ _ Hs E) as (Hr & Hcm & Hset & _).
  assert (forall t, fold_left (fun tel e => CallbackRegistry.dispatch_tx_result (cf_events cf) (fst e)
            (Z.of_nat (length (snd e))) tel) ev t = t) as Hrep.
  { rewrite Hev. clear. induction ev as [|e ev IH]; intros t; [done|]. cbn. apply IH. }
  split; try done.
  - split; [|done|by exists s']. cbn. rewrite Hrep. unfold tel_wf. by rewrite Hcm.
  - intros ? [= <-]. rewrite Hr. by apply H4.
  - cbn. rewrite Hrep, Hset. exact H5.
Qed.
End Frame.

(** * The invariant *)
(** The translation address: usable when NAT is on, zero when it is off. *)
Definition wan_ok (c : Config) (a : Z) : Prop :=
  if c_enable_nat c then is_u32 a /\ a <> 0 /\ Z.shiftr (ntohl a) 24 <> 127 else a = 0.
(** Both buffers of the forwarding plane hold hardware addresses of six bytes, what the
    Ethernet rewrite relies on. *)
Definition plane_ok (st : ForwardingState) : Prop := fwd_ok st /\ Forall snap_macs_ok (snap_ st).
Record eng_inv (c : Config) (e : Engines) : Prop := {
  ei_nat : any_inv (e_nat e);
  ei_wan : wan_ok c (NatEngine.wan_ip_snapshot (e_nat e));
  ei_dhcp : lease_inv (e_dhcp e);
  ei_plane : plane_ok (e_plane e) }.
(** A direction: its shaper runs at the effective limit, fewer than 32 packets are pending. *)
Record side_inv (limit : Q) (d : Side) : Prop := {
  di_shaper : shaper_ok (sd_shaper d);
  di_rate : shaper_rate (sd_shaper d) = rate_of limit;
  di_prio : length (b_prio_pkts (sd_batch d)) = 2%nat /\ length (b_prio_bytes (sd_batch d)) = 2%nat;
  di_pending : 0 <= b_pkts (sd_batch d) <= 31;
  di_queue : SpscRingBuffer.wf FRAME_QUEUE (sd_queue d) }.
(** The mode in force is one of the two, is the one that would be saved, and is the one
    asked for unless a change is on its way. *)
Definition mode_inv (c : Config) (m : ModeState) : Prop :=
  effective_bridge_mode m = negb (effective_acceleration m) /\
  c_enable_acceleration c = effective_acceleration m /\
  (mode_config_dirty m = false -> acceleration_pending m = effective_acceleration m).
(** Likewise the limits, which stay within the bounds of the page. *)
Record limits_inv (q : QosState) (dl ul : Q) : Prop := {
  qi_pending : limit_ok (qos_global_dl_mbps_pending q) /\ limit_ok (qos_global_ul_mbps_pending q);
  qi_effective : limit_ok (effective_qos_global_dl_mbps q) /\ limit_ok (effective_qos_global_ul_mbps q);
  qi_base : dl = effective_qos_global_dl_mbps q /\ ul = effective_qos_global_ul_mbps q;
  qi_clean : qos_global_bw_dirty q = false ->
    effective_qos_global_dl_mbps q = qos_global_dl_mbps_pending q /\
    effective_qos_global_ul_mbps q = qos_global_ul_mbps_pending q }.
Definition cpu_lengths (c : CpuState) : Prop :=
  length (c_total c) = 4%nat /\ length (c_idle c) = 4%nat /\ length (c_pct c) = 4%nat.
Definition info_inv (i : CollectorState) : Prop :=
  devices_ok (cs_devices i) /\ cpu_lengths (cs_cpu i).
Definition control_inv (c : Control) : Prop :=
  length (ct_threads c) = (WATCHDOG_SERVICE_COUNT + 1)%nat /\ 0 <= ct_stop_efd c /\
  (ct_running c = true -> ct_stop_efd c = 0).

Record sys_inv {K} (s : system K) : Prop := {
  si_eng : eng_inv (y_cfg s) (y_eng s);
  si_down : side_inv (effective_qos_global_dl_mbps (Telemetry.qos (tel s))) (y_down s);
  si_up : side_inv (effective_qos_global_ul_mbps (Telemetry.qos (tel s))) (y_up s);
  si_tel : tel_wf (tel s);
  si_mode : mode_inv (y_cfg s) (mode (tel s));
  si_limits : limits_inv (Telemetry.qos (tel s)) (ct_base_dl (y_ctl s)) (ct_base_ul (y_ctl s));
  si_info : info_inv (y_info s);
  si_control : control_inv (y_ctl s);
  si_dialog : match g_dialog (y_gui s) with Some d => dialog_ok d | None => True end }.

(** ** Parts a step changes *)
Section Steps.
Context {K : Type} (kern : Kernel K) (qt : Qt) (fd_wan fd_lan : Z).
(** [SIOCGIFHWADDR] answers with the bytes of a [sockaddr]. *)
Context (Hhw : forall k i b m, siocgifhwaddr kern i k = Some (b, m) -> (6 <= length m)%nat /\ bytes_ok m).
Implicit Types s : system K.

(** The effective limit of a direction. *)
Definition limit_of (up : bool) (q : QosState) : Q :=
  if up then effective_qos_global_ul_mbps q else effective_qos_global_dl_mbps q.
Lemma inv_side up s : sys_inv s -> side_inv (limit_of up (Telemetry.qos (tel s))) (side up s).
Proof. intros []. by destruct up. Qed.

Lemma put_side_inv up s d : sys_inv s -> side_inv (limit_of up (Telemetry.qos (tel s))) d -> sys_inv (put_side up s d).
Proof. intros [] Hd. destruct up; by split. Qed.
Lemma set_eng_inv s e : sys_inv s -> eng_inv (y_cfg s) e -> sys_inv (set_eng s e).
Proof. intros [] He. by split. Qed.
Lemma set_ctl_inv s c : sys_inv s -> control_inv c -> ct_base_dl c = ct_base_dl (y_ctl s) ->
  ct_base_ul c = ct_base_ul (y_ctl s) -> sys_inv (set_ctl s c).
Proof.
  intros [H1 H2 H3 H4 H5 H6 H7 H8 H9] Hc E1 E2. refine (Build_sys_inv K (set_ctl s c) H1 H2 H3 H4 H5 _ H7 Hc H9).
  cbn [y_ctl set_ctl]. rewrite E1, E2. exact H6.
Qed.
(** Counters may change, settings not. *)
Lemma put_world_inv s w : sys_inv s -> tel_wf (w_tel w) -> settings (w_tel w) = settings (tel s) -> sys_inv (put_world s w).
Proof.
  intros [H1 H2 H3 H4 H5 H6 H7 H8 H9] Ht Hs. unfold settings in Hs. injection Hs as E1 E2.
  refine (Build_sys_inv K (put_world s w) H1 _ _ Ht _ _ H7 H8 H9); unfold tel in *; cbn [y_world put_world y_down y_up y_cfg y_ctl];
    rewrite ?E1, ?E2; assumption.
Qed.

(** ** The data plane *)
Lemma consumer_inv up s : sys_inv s ->
  dp_inv (NatEngine.wan_ip_snapshot (e_nat (y_eng s))) (settings (tel s))
    (rate_of (limit_of up (Telemetry.qos (tel s)))) 31 (consumer up s).
Proof.
  intros Hi. destruct (inv_side up s Hi) as [H1 H2 H3 H4 H5]. destruct Hi as [[] _ _ Ht _ _ _ _ _].
  split; try done; cbn; try (by intros ? [= <-]). split; [done|done|by eexists].
Qed.
Lemma put_consumer_inv up s d : sys_inv s ->
  dp_inv (NatEngine.wan_ip_snapshot (e_nat (y_eng s))) (settings (tel s))
    (rate_of (limit_of up (Telemetry.qos (tel s)))) 31 d -> sys_inv (put_consumer up s d).
Proof.
  intros Hi [H1 H2 [Ht Hb (sh & Es & Hs)] H4 H5 H6]. unfold put_consumer. rewrite Es. cbn [default].
  destruct (inv_side up s Hi) as [_ _ _ _ Hq]. pose proof (si_eng _ Hi) as [E1 E2 E3 E4].
  apply put_world_inv; [|done|by rewrite H5; destruct up]. apply set_eng_inv.
  - apply put_side_inv; [done|]. split; try done. by apply H4.
  - replace (y_cfg (put_side up s _)) with (y_cfg s) by (by destruct up). split; cbn; try done.
    + destruct (d_nat d) as [e|] eqn:E; [by apply H1|done].
    + destruct (d_nat d) as [e|] eqn:E; cbn; [by destruct (H1 e eq_refl) as [_ ->]|done].
    + destruct (d_dhcp d) as [e|] eqn:E; [by apply H2|done].
Qed.

Lemma worker_core up s : 0 <= cf_core (worker_cfg fd_wan fd_lan up s) < 4.
Proof. destruct up; cbn; lia. Qed.
Lemma frame_queue_pos : (1 < FRAME_QUEUE)%nat.
Proof. unfold FRAME_QUEUE. lia. Qed.

Lemma data_rx_inv up raw s : sys_inv s -> sys_inv (data_rx up raw s).
Proof.
  intros Hi. destruct (inv_side up s Hi) as [H1 H2 H3 H4 H5]. unfold data_rx, rx_frame.
  set (copy := rx_copy raw). clearbody copy. unfold SpscRingBuffer.push. pose proof frame_queue_pos as HF.
  pose proof (si_tel _ Hi) as Ht.
  assert (forall q t, SpscRingBuffer.wf FRAME_QUEUE q -> tel_wf t -> settings t = settings (tel s) ->
    sys_inv (put_tel (put_side up s (MkSide (sd_batch (side up s)) (sd_shaper (side up s)) q)) t)) as Hput.
  { intros q t Hq Htw Hset. apply put_world_inv; [|exact Htw|destruct up; exact Hset].
    apply put_side_inv; [exact Hi|]. exact (Build_side_inv _ (MkSide _ _ q) H1 H2 H3 H4 Hq). }
  case_if; apply Hput; [exact H5|by apply count_drop_wf|done| |exact Ht|done].
  destruct H5 as [Hh Htl]. split; cbn; [exact Hh|]. apply Nat.mod_upper_bound. lia.
Qed.
Lemma data_frame_inv up s s' : sys_inv s -> data_frame fd_wan fd_lan up s = Some s' -> sys_inv s'.
Proof.
  intros Hi. unfold data_frame. destruct (inv_side up s Hi) as [H1 H2 H3 H4 H5].
  destruct (SpscRingBuffer.spsc_pop_refines RxFrameCopy0 FRAME_QUEUE frame_queue_pos _ H5) as (Hwf & _).
  destruct (SpscRingBuffer.pop _ _ _) as [[copy|] q]; [|by intros [= <-]]. cbn [snd] in Hwf.
  set (s1 := put_side up s _). assert (sys_inv s1) as Hi1 by (apply put_side_inv; [done|by split]). clearbody s1.
  destruct (proc_frame _ copy _) as [d|] eqn:E; [|done]. cbn. intros [= <-].
  apply put_consumer_inv; [done|]. eapply proc_frame_inv; [|apply worker_core|by apply consumer_inv|exact E]. done.
Qed.
Lemma data_drain_inv up s s' : sys_inv s -> data_drain fd_wan fd_lan up s = Some s' -> sys_inv s'.
Proof.
  intros Hi. unfold data_drain. destruct (drain_shaper _ _) as [d|] eqn:E; [|done]. cbn. intros [= <-].
  apply put_consumer_inv; [done|]. eapply drain_inv; [|by apply consumer_inv|exact E]. done.
Qed.

(** ** The services *)
Lemma lease_dhcp_inv e : lease_inv e -> dhcp_inv (fun _ => True) e.
Proof.
  intros He. split; [done|]. apply Forall_forall. intros ip _. exists (MkPool ip ip 0). split; [done|].
  unfold in_range. cbn. lia.
Qed.
Lemma decide_tel msg q e w r e' w' : DhcpEngine.decide_response msg q e w = (r, e', w') -> w_tel w' = w_tel w.
Proof.
  unfold DhcpEngine.decide_response, DhcpEngine.find_or_assign_lease, DhcpEngine.commit_lease, now.
  intros E. repeat (case_match; simplify_eq); done.
Qed.
Lemma best_effort_tel fd pkt c p w w' : send_best_effort fd pkt c p w = Some w' -> tel_wf (w_tel w) ->
  tel_wf (w_tel w') /\ settings (w_tel w') = settings (w_tel w).
Proof.
  unfold send_best_effort. destruct (try_send_packet_nonblocking fd pkt w) as [[r w1]|] eqn:E; [|done].
  destruct (try_send_frame _ _ _ _ _ E) as (_ & _ & Etel & _).
  destruct r; intros [= <-]; cbn [w_tel set_tel]; rewrite Etel; [done|..]; intros Ht; (split; [by apply count_drop_wf|done]).
Qed.
Lemma background_tel n fd e w e' w' : DhcpEngine.background_loop n fd e w = Some (e', w') -> tel_wf (w_tel w) ->
  tel_wf (w_tel w') /\ settings (w_tel w') = settings (w_tel w).
Proof.
  revert e w. induction n as [|n IH]; intros e w; cbn [DhcpEngine.background_loop]; [by intros [= <- <-]|].
  destruct (SpscRingBuffer.pop _ _ _) as [[msg|] q]; [|by intros [= <- <-]].
  destruct (DhcpEngine.handle_dhcp_request _ _ _ _) as [[e1 w1]|] eqn:E; [|done]. intros Hr Ht.
  assert (tel_wf (w_tel w1) /\ settings (w_tel w1) = settings (w_tel w)) as [Ht1 Hs1].
  { unfold DhcpEngine.handle_dhcp_request in E. destruct (DhcpEngine.parse_request msg) as [rq|]; [|by simplify_eq].
    destruct (DhcpEngine.decide_response _ _ _ _) as [[[[ty yi]|] e2] w2] eqn:Ed; apply decide_tel in Ed.
    - unfold DhcpEngine.send_response in E. destruct (send_best_effort _ _ _ _ _) as [w3|] eqn:Es; [|done].
      injection E as _ <-. rewrite <- Ed. eapply best_effort_tel; [exact Es|by rewrite Ed].
    - injection E as _ <-. by rewrite Ed. }
  destruct (IH _ _ Hr Ht1) as [H1 H2]. split; [done|congruence].
Qed.

Lemma router_ip_inv a e : lease_inv e -> lease_inv (DhcpEngine.set_router_ip a e).
Proof. by intros []. Qed.
Lemma refresh_router_inv c e k : lease_inv e -> lease_inv (refresh_dhcp_router kern c e k).
Proof. intros He. unfold refresh_dhcp_router. repeat case_match; try done. by apply router_ip_inv. Qed.

Lemma dhcp_tick_inv s s' : sys_inv s -> dhcp_tick kern fd_lan s = Some s' -> sys_inv s'.
Proof.
  intros Hi. unfold dhcp_tick. pose proof (si_eng _ Hi) as [E1 E2 E3 E4].
  destruct (DhcpEngine.process_background_tasks _ _ _) as [[dhcp w]|] eqn:E; [|done]. cbn [mbind option_bind]. intros [= <-].
  pose proof (di_lease _ _ (background_inv _ _ _ _ _ _ _ (lease_dhcp_inv _ E3) E)) as Hl.
  destruct (background_tel _ _ _ _ _ _ E (si_tel _ Hi)) as [Ht Hset].
  destruct (put_world_inv s w Hi Ht Hset) as [_ H2 H3 H4 H5 H6 H7 H8 H9]. split; try done.
  split; try done. cbn. case_if; [by apply refresh_router_inv|done].
Qed.

Lemma cpu_loop_lengths p m : forall ci c, cpu_lengths c -> cpu_lengths (cpu_loop m ci p c).
Proof.
  induction m as [|m IH]; intros ci c Hc; cbn [cpu_loop]; [done|].
  destruct (after_strstr _ _) as [ln|]; [|done]. apply IH. destruct (scan_lus 7 ln); [|done].
  unfold cpu_lengths. cbn. by rewrite !length_insert.
Qed.
Lemma refresh_cpu_lengths stat n c : cpu_lengths c -> cpu_lengths (refreshCpu stat n c).
Proof. intros Hc. unfold refreshCpu. destruct (readSysfd 1024 stat); [done|]. by apply cpu_loop_lengths. Qed.
Lemma refresh_devices_ok arp t : devices_ok t -> devices_ok (refreshDevices arp t).
Proof.
  intros [Hl Hc]. destruct arp as [[|c content]|]; cbn [refreshDevices]; [done| |done].
  set (buf := take 4095 (c :: content)). destruct (device_loop _ _ _ _ _) as [[table dcnt] ch] eqn:E.
  destruct (device_loop_spec _ _ _ _ _ _ _ _ (Nat.le_0_l _) Hl E) as (Hd & Hl' & _). split; cbn; [done|lia].
Qed.
Lemma telemetry_tick_inv f s : sys_inv s -> sys_inv (telemetry_tick f s).
Proof.
  intros [H1 H2 H3 H4 H5 H6 [Hd Hcpu] H8 H9]. split; try done. cbn.
  pose proof (refresh_cpu_lengths (f_stat f) (f_nproc f) _ Hcpu) as Hcpu'.
  set (info := collector_tick1Hz _ _ _ _). assert (info_inv info) as Hinfo by (by split). clearbody info.
  case_if; [|done]. destruct Hinfo as [Hd' Hc']. unfold collector_tick5s. destruct (match readSysfd 512 _ with [] => _ | _ => _ end).
  split; [by apply refresh_devices_ok|done].
Qed.

Lemma scan_mac_length n (t : list Z) vs : scan_mac n t = Some vs -> length vs = S n.
Proof.
  revert t vs. induction n as [|n IH]; intros t vs; cbn [scan_mac]; destruct (scan_hex t) as [[v r]|]; try done.
  - by intros [= <-].
  - destruct r as [|c r]; [done|]. destruct (decide (c = 58)) as [->|Hc]; [|by repeat case_match].
    destruct (scan_mac n r) eqn:E; [|done]. intros [= <-]. cbn. by rewrite (IH _ _ E).
Qed.
Lemma parse_mac_ok (t : list Z) m : parse_mac_colon t = Some m -> mac_ok m.
Proof.
  unfold parse_mac_colon. case_if; [done|]. destruct (scan_mac 5 _) as [vs|] eqn:E; [|done]. intros [= <-].
  apply scan_mac_length in E. split; [by rewrite length_map, E|]. apply Forall_map, Forall_forall. intros. apply u8_range.
Qed.
Lemma arp_row_ok p r : arp_line_row p = Some r -> mac_ok (mac r).
Proof.
  unfold arp_line_row. intros H. repeat (case_match; simplify_eq). by eapply parse_mac_ok.
Qed.
Lemma arp_table_ok max f : Forall (fun r => mac_ok (mac r)) (read_arp_table max f).
Proof.
  destruct f as [f|]; [|constructor]. cbn [read_arp_table]. set (p := next_line _). clearbody p.
  match goal with |- context [arp_loop ?n max p] => generalize n end. intros n. revert max p.
  induction n as [|n IH]; intros [|m] p; cbn [arp_loop]; try constructor.
  destruct p as [|c p]; [constructor|]. destruct (arp_line_row (c :: p)) eqn:E; [|apply IH].
  constructor; [by eapply arp_row_ok|apply IH].
Qed.
Lemma hwaddr_ok i out k b m : mac_ok out -> get_iface_hwaddr kern i out k = (b, m) -> mac_ok m.
Proof.
  intros Ho. unfold get_iface_hwaddr. case_if; [by intros [= <- <-]|].
  destruct (siocgifhwaddr kern (ifr_name i) k) as [[[] mac']|] eqn:E; try by intros [= <- <-].
  intros [= <- <-]. destruct (Hhw _ _ _ _ E) as [Hl Hb]. split; [rewrite length_take; lia|by apply Forall_take].
Qed.
Lemma refresh_l2_ok c k route arp_file st st' : plane_ok st -> refresh_l2 kern c k route arp_file st = Some st' -> plane_ok st'.
Proof.
  intros [[Hl Ha] Hm]. unfold refresh_l2. cbv zeta. fold (gateway_text c route).
  assert (snap_macs_ok (nth (1 - active_ st) (snap_ st) L2Snapshot0)) as (M1 & M2 & M3 & M4).
  { destruct (lookup_lt_is_Some_2 (snap_ st) (1 - active_ st) ltac:(lia)) as [x Hx].
    rewrite nth_lookup, Hx. by eapply Forall_lookup_1. }
  destruct (get_iface_hwaddr kern (c_iface_lan c) _ k) as [lo l] eqn:El.
  destruct (get_iface_hwaddr kern (c_iface_wan c) _ k) as [wo wn] eqn:Ew.
  destruct (get_iface_ipv4_prefix_len _ _ _) as [p|]; [|done]. cbn [mbind option_bind]. intros [= <-].
  pose proof (arp_table_ok MAX_ARP arp_file) as Hrows.
  split; [split; cbn [snap_ active_]; [by rewrite length_insert|lia]|]. cbn [snap_]. apply Forall_insert; [exact Hm|].
  split; [exact (hwaddr_ok _ _ _ _ _ M1 El)|]. split; [exact (hwaddr_ok _ _ _ _ _ M2 Ew)|]. cbn [gw_hw arp]. split; [|by apply Forall_take].
  destruct (gateway_text c route) as [|ch g]; [exact M3|]. cbv iota. destruct (inet_pton _) as [b|]; [|exact M3].
  destruct (find_mac _ _) as [m|] eqn:Ef; [|exact M3]. cbn [default]. by eapply find_mac_ok.
Qed.
Lemma l2_tick_inv route arp_file s s' : sys_inv s -> l2_tick kern route arp_file s = Some s' -> sys_inv s'.
Proof.
  intros Hi. unfold l2_tick. destruct (refresh_l2 _ _ _ _ _ _) as [st|] eqn:E; [|done]. cbn. intros [= <-].
  destruct (si_eng _ Hi) as [E1 E2 E3 E4]. apply set_eng_inv; [done|]. split; try done. by eapply refresh_l2_ok.
Qed.

Lemma wan_tick_inv s : sys_inv s -> sys_inv (wan_tick kern s).
Proof.
  intros Hi. destruct (si_eng _ Hi) as [E1 E2 E3 E4]. apply set_eng_inv; [done|].
  unfold wan_tracker_tick5s, wan_ok in *. destruct (c_enable_nat (y_cfg s)) eqn:En; cbn [negb]; [|by split; unfold wan_ok; rewrite ?En].
  assert (forall e, any_inv e -> is_u32 (NatEngine.wan_ip_snapshot e) /\ NatEngine.wan_ip_snapshot e <> 0 /\
    Z.shiftr (ntohl (NatEngine.wan_ip_snapshot e)) 24 <> 127 ->
    eng_inv (y_cfg s) (MkEngines e (e_dhcp (y_eng s)) (e_netcfg (y_eng s)) (e_plane (y_eng s)))) as Hmk.
  { intros e He Hw. split; try done. unfold wan_ok. by rewrite En. }
  destruct (get_local_ip _ _ _) as [|ch a]; [by apply Hmk|]. destruct (parse_ip_str (ch :: a)) as [?|v] eqn:Ep; [by apply Hmk|].
  destruct (Z.eqb_spec (ntohl v) 0) as [|H0]; [by apply Hmk|]. destruct (Z.eqb_spec (Z.shiftr (ntohl v) 24) 127); [by apply Hmk|].
  cbn [orb]. case_if; [by apply Hmk|]. apply Hmk; [by destruct E1 as [[] [] ?]|].
  split; [by eapply parse_ip_str_range|]. split; [|done]. intros E. cbn in E. subst v. by apply H0.
Qed.
Lemma nat_tick_inv s : sys_inv s -> sys_inv (nat_tick s).
Proof.
  intros Hi. destruct (si_eng _ Hi) as [E1 E2 E3 E4]. apply set_eng_inv; [done|]. split; try done. by destruct E1 as [[] [] ?].
Qed.

(** ** The QoS controller *)
Lemma limit_nonneg x : limit_ok x -> Qle_bool 0 x = true.
Proof.
  intros [H _]. apply Qle_bool_iff. eapply Qle_trans; [|exact H]. vm_compute. discriminate.
Qed.
Lemma set_rate_side limit0 limit d : limit_ok limit -> side_inv limit0 d ->
  side_inv limit (MkSide (sd_batch d) (Shaper.set_rate_limit limit (sd_shaper d)) (sd_queue d)).
Proof.
  intros Hl [(Hq & Hlen & Hb) _ Hp Hn Hw]. refine (Build_side_inv _ (MkSide _ _ _) _ _ Hp Hn Hw).
  - split; [exact Hq|]. split; [exact Hlen|]. by apply set_rate_ok.
  - unfold shaper_rate, bucket_rate. cbn. by rewrite limit_nonneg.
Qed.

(** The mode part: the pending mode becomes the one in force. *)
Lemma mode_tick_inv c t q : qc_accel q = c_enable_acceleration c -> mode_inv c (mode t) ->
  let '(t', q') := qos_mode_tick t q in
  mode_inv (set_acceleration c (qc_accel q')) (mode t') /\ Telemetry.qos t' = Telemetry.qos t /\
  core_metrics t' = core_metrics t /\ qc_base_dl q' = qc_base_dl q /\ qc_base_ul q' = qc_base_ul q /\
  qc_shaper_dl q' = qc_shaper_dl q /\ qc_shaper_ul q' = qc_shaper_ul q.
Proof.
  intros Hq (H1 & H2 & H3). unfold qos_mode_tick. destruct (mode_config_dirty (mode t)); destruct c; cbn in *; [done|].
  rewrite Hq. split; [|done]. split; [done|]. split; [done|]. intros _. by apply H3.
Qed.
(** The limits part: the pending limits become effective and reach both shapers. *)
Lemma rate_tick_inv t q dn up : limits_inv (Telemetry.qos t) (qc_base_dl q) (qc_base_ul q) ->
  qc_shaper_dl q = Some (sd_shaper dn) -> qc_shaper_ul q = Some (sd_shaper up) ->
  side_inv (effective_qos_global_dl_mbps (Telemetry.qos t)) dn ->
  side_inv (effective_qos_global_ul_mbps (Telemetry.qos t)) up ->
  let '(t', q') := qos_rate_tick t q in
  limits_inv (Telemetry.qos t') (qc_base_dl q') (qc_base_ul q') /\ mode t' = mode t /\ core_metrics t' = core_metrics t /\
  qc_accel q' = qc_accel q /\ exists sdl sul, qc_shaper_dl q' = Some sdl /\ qc_shaper_ul q' = Some sul /\
  side_inv (effective_qos_global_dl_mbps (Telemetry.qos t')) (MkSide (sd_batch dn) sdl (sd_queue dn)) /\
  side_inv (effective_qos_global_ul_mbps (Telemetry.qos t')) (MkSide (sd_batch up) sul (sd_queue up)).
Proof.
  intros Hlim Hdl Hul Hdn Hup. pose proof Hlim as [[P1 P2] _ _ _]. unfold qos_rate_tick.
  destruct (qos_global_bw_dirty (Telemetry.qos t)); cbn.
  - split_and!; try done. rewrite Hdl, Hul. eexists _, _. split_and!; [done|done|by eapply set_rate_side..].
  - split_and!; try done. eexists _, _. split_and!; [exact Hdl|exact Hul|by destruct dn|by destruct up].
Qed.
Lemma same_engines c b e : eng_inv c e -> eng_inv (set_acceleration c b) e.
Proof. intros []. by destruct c. Qed.
Lemma qos_tick_inv s : sys_inv s -> sys_inv (qos_tick s).
Proof.
  intros [H1 H2 H3 H4 H5 H6 H7 H8 H9]. unfold qos_tick, qos_tick1Hz.
  set (q0 := MkQosC _ _ _ _ _). pose proof (mode_tick_inv (y_cfg s) (tel s) q0 eq_refl H5) as Hm.
  destruct (qos_mode_tick (tel s) q0) as [t1 q1]. destruct Hm as (M1 & M2 & M3 & M4 & M5 & M6 & M7).
  pose proof (rate_tick_inv t1 q1 (y_down s) (y_up s)) as Hr. rewrite M2, M4, M5, M6, M7 in Hr.
  specialize (Hr H6 eq_refl eq_refl H2 H3). destruct (qos_rate_tick t1 q1) as [t2 q2].
  destruct Hr as (R1 & R2 & R3 & R4 & sdl & sul & R5 & R6 & R7 & R8). rewrite R5, R6, R4. cbn [default].
  refine (Build_sys_inv K (System _ _ _ _ _ _ _ _ _ _ _) _ _ _ _ _ _ H7 _ H9); cbn.
  - by apply same_engines.
  - exact R7.
  - exact R8.
  - unfold tel_wf. cbn. rewrite R3, M3. exact H4.
  - rewrite R2. exact M1.
  - exact R1.
  - exact H8.
Qed.

(** ** The control event thread *)
Lemma sync_lease c e n k : lease_inv e -> lease_inv (snd (fst (fst (sync kern c e n k)))).
Proof.
  intros He. pose proof (sync_spec kern c e n k) as H. destruct (sync kern c e n k) as [[[[]] d] k']; cbn in *.
  - by destruct H as [-> _].
  - destruct H as (? & ? & ? & _ & _ & _ & -> & _). by apply router_ip_inv.
Qed.
Lemma reconfigure_lease cfg e : cfg_ok cfg -> lease_inv e -> lease_inv (snd (DhcpEngine.reconfigure cfg e)).
Proof.
  intros Hc He. unfold DhcpEngine.reconfigure. set (e0 := DhcpEngine.Mk _ _ _ _ _ _).
  assert (lease_inv e0) as He0 by (by destruct He).
  exact (di_lease _ _ (reconfigure_inv (fun _ => True) cfg e0 Hc I (li_size _ He0) (lease_dhcp_inv _ He0))).
Qed.
Lemma apply_dhcp_inv s : sys_inv s -> sys_inv (apply_dhcp kern s).
Proof.
  intros [[E1 E2 E3 E4] H2 H3 H4 H5 H6 H7 H8 H9]. unfold apply_dhcp, applyDhcpConfig.
  assert (forall dhcp n (k : K) f, lease_inv dhcp ->
    sys_inv (System (y_cfg s) (MkEngines (e_nat (y_eng s)) dhcp n (e_plane (y_eng s))) (y_down s) (y_up s) (y_world s)
      (y_info s) (y_ctl s) (y_locals s) (y_gui s) k f)) as Hmk.
  { intros dhcp n k f Hd.
    refine (Build_sys_inv K (System _ _ _ _ _ _ _ _ _ _ _) _ H2 H3 H4 H5 H6 H7 H8 H9).
    exact (Build_eng_inv _ (MkEngines _ _ n _) E1 E2 Hd E4). }
  destruct (parse_ip_str (c_dhcp_pool_start (y_cfg s))) as [?|a] eqn:Ea; [by apply Hmk|].
  destruct (parse_ip_str (c_dhcp_pool_end (y_cfg s))) as [?|b] eqn:Eb; [by apply Hmk|].
  pose proof (reconfigure_lease (MkPool a b (c_dhcp_lease (y_cfg s))) (e_dhcp (y_eng s))) as Hr.
  destruct (DhcpEngine.reconfigure _ _) as [[?|?] d1]; cbn [snd] in Hr;
    (assert (lease_inv d1) as Hd1 by (apply Hr; [split; by eapply parse_ip_str_range|done])); [by apply Hmk|].
  pose proof (sync_lease (y_cfg s) d1 (e_netcfg (y_eng s)) (y_kernel s) Hd1) as Hd2.
  destruct (sync kern _ d1 _ _) as [[[r d2] n2] k2]. by apply Hmk.
Qed.

Lemma svc_tick_inv v s s' : sys_inv s -> svc_tick kern fd_lan v s = Some s' -> sys_inv s'.
Proof.
  intros Hi. destruct v; cbn [svc_tick].
  - intros [= <-]. by apply telemetry_tick_inv.
  - by apply l2_tick_inv.
  - intros [= <-]. by apply wan_tick_inv.
  - by apply dhcp_tick_inv.
  - intros [= <-]. by apply qos_tick_inv.
  - intros [= <-]. by apply nat_tick_inv.
Qed.

(** ** The loops *)
Lemma set_thread_inv s i st : sys_inv s -> sys_inv (set_thread s i st).
Proof.
  intros Hi. destruct (si_control _ Hi) as (H1 & H2 & H3). apply set_ctl_inv; [exact Hi| |reflexivity|reflexivity].
  split; [cbn; by rewrite length_insert|]. by split.
Qed.
Lemma set_stop_inv s n : sys_inv s -> 0 <= n -> (ct_running (y_ctl s) = true -> n = 0) -> sys_inv (set_stop_efd s n).
Proof.
  intros Hi Hn Hr. destruct (si_control _ Hi) as (H1 & _ & _). apply set_ctl_inv; [exact Hi| |reflexivity|reflexivity]. by split.
Qed.
Lemma set_cfg_inv s n : sys_inv s -> sys_inv (set_cfg_efd s n).
Proof. intros Hi. apply set_ctl_inv; [exact Hi|exact (si_control _ Hi)|reflexivity|reflexivity]. Qed.
(** A service that is woken does its work when its period has passed and the program
    still runs; otherwise its thread ends. *)
Definition ticks (r : poll_reply) s : bool :=
  (fst (wait_watchdog_period r (ct_stop_efd (y_ctl s))) =? 0) && ct_running (y_ctl s).
Lemma service_wakes_cases v r s s' : sys_inv s -> service_wakes kern fd_lan v r s = Some s' ->
  exists efd, let s1 := set_stop_efd s efd in sys_inv s1 /\
    if ticks r s then exists s2, svc_tick kern fd_lan v s1 = Some s2 /\ s' = set_thread s2 (svc_index v) AtTop
    else s' = set_thread s1 (svc_index v) Ended.
Proof.
  intros Hi. unfold service_wakes, ticks.
  destruct (negb (bool_decide (thread s (svc_index v) = Waiting)) || _) eqn:Hcan; [done|]. apply orb_false_iff in Hcan as [_ Hcan].
  apply negb_false_iff in Hcan. pose proof (si_control _ Hi) as (_ & Hn & Hr).
  assert (sys_inv (set_stop_efd s (snd (wait_watchdog_period r (ct_stop_efd (y_ctl s)))))) as Hi1.
  { apply set_stop_inv; [exact Hi|..]; destruct r; cbn in *; bool2prop; try lia; intros Ht; specialize (Hr Ht); lia. }
  destruct (wait_watchdog_period r _) as [res efd]. cbn [fst snd] in *. intros H. exists efd. split; [exact Hi1|].
  destruct (res =? 0); cbn [negb andb] in *; [|by injection H as <-].
  change (ct_running (y_ctl (set_stop_efd s efd))) with (ct_running (y_ctl s)) in H.
  destruct (ct_running (y_ctl s)); cbn [negb] in H; [|by injection H as <-].
  destruct (svc_tick kern fd_lan v _) as [s2|]; [|done]. cbn [mbind option_bind] in H. injection H as <-. by exists s2.
Qed.
Lemma service_wakes_inv v r s s' : sys_inv s -> service_wakes kern fd_lan v r s = Some s' -> sys_inv s'.
Proof.
  intros Hi (efd & Hi1 & H)%service_wakes_cases; [|done]. destruct (ticks r s); [|subst; by apply set_thread_inv].
  destruct H as (s2 & E & ->). apply set_thread_inv. by eapply svc_tick_inv.
Qed.
Lemma control_wakes_inv failed s s' : sys_inv s -> control_wakes kern failed s = Some s' -> sys_inv s'.
Proof.
  intros Hi. pose proof (si_control _ Hi) as (_ & Hn & Hr). unfold control_wakes. case_if; [done|].
  destruct failed as [eintr|]; [intros [= <-]; by apply set_thread_inv|].
  destruct (Z.ltb_spec 0 (ct_stop_efd (y_ctl s))).
  - intros [= <-]. apply set_thread_inv, set_stop_inv; [done|lia|]. intros Ht. specialize (Hr Ht). lia.
  - case_if; [|done]. intros [= <-]. apply set_thread_inv. pose proof (set_cfg_inv s 0 Hi) as Hi0.
    destruct (ct_running (y_ctl s)); [by apply apply_dhcp_inv|done].
Qed.
Lemma control_stop_inv s : sys_inv s -> sys_inv (control_stop s).
Proof.
  intros Hi. destruct (si_control _ Hi) as (H1 & H2 & H3). unfold control_stop, wake_watchdog.
  apply set_stop_inv; [|cbn; lia|done]. apply set_ctl_inv; [exact Hi| |reflexivity|reflexivity]. by split.
Qed.

(** ** The GUI *)
Lemma set_gui_inv s g : sys_inv s -> match g_dialog g with Some d => dialog_ok d | None => True end -> sys_inv (set_gui s g).
Proof.
  intros [H1 H2 H3 H4 H5 H6 H7 H8 H9] Hg. exact (Build_sys_inv K (set_gui s g) H1 H2 H3 H4 H5 H6 H7 H8 Hg).
Qed.
Lemma apply_bw_inv s : sys_inv s -> sys_inv (gui_apply_bw qt s).
Proof.
  intros Hi. unfold gui_apply_bw.
  destruct (on_apply_bw_cases qt (g_page (y_gui s)) (tel s)) as [->|(dl & ul & Hdl & Hul & ->)];
    [apply put_world_inv; [done|apply Hi|done]|].
  destruct Hi as [H1 H2 H3 H4 H5 [P1 P2 P3 P4] H7 H8 H9].
  split; [exact H1|exact H2|exact H3|exact H4|exact H5| |exact H7|exact H8|exact H9]. by split.
Qed.
Lemma switch_inv lb inside s : sys_inv s -> sys_inv (gui_switch lb inside s).
Proof.
  intros Hi. unfold gui_switch, switch_released. destruct (lb && inside).
  - destruct Hi as [H1 H2 H3 H4 (M1 & M2 & M3) H6 H7 H8 H9].
    split; [exact H1|exact H2|exact H3|exact H4| |exact H6|exact H7|exact H8|exact H9]. by split.
  - apply put_world_inv; [by apply set_gui_inv, Hi|apply Hi|done].
Qed.
Lemma on_apply_settings d c c' : on_apply qt d c = Some c' ->
  c_enable_nat c' = c_enable_nat c /\ c_enable_acceleration c' = c_enable_acceleration c.
Proof. unfold on_apply. intros E. repeat (case_match; simplify_eq); done. Qed.
Lemma apply_pool_inv s : sys_inv s -> sys_inv (gui_apply_pool qt s).
Proof.
  intros Hi. unfold gui_apply_pool. destruct (g_dialog (y_gui s)) as [d|]; [|exact Hi].
  destruct (on_apply qt d (y_cfg s)) as [c|] eqn:E; [|exact Hi]. apply on_apply_settings in E as [En Ea].
  apply set_gui_inv; [|done]. apply set_cfg_inv.
  destruct Hi as [[E1 E2 E3 E4] H2 H3 H4 H5 H6 H7 H8 H9]. unfold wan_ok, mode_inv in E2, H5. rewrite <- En in E2. rewrite <- Ea in H5.
  split; [|exact H2|exact H3|exact H4|exact H5|exact H6|exact H7|exact H8|exact H9]. exact (Build_eng_inv c _ E1 E2 E3 E4).
Qed.

(** ** All events *)
Lemma sys_step_inv e s s' : sys_inv s -> sys_step kern qt fd_wan fd_lan e s = Some s' -> sys_inv s'.
Proof.
  intros Hi. pose proof (si_dialog _ Hi) as Hd. destruct e; cbn [sys_step].
  - intros [= <-]. by apply data_rx_inv.
  - by apply data_frame_inv.
  - by apply data_drain_inv.
  - intros [= <-]. apply put_world_inv; [exact Hi|exact (si_tel _ Hi)|reflexivity].
  - unfold loop_top. case_if; [|done]. intros [= <-]. by apply set_thread_inv.
  - by apply service_wakes_inv.
  - by apply control_wakes_inv.
  - by apply l2_tick_inv.
  - intros [= <-]. by apply control_stop_inv.
  - intros [= <-]. by apply set_gui_inv.
  - intros [= <-]. by apply set_gui_inv.
  - intros [= <-]. by apply switch_inv.
  - intros [= <-]. by apply apply_bw_inv.
  - intros [= <-]. apply set_gui_inv; [done|]. apply dialog_open_ok.
  - intros [= <-]. apply set_gui_inv; [done|]. cbn. destruct (g_dialog (y_gui s)); [|done]. by apply dialog_event_ok.
  - intros [= <-]. by apply apply_pool_inv.
  - intros [= <-]. by apply set_gui_inv.
  - intros [= <-]. destruct Hi as [H1 H2 H3 H4 H5 H6 H7 H8 H9].
    exact (Build_sys_inv K (System _ _ _ _ _ _ _ _ _ _ _) H1 H2 H3 H4 H5 H6 H7 H8 H9).
  - intros [= <-]. apply put_world_inv; [exact Hi|exact (si_tel _ Hi)|reflexivity].
Qed.
End Steps.

(** * Start *)
Section Boot.
Context {K : Type} (kern : Kernel K) (qt : Qt).

Lemma app_make_engines c mac : any_inv (a_nat (app_make c mac)) /\ lease_inv (a_dhcp (app_make c mac)).
Proof.
  split; [apply make_inv|]. apply (di_lease (fun _ => True)), make_dhcp_inv; [|exact I]. split; apply parse_ipv4_range.
Qed.
Lemma app_init_engines c wan_raw lan_raw a k u a' k' : any_inv (a_nat a) -> lease_inv (a_dhcp a) ->
  app_init kern c wan_raw lan_raw a k = (inr u, a', k') ->
  any_inv (a_nat a') /\ wan_ok c (NatEngine.wan_ip_snapshot (a_nat a')) /\ lease_inv (a_dhcp a').
Proof.
  intros Hn Hl. unfold app_init. destruct wan_raw; [|done]. destruct lan_raw; [|done]. cbn [negb].
  pose proof (sync_lease kern c (a_dhcp a) (a_netcfg a) k Hl) as Hd.
  destruct (sync kern c (a_dhcp a) (a_netcfg a) k) as [[[r d] n] k1]. cbn [fst snd] in Hd. destruct r as [e|v]; [done|].
  unfold wan_ok. assert (forall w, any_inv (NatEngine.set_wan_ip w (a_nat a))) as Hset by (intros w; by destruct Hn as [[] [] ?]).
  destruct (c_enable_nat c).
  - destruct (resolve_nat_wan_ip kern c k1) as [err|w] eqn:Ew; [done|].
    destruct (resolve_wan_usable kern c k1 w Ew) as (Hu & Hn0 & Hlo & _). intros [= _ <- _].
    split; [apply Hset|]. split; [|exact Hd]. split; [exact Hu|]. by split.
  - intros [= _ <- _]. split; [apply Hset|]. by split.
Qed.

Lemma default_limits_ok : limit_ok 500 /\ limit_ok 50.
Proof. split; split; vm_compute; discriminate. Qed.
Lemma start_side limit w : limit_ok limit ->
  side_inv limit (MkSide BatchStats0 (fst (Shaper.make limit w)) SpscRingBuffer.empty).
Proof.
  intros Hl. assert (0 <= limit)%Q as Hp by (apply Qle_bool_iff; by apply limit_nonneg).
  destruct (shaper_start_ok limit w Hp) as (Hok & _).
  split; [exact Hok|reflexivity|by split|cbn; lia|]. split; cbn; unfold FRAME_QUEUE; lia.
Qed.

Lemma boot_inv c mac wan_raw lan_raw k clock rs s :
  boot kern qt c mac wan_raw lan_raw k (world0 clock rs) = Some s -> sys_inv s.
Proof.
  unfold boot. destruct (app_make_engines c mac) as [Hn Hl].
  destruct (app_init kern c wan_raw lan_raw (app_make c mac) k) as [[[e|u] a] k'] eqn:E; [done|].
  destruct (app_init_engines _ _ _ _ _ _ _ _ Hn Hl E) as (E1 & E2 & E3). destruct default_limits_ok as [L1 L2].
  set (w := world0 clock rs). unfold app_start. cbn [w_tel w world0 Telemetry.qos Telemetry0 set_mode qos_global_dl_mbps_pending qos_global_ul_mbps_pending].
  pose proof (start_side 500 w L1) as Hdn. destruct (Shaper.make 500 w) as [sdl w1] eqn:Ew1.
  pose proof (start_side 50 w1 L2) as Hup. destruct (Shaper.make 50 w1) as [sul w2] eqn:Ew2. cbn [fst] in *.
  intros [= <-]. split; [|exact Hdn|exact Hup|exact tel_wf0|..].
  - refine (Build_eng_inv _ (MkEngines _ _ _ _) E1 E2 E3 _). split; [split; cbn; lia|].
    assert (mac_ok (replicate 6 0)) as Hz by (split; [done|by repeat constructor]).
    assert (snap_macs_ok L2Snapshot0) as Hs0 by (split_and!; [exact Hz..|constructor]).
    apply Forall_cons_2; [exact Hs0|]. apply Forall_singleton. exact Hs0.
  - split; [done|]. by split.
  - split; [by split|by split|done|done].
  - split; [split; [done|cbn; unfold MAX_TRACKED_DEVICES; lia]|]. done.
  - split; [done|]. split; [cbn; lia|done].
  - exact I.
Qed.
End Boot.

(** * Progress *)
Section Progress.
Context {K : Type} (kern : Kernel K) (qt : Qt) (fd_wan fd_lan : Z).
Context (Hmask : forall k i m, siocgifnetmask kern i k = Some m -> is_u32 m).
Implicit Types s : system K.

Lemma handle_returns msg fd e w : lease_inv e -> (0 < answered (w_replies w))%nat ->
  exists e' w', DhcpEngine.handle_dhcp_request msg fd e w = Some (e', w') /\ lease_inv e' /\
    (answered (w_replies w) <= S (answered (w_replies w')))%nat.
Proof.
  intros He Ha. unfold DhcpEngine.handle_dhcp_request. destruct (DhcpEngine.parse_request msg) as [q|]; [|eauto 10].
  destruct (DhcpEngine.decide_response msg q e w) as [[r e1] w1] eqn:E.
  destruct (decide_response_inv _ _ _ _ _ _ _ He E) as (He1 & _ & _ & _ & _ & _ & Hr & _).
  destruct r as [[ty yi]|]; [|eexists _, _; split; [done|]; rewrite Hr; split; [done|lia]].
  unfold DhcpEngine.send_response. rewrite <- Hr in Ha |- *.
  destruct (send_returns fd (DhcpEngine.build_response ty yi (m_data msg) (DhcpEngine.q_off q) e1) 2 0 w1 Ha) as (w' & -> & Hn).
  eexists _, _. split; [done|]. split; [done|lia].
Qed.
Lemma background_returns n fd e w : lease_inv e -> (n <= answered (w_replies w))%nat ->
  exists out, DhcpEngine.background_loop n fd e w = Some out.
Proof.
  revert e w. induction n as [|n IH]; intros e w He Ha; cbn [DhcpEngine.background_loop]; [by eexists|].
  destruct (SpscRingBuffer.pop _ _ _) as [[msg|] q]; [|by eexists].
  destruct (handle_returns msg fd (DhcpEngine.set_queue e q) w) as (e' & w' & -> & He' & Hn); [by destruct He|lia|].
  apply IH; [done|lia].
Qed.

Lemma refresh_l2_returns c k route arp_file st : exists st', refresh_l2 kern c k route arp_file st = Some st'.
Proof.
  unfold refresh_l2. destruct (get_iface_hwaddr kern (c_iface_lan c) _ k) as [lo l].
  destruct (get_iface_hwaddr kern (c_iface_wan c) _ k) as [wo wn].
  assert (exists p, get_iface_ipv4_prefix_len kern (c_iface_wan c) k = Some p) as [p ->]; [|by eexists].
  unfold get_iface_ipv4_prefix_len. case_if; [eauto|].
  destruct (siocgifnetmask kern (ifr_name (c_iface_wan c)) k) as [m|] eqn:Em; [|eauto].
  destruct (prefix_of_netmask_total m (Hmask _ _ _ Em)) as (p & -> & _). eauto.
Qed.

(** What an event waits for: its thread, and as many answered sends as it can make. *)
Definition sends_ready (n : nat) s : Prop := (n <= answered (w_replies (y_world s)))%nat.
Definition ready_for (e : event (K := K)) s : Prop :=
  match e with
  | EvFrame _ => sends_ready 1 s
  | EvDrain up => sends_ready (length (Shaper.queue (sd_shaper (side up s)))) s
  | EvTop i => thread s i = AtTop
  | EvService v r => thread s (svc_index v) = Waiting /\ poll_can r (ct_stop_efd (y_ctl s)) = true /\
      match v with SvcDhcp => sends_ready kBackgroundTaskBudget s | _ => True end
  | EvControl failed => thread s WATCHDOG_SERVICE_COUNT = Waiting /\
      match failed with Some _ => True | None => 0 < ct_stop_efd (y_ctl s) \/ 0 < ct_cfg_efd (y_ctl s) end
  | _ => True
  end.

Lemma data_frame_returns up s : sys_inv s -> sends_ready 1 s -> exists s', data_frame fd_wan fd_lan up s = Some s'.
Proof.
  intros Hi Ha. unfold data_frame, sends_ready in *. destruct (SpscRingBuffer.pop _ _ _) as [[copy|] q]; [|by eexists].
  set (s1 := put_side up s _). assert (y_world s1 = y_world s) as Ew by (by destruct up).
  assert (dp_ok (consumer up s1)) as Hok.
  { destruct (inv_side up s Hi) as [H1 H2 H3 H4 H5]. split; cbn [consumer d_world d_stats d_shaper].
    - rewrite Ew. apply Hi.
    - destruct up; exact H3.
    - eexists. split; [reflexivity|]. destruct up; exact H1. }
  destruct (proc_frame_keeps (worker_cfg fd_wan fd_lan up s1) copy (consumer up s1) _ eq_refl eq_refl
    (worker_core fd_wan fd_lan up s1) Hok) as (d & -> & _); [|by eexists].
  change (0 < answered (w_replies (y_world s1)))%nat. rewrite Ew. exact Ha.
Qed.
Lemma data_drain_returns up s : sys_inv s -> sends_ready (length (Shaper.queue (sd_shaper (side up s)))) s ->
  exists s', data_drain fd_wan fd_lan up s = Some s'.
Proof.
  intros Hi Ha. destruct (inv_side up s Hi) as [H1 _ _ _ _]. unfold data_drain, drain_shaper. cbn [consumer d_shaper d_world].
  destruct (process_loop_returns (S (ZeroAllocRingBuffer.count (Shaper.normal_queue (sd_shaper (side up s)))))
    (cf_tx_fd (worker_cfg fd_wan fd_lan up s)) (sd_shaper (side up s)) (y_world s) [] H1) as [[[s' w'] ev] E]; [|exact Ha|].
  - unfold Shaper.queue. rewrite ZeroAllocRingBuffer.za_contents_length. lia.
  - unfold Shaper.process_queue. rewrite E. by eexists.
Qed.
Lemma svc_tick_returns v s : sys_inv s -> match v with SvcDhcp => sends_ready kBackgroundTaskBudget s | _ => True end ->
  exists s', svc_tick kern fd_lan v s = Some s'.
Proof.
  intros Hi Ha. destruct v; cbn [svc_tick]; try by eexists.
  - unfold l2_tick. destruct (refresh_l2_returns (y_cfg s) (y_kernel s) route arp_file (e_plane (y_eng s))) as [st ->]. by eexists.
  - unfold dhcp_tick. destruct (background_returns kBackgroundTaskBudget fd_lan (e_dhcp (y_eng s)) (y_world s)
      (ei_dhcp _ _ (si_eng _ Hi)) Ha) as [[d w] E]. unfold DhcpEngine.process_background_tasks. rewrite E. by eexists.
Qed.
Lemma sys_step_returns e s : sys_inv s -> ready_for e s -> exists s', sys_step kern qt fd_wan fd_lan e s = Some s'.
Proof.
  intros Hi. destruct e; cbn [sys_step ready_for]; try by eexists.
  - by apply data_frame_returns.
  - by apply data_drain_returns.
  - intros Ht. unfold loop_top. rewrite bool_decide_true by done. by eexists.
  - intros (Ht & Hc & Ha). unfold service_wakes. rewrite bool_decide_true by done. rewrite Hc. cbn [negb orb].
    destruct (wait_watchdog_period r _) as [res efd] eqn:Ew. case_if; [by eexists|]. case_if; [by eexists|].
    destruct (svc_tick_returns v (set_stop_efd s efd)) as [s' ->]; [|by destruct v|by eexists].
    destruct (si_control _ Hi) as (_ & Hn & H0). apply set_stop_inv; [done|..].
    + destruct r; cbn in Ew, Hc; simplify_eq; bool2prop; lia.
    + destruct r; cbn in Ew, Hc; simplify_eq; bool2prop; try exact H0; intros Hrun; specialize (H0 Hrun); lia.
  - intros [Ht Hf]. unfold control_wakes. rewrite bool_decide_true by done. cbn [negb].
    destruct failed; [by eexists|]. case_if; [by eexists|]. case_if; [by eexists|]. bool2prop. lia.
  - intros _. unfold l2_tick. destruct (refresh_l2_returns (y_cfg s) (y_kernel s) route arp_file (e_plane (y_eng s))) as [st ->]. by eexists.
Qed.
End Progress.

(** * Every reachable state *)
Lemma sys_run_app {K} (kern : Kernel K) qt fd_wan fd_lan es1 es2 s :
  sys_run kern qt fd_wan fd_lan (es1 ++ es2) s
  = match sys_run kern qt fd_wan fd_lan es1 s with Some s' => sys_run kern qt fd_wan fd_lan es2 s' | None => None end.
Proof. revert s. induction es1 as [|e es1 IH]; intros s; [done|]. cbn. by destruct (sys_step _ _ _ _ _ _). Qed.
Lemma sys_run_inv {K} (kern : Kernel K) qt fd_wan fd_lan es :
  (forall k i b m, siocgifhwaddr kern i k = Some (b, m) -> (6 <= length m)%nat /\ bytes_ok m) ->
  forall s s', sys_inv s ->
  sys_run kern qt fd_wan fd_lan es s = Some s' -> sys_inv s'.
Proof.
  intros Hhw. induction es as [|e es IH]; intros s s' Hi; cbn [sys_run]; [by intros [= <-]|].
  destruct (sys_step kern qt fd_wan fd_lan e s) as [s1|] eqn:E; [|done]. apply IH. by eapply sys_step_inv.
Qed.

(** C40: the program as a whole.  From a successful start, after any sequence of frames
    received, frames processed and shaper drains on either core, service ticks, control
    events, GUI actions and changes of the kernel: the NAT tables and the lease table are
    consistent; the translation address is usable (NAT on) or zero (NAT off); both shapers
    are consistent and run at the effective limits, which lie within the page's bounds and
    equal the pending ones unless a change is flagged; exactly one of the two modes is in
    force, the configuration to be saved agrees with it, and it is the mode asked for
    unless a change is flagged; fewer than 32 packets per core are uncommitted; both
    buffers of the forwarding plane hold six-byte hardware addresses (what the rewrite of
    frames relies on), and the device table, the frame queues and the telemetry are well
    formed.  And in every such state each event can be taken, once its thread is there and
    the kernel has answered as many sends as the event may make. *)
Theorem system_invariant {K} (kern : Kernel K) (qt : Qt) (fd_wan fd_lan : Z) (c : Config) (mac : option (list Z))
    (wan_raw lan_raw : bool) (k : K) (clock : nat -> Z) (rs : list SendReply) (es : list event) (s0 s : system K)
    (Hmask : forall k i m, siocgifnetmask kern i k = Some m -> is_u32 m)
    (Hhw : forall k i b m, siocgifhwaddr kern i k = Some (b, m) -> (6 <= length m)%nat /\ bytes_ok m)
    (Hboot : boot kern qt c mac wan_raw lan_raw k (world0 clock rs) = Some s0)
    (Hrun : sys_run kern qt fd_wan fd_lan es s0 = Some s) :
  sys_inv s /\ forall e, ready_for e s -> exists s', sys_step kern qt fd_wan fd_lan e s = Some s'.
Proof.
  assert (sys_inv s) as Hi by (eapply sys_run_inv; [exact Hhw|by eapply boot_inv|exact Hrun]).
  split; [exact Hi|]. intros e. by apply sys_step_returns.
Qed.

(** A kernel with [eth0] at 10.0.0.2 and [eth1], whose address can be set. *)
Definition w_net : Kernel (option Z) := MkKernel
  (fun _ => true)
  (fun i k => if bool_decide (i = str "eth0") then Some (parse_ipv4 (str "10.0.0.2")) else k)
  (fun _ _ => Some (parse_ipv4 (str "255.255.255.0")))
  (fun i _ => Some (true, if bool_decide (i = str "eth0") then [2; 0; 0; 0; 0; 1] else [2; 0; 0; 0; 0; 2]))
  (fun _ a _ => (true, Some a)) (fun _ _ k => (true, k)) (fun _ k => k).
Lemma w_net_hw k i b m : siocgifhwaddr w_net i k = Some (b, m) -> (6 <= length m)%nat /\ bytes_ok m.
Proof. intros [= <- <-]. destruct (bool_decide _); (split; [cbn; lia|by repeat constructor]). Qed.
(** The switch to bridge mode takes effect and a DNS query then leaves at once. *)
Definition w_events : list (event (K := option Z)) :=
  [EvTop 4; EvSwitch true true; EvService SvcQos PollTimeout; EvRx true w_dns; EvReplies [Sent 42]; EvFrame true].
Lemma system_invariant_witness : exists s0 s,
  boot w_net qt_digits Config0 None true true None (world0 (fun i => Z.of_nat i * 1000000) []) = Some s0 /\
  sys_run w_net qt_digits 7 8 w_events s0 = Some s /\
  sys_inv s /\ effective_bridge_mode (mode (tel s)) = true /\ length (w_wire (y_world s)) = 1%nat.
Proof.
  destruct (boot w_net qt_digits Config0 None true true None (world0 (fun i => Z.of_nat i * 1000000) [])) as [s0|] eqn:Eb;
    [|exfalso; vm_compute in Eb; discriminate].
  destruct (sys_run w_net qt_digits 7 8 w_events s0) as [s|] eqn:Er;
    [|exfalso; vm_compute in Eb; injection Eb as <-; vm_compute in Er; discriminate].
  exists s0, s. split; [reflexivity|]. split; [exact Er|].
  split; [|vm_compute in Eb; injection Eb as <-; vm_compute in Er; injection Er as <-; split; vm_compute; reflexivity].
  refine (proj1 (system_invariant w_net qt_digits 7 8 Config0 None true true None (fun i => Z.of_nat i * 1000000) []
    w_events s0 s _ _ Eb Er)).
  - intros k i m [= <-]. apply parse_ipv4_range.
  - exact w_net_hw.
Defined.
