(* ===== verification/EndToEnd.v ===== *)
(** A conversation through the running program: a packet of an inside host leaves
    translated, and while its session is alive the reply is brought back to the host.
    The engine's part ([NatReply]) is lifted to every run of the whole program
    ([ControlPlane]), where frames of both directions, six services, the control thread
    and the dashboard work on the same state. *)
From Stdlib Require Import ZArith Lia Ascii String QArith.
From stdpp Require Import base numbers strings list.
From S2P Require Import Prelude Text Types_util Headers_util Processor Telemetry TxFrame Rings NatEngine NatTable NatProofs NatReply.
From S2P Require Import DhcpEngine Scheduler Config Network_util NetworkConfig ForwardingState Forward.
From S2P Require Import QosService NumPad Dashboard App ControlPlane System ProcNet TestPackets.
#[local] Open Scope Z_scope.
#[local] Open Scope list_scope.

(** * One frame through a worker *)
(** The frame a slot of the queue holds. *)
Definition frame_of (copy : RxFrameCopy) : list Z := take (Z.to_nat (rx_len copy)) (rx_data copy).
Lemma frame_of_rx_copy raw : bytes_ok raw -> (length raw <= 2048)%nat -> frame_of (rx_copy raw) = raw.
Proof.
  intros Hb Hl. unfold frame_of, rx_copy. cbn [rx_len rx_data]. rewrite Nat.min_l by done.
  rewrite u16_id, Nat2Z.id by wordlia. rewrite (firstn_all2 raw) by done.
  apply (nth_ext _ _ 0 0); [rewrite length_take, length_copy_to, length_replicate; lia|].
  intros i Hi. rewrite length_take, length_copy_to, length_replicate in Hi.
  assert (nth i (take (length raw) (copy_to (replicate 2048 0) 0 raw)) 0 = rd (copy_to (replicate 2048 0) 0 raw) i) as ->
    by (unfold rd; rewrite !nth_lookup, lookup_take_lt by lia; done).
  rewrite rd_copy_to by (rewrite ?length_replicate; lia). rewrite Nat.sub_0_r. apply Z.mod_small. exact (bytes_ok_rd raw i Hb).
Qed.

Lemma on_frame_nothing d f : on_tel d (CallbackRegistry.dispatch_frame app_events f) = d.
Proof. by destruct d as [? ? ? ? []]. Qed.

(** What processing one frame leaves is what the frame's fate leaves, but for the counters:
    committing them touches neither the engines nor the shaper nor the wire. *)
Lemma proc_frame_ends cf copy d d' : cf_events cf = app_events -> proc_frame cf copy d = Some d' ->
  exists d1 f b, fate cf d (parse (frame_of copy)) d1 /\ d' = set_stats (on_tel d1 f) b.
Proof.
  intros Hev. unfold proc_frame. rewrite Hev, on_frame_nothing. fold (frame_of copy). unfold on_packet_event.
  destruct (run_steps _ cf d _) as [[[h d1] p1]|] eqn:E; [|done]. cbn [mbind option_bind].
  apply pipeline_fate in E as [_ Hf]. intros [= <-]. exists d1. case_if; [by eexists _, _|].
  exists id, (d_stats d1). split; [done|]. by destruct d1 as [? ? ? ? []].
Qed.
Lemma proc_frame_fate cf copy d d' : cf_events cf = app_events -> proc_frame cf copy d = Some d' ->
  exists d1, fate cf d (parse (frame_of copy)) d1 /\
    d_nat d' = d_nat d1 /\ d_shaper d' = d_shaper d1 /\ w_wire (d_world d') = w_wire (d_world d1).
Proof. intros Hev (d1 & f & b & Hf & ->)%proc_frame_ends; [|done]. by exists d1. Qed.

(** The engine after a packet: as translation leaves it, or as it was. *)
Lemma delivered_nat cf d pkt prio d' : delivered cf d pkt prio d' -> d_nat d' = d_nat d.
Proof. by intros []. Qed.
Lemma fate_nat cf d pkt d' : fate cf d pkt d' ->
  d_nat d' = d_nat d \/ d_nat d' = fst (translated cf (d_nat d) pkt).
Proof.
  intros [d1 _ _ ->|nat p1 _ Ht _|nat p1 p2 prio d1 _ Ht _ _ Hd].
  - left. by destruct (d_dhcp d).
  - right. by rewrite Ht.
  - right. apply delivered_nat in Hd. by rewrite Ht, Hd.
Qed.

(** A frame passed on: on the wire, or at the end of the shaper's queue. *)
Definition emitted (fd : Z) (f : list Z) (w w' : World) (s s' : option Shaper.t) : Prop :=
  w_wire w' = w_wire w ++ [(fd, f)] \/
  exists sh sh', s = Some sh /\ s' = Some sh' /\ Shaper.queue sh' = Shaper.queue sh ++ [f].

Lemma nothing_emitted fd f w w' s : w_wire w' = w_wire w -> ~ emitted fd f w w' s s.
Proof.
  intros E [H|(sh & sh' & -> & [= <-] & H)]; [rewrite E in H|]; apply (f_equal length) in H; rewrite length_app in H; simpl in H; lia.
Qed.
Lemma send_wire fd pkt c p w w' : send_best_effort fd pkt c p w = Some w' ->
  w_wire w' = w_wire w \/ w_wire w' = w_wire w ++ [(fd, pkt)].
Proof.
  unfold send_best_effort. destruct (try_send_packet_nonblocking fd pkt w) as [[res w1]|] eqn:E; [|done].
  destruct (try_send_frame _ _ _ _ _ E) as (_ & _ & _ & [[-> Hw]|[Hne Hw]]); [intros [= <-]; by right|].
  intros H. left. by destruct res; simplify_eq/=.
Qed.

(** Only a routed packet is passed on, and what is passed on are its rewritten bytes. *)
Lemma fate_emitted cf d pkt d' f : (forall s, d_shaper d = Some s -> shaper_ok s) -> fate cf d pkt d' ->
  emitted (cf_tx_fd cf) f (d_world d) (d_world d') (d_shaper d) (d_shaper d') ->
  exists nat p1 p2, translated cf (d_nat d) pkt = (nat, p1) /\ relinked cf p1 = Some p2 /\
    d_nat d' = nat /\ f = raw_span p2.
Proof.
  intros Hok [d1 _ _ ->|nat p1 _ Ht _|nat p1 p2 prio d1 _ Ht Hr _ Hd].
  - destruct (d_dhcp d); intros []%nothing_emitted; done.
  - intros []%nothing_emitted; done.
  - intros He. exists nat, p1, p2. split; [done|]. split; [done|]. split; [by apply delivered_nat in Hd|].
    destruct Hd as [w' _ Hsend|s s' w' _ _ Hs Hq|_ _ Hs].
    + apply send_wire in Hsend as [E|E]; [by apply nothing_emitted in He|]. cbn in E.
      destruct He as [He|(sh & sh' & Hs & Hs' & He)].
      * cbn in He. rewrite E in He. apply app_inj_tail in He as [_ [=]]. done.
      * cbn in Hs'. rewrite Hs in Hs'. injection Hs' as <-. apply (f_equal length) in He. rewrite length_app in He. simpl in He. lia.
    + cbn in Hs. destruct (enqueue_normal_spec _ _ _ _ _ (Hok s Hs) Hq) as (_ & _ & Eq & Ew).
      destruct He as [He|(sh & sh' & Hs1 & [= <-] & He)].
      * apply (f_equal length) in He. rewrite length_app in He. cbn in He. rewrite Ew in He. destruct (accepts s _); cbn in He; lia.
      * assert (sh = s) as -> by congruence. rewrite Eq in He. destruct (accepts s _).
        -- apply app_inj_tail in He as [_ ->]. done.
        -- apply (f_equal length) in He. rewrite !length_app in He. simpl in He. lia.
    + cbn in Hs. by apply nothing_emitted in He.
Qed.
(** With room in the shaper and a kernel that takes the frame, a routed packet is passed on. *)
Lemma delivered_emitted cf d pkt prio d' s rest : d_shaper d = Some s -> shaper_ok s -> accepts s (raw_span pkt) = true ->
  w_replies (d_world d) = Sent (Z.of_nat (length (raw_span pkt))) :: rest -> delivered cf d pkt prio d' ->
  emitted (cf_tx_fd cf) (raw_span pkt) (d_world d) (d_world d') (d_shaper d) (d_shaper d').
Proof.
  intros Hs Hok Hacc Hrep [w' _ Hsend|s1 s' w' _ _ Hs1 Hq|_ _ Hs1].
  - left. unfold send_best_effort, try_send_packet_nonblocking in Hsend. rewrite Hrep in Hsend. cbn in Hsend.
    rewrite Z.eqb_refl in Hsend. by injection Hsend as <-.
  - right. assert (s1 = s) as -> by congruence. exists s, s'. split; [done|]. split; [done|].
    destruct (enqueue_normal_spec _ _ _ _ _ Hok Hq) as (_ & _ & -> & _). by rewrite Hacc.
  - congruence.
Qed.
Lemma noted_world cf d pkt prio : cf_events cf = app_events -> d_world (noted cf d pkt prio) = d_world d.
Proof. intros E. unfold noted. rewrite E. by destruct d as [? ? ? ? []]. Qed.

(** The Ethernet rewrite changes the two addresses at most. *)
Lemma relinked_bytes cf p p' : snap_macs_ok (snapshot (cf_plane cf)) -> (14 <= length (raw_span p))%nat ->
  relinked cf p = Some p' -> p' = with_span p (raw_span p') /\ length (raw_span p') = length (raw_span p) /\
  forall i, (12 <= i)%nat -> rd (raw_span p') i = rd (raw_span p) i.
Proof.
  intros (Hl & Hw & Hg & Ha) Hlen.
  assert (forall m1 m2, mac_ok m1 -> mac_ok m2 -> let p1 := set_eth_dest (set_eth_src p m1) m2 in
    p1 = with_span p (raw_span p1) /\ length (raw_span p1) = length (raw_span p) /\
    forall i, (12 <= i)%nat -> rd (raw_span p1) i = rd (raw_span p) i) as Hset.
  { intros m1 m2 H1 H2 p1. split; [done|]. by apply (rewrite_eth (raw_span p) m1 m2). }
  unfold relinked. destruct (rewrite_dst cf p) as [dst|]; [|intros [= <-]; by destruct p].
  destruct (cf_core cf =? 2).
  - destruct (find_mac _ _) as [m|] eqn:E; [|intros [= <-]; by destruct p]. intros [= <-]. apply Hset; [done|by eapply find_mac_ok].
  - destruct (wan_next_hop _ _) as [m|] eqn:E; [|done]. intros [= <-]. apply Hset; [done|].
    eapply wan_next_hop_ok; [|exact E]. by split_and!.
Qed.

(** So the bytes that leave parse to the packet they were rewritten from, flow included. *)
Lemma relinked_flow cf b p1 p2 : snap_macs_ok (snapshot (cf_plane cf)) -> ihl_ok b -> flow_of p1 <> None ->
  p1 = with_span (parse b) (raw_span p1) -> laid_out_as b (raw_span p1) -> relinked cf p1 = Some p2 ->
  laid_out_as b (raw_span p2) /\ flow_of (parse (raw_span p2)) = flow_of p1.
Proof.
  intros Hm Hi Hf Hp [Hl Hr] Hre.
  assert (14 <= length b)%nat as Hlen.
  { unfold flow_of in Hf. destruct (tcp_view p1) as [v|] eqn:Ev; [|done]. unfold tcp_view in Ev. rewrite Hp in Ev.
    cbn [ipv4 with_span] in Ev. destruct (ipv4 (parse b)) as [o|] eqn:Eip; [|done]. apply parse_ipv4_some in Eip. lia. }
  destruct (relinked_bytes cf p1 p2 Hm ltac:(lia) Hre) as (_ & Hl2 & Hr2).
  assert (laid_out_as b (raw_span p2)) as Hlo.
  { split; [lia|]. intros i Hlt. rewrite Hr2 by lia. by apply Hr. }
  split; [done|]. rewrite (parse_laid_out _ _ Hlo), Hp. apply flow_of_with_span; [done|]. intros i Hge.
  cbn [raw_span with_span]. apply Hr2. lia.
Qed.

(** * The engine in a run of the program *)
Section Run.
Context {K : Type} (kern : Kernel K) (qt : Qt) (fd_wan fd_lan : Z).
Context (Hhw : forall k i b m, siocgifhwaddr kern i k = Some (b, m) -> (6 <= length m)%nat /\ bytes_ok m).
Implicit Types s : system K.

Definition nat_of s : NatEngine.t := e_nat (y_eng s).
(** The frame next in line for the processing thread of a direction. *)
Definition next_frame (up : bool) s : option RxFrameCopy :=
  head (SpscRingBuffer.contents RxFrameCopy0 FRAME_QUEUE (sd_queue (side up s))).
(** The frame the event passes on: to the socket of its direction, or to the shaper. *)
Definition passed_on (up : bool) (f : list Z) s s' : Prop :=
  emitted (if up then fd_wan else fd_lan) f (y_world s) (y_world s')
    (Some (sd_shaper (side up s))) (Some (sd_shaper (side up s'))).

Lemma data_frame_fate up s s' : sys_inv s -> data_frame fd_wan fd_lan up s = Some s' ->
  match next_frame up s with
  | None => s' = s
  | Some copy => exists d, fate (worker_cfg fd_wan fd_lan up s) (consumer up s) (parse (frame_of copy)) d /\
      nat_of s' = default (nat_of s) (d_nat d) /\
      sd_shaper (side up s') = default (sd_shaper (side up s)) (d_shaper d) /\
      w_wire (y_world s') = w_wire (d_world d) /\ y_cfg s' = y_cfg s
  end.
Proof.
  intros Hi. unfold data_frame, next_frame. pose proof (di_queue _ _ (inv_side up s Hi)) as Hq.
  destruct (SpscRingBuffer.spsc_pop_refines RxFrameCopy0 FRAME_QUEUE frame_queue_pos _ Hq) as (_ & Hh & _). rewrite <- Hh.
  destruct (SpscRingBuffer.pop _ _ _) as [[copy|] q]; cbn [fst]; [|by intros [= <-]].
  set (s1 := put_side up s _).
  assert (worker_cfg fd_wan fd_lan up s1 = worker_cfg fd_wan fd_lan up s) as -> by (by destruct up).
  assert (consumer up s1 = consumer up s) as -> by (by destruct up).
  destruct (proc_frame _ copy _) as [d|] eqn:E; [|done]. cbn [mbind option_bind]. intros [= <-].
  apply proc_frame_fate in E as (d1 & Hf & E1 & E2 & E3); [|done]. exists d1. split; [exact Hf|].
  rewrite <- E1, <- E2, <- E3. by destruct up.
Qed.

(** What an event can do to the engine. *)
Definition nat_moved (ev : event (K := K)) (e e' : NatEngine.t) : Prop :=
  match ev with
  | EvFrame up => e' = e \/ exists p, let '(_, e1, p1) := NatEngine.process_inbound e p in
      e' = (if up then snd (fst (NatEngine.process_outbound e1 p1)) else e1)
  | EvService SvcNat _ => e' = e \/ e' = NatEngine.tick e
  | EvService SvcWan _ => e' = e \/ exists ip, e' = NatEngine.set_wan_ip ip e
  | _ => e' = e
  end.
Definition nat_step (ev : event (K := K)) s s' : Prop :=
  nat_moved ev (nat_of s) (nat_of s') /\ c_enable_nat (y_cfg s') = c_enable_nat (y_cfg s).

Lemma frame_moved up s s' : sys_inv s -> data_frame fd_wan fd_lan up s = Some s' -> nat_step (EvFrame up) s s'.
Proof.
  intros Hi E. apply data_frame_fate in E; [|done].
  destruct (next_frame up s) as [copy|]; [|subst; split; [by left|done]].
  destruct E as (d & Hf & E & _ & _ & Ec). unfold nat_step. rewrite E, Ec. split; [|done].
  apply fate_nat in Hf as [->| ->]; [by left|]. cbn [d_nat consumer]. unfold translated.
  destruct (cf_enable_nat _); [|by left]. right. exists (parse (frame_of copy)). fold (nat_of s).
  destruct (NatEngine.process_inbound _ _) as [[r1 e1] p1]. destruct up; cbn [cf_core worker_cfg]; [|done].
  change (3 =? 2) with false. by destruct (NatEngine.process_outbound e1 p1) as [[r2 e2] p2].
Qed.
Lemma drain_moved up s s' : data_drain fd_wan fd_lan up s = Some s' -> nat_step (EvDrain up) s s'.
Proof.
  unfold data_drain, drain_shaper. cbn [consumer d_shaper d_world].
  destruct (Shaper.process_queue _ _ _) as [[[sh w] ev]|]; [|done]. cbn [mbind option_bind]. intros [= <-]. by destruct up.
Qed.
Lemma apply_dhcp_moved s : nat_of (apply_dhcp kern s) = nat_of s /\ y_cfg (apply_dhcp kern s) = y_cfg s.
Proof. unfold apply_dhcp. by destruct (applyDhcpConfig _ _ _ _ _) as [[[? ?] ?] ?]. Qed.
Lemma control_moved failed s s' : control_wakes kern failed s = Some s' -> nat_step (EvControl failed) s s'.
Proof.
  unfold control_wakes. case_if; [done|]. destruct failed; [by intros [= <-]|]. case_if; [by intros [= <-]|].
  case_if; [|done]. intros [= <-]. destruct (apply_dhcp_moved (set_cfg_efd s 0)) as [E1 E2].
  destruct (ct_running (y_ctl s)); [|done]. unfold nat_step, nat_of in *.
  change (e_nat (y_eng (apply_dhcp kern (set_cfg_efd s 0))) = e_nat (y_eng s) /\
    c_enable_nat (y_cfg (apply_dhcp kern (set_cfg_efd s 0))) = c_enable_nat (y_cfg s)). by rewrite E1, E2.
Qed.

Lemma wan_tracked c e k : wan_tracker_tick5s kern c e k = e \/ exists ip, wan_tracker_tick5s kern c e k = NatEngine.set_wan_ip ip e.
Proof. unfold wan_tracker_tick5s. repeat case_match; eauto. Qed.
Lemma qos_tick_moved s : nat_of (qos_tick s) = nat_of s /\ c_enable_nat (y_cfg (qos_tick s)) = c_enable_nat (y_cfg s).
Proof. unfold qos_tick. destruct (qos_tick1Hz _ _) as [t q]. cbn. by destruct (y_cfg s). Qed.
Lemma svc_moved v r s s' : svc_tick kern fd_lan v s = Some s' -> nat_step (EvService v r) s s'.
Proof.
  destruct v; cbn [svc_tick].
  - by intros [= <-].
  - unfold l2_tick. destruct (refresh_l2 _ _ _ _ _ _) as [st|]; [|done]. by intros [= <-].
  - intros [= <-]. split; [|done]. cbn. apply wan_tracked.
  - unfold dhcp_tick. destruct (DhcpEngine.process_background_tasks _ _ _) as [[d w]|]; [|done]. by intros [= <-].
  - intros [= <-]. apply qos_tick_moved.
  - intros [= <-]. split; [by right|done].
Qed.
Lemma not_moved v r s s' : nat_of s' = nat_of s -> y_cfg s' = y_cfg s -> nat_step (EvService v r) s s'.
Proof. intros E1 E2. unfold nat_step. rewrite E1, E2. destruct v; cbn; auto. Qed.
Lemma service_moved v r s s' : service_wakes kern fd_lan v r s = Some s' -> nat_step (EvService v r) s s'.
Proof.
  unfold service_wakes. case_if; [done|]. destruct (wait_watchdog_period r _) as [res efd].
  case_if; [intros [= <-]; by apply not_moved|]. case_if; [intros [= <-]; by apply not_moved|].
  destruct (svc_tick kern fd_lan v _) as [s2|] eqn:E; [|done]. cbn [mbind option_bind]. intros [= <-].
  exact (svc_moved v r _ s2 E).
Qed.
Lemma pool_moved s : nat_step EvDialogApply s (gui_apply_pool qt s).
Proof.
  unfold gui_apply_pool. destruct (g_dialog _) as [d|]; [|done]. destruct (on_apply qt d _) as [c|] eqn:E; [|done].
  apply on_apply_settings in E as [E _]. by split.
Qed.

Lemma sys_step_nat ev s s' : sys_inv s -> sys_step kern qt fd_wan fd_lan ev s = Some s' -> nat_step ev s s'.
Proof.
  intros Hi. destruct ev; cbn [sys_step]; try (by intros [= <-]).
  - intros [= <-]. unfold data_rx. destruct (rx_frame _ _ _ _). by destruct up.
  - by apply frame_moved.
  - apply drain_moved.
  - unfold loop_top. case_if; [|done]. by intros [= <-].
  - apply service_moved.
  - apply control_moved.
  - unfold l2_tick. destruct (refresh_l2 _ _ _ _ _ _) as [st|]; [|done]. by intros [= <-].
  - intros [= <-]. unfold gui_switch. by destruct (switch_released _ _ _ _).
  - intros [= <-]. apply pool_moved.
Qed.

(** ** Frames sent out and ticks of the session clock in a run *)
Definition is_up_frame (ev : event (K := K)) : bool := match ev with EvFrame true => true | _ => false end.
Definition is_nat_tick (ev : event (K := K)) : bool := match ev with EvService SvcNat _ => true | _ => false end.
Definition tally (f : event (K := K) -> bool) (es : list (event (K := K))) : Z := Z.of_nat (length (List.filter f es)).
Lemma tally_cons f ev es : tally f (ev :: es) = (if f ev then 1 else 0) + tally f es.
Proof. unfold tally. simpl. case_if; simpl; lia. Qed.
Lemma tally_app f es1 es2 : tally f (es1 ++ es2) = tally f es1 + tally f es2.
Proof. unfold tally. rewrite List.filter_app, length_app. lia. Qed.
Lemma tally_nonneg f es : 0 <= tally f es.
Proof. unfold tally. lia. Qed.

(** Every other event leaves sessions and ports alone. *)
Lemma inbound_inv_any e p : any_inv e -> any_inv (snd (fst (NatEngine.process_inbound e p))).
Proof. apply inbound_inv. Qed.
Lemma moved_fresh ev e e' k : any_inv e -> nat_moved ev e e' -> fresh k e ->
  (is_up_frame ev = true -> k < EXT_PORTS) ->
  exists k', k' <= k + (if is_up_frame ev then 1 else 0) /\ fresh k' e'.
Proof.
  intros He Hm Hf Hk.
  assert (e' = e -> exists k', k' <= k + (if is_up_frame ev then 1 else 0) /\ fresh k' e') as Hsame
    by (intros ->; exists k; split; [case_if; lia|done]).
  destruct ev as [| up | | | |v r| | | | | | | | | | | | |]; cbn [nat_moved] in Hm; auto.
  - destruct Hm as [->|[p Hp]]; [by apply Hsame|]. pose proof (fresh_in e p He k Hf) as Hin. pose proof (inbound_inv_any e p He) as He1.
    destruct (NatEngine.process_inbound e p) as [[r1 e1] p1]. cbn [fst snd] in *. subst e'. destruct up.
    + cbn [is_up_frame] in *. apply fresh_out; [done|done|by apply Hk].
    + exists k. split; [cbn; lia|done].
  - destruct v; auto; exists k; (split; [cbn; lia|]).
    + destruct Hm as [->|[ip ->]]; [done|by destruct Hf].
    + destruct Hm as [->| ->]; [done|by destruct Hf].
Qed.
Lemma moved_live ev e e' idx key r n : any_inv e -> nat_moved ev e e' -> live idx key r n e -> 0 <= n ->
  n + (if is_nat_tick ev then 1 else 0) <= 300 -> live idx key r (n + (if is_nat_tick ev then 1 else 0)) e'.
Proof.
  intros He Hm Hl Hn0 Hn.
  assert (e' = e -> live idx key r (n + (if is_nat_tick ev then 1 else 0)) e') as Hsame.
  { intros ->. destruct Hl. split; try done. case_if; lia. }
  destruct ev as [| up | | | |v rp| | | | | | | | | | | | |]; cbn [nat_moved] in Hm; auto.
  - destruct Hm as [->|[p Hp]]; [by apply Hsame|]. cbn [is_nat_tick] in *. rewrite Z.add_0_r in *.
    pose proof (live_in e p He idx key r n Hl Hn0) as Hin. pose proof (inbound_inv_any e p He) as He1.
    destruct (NatEngine.process_inbound e p) as [[r1 e1] p1]. cbn [fst snd] in *. subst e'. destruct up; [|done].
    by apply live_out.
  - destruct v; auto; cbn [is_nat_tick] in *.
    + destruct Hm as [->|[ip ->]]; [by apply Hsame|]. rewrite Z.add_0_r. by destruct Hl.
    + destruct Hm as [->| ->]; [by apply Hsame|]. by apply live_tick.
Qed.

(** ** Runs *)
Lemma nat_inv_of s : sys_inv s -> any_inv (nat_of s).
Proof. intros Hi. apply Hi. Qed.
Lemma run_keeps_nat es : forall k s s', sys_inv s -> fresh k (nat_of s) -> k + tally is_up_frame es <= EXT_PORTS ->
  sys_run kern qt fd_wan fd_lan es s = Some s' ->
  sys_inv s' /\ c_enable_nat (y_cfg s') = c_enable_nat (y_cfg s) /\
  (exists k', k' <= k + tally is_up_frame es /\ fresh k' (nat_of s')) /\
  forall idx key r n, live idx key r n (nat_of s) -> 0 <= n -> n + tally is_nat_tick es <= 300 ->
    live idx key r (n + tally is_nat_tick es) (nat_of s').
Proof.
  induction es as [|ev es IH]; intros k s s' Hi Hf Hk; cbn [sys_run].
  - intros [= <-]. split; [done|]. split; [done|]. split; [exists k; split; [unfold tally; simpl; lia|done]|].
    intros. unfold tally. simpl. by rewrite Z.add_0_r.
  - destruct (sys_step kern qt fd_wan fd_lan ev s) as [s1|] eqn:E; [|done]. rewrite tally_cons in *.
    pose proof (tally_nonneg is_up_frame es). pose proof (tally_nonneg is_nat_tick es).
    pose proof (sys_step_inv kern qt fd_wan fd_lan Hhw ev s s1 Hi E) as Hi1.
    destruct (sys_step_nat ev s s1 Hi E) as [Hm Hc].
    destruct (moved_fresh ev _ _ k (nat_inv_of s Hi) Hm Hf) as (k1 & Hk1 & Hf1); [intros Hu; rewrite Hu in Hk; lia|].
    intros Hrun. destruct (IH k1 s1 s' Hi1 Hf1 ltac:(lia) Hrun) as (Hi' & Hc' & (k2 & Hk2 & Hf2) & Hl').
    split; [done|]. split; [congruence|]. split; [exists k2; split; [lia|done]|].
    intros idx key r n Hl Hn0 Hn. rewrite tally_cons in Hn |- *. rewrite Z.add_assoc.
    apply Hl'; [|case_if; lia|lia]. apply (moved_live ev _ _ idx key r n (nat_inv_of s Hi) Hm Hl Hn0). lia.
Qed.

(** ** The two legs *)
Lemma plane_macs st : plane_ok st -> snap_macs_ok (snapshot st).
Proof.
  intros [[Hl Ha] Hm]. unfold snapshot. destruct (lookup_lt_is_Some_2 (snap_ st) (active_ st) ltac:(lia)) as [x Hx].
  rewrite nth_lookup, Hx. by eapply Forall_lookup_1.
Qed.
Lemma wan_u32 s : sys_inv s -> is_u32 (NatEngine.wan_ip_nbo (nat_of s)).
Proof.
  intros Hi. pose proof (ei_wan _ _ (si_eng s Hi)) as H. unfold wan_ok in H. destruct (c_enable_nat (y_cfg s)); [by apply H|].
  change (NatEngine.wan_ip_nbo (nat_of s) = 0) in H. rewrite H. wordlia.
Qed.
Lemma worker_macs up s : sys_inv s -> snap_macs_ok (snapshot (cf_plane (worker_cfg fd_wan fd_lan up s))).
Proof. intros Hi. apply plane_macs, (ei_plane _ _ (si_eng s Hi)). Qed.

(** Outbound: what is passed on under another flow was translated, and its session lives. *)
Lemma outbound_leg s s' b f k k1 : sys_inv s -> bytes_ok b -> ihl_ok b -> (length b <= 2048)%nat ->
  next_frame true s = Some (rx_copy b) -> flow_of (parse b) = Some k -> daddr k <> NatEngine.wan_ip_nbo (nat_of s) ->
  data_frame fd_wan fd_lan true s = Some s' -> passed_on true f s s' -> flow_of (parse f) = Some k1 -> k1 <> k ->
  c_enable_nat (y_cfg s) = true /\ k1 = MkFlowKey (NatEngine.wan_ip_nbo (nat_of s)) (daddr k) (sport k1) (dport k) /\
  exists idx, live idx k (sport k1) 0 (nat_of s').
Proof.
  intros Hi Hb Hihl Hl Hnext Hk Hne Hrun Hout Hk1 Hdiff. pose proof (wan_u32 s Hi) as Hwan.
  apply data_frame_fate in Hrun; [|done]. rewrite Hnext in Hrun.
  destruct Hrun as (d & Hf & En & Es & Ew & _). rewrite frame_of_rx_copy in Hf by done.
  assert (exists nat p1 p2, translated (worker_cfg fd_wan fd_lan true s) (Some (nat_of s)) (parse b) = (nat, p1) /\
    relinked (worker_cfg fd_wan fd_lan true s) p1 = Some p2 /\ d_nat d = nat /\ f = raw_span p2)
    as (nat & p1 & p2 & Ht & Hr & Ed & ->).
  { apply (fate_emitted (worker_cfg fd_wan fd_lan true s) (consumer true s) (parse b) d f).
    - intros sh [= <-]. apply (di_shaper _ _ (inv_side true s Hi)).
    - exact Hf.
    - destruct Hout as [H|(sh & sh' & [= <-] & [= <-] & H)]; [left; by rewrite <- Ew|].
      destruct (d_shaper d) as [sh'|] eqn:E; cbn [default side] in Es, H; rewrite Es in H.
      + right. by exists (sd_shaper (side true s)), sh'.
      + exfalso. apply (f_equal length) in H. rewrite length_app in H. simpl in H. lia. }
  assert (p1 = parse b -> False) as Hsame.
  { intros ->. apply Hdiff. destruct (relinked_flow _ b (parse b) p2 (worker_macs true s Hi) Hihl) as [_ E];
      [by rewrite Hk|clear; by destruct (parse b)|rewrite parse_span; by split|exact Hr|].
    rewrite Hk1, Hk in E. by injection E. }
  unfold translated in Ht. cbn [cf_enable_nat worker_cfg cf_core] in Ht.
  destruct (c_enable_nat (y_cfg s)); [|injection Ht as <- <-; by destruct Hsame]. split; [done|].
  rewrite (inbound_elsewhere _ _ k (nat_inv_of s Hi) Hk Hne) in Ht. change (3 =? 2) with false in Ht. cbv iota in Ht.
  destruct (NatEngine.process_outbound (nat_of s) (parse b)) as [[[] e2] q2] eqn:Eo; injection Ht as <- <-.
  - destruct (outbound_flow _ _ _ _ _ (nat_inv_of s Hi) Hb Hihl Hwan Hk Eo) as (idx & r & Hlive & Hshape & Hlay & Hfl).
    destruct (relinked_flow _ b q2 p2 (worker_macs true s Hi) Hihl) as [_ E]; [by rewrite Hfl|done..|].
    rewrite Hk1, Hfl in E. injection E as ->. split; [done|]. exists idx. by rewrite En, Ed.
  - apply outbound_false in Eo. by destruct Hsame.
Qed.

(** The destination the Ethernet rewrite looks up is the packet's. *)
Lemma rewrite_dst_flow cf b p k : p = with_span (parse b) (raw_span p) -> flow_of p = Some k ->
  cf_enable_nat cf = true -> ready (snapshot (cf_plane cf)) = true ->
  ipv4_needs_eth_rewrite_for_forward (daddr k) = true -> rewrite_dst cf p = Some (daddr k).
Proof.
  intros Hp Hf Hn Hr Hu. unfold rewrite_dst. rewrite Hn, Hr. cbn [negb]. unfold flow_of in Hf.
  destruct (tcp_view p) as [[ip [[s d] c]]|] eqn:Ev; [|done]. injection Hf as <-. cbn [daddr] in *.
  unfold tcp_view in Ev. destruct (ipv4 p) as [o|] eqn:Eip; [|done].
  assert (o = ip) as -> by (repeat case_match; by simplify_eq).
  assert (eth p = Some 0%nat) as ->.
  { rewrite Hp in Eip |- *. cbn [ipv4 eth with_span] in *. by apply parse_ipv4_some in Eip as (_ & ? & _). }
  by rewrite Hu.
Qed.

(** Inbound: the reply is brought back, passed on, and addressed to the host's interface. *)
Lemma inbound_leg s q k r idx e : sys_inv s -> c_enable_nat (y_cfg s) = true -> nat_of s = e ->
  NatEngine.ns_active (NatEngine.session e idx) = true -> NatEngine.ns_key (NatEngine.session e idx) = k -> NatEngine.ns_external_port (NatEngine.session e idx) = r ->
  0 <= idx < NatEngine.MAX_SESSIONS -> NatEngine.port_index e (ntohs r) = idx -> is_u32 (saddr k) -> is_u16 (sport k) ->
  bytes_ok q -> ihl_ok q -> (length q <= 2048)%nat -> next_frame false s = Some (rx_copy q) ->
  flow_of (parse q) = Some (MkFlowKey (daddr k) (NatEngine.wan_ip_nbo e) (dport k) r) ->
  accepts (sd_shaper (y_down s)) q = true -> head (w_replies (y_world s)) = Some (Sent (Z.of_nat (length q))) ->
  exists s' f, data_frame fd_wan fd_lan false s = Some s' /\ passed_on false f s s' /\ length f = length q /\
    flow_of (parse f) = Some (MkFlowKey (daddr k) (saddr k) (dport k) (sport k)) /\
    let snap := snapshot (e_plane (y_eng s)) in
    (ready snap = true -> ipv4_needs_eth_rewrite_for_forward (saddr k) = true -> forall m, find_mac (arp snap) (saddr k) = Some m ->
     slice f EthernetHeader.dest 6 = m /\ slice f EthernetHeader.src 6 = lan_hw snap).
Proof.
  intros Hi Hnat <- Ha Hkey Hport Hidx Hmap Hsa Hsp Hb Hihl Hl Hnext Hfl Hacc Hrep.
  destruct (w_replies (y_world s)) as [|rep rest] eqn:Er; [done|]. injection Hrep as ->.
  assert (exists s', data_frame fd_wan fd_lan false s = Some s') as [s' Hrun].
  { apply data_frame_returns; [done|]. unfold sends_ready. rewrite Er. unfold answered. cbn. lia. }
  pose proof (data_frame_fate _ _ _ Hi Hrun) as Hf. rewrite Hnext in Hf.
  destruct Hf as (d & Hf & _ & Es & Ew & _). rewrite frame_of_rx_copy in Hf by done.
  set (cf := worker_cfg fd_wan fd_lan false s) in *. pose proof (worker_macs false s Hi) as Hm. fold cf in Hm.
  destruct (inbound_accepts (nat_of s) q idx k r) as (e3 & q1 & Eq1 & Hshape & Hlay & Hfl1); [by apply nat_inv_of|done..|].
  assert (translated cf (d_nat (consumer false s)) (parse q) = (Some e3, q1)) as Ht.
  { unfold translated, cf. cbn [cf_enable_nat worker_cfg cf_core consumer d_nat]. rewrite Hnat. fold (nat_of s). by rewrite Eq1. }
  destruct Hf as [d1 Hc _ _|nat p1 _ Ht' Hr|nat p1 p2 prio d1 _ Ht' Hr _ Hd]; [done|..];
    rewrite Ht in Ht'; injection Ht' as <- <-.
  { exfalso. unfold relinked in Hr. change (cf_core cf =? 2) with true in Hr. by repeat case_match. }
  destruct (relinked_flow cf q q1 p2 Hm Hihl) as [Hlay2 Hfl2]; [by rewrite Hfl1|done..|].
  exists s', (raw_span p2). split; [done|]. split; [|split; [apply Hlay2|split; [by rewrite Hfl2|]]].
  - set (dn := noted cf (with_nat (consumer false s) (Some e3)) p2 prio) in *.
    assert (d_world dn = y_world s) as Edw by (unfold dn; by rewrite noted_world).
    assert (emitted (cf_tx_fd cf) (raw_span p2) (d_world dn) (d_world d1) (d_shaper dn) (d_shaper d1)) as He.
    { apply (delivered_emitted cf dn p2 prio d1 (sd_shaper (y_down s)) rest); [done|apply Hi|..|done].
      - unfold accepts in *. by rewrite (proj1 Hlay2).
      - by rewrite Edw, (proj1 Hlay2). }
    unfold passed_on. rewrite Es. destruct He as [He|(sh & sh' & Hs1 & Hs2 & He)].
    + left. by rewrite Ew, He, Edw.
    + right. rewrite Hs2. by exists sh, sh'.
  - intros snap Hready Huni m Hmac.
    pose proof (rewrite_dst_flow cf q q1 _ Hshape Hfl1 Hnat Hready Huni) as Hdst. cbn [daddr] in Hdst.
    unfold relinked in Hr. rewrite Hdst in Hr. change (cf_core cf =? 2) with true in Hr. cbv zeta iota in Hr.
    change (snapshot (cf_plane cf)) with snap in Hr, Hm. rewrite Hmac in Hr. injection Hr as <-.
    destruct Hm as (Hml & _ & _ & Hma).
    destruct (rewrite_eth (raw_span q1) (lan_hw snap) m) as (E1 & E2 & _); [|done|by eapply find_mac_ok|by split].
    rewrite (proj1 Hlay). unfold flow_of in Hfl. destruct (tcp_view (parse q)) as [[ip [[s1 d] c]]|] eqn:Ev; [|done].
    apply tcp_view_parse in Ev. lia.
Qed.
End Run.

(** A program that just started has handed out no port. *)
Lemma boot_fresh {K} (kern : Kernel K) qt c mac wan_raw lan_raw k w s :
  boot kern qt c mac wan_raw lan_raw k w = Some s -> fresh 0 (nat_of s).
Proof.
  unfold boot. destruct (app_init kern c wan_raw lan_raw (app_make c mac) k) as [[[e|u] a] k'] eqn:E; [done|].
  assert (exists ip, a_nat a = NatEngine.set_wan_ip ip NatEngine.make) as [ip Ea].
  { unfold app_init in E. destruct wan_raw; [|done]. destruct lan_raw; [|done]. cbn [negb] in E.
    destruct (sync kern c (a_dhcp (app_make c mac)) _ k) as [[[[e|v] d] n] k1]; [done|].
    destruct (c_enable_nat c); [destruct (resolve_nat_wan_ip kern c k1) as [e|wan]; [done|]|]; injection E as _ <- _; by eexists. }
  destruct (app_start _ _ w) as [[[t sdl] sul] w']. intros [= <-]. unfold nat_of. cbn [y_eng e_nat]. rewrite Ea.
  by destruct fresh_make.
Qed.

(** C24: the inside host gets its answer.  Let the program start successfully and run
    through any events [es1]; let the processing thread of the LAN side then take a TCP or
    UDP packet of flow [k], not sent to the WAN address itself, and pass on frame [f1]
    under another flow.  Then [f1] carries the WAN address and some port in place of
    the host's, and whatever happens next ([es2]: frames both ways, services, refreshes,
    shutdown requests, dashboard actions, a change of the WAN address), provided at most
    300 ticks of the session clock pass and at most 50001 LAN frames are processed since
    the start: when the reply from the remote end to that port is next in line, the WAN
    side's thread, with a kernel that takes the frame and room in the shaper, passes on a
    frame of the same length addressed to the host and port the first packet came from,
    and, when the neighbour table knows the host, to its hardware address. *)
Theorem inside_host_gets_reply {K} (kern : Kernel K) (qt : Qt) (fd_wan fd_lan : Z) (c : Config) (mac : option (list Z))
    (wan_raw lan_raw : bool) (kst : K) (clock : nat -> Z) (rs : list SendReply) (es1 es2 : list event)
    (s0 s1 s2 s3 : system K) (b f1 q : list Z) (k k1 : FlowKey)
    (Hhw : forall k i b m, siocgifhwaddr kern i k = Some (b, m) -> (6 <= length m)%nat /\ bytes_ok m)
    (Hboot : boot kern qt c mac wan_raw lan_raw kst (world0 clock rs) = Some s0)
    (Hrun1 : sys_run kern qt fd_wan fd_lan es1 s0 = Some s1)
    (Hb : bytes_ok b /\ ihl_ok b /\ (length b <= 2048)%nat) (Hnext : next_frame true s1 = Some (rx_copy b))
    (Hk : flow_of (parse b) = Some k) (Hremote : daddr k <> NatEngine.wan_ip_snapshot (nat_of s1))
    (Hout : sys_step kern qt fd_wan fd_lan (EvFrame true) s1 = Some s2) (Hpassed : passed_on fd_wan fd_lan true f1 s1 s2)
    (Hk1 : flow_of (parse f1) = Some k1) (Htranslated : k1 <> k)
    (Hrun2 : sys_run kern qt fd_wan fd_lan es2 s2 = Some s3)
    (Hticks : tally is_nat_tick es2 <= 300) (Hframes : tally is_up_frame (es1 ++ EvFrame true :: es2) <= EXT_PORTS)
    (Hq : bytes_ok q /\ ihl_ok q /\ (length q <= 2048)%nat) (Hreply : next_frame false s3 = Some (rx_copy q))
    (Hflow : flow_of (parse q) = Some (MkFlowKey (daddr k) (NatEngine.wan_ip_snapshot (nat_of s3)) (dport k) (sport k1)))
    (Hroom : accepts (sd_shaper (y_down s3)) q = true)
    (Htakes : head (w_replies (y_world s3)) = Some (Sent (Z.of_nat (length q)))) :
  k1 = MkFlowKey (NatEngine.wan_ip_snapshot (nat_of s1)) (daddr k) (sport k1) (dport k) /\
  exists s4 f, sys_step kern qt fd_wan fd_lan (EvFrame false) s3 = Some s4 /\
    passed_on fd_wan fd_lan false f s3 s4 /\ length f = length q /\
    flow_of (parse f) = Some (MkFlowKey (daddr k) (saddr k) (dport k) (sport k)) /\
    let snap := snapshot (e_plane (y_eng s3)) in
    (ready snap = true -> ipv4_needs_eth_rewrite_for_forward (saddr k) = true -> forall m, find_mac (arp snap) (saddr k) = Some m ->
     slice f EthernetHeader.dest 6 = m /\ slice f EthernetHeader.src 6 = lan_hw snap).
Proof.
  destruct Hb as (Hb & Hihl & Hl), Hq as (Hq & Hqihl & Hql). rewrite tally_app, tally_cons in Hframes.
  pose proof (tally_nonneg is_up_frame es2). pose proof (tally_nonneg is_up_frame es1). cbn [is_up_frame] in Hframes.
  pose proof (boot_inv kern qt _ _ _ _ _ _ _ _ Hboot) as Hi0. pose proof (boot_fresh _ _ _ _ _ _ _ _ _ Hboot) as Hf0.
  destruct (run_keeps_nat kern qt fd_wan fd_lan Hhw es1 0 s0 s1 Hi0 Hf0 ltac:(lia) Hrun1) as (Hi1 & _ & (k2 & Hle & Hf1) & _).
  destruct (outbound_leg fd_wan fd_lan s1 s2 b f1 k k1) as (Hnat & Ek1 & idx & Hlive); [done..|].
  split; [exact Ek1|].
  assert (sys_run kern qt fd_wan fd_lan (EvFrame true :: es2) s1 = Some s3) as Hrun by (cbn [sys_run]; by rewrite Hout).
  destruct (run_keeps_nat kern qt fd_wan fd_lan Hhw [EvFrame true] k2 s1 s2 Hi1 Hf1) as (Hi2 & Hn2 & (k3 & Hle3 & Hf2) & _);
    [change (tally is_up_frame [EvFrame true]) with 1; lia|cbn [sys_run]; by rewrite Hout|].
  change (tally is_up_frame [EvFrame true]) with 1 in Hle3.
  destruct (run_keeps_nat kern qt fd_wan fd_lan Hhw es2 k3 s2 s3 Hi2 Hf2 ltac:(lia) Hrun2) as (Hi3 & Hn3 & (k4 & _ & Hf3) & Hl3).
  destruct (Hl3 idx k (sport k1) 0 Hlive ltac:(lia) ltac:(lia)) as [Hidx Ha Hkey Hport _].
  pose proof (fr_map _ _ Hf3 idx Ha) as Hmap. rewrite Hport in Hmap. destruct (flow_of_ok b k Hb Hk) as (Hsa & _ & Hsp & _).
  apply (inbound_leg fd_wan fd_lan s3 q k (sport k1) idx (nat_of s3)); try done. by rewrite Hn3, Hn2.
Qed.

Lemma some_pair {A B} (a a' : A) (b b' : B) : Some (a, b) = Some (a', b') -> a = a' /\ b = b'.
Proof. by intros [= -> ->]. Qed.
(** A query of 192.168.1.100 to 8.8.8.8, a tick, a refresh of the neighbour table that
    knows the host, and the answer. *)
Definition w_host_mac : list Z := [170; 187; 204; 1; 2; 255].
Definition w_neigh : list Z := arp_table (str "IP address       HW type     Flags")
  [MkNeigh w_lan 2 w_host_mac (str "eth1")].
Definition w_answer : list Z := make_udp_pkt w_ext (ip4 10 0 0 2) 12345 10000.
Definition w_asks : list (event (K := option Z)) := [EvRx true w_udp; EvReplies [Sent 42; Sent 42]].
Definition w_meanwhile : list (event (K := option Z)) :=
  [EvTop 5; EvService SvcNat PollTimeout; EvRefresh None (Some w_neigh); EvRx false w_answer].
Definition w_boot : option (system (option Z)) :=
  boot w_net qt_digits Config0 None true true None (world0 (fun i => Z.of_nat i * 1000000) []).
Definition w_after (es : list (event (K := option Z))) : option (system (option Z)) :=
  match w_boot with
  | Some s => sys_run w_net qt_digits 7 8 es s
  | None => None
  end.
Example conversation :
  option_map (fun s => map (fun f => (fst f, flow_of (parse (snd f)), slice (snd f) 0 6)) (w_wire (y_world s)))
    (w_after (w_asks ++ EvFrame true :: w_meanwhile ++ [EvFrame false]))
  = Some [(7, Some (MkFlowKey (ip4 10 0 0 2) w_ext (htons 10000) (htons 12345)), replicate 6 0);
          (8, Some (MkFlowKey w_ext w_lan (htons 12345) (htons 54321)), w_host_mac)].
Proof. vm_compute. reflexivity. Qed.

(** Facts about a run of the example, checked by computing it. *)
Definition w_check (s1 s2 s3 : system (option Z)) (f1 : list Z) : Prop :=
  next_frame true s1 = Some (rx_copy w_udp) /\ NatEngine.wan_ip_snapshot (nat_of s1) = ip4 10 0 0 2 /\
  w_wire (y_world s2) = w_wire (y_world s1) ++ [(7, f1)] /\
  flow_of (parse f1) = Some (MkFlowKey (ip4 10 0 0 2) w_ext (htons 10000) (htons 12345)) /\
  next_frame false s3 = Some (rx_copy w_answer) /\ NatEngine.wan_ip_snapshot (nat_of s3) = ip4 10 0 0 2 /\
  accepts (sd_shaper (y_down s3)) w_answer = true /\ head (w_replies (y_world s3)) = Some (Sent 42) /\
  ready (snapshot (e_plane (y_eng s3))) = true /\ find_mac (arp (snapshot (e_plane (y_eng s3)))) w_lan = Some w_host_mac.

Lemma inside_host_gets_reply_witness : exists s3 s4 f,
  w_after (w_asks ++ EvFrame true :: w_meanwhile) = Some s3 /\
  sys_step w_net qt_digits 7 8 (EvFrame false) s3 = Some s4 /\ passed_on 7 8 false f s3 s4 /\
  flow_of (parse f) = Some (MkFlowKey w_ext w_lan (htons 12345) (htons 54321)) /\ slice f 0 6 = w_host_mac.
Proof.
  unfold w_after.
  destruct w_boot as [s0|] eqn:E0; [|exfalso; vm_compute in E0; discriminate].
  destruct (sys_run w_net qt_digits 7 8 w_asks s0) as [s1|] eqn:E1;
    [|exfalso; vm_compute in E0; injection E0 as <-; vm_compute in E1; discriminate].
  destruct (sys_step w_net qt_digits 7 8 (EvFrame true) s1) as [s2|] eqn:E2;
    [|exfalso; vm_compute in E0; injection E0 as <-; vm_compute in E1; injection E1 as <-; vm_compute in E2; discriminate].
  destruct (sys_run w_net qt_digits 7 8 w_meanwhile s2) as [s3|] eqn:E3;
    [|exfalso; vm_compute in E0; injection E0 as <-; vm_compute in E1; injection E1 as <-; vm_compute in E2; injection E2 as <-;
      vm_compute in E3; discriminate].
  set (f1 := snd (List.last (w_wire (y_world s2)) (0, []))).
  assert (w_check s1 s2 s3 f1) as (C1 & C2 & C3 & C4 & C5 & C6 & C7 & C8 & C9 & C10).
  { subst f1. vm_compute in E0. injection E0 as <-. vm_compute in E1. injection E1 as <-. vm_compute in E2. injection E2 as <-.
    vm_compute in E3. injection E3 as <-. unfold w_check. split_and!; vm_compute; reflexivity. }
  destruct (inside_host_gets_reply w_net qt_digits 7 8 Config0 None true true None (fun i => Z.of_nat i * 1000000) []
    w_asks w_meanwhile s0 s1 s2 s3 w_udp f1 w_answer (MkFlowKey w_lan w_ext (htons 54321) (htons 12345))
    (MkFlowKey (ip4 10 0 0 2) w_ext (htons 10000) (htons 12345))) as (_ & s4 & f & H1 & H2 & _ & H4 & H5).
  - exact w_net_hw.
  - exact E0.
  - exact E1.
  - split; [apply bytes_okb_ok; vm_compute; reflexivity|]. split; [vm_compute; discriminate|cbn; lia].
  - exact C1.
  - vm_compute. reflexivity.
  - rewrite C2. vm_compute. discriminate.
  - exact E2.
  - left. exact C3.
  - exact C4.
  - vm_compute. discriminate.
  - exact E3.
  - vm_compute. discriminate.
  - vm_compute. discriminate.
  - split; [apply bytes_okb_ok; vm_compute; reflexivity|]. split; [vm_compute; discriminate|cbn; lia].
  - exact C5.
  - rewrite C6. vm_compute. reflexivity.
  - exact C7.
  - exact C8.
  - exists s3, s4, f. split; [|split; [exact H1|split; [exact H2|split; [exact H4|]]]].
    + rewrite sys_run_app, E1. cbn [sys_run]. by rewrite E2.
    + apply H5; [exact C9|vm_compute; reflexivity|exact C10].
Defined.
