(* ===== verification/Books.v ===== *)
(** The books of the whole program: every frame the kernel hands over is found again, on
    the wire, in a queue or under a counter, whatever both workers, the DHCP server, the
    shapers and everything else do in between. *)
From Stdlib Require Import ZArith Lia Ascii String QArith.
From stdpp Require Import base numbers strings list.
From S2P Require Import Prelude Headers_util Processor Telemetry TxFrame Rings NatEngine NatProofs DhcpEngine DhcpProofs Scheduler.
From S2P Require Import Config Network_util NetworkConfig ForwardingState Forward QosService NumPad Dashboard App ControlPlane System EndToEnd TestPackets.
#[local] Open Scope Z_scope.
#[local] Open Scope list_scope.
#[local] Arguments Z.of_nat : simpl never.

(** * Counters

    The program's counters are 64-bit and wrap; sums of them are compared modulo 2^64. *)
Definition cong (a b : Z) : Prop := u64 a = u64 b.
#[local] Infix "≡64" := cong (at level 70).
#[global] Instance cong_equivalence : Equivalence cong.
Proof. unfold cong. split; [by intros a|by intros a b|by intros a b c -> ->]. Qed.
#[global] Instance cong_add : Proper (cong ==> cong ==> cong) Z.add.
Proof. intros a b E c d F. unfold cong, u64 in *. by rewrite Zplus_mod, E, F, <- Zplus_mod. Qed.
#[global] Instance cong_sub : Proper (cong ==> cong ==> cong) Z.sub.
Proof. intros a b E c d F. unfold cong, u64 in *. by rewrite Zminus_mod, E, F, <- Zminus_mod. Qed.
Lemma cong_u64 a : u64 a ≡64 a.
Proof. unfold cong, u64. by rewrite Zmod_mod. Qed.
(** A congruence follows from others whose differences add up. *)
Lemma cong_diff a b : a ≡64 b <-> a - b ≡64 0.
Proof.
  split; intros H; [by rewrite H, Z.sub_diag|].
  replace a with ((a - b) + b) by lia. by rewrite H.
Qed.
Lemma cong_by a b c d : c ≡64 d -> a - b = c - d -> a ≡64 b.
Proof. rewrite (cong_diff a), (cong_diff c). by intros H ->. Qed.
Lemma cong_by2 a b c d e f : c ≡64 d -> e ≡64 f -> a - b = (c - d) + (e - f) -> a ≡64 b.
Proof. rewrite (cong_diff a), (cong_diff c), (cong_diff e). intros H1 H2 ->. by rewrite H1, H2. Qed.

(** * Where frames are accounted for *)
(** On the wire, dropped by a worker's core and counted, refused by a shaper and counted. *)
Definition placed (w : World) : Z :=
  Z.of_nat (length (w_wire w)) + drops 2 (w_tel w) + drops 3 (w_tel w) + refused (w_tel w).
(** The packets a core has committed to the telemetry. *)
Definition committed (c : nat) (w : World) : Z := pkts (core (w_tel w) c).

Lemma drop_cong t c c' p : tel_wf t -> (c < 4)%nat -> (p < 2)%nat ->
  drops c' (count_drop t c p) ≡64 drops c' t + (if decide (c' = c) then 1 else 0).
Proof.
  intros Ht Hc Hp. destruct (decide (c' = c)) as [->|Hne].
  - by apply drops_count_drop.
  - unfold drops. rewrite core_drop by done. rewrite decide_False by done. by rewrite Z.add_0_r.
Qed.
Lemma pkts_drop t c p i : tel_wf t -> (c < 4)%nat -> pkts (core (count_drop t c p) i) = pkts (core t i).
Proof. intros Ht Hc. rewrite core_drop by done. by case_decide as E; [subst|]. Qed.
Lemma placed_drop w c p : tel_wf (w_tel w) -> c = 2%nat \/ c = 3%nat -> (p < 2)%nat ->
  placed (set_tel w (count_drop (w_tel w) c p)) ≡64 placed w + 1.
Proof.
  intros Ht Hc Hp. unfold placed. cbn [w_wire w_tel set_tel].
  change (refused (count_drop (w_tel w) c p)) with (refused (w_tel w)).
  pose proof (drop_cong (w_tel w) c 2 p Ht ltac:(lia) Hp) as H2. pose proof (drop_cong (w_tel w) c 3 p Ht ltac:(lia) Hp) as H3.
  destruct Hc as [-> | ->]; cbn [decide] in *; (eapply cong_by2; [exact H2|exact H3|repeat case_decide; lia]).
Qed.

(** ** Sending, shaping *)
Lemma send_books fd pkt c p w w' : tel_wf (w_tel w) -> c = 2%nat \/ c = 3%nat -> (p < 2)%nat ->
  send_best_effort fd pkt c p w = Some w' ->
  tel_wf (w_tel w') /\ (forall i, committed i w' = committed i w) /\ placed w' ≡64 placed w + 1.
Proof.
  intros Ht Hc Hp. unfold send_best_effort.
  destruct (try_send_packet_nonblocking fd pkt w) as [[res w1]|] eqn:E; [|done].
  destruct (try_send_frame _ _ _ _ _ E) as (_ & _ & Etel & [[-> Hw]|[Hne Hw]]).
  - intros [= <-]. unfold committed, placed. rewrite Etel, Hw, length_app. cbn [length]. split_and!; [done..|].
    apply (cong_by _ _ 0 0); [done|lia].
  - intros H. assert (w' = set_tel w1 (count_drop (w_tel w1) c p)) as -> by (destruct res; simplify_eq; done).
    assert (placed w1 = placed w) as Ep by (unfold placed; by rewrite Hw, Etel).
    unfold committed. cbn [w_tel set_tel]. split_and!.
    + rewrite Etel. by apply count_drop_wf.
    + intros i. rewrite Etel. apply pkts_drop; [done|lia].
    + rewrite <- Ep. apply placed_drop; [by rewrite Etel|done|done].
Qed.
Lemma enqueue_books pkt s w s' w' : shaper_ok s -> Shaper.enqueue_normal pkt s w = (s', w') ->
  shaper_ok s' /\ core_metrics (w_tel w') = core_metrics (w_tel w) /\
  placed w' + Z.of_nat (length (Shaper.queue s')) ≡64 placed w + Z.of_nat (length (Shaper.queue s)) + 1.
Proof.
  intros Hs He. destruct (enqueue_ledger _ _ _ _ _ Hs He) as (Hs' & Hcm & Hw & _ & Hl).
  split; [done|]. split; [done|]. unfold placed, drops, core. rewrite Hw, Hcm. eapply cong_by; [exact Hl|lia].
Qed.

(** Frames given up by a shaper after a send error other than congestion; nothing counts
    them. *)
Definition fatal (ev : list (TxResult * list Z)) : Z :=
  Z.of_nat (length (List.filter (fun e => bool_decide (fst e = Fatal)) ev)).
Lemma finished_split ev : Z.of_nat (length (finished ev)) = Z.of_nat (length (sent ev)) + fatal ev.
Proof.
  unfold finished, sent, fatal. induction ev as [|[[] f] ev IH]; [done|..]; cbn in *;
    repeat first [rewrite bool_decide_true by done | rewrite bool_decide_false by done]; cbn; lia.
Qed.
Lemma drain_books f fd s w s' w' ev : shaper_ok s -> Shaper.process_loop f fd s w [] = Some (s', w', ev) ->
  core_metrics (w_tel w') = core_metrics (w_tel w) /\
  placed w' + Z.of_nat (length (Shaper.queue s')) + fatal ev = placed w + Z.of_nat (length (Shaper.queue s)).
Proof.
  intros Hs Hrun. destruct (process_loop_fifo _ _ _ _ _ _ _ _ Hs Hrun) as (_ & new & -> & Hw & Hq & _).
  destruct (process_loop_keeps _ _ _ _ _ _ _ _ Hs Hrun) as (_ & Hcm & _ & Hr). split; [done|].
  unfold placed, drops, core. rewrite Hcm, Hr, Hw, Hq, !length_app, length_map. pose proof (finished_split new).
  cbn [app]. lia.
Qed.

(** ** The DHCP server's answers *)
Definition answer_to (msg : DhcpMessage) (e : DhcpEngine.t) (w : World) : Z :=
  match DhcpEngine.parse_request msg with
  | Some q => match DhcpEngine.decide_response msg q e w with (Some _, _, _) => 1 | (None, _, _) => 0 end
  | None => 0
  end.
Fixpoint answers (n : nat) (fd : Z) (e : DhcpEngine.t) (w : World) : Z :=
  match n with
  | O => 0
  | S n' =>
      match SpscRingBuffer.pop DhcpMessage0 DhcpEngine.REQUEST_QUEUE (DhcpEngine.request_queue e) with
      | (None, _) => 0
      | (Some msg, q) =>
          let e := DhcpEngine.set_queue e q in
          answer_to msg e w + match DhcpEngine.handle_dhcp_request msg fd e w with Some (e', w') => answers n' fd e' w' | None => 0 end
      end
  end.

Lemma decide_world msg q e w r e' w' : DhcpEngine.decide_response msg q e w = (r, e', w') ->
  w_tel w' = w_tel w /\ w_wire w' = w_wire w.
Proof.
  unfold DhcpEngine.decide_response, DhcpEngine.find_or_assign_lease, DhcpEngine.commit_lease, now.
  intros E. repeat (case_match; simplify_eq); done.
Qed.
Lemma handle_books msg fd e w e' w' : DhcpEngine.handle_dhcp_request msg fd e w = Some (e', w') -> tel_wf (w_tel w) ->
  tel_wf (w_tel w') /\ (forall i, committed i w' = committed i w) /\ placed w' ≡64 placed w + answer_to msg e w.
Proof.
  unfold DhcpEngine.handle_dhcp_request, answer_to. intros H Ht.
  destruct (DhcpEngine.parse_request msg) as [q|]; [|injection H as <- <-; by rewrite Z.add_0_r].
  destruct (DhcpEngine.decide_response msg q e w) as [[[[ty yi]|] e1] w1] eqn:Ed; apply decide_world in Ed as [Et Ew].
  - unfold DhcpEngine.send_response in H. destruct (send_best_effort _ _ _ _ _) as [w2|] eqn:Es; [|done]. injection H as <- <-.
    assert (placed w1 = placed w) as Ep by (unfold placed; by rewrite Et, Ew).
    apply send_books in Es as (H1 & H2 & H3); [|by rewrite Et|by left|lia]. rewrite Ep in H3. split; [done|]. split; [|done].
    intros i. rewrite H2. unfold committed. by rewrite Et.
  - injection H as <- <-. unfold placed, committed. rewrite Et, Ew. by rewrite Z.add_0_r.
Qed.
Lemma answers_books n fd e w e' w' : DhcpEngine.background_loop n fd e w = Some (e', w') -> tel_wf (w_tel w) ->
  (forall i, committed i w' = committed i w) /\ placed w' ≡64 placed w + answers n fd e w.
Proof.
  revert e w. induction n as [|n IH]; intros e w; cbn [DhcpEngine.background_loop answers];
    [intros [= <- <-]; by rewrite Z.add_0_r|].
  destruct (SpscRingBuffer.pop _ _ _) as [[msg|] q]; [|intros [= <- <-]; by rewrite Z.add_0_r]. cbv zeta.
  destruct (DhcpEngine.handle_dhcp_request msg fd _ w) as [[e1 w1]|] eqn:E; [|done]. intros Hr Ht.
  apply handle_books in E as (Ht1 & Hc & Hp); [|done]. destruct (IH _ _ Hr Ht1) as [Hc' Hp']. split; [congruence|].
  eapply cong_by2; [exact Hp|exact Hp'|lia].
Qed.

(** ** One frame *)
(** A frame that goes no further: handed to the DHCP server, or without a next hop. *)
Definition stops (cf : WorkerCfg) (nat : option NatEngine.t) (p : ParsedPacket) : bool :=
  ((cf_core cf =? 3) && is_dhcp p) ||
  match relinked cf (snd (Forward.translated cf nat p)) with None => true | Some _ => false end.

(** The books of a worker: its pending count, the telemetry and the shaper. *)
Definition worker_books (r : Z) (d d' : DP) : Prop :=
  tel_wf (w_tel (d_world d')) /\ (forall i, committed i (d_world d') = committed i (d_world d)) /\
  b_pkts (d_stats d') ≡64 b_pkts (d_stats d) + r /\
  placed (d_world d') + queued d' ≡64 placed (d_world d) + queued d + r.

Lemma books_same d d' : tel_wf (w_tel (d_world d)) -> d_world d' = d_world d -> d_stats d' = d_stats d ->
  d_shaper d' = d_shaper d -> worker_books 0 d d'.
Proof. intros Ht E1 E2 E3. unfold worker_books, queued. rewrite E1, E2, E3. split_and!; [done..| |]; by rewrite Z.add_0_r. Qed.

Lemma fate_books cf d p d' : cf_events cf = app_events -> cf_core cf = 2 \/ cf_core cf = 3 -> dp_ok d -> fate cf d p d' ->
  worker_books (if stops cf (d_nat d) p then 0 else 1) d d'.
Proof.
  intros Hev Hcore [Ht Hb (sh & Hsh & Hok)] [d1 Hc Hd ->|nat p1 Hno Htr Hr|nat p1 p2 prio d1 Hno Htr Hr Hp Hd]; unfold stops.
  - rewrite Hc, Hd. cbn [Z.eqb andb orb]. destruct (d_dhcp d); by apply books_same.
  - rewrite Htr. cbn [snd]. rewrite Hr, orb_true_r. by apply books_same.
  - assert ((cf_core cf =? 3) && is_dhcp p = false) as Hn.
    { destruct (Z.eqb_spec (cf_core cf) 3) as [E|E]; [by rewrite Hno|done]. }
    rewrite Hn, Htr. cbn [snd orb]. rewrite Hr.
    set (dn := noted cf (with_nat d nat) p2 prio) in *.
    assert (d_world dn = d_world d) as Ew by (unfold dn; by rewrite noted_world).
    assert (d_shaper dn = Some sh) as Es by exact Hsh.
    assert (b_pkts (d_stats dn) ≡64 b_pkts (d_stats d) + 1) as Hbp by apply cong_u64.
    assert (Z.to_nat (cf_core cf) = 2%nat \/ Z.to_nat (cf_core cf) = 3%nat) as Hcc by (destruct Hcore as [-> | ->]; auto).
    clearbody dn. unfold worker_books. destruct Hd as [w' _ Hs|s s' w' _ _ Hs Hq|_ _ Hs]; [| |congruence].
    + rewrite Ew in Hs. apply send_books in Hs as (H1 & H2 & H3); [|done|done|apply prio_index_lt].
      split; [exact H1|]. split; [exact H2|]. split; [exact Hbp|]. unfold queued.
      cbn [d_world set_world d_shaper]. rewrite Es, Hsh. eapply cong_by; [exact H3|lia].
    + assert (s = sh) as -> by congruence. rewrite Ew in Hq. apply enqueue_books in Hq as (H1 & H2 & H3); [|done].
      cbn [d_world set_shaper d_stats]. split; [by unfold tel_wf; rewrite H2|].
      split; [intros i; unfold committed, core; by rewrite H2|]. split; [exact Hbp|]. unfold queued.
      cbn [d_shaper set_shaper]. rewrite Hsh. exact H3.
Qed.

(** Committing a batch moves the pending count of the worker's core. *)
Lemma commit_books d cid : cid = 2 \/ cid = 3 -> tel_wf (w_tel (d_world d)) ->
  let w := d_world d in let w' := set_tel w (commit_batch (w_tel w) (d_stats d) cid) in
  placed w' = placed w /\ committed (Z.to_nat cid) w' ≡64 committed (Z.to_nat cid) w + b_pkts (d_stats d) /\
  forall i, i <> Z.to_nat cid -> committed i w' = committed i w.
Proof.
  intros Hc Ht w w'. unfold committed, placed, w'. cbn [w_tel w_wire set_tel].
  assert (forall i, dropped (core (commit_batch (w_tel w) (d_stats d) cid) i) = dropped (core (w_tel w) i)) as Hd.
  { intros i. rewrite core_commit by (done || lia). by case_decide. }
  split; [|split].
  - unfold drops. rewrite !Hd. replace (refused (commit_batch (w_tel w) (d_stats d) cid)) with (refused (w_tel w)); [done|].
    unfold commit_batch. by case_if.
  - rewrite core_commit by (done || lia). rewrite decide_True by done. apply cong_u64.
  - intros i Hi. rewrite core_commit by (done || lia). by rewrite decide_False.
Qed.

Lemma frame_books cf copy d d' : cf_events cf = app_events -> cf_core cf = 2 \/ cf_core cf = 3 -> dp_ok d ->
  proc_frame cf copy d = Some d' ->
  let r := if stops cf (d_nat d) (parse (frame_of copy)) then 0 else 1 in
  let c := Z.to_nat (cf_core cf) in
  committed c (d_world d') + b_pkts (d_stats d') ≡64 committed c (d_world d) + b_pkts (d_stats d) + r /\
  (forall i, i <> c -> committed i (d_world d') = committed i (d_world d)) /\
  placed (d_world d') + queued d' ≡64 placed (d_world d) + queued d + r.
Proof.
  intros Hev Hcore Hok Hrun r c. unfold proc_frame in Hrun. rewrite Hev, on_frame_nothing in Hrun.
  fold (frame_of copy) in Hrun. unfold on_packet_event in Hrun.
  destruct (run_steps _ cf d _) as [[[h d1] p1]|] eqn:E; [|done]. cbn [mbind option_bind] in Hrun. injection Hrun as <-.
  apply pipeline_fate in E as [_ Hf]. apply fate_books in Hf as (Ht & Hc & Hb & Hp); [|done..]. fold r in Hb, Hp. rewrite Hev.
  case_if; [|split; [by rewrite Hc, Hb, Z.add_assoc|by split]].
  destruct (commit_books d1 (cf_core cf) Hcore Ht) as (Ep & Ec & Eo). cbv zeta in Ep, Ec, Eo. fold c in Ec, Eo.
  set (d2 := set_stats _ _).
  assert (d_world d2 = set_tel (d_world d1) (commit_batch (w_tel (d_world d1)) (d_stats d1) (cf_core cf))) as Ew by done.
  assert (d_stats d2 = BatchStats0) as Es by done. assert (queued d2 = queued d1) as Eq by done. clearbody d2.
  rewrite Ew, Es, Eq. cbn [b_pkts BatchStats0]. rewrite Ep. split; [|split; [intros i Hi; by rewrite Eo, Hc|exact Hp]].
  rewrite Hc in Ec. eapply cong_by2; [exact Ec|exact Hb|lia].
Qed.

(** * The running program *)
Section Run.
Context {K : Type} (kern : Kernel K) (qt : Qt) (fd_wan fd_lan : Z).
Context (Hhw : forall k i b m, siocgifhwaddr kern i k = Some (b, m) -> (6 <= length m)%nat /\ bytes_ok m).
Implicit Types s : system K.

Definition core_of (up : bool) : nat := if up then 3%nat else 2%nat.
(** Packets a core has put through classification, committed or pending; frames waiting
    for it; packets waiting in its shaper. *)
Definition processed (up : bool) s : Z := committed (core_of up) (y_world s) + b_pkts (sd_batch (side up s)).
Definition in_ring (up : bool) s : Z :=
  Z.of_nat (length (SpscRingBuffer.contents RxFrameCopy0 FRAME_QUEUE (sd_queue (side up s)))).
Definition in_shaper (up : bool) s : Z := Z.of_nat (length (Shaper.queue (sd_shaper (side up s)))).

(** What an event brings in or takes out: a frame received; a frame refused by the full
    frame queue; a frame that stops in the pipeline; answers of the DHCP server; packets a
    shaper gives up. *)
Definition received (up : bool) (ev : event (K := K)) s : Z :=
  match ev with EvRx u _ => if Bool.eqb u up then 1 else 0 | _ => 0 end.
Definition overflowed (up : bool) (ev : event (K := K)) s : Z :=
  match ev with
  | EvRx u raw =>
      if Bool.eqb u up && negb (fst (SpscRingBuffer.push FRAME_QUEUE (rx_copy raw) (sd_queue (side u s)))) then 1 else 0
  | _ => 0
  end.
Definition stopped (up : bool) (ev : event (K := K)) s : Z :=
  match ev with
  | EvFrame u =>
      match next_frame u s with
      | Some copy => if Bool.eqb u up && stops (worker_cfg fd_wan fd_lan u s) (Some (nat_of s)) (parse (frame_of copy)) then 1 else 0
      | None => 0
      end
  | _ => 0
  end.
Definition replied (ev : event (K := K)) s : Z :=
  match ev with
  | EvService SvcDhcp r =>
      if ticks r s then answers DhcpEngine.kBackgroundTaskBudget fd_lan (e_dhcp (y_eng s)) (y_world s) else 0
  | _ => 0
  end.
Definition abandoned (ev : event (K := K)) s : Z :=
  match ev with
  | EvDrain u =>
      match Shaper.process_queue (if u then fd_wan else fd_lan) (sd_shaper (side u s)) (y_world s) with
      | Some (_, _, res) => fatal res
      | None => 0
      end
  | _ => 0
  end.

(** The two accounts: frames from the kernel to classification, per direction; packets
    from classification, and the server's answers, to their end. *)
Definition inflow_ok (ev : event (K := K)) s s' : Prop := forall up,
  processed up s' + in_ring up s' + stopped up ev s + overflowed up ev s ≡64 processed up s + in_ring up s + received up ev s.
Definition kept (s : system K) : Z := placed (y_world s) + in_shaper true s + in_shaper false s.
Definition outflow_ok (ev : event (K := K)) s s' : Prop :=
  kept s' + abandoned ev s + processed true s + processed false s ≡64
  kept s + replied ev s + overflowed true ev s + overflowed false ev s + processed true s' + processed false s'.
Definition balanced (ev : event (K := K)) s s' : Prop := inflow_ok ev s s' /\ outflow_ok ev s s'.

(** ** Events that touch none of it *)
Definition same_books s s' : Prop :=
  w_wire (y_world s') = w_wire (y_world s) /\ core_metrics (tel s') = core_metrics (tel s) /\
  shaper_counters (tel s') = shaper_counters (tel s) /\
  forall up, sd_batch (side up s') = sd_batch (side up s) /\ sd_queue (side up s') = sd_queue (side up s) /\
    Shaper.queue (sd_shaper (side up s')) = Shaper.queue (sd_shaper (side up s)).
Definition silent (ev : event (K := K)) s : Prop :=
  (forall up, received up ev s = 0 /\ overflowed up ev s = 0 /\ stopped up ev s = 0) /\ replied ev s = 0 /\ abandoned ev s = 0.

Lemma same_balanced ev s s' : silent ev s -> same_books s s' -> balanced ev s s'.
Proof.
  intros (Hz & Hr & Ha) (Hw & Hc & Hsc & Hs). unfold balanced, inflow_ok, outflow_ok, kept, placed, drops, refused,
    processed, committed, in_ring, in_shaper. unfold tel in *.
  assert (forall i, core (w_tel (y_world s')) i = core (w_tel (y_world s)) i) as Hci by (intros; unfold core; by rewrite Hc).
  split.
  - intros up. destruct (Hz up) as (-> & -> & ->), (Hs up) as (-> & -> & _). rewrite Hci. apply (cong_by _ _ 0 0); [done|lia].
  - destruct (Hz true) as (_ & -> & _), (Hz false) as (_ & -> & _), (Hs true) as (-> & _ & ->), (Hs false) as (-> & _ & ->).
    rewrite Hr, Ha, Hw, Hsc, !Hci. apply (cong_by _ _ 0 0); [done|lia].
Qed.

Lemma same_books_refl s : same_books s s.
Proof. by split_and!. Qed.
Lemma idle_silent up s : next_frame up s = None -> silent (EvFrame up) s.
Proof. intros E. unfold silent, stopped. rewrite E. by split_and!. Qed.

(** ** The data plane *)
Lemma rx_balanced up raw s : sys_inv s -> balanced (EvRx up raw) s (data_rx up raw s).
Proof.
  intros Hi. pose proof (si_tel _ Hi) as Ht. pose proof (di_queue _ _ (inv_side up s Hi)) as Hq.
  unfold data_rx, rx_frame. set (copy := rx_copy raw). set (q := sd_queue (side up s)) in *.
  assert (exists ok q', SpscRingBuffer.push FRAME_QUEUE copy q = (ok, q') /\
    length (SpscRingBuffer.contents RxFrameCopy0 FRAME_QUEUE q')
    = (length (SpscRingBuffer.contents RxFrameCopy0 FRAME_QUEUE q) + if ok then 1 else 0)%nat) as (ok & q' & E & Hl).
  { pose proof (SpscRingBuffer.contents_bounded RxFrameCopy0 FRAME_QUEUE frame_queue_pos q Hq) as Hb.
    destruct (decide (length (SpscRingBuffer.contents RxFrameCopy0 FRAME_QUEUE q) < FRAME_QUEUE - 1)%nat) as [Hlt|Hge].
    - destruct (SpscRingBuffer.spsc_push_accept RxFrameCopy0 FRAME_QUEUE frame_queue_pos q copy Hq Hlt) as (q' & E & _ & Ec).
      exists true, q'. by rewrite E, Ec, length_app.
    - exists false, q. rewrite (SpscRingBuffer.push_refuse RxFrameCopy0 FRAME_QUEUE frame_queue_pos q copy Hq) by lia. by rewrite Nat.add_0_r. }
  assert (forall u, overflowed u (EvRx up raw) s = if Bool.eqb up u && negb ok then 1 else 0) as Hov
    by (intros u; unfold overflowed; fold copy; fold q; by rewrite E).
  set (t := if ok then tel s else count_drop (tel s) (core_of up) 0).
  set (s' := put_tel (put_side up s (MkSide (sd_batch (side up s)) (sd_shaper (side up s)) q')) t).
  assert ((let '(q0, t0) := match SpscRingBuffer.push FRAME_QUEUE copy q with
      (true, q1) => (q1, tel s) | (false, q1) => (q1, count_drop (tel s) (if up then 3%nat else 2%nat) 0) end in
    put_tel (put_side up s (MkSide (sd_batch (side up s)) (sd_shaper (side up s)) q0)) t0) = s') as ->
    by (rewrite E; by destruct ok).
  assert (forall u, processed u s' = processed u s) as Hp.
  { intros u. unfold processed, committed. f_equal; [|by destruct up, u].
    change (w_tel (y_world s')) with t. unfold t. destruct ok; [done|]. apply pkts_drop; [done|]. destruct up; cbn; lia. }
  assert (forall u, in_shaper u s' = in_shaper u s) as Hsh by (intros u; by destruct up, u).
  assert (forall u, in_ring u s' = in_ring u s + if Bool.eqb up u && ok then 1 else 0) as Hr.
  { intros u. unfold in_ring. destruct (Bool.eqb up u) eqn:Eu.
    - apply eqb_prop in Eu as <-. replace (sd_queue (side up s')) with q' by (by destruct up). rewrite Hl. fold q.
      destruct ok; cbn [andb]; lia.
    - replace (sd_queue (side u s')) with (sd_queue (side u s)) by (by destruct up, u). cbn [andb]. lia. }
  assert (placed (y_world s') ≡64 placed (y_world s) + if ok then 0 else 1) as Hpl.
  { unfold s', t. destruct ok; [change (placed (y_world s) ≡64 placed (y_world s) + 0); by rewrite Z.add_0_r|].
    destruct up; apply placed_drop; auto; lia. }
  clearbody s' t. split.
  - intros u. rewrite Hp, Hr, Hov. cbn [received stopped]. destruct (Bool.eqb up u), ok; cbn [andb negb];
      (apply (cong_by _ _ 0 0); [done|lia]).
  - unfold outflow_ok, kept. rewrite !Hsh, !Hp, !Hov. cbn [abandoned replied].
    eapply cong_by; [exact Hpl|]. destruct up, ok; cbn; lia.
Qed.

Lemma length_tail_head {A} (l : list A) x : Some x = head l -> Z.of_nat (length (tail l)) + 1 = Z.of_nat (length l).
Proof. destruct l; [done|]. intros _. cbn [tail length]. lia. Qed.
(** What a worker's turn leaves behind, seen from the system. *)
Lemma side_put up s d : side up (put_side up s d) = d.
Proof. by destruct up. Qed.
Lemma side_put_other u up s d : u <> up -> side u (put_side up s d) = side u s.
Proof. by destruct u, up. Qed.
Lemma put_consumer_books up s d sh : d_shaper d = Some sh -> let s' := put_consumer up s d in
  processed up s' = committed (core_of up) (d_world d) + b_pkts (d_stats d) /\
  processed (negb up) s' = committed (core_of (negb up)) (d_world d) + b_pkts (sd_batch (side (negb up) s)) /\
  in_shaper up s' = queued d /\ in_shaper (negb up) s' = in_shaper (negb up) s /\
  (forall u, in_ring u s' = in_ring u s) /\ placed (y_world s') = placed (d_world d).
Proof. intros Es. unfold queued, in_shaper. rewrite Es. unfold put_consumer. rewrite Es. destruct up; split_and!; try reflexivity; intros []; reflexivity. Qed.

(** A worker's turn that classifies [n] packets, takes [m] frames off the ring, and stops,
    or gives up, some of them. *)
Lemma worker_balanced ev up s s' (n m st ab : Z) :
  (forall u, received u ev s = 0 /\ overflowed u ev s = 0) -> replied ev s = 0 -> abandoned ev s = ab ->
  stopped up ev s = st -> stopped (negb up) ev s = 0 -> n + st = m ->
  processed up s' ≡64 processed up s + n -> processed (negb up) s' = processed (negb up) s ->
  in_ring up s' + m = in_ring up s -> in_ring (negb up) s' = in_ring (negb up) s ->
  in_shaper (negb up) s' = in_shaper (negb up) s ->
  placed (y_world s') + in_shaper up s' + ab ≡64 placed (y_world s) + in_shaper up s + n -> balanced ev s s'.
Proof.
  intros Hz Hr Ha Hst Hst' Hn Hp Hp' Hi Hi' Hs' Hk. split.
  - intros u. destruct (Hz u) as [-> ->]. destruct (decide (u = up)) as [->|Hu].
    + rewrite Hst. eapply cong_by; [exact Hp|lia].
    + assert (u = negb up) as -> by (by destruct u, up). rewrite Hst', Hp', Hi'. apply (cong_by _ _ 0 0); [done|lia].
  - unfold outflow_ok, kept. destruct (Hz true) as [_ ->], (Hz false) as [_ ->]. rewrite Hr, Ha.
    destruct up; cbn [negb] in *; rewrite Hs', Hp'; (eapply cong_by2; [exact Hk|symmetry; exact Hp|lia]).
Qed.

Lemma consumer_ok up s : sys_inv s -> dp_ok (consumer up s).
Proof. intros Hi. exact (dv_ok _ _ _ _ _ (consumer_inv up s Hi)). Qed.
Lemma worker_is up s : cf_core (worker_cfg fd_wan fd_lan up s) = 2 \/ cf_core (worker_cfg fd_wan fd_lan up s) = 3.
Proof. destruct up; auto. Qed.

Lemma frame_balanced up s s' : sys_inv s -> data_frame fd_wan fd_lan up s = Some s' -> balanced (EvFrame up) s s'.
Proof.
  intros Hi. unfold data_frame. pose proof (di_queue _ _ (inv_side up s Hi)) as Hq.
  destruct (SpscRingBuffer.spsc_pop_refines RxFrameCopy0 FRAME_QUEUE frame_queue_pos _ Hq) as (_ & Hh & Htl).
  destruct (SpscRingBuffer.pop _ _ _) as [[copy|] q]; cbn [fst snd] in Hh, Htl; intros Hrun.
  - set (s1 := put_side up s _) in Hrun.
    assert (worker_cfg fd_wan fd_lan up s1 = worker_cfg fd_wan fd_lan up s) as Ecf by (by destruct up).
    assert (consumer up s1 = consumer up s) as Eco by (by destruct up). rewrite Ecf, Eco in Hrun.
    destruct (proc_frame _ copy _) as [d|] eqn:E; [|done]. cbn [mbind option_bind] in Hrun. injection Hrun as <-.
    pose proof (proc_frame_inv (worker_cfg fd_wan fd_lan up s) eq_refl (worker_core fd_wan fd_lan up s) _ _ _ _ _ _ (consumer_inv up s Hi) E) as Hd.
    destruct (dk_shaper _ (dv_ok _ _ _ _ _ Hd)) as (sh & Es & _).
    apply frame_books in E as (H1 & H2 & H3); [|done|apply worker_is|by apply consumer_ok].
    destruct (put_consumer_books up s1 d sh Es) as (B1 & B2 & B3 & B4 & B5 & B6).
    cbn [consumer d_nat] in H1, H3. fold (nat_of s) in H1, H3. set (st := stops _ _ _) in H1, H3. set (r := if st then 0 else 1) in H1, H3.
    assert (next_frame up s = Some copy) as Hnext by (unfold next_frame; symmetry; exact Hh).
    assert (Z.to_nat (cf_core (worker_cfg fd_wan fd_lan up s)) = core_of up) as Ec by (by destruct up). rewrite Ec in *.
    assert (in_ring up s1 + 1 = in_ring up s) as Hr.
    { unfold in_ring, s1. rewrite side_put. cbn [sd_queue]. rewrite Htl. exact (length_tail_head _ _ Hh). }
    assert (side (negb up) s1 = side (negb up) s) as Hn by (apply side_put_other; by destruct up).
    clearbody s1.
    apply (worker_balanced (EvFrame up) up _ _ r 1 (1 - r) 0).
    + intros u. by split.
    + reflexivity.
    + reflexivity.
    + unfold stopped. rewrite Hnext, eqb_reflx. cbn [andb]. fold st. unfold r. case_if; reflexivity.
    + unfold stopped. rewrite Hnext. by destruct up.
    + lia.
    + rewrite B1. exact H1.
    + rewrite B2, Hn, H2 by (by destruct up). reflexivity.
    + rewrite B5. exact Hr.
    + rewrite B5. unfold in_ring. rewrite Hn. reflexivity.
    + rewrite B4. unfold in_shaper. rewrite Hn. reflexivity.
    + rewrite B3, B6, Z.add_0_r. exact H3.
  - injection Hrun as <-. apply same_balanced; [|apply same_books_refl]. apply idle_silent. unfold next_frame. symmetry. exact Hh.
Qed.

Lemma drain_balanced up s s' : sys_inv s -> data_drain fd_wan fd_lan up s = Some s' -> balanced (EvDrain up) s s'.
Proof.
  intros Hi. unfold data_drain, drain_shaper. cbn [consumer d_shaper d_world].
  set (fd := cf_tx_fd _). assert (fd = if up then fd_wan else fd_lan) as Efd by (by destruct up).
  destruct (Shaper.process_queue fd _ _) as [[[sh w] ev]|] eqn:E; [|done]. cbn [mbind option_bind]. intros [= <-].
  pose proof (drain_books _ _ _ _ _ _ _ (di_shaper _ _ (inv_side up s Hi)) E) as [Hcm Hk].
  assert (forall t, fold_left (fun tel e => CallbackRegistry.dispatch_tx_result (cf_events (worker_cfg fd_wan fd_lan up s)) (fst e)
            (Z.of_nat (length (snd e))) tel) ev t = t) as Hrep.
  { clear. induction ev as [|e ev IH]; intros t; [done|]. cbn. apply IH. }
  set (d := on_tel _ _). assert (d_world d = w) as Ew by (unfold d; cbn [d_world on_tel set_world set_shaper]; rewrite Hrep; by destruct w).
  assert (d_shaper d = Some sh) as Es by reflexivity. assert (d_stats d = sd_batch (side up s)) as Est by reflexivity. clearbody d.
  destruct (put_consumer_books up s d sh Es) as (B1 & B2 & B3 & B4 & B5 & B6). rewrite Ew in *.
  assert (forall i, committed i w = committed i (y_world s)) as Hc by (intros i; unfold committed, core; by rewrite Hcm).
  apply (worker_balanced (EvDrain up) up _ _ 0 0 0 (fatal ev)).
  - intros u. by split.
  - reflexivity.
  - unfold abandoned. rewrite <- Efd, E. reflexivity.
  - reflexivity.
  - reflexivity.
  - lia.
  - rewrite B1, Hc, Est, Z.add_0_r. reflexivity.
  - rewrite B2, Hc. reflexivity.
  - rewrite B5. lia.
  - by rewrite B5.
  - exact B4.
  - rewrite B3, B6, Z.add_0_r. unfold queued. rewrite Es. unfold in_shaper. by rewrite Hk.
Qed.

(** An event that changes none of what the books are about. *)
#[local] Ltac quiet := split; [reflexivity|split; [reflexivity|split; [reflexivity|intros []; split_and!; reflexivity]]].
#[local] Ltac hush := split; [intros ?; split_and!; reflexivity|split; reflexivity].

(** ** The services *)
Lemma qos_tick_books s : same_books s (qos_tick s).
Proof.
  unfold qos_tick, qos_tick1Hz, qos_mode_tick, qos_rate_tick.
  destruct (mode_config_dirty (mode (tel s))), (qos_global_bw_dirty _); quiet.
Qed.
Lemma dhcp_books s s' : sys_inv s -> dhcp_tick kern fd_lan s = Some s' ->
  (forall u, processed u s' = processed u s /\ in_ring u s' = in_ring u s /\ in_shaper u s' = in_shaper u s) /\
  placed (y_world s') ≡64 placed (y_world s) + answers DhcpEngine.kBackgroundTaskBudget fd_lan (e_dhcp (y_eng s)) (y_world s).
Proof.
  intros Hi. unfold dhcp_tick. destruct (DhcpEngine.process_background_tasks _ _ _) as [[e w]|] eqn:E; [|done].
  cbn [mbind option_bind]. intros [= <-]. apply answers_books in E as [Hc Hp]; [|exact (si_tel _ Hi)].
  split; [|exact Hp]. intros u. split; [|by destruct u]. unfold processed. rewrite <- Hc. by destruct u.
Qed.
Lemma svc_books v s s' : svc_tick kern fd_lan v s = Some s' -> v <> SvcDhcp -> same_books s s'.
Proof.
  destruct v; cbn [svc_tick]; intros H Hv.
  - injection H as <-. quiet.
  - unfold l2_tick in H. destruct (refresh_l2 _ _ _ _ _ _) as [st|]; [|discriminate]. injection H as <-. quiet.
  - injection H as <-. quiet.
  - by destruct Hv.
  - injection H as <-. apply qos_tick_books.
  - injection H as <-. quiet.
Qed.

(** A service thread that ends instead of working. *)
Lemma service_balanced v r s s' : sys_inv s -> service_wakes kern fd_lan v r s = Some s' -> balanced (EvService v r) s s'.
Proof.
  intros Hi (efd & Hi1 & H)%service_wakes_cases; [|done..].
  assert (replied (EvService v r) s = 0 -> silent (EvService v r) s) as Hsil by (intros Hr; split; [intros u; split_and!; reflexivity|split; [exact Hr|reflexivity]]).
  assert (replied (EvService v r) s = match v with SvcDhcp => if ticks r s
    then answers DhcpEngine.kBackgroundTaskBudget fd_lan (e_dhcp (y_eng s)) (y_world s) else 0 | _ => 0 end) as Hrep by (by destruct v).
  destruct (ticks r s); [destruct H as (s2 & E & ->)|subst; apply same_balanced; [apply Hsil; rewrite Hrep; by destruct v|quiet]].
  assert ({v = SvcDhcp} + {v <> SvcDhcp}) as [->|Hv] by (destruct v; first [by left|by right]).
  - apply dhcp_books in E as [Hs Hp]; [|exact Hi1]. clear Hsil. split.
    + intros u. destruct (Hs u) as (H1 & H2 & _). apply (cong_by _ _ 0 0); [done|].
      change (processed u s2 + in_ring u s2 + 0 + 0 - (processed u s + in_ring u s + 0) = 0 - 0).
      change (processed u s) with (processed u (set_stop_efd s efd)). change (in_ring u s) with (in_ring u (set_stop_efd s efd)). lia.
    + destruct (Hs true) as (H1 & _ & H2), (Hs false) as (H3 & _ & H4). eapply cong_by; [exact Hp|]. rewrite Hrep. unfold kept.
      change (in_shaper true s2 = in_shaper true s) in H2. change (in_shaper false s2 = in_shaper false s) in H4.
      change (processed true s2 = processed true s) in H1. change (processed false s2 = processed false s) in H3.
      change (placed (y_world s2) + in_shaper true s2 + in_shaper false s2 + 0 + processed true s + processed false s -
        (placed (y_world s) + in_shaper true s + in_shaper false s + answers DhcpEngine.kBackgroundTaskBudget fd_lan (e_dhcp (y_eng s)) (y_world s)
          + 0 + 0 + processed true s2 + processed false s2) =
        placed (y_world s2) - (placed (y_world s) + answers DhcpEngine.kBackgroundTaskBudget fd_lan (e_dhcp (y_eng s)) (y_world s))). lia.
  - apply same_balanced; [apply Hsil; rewrite Hrep; by destruct v|]. apply svc_books in E; [exact E|exact Hv].
Qed.

(** ** All events *)
Lemma control_books failed s s' : control_wakes kern failed s = Some s' -> same_books s s'.
Proof.
  unfold control_wakes. case_if; [done|]. destruct failed; [intros [= <-]; quiet|].
  case_if; [intros [= <-]; quiet|]. case_if; [|done]. intros [= <-].
  destruct (ct_running (y_ctl s)); [|quiet]. unfold apply_dhcp.
  destruct (applyDhcpConfig _ _ _ _ _) as [[[? ?] ?] ?]. quiet.
Qed.
Lemma apply_bw_books s : same_books s (gui_apply_bw qt s).
Proof.
  unfold gui_apply_bw. destruct (on_apply_bw_cases qt (g_page (y_gui s)) (tel s)) as [->|(dl & ul & _ & _ & ->)]; quiet.
Qed.
Lemma apply_pool_books s : same_books s (gui_apply_pool qt s).
Proof. unfold gui_apply_pool. destruct (g_dialog (y_gui s)) as [d|]; [|quiet]. destruct (on_apply qt d _); quiet. Qed.
Lemma switch_books lb inside s : same_books s (gui_switch lb inside s).
Proof. unfold gui_switch, switch_released. case_if; quiet. Qed.

Lemma step_balanced ev s s' : sys_inv s -> sys_step kern qt fd_wan fd_lan ev s = Some s' -> balanced ev s s'.
Proof.
  intros Hi. destruct ev; cbn [sys_step]; intros H.
  - injection H as <-. by apply rx_balanced.
  - by apply frame_balanced.
  - by apply drain_balanced.
  - injection H as <-. apply same_balanced; [hush|quiet].
  - unfold loop_top in H. destruct (bool_decide _); [|discriminate]. injection H as <-. apply same_balanced; [hush|quiet].
  - by apply service_balanced.
  - apply same_balanced; [hush|by eapply control_books].
  - unfold l2_tick in H. destruct (refresh_l2 _ _ _ _ _ _) as [st|]; [|discriminate]. injection H as <-.
    apply same_balanced; [hush|quiet].
  - injection H as <-. apply same_balanced; [hush|quiet].
  - injection H as <-. apply same_balanced; [hush|quiet].
  - injection H as <-. apply same_balanced; [hush|quiet].
  - injection H as <-. apply same_balanced; [hush|apply switch_books].
  - injection H as <-. apply same_balanced; [hush|apply apply_bw_books].
  - injection H as <-. apply same_balanced; [hush|quiet].
  - injection H as <-. apply same_balanced; [hush|quiet].
  - injection H as <-. apply same_balanced; [hush|apply apply_pool_books].
  - injection H as <-. apply same_balanced; [hush|quiet].
  - injection H as <-. apply same_balanced; [hush|quiet].
  - injection H as <-. apply same_balanced; [hush|quiet].
Qed.

(** ** Runs *)
Fixpoint total (f : event (K := K) -> system K -> Z) (es : list (event (K := K))) s : Z :=
  match es with
  | [] => 0
  | ev :: es' => f ev s + match sys_step kern qt fd_wan fd_lan ev s with Some s' => total f es' s' | None => 0 end
  end.
Definition is_rx (up : bool) (ev : event (K := K)) : bool := match ev with EvRx u _ => Bool.eqb u up | _ => false end.

Lemma run_balanced es s s' : sys_inv s -> sys_run kern qt fd_wan fd_lan es s = Some s' ->
  (forall up, processed up s' + in_ring up s' + total (stopped up) es s + total (overflowed up) es s
    ≡64 processed up s + in_ring up s + tally (is_rx up) es) /\
  kept s' + total abandoned es s + processed true s + processed false s ≡64
  kept s + total replied es s + total (overflowed true) es s + total (overflowed false) es s + processed true s' + processed false s'.
Proof.
  revert s. induction es as [|ev es IH]; intros s Hi; cbn [sys_run total].
  - intros [= <-]. split; [intros up; change (tally (is_rx up) []) with 0|]; (apply (cong_by _ _ 0 0); [done|lia]).
  - destruct (sys_step kern qt fd_wan fd_lan ev s) as [s1|] eqn:E; [|done]. intros Hrun.
    destruct (step_balanced ev s s1 Hi E) as [Ha Hb]. unfold inflow_ok, outflow_ok in Ha, Hb.
    destruct (IH s1 (sys_step_inv kern qt fd_wan fd_lan Hhw ev s s1 Hi E) Hrun) as [Hc Hd]. split.
    + intros up. rewrite tally_cons. assert (received up ev s = if is_rx up ev then 1 else 0) as Er by (by destruct ev).
      eapply cong_by2; [exact (Ha up)|exact (Hc up)|rewrite <- Er; lia].
    + eapply cong_by2; [exact Hb|exact Hd|lia].
Qed.
End Run.

Lemma boot_books {K} (kern : Kernel K) qt c mac wan_raw lan_raw k clock rs s :
  boot kern qt c mac wan_raw lan_raw k (world0 clock rs) = Some s ->
  (forall up, processed up s = 0 /\ in_ring up s = 0 /\ in_shaper up s = 0) /\ placed (y_world s) = 0.
Proof.
  unfold boot. destruct (app_init kern c wan_raw lan_raw (app_make c mac) k) as [[[e|u] a] k'] eqn:E; [done|]. clear E.
  set (w := world0 clock rs). unfold app_start. cbn [w_tel w world0].
  destruct default_limits_ok as [L1 L2].
  destruct (Shaper.make 500 w) as [sdl w1] eqn:E1, (Shaper.make 50 w1) as [sul w2] eqn:E2.
  unfold Shaper.make, TokenBucket.make, now in E1, E2. injection E1 as <- <-. injection E2 as <- <-.
  intros [= <-]. split; [intros []; split_and!; reflexivity|reflexivity].
Qed.

(** C27: every frame is accounted for.  From a successful start, after any sequence of
    events (frames of both directions, the two workers, drains of the shapers, the six
    services with whatever the kernel answers, the control thread, the dashboard): in each
    direction the frames received are those classified and counted (committed to the
    telemetry or pending in the worker's batch), those waiting in the frame queue, those
    turned away by the full frame queue, and those that stopped in the pipeline, handed to
    the DHCP server or without a next hop; and of both directions together with the
    answers of the DHCP server, each is on the wire, counted dropped by a core, counted
    refused by a shaper, waiting in a frame queue or a shaper, stopped in the pipeline, or
    given up by a shaper after a send error that is not congestion, the only loss no
    counter shows.  Counters are 64-bit, so both accounts are modulo 2^64. *)
Theorem every_frame_accounted {K} (kern : Kernel K) (qt : Qt) (fd_wan fd_lan : Z) (c : Config) (mac : option (list Z))
    (wan_raw lan_raw : bool) (k : K) (clock : nat -> Z) (rs : list SendReply) (es : list event) (s0 s : system K)
    (Hhw : forall k i b m, siocgifhwaddr kern i k = Some (b, m) -> (6 <= length m)%nat /\ bytes_ok m)
    (Hboot : boot kern qt c mac wan_raw lan_raw k (world0 clock rs) = Some s0)
    (Hrun : sys_run kern qt fd_wan fd_lan es s0 = Some s) :
  let sum f := total kern qt fd_wan fd_lan f es s0 in
  let stop up := sum (stopped fd_wan fd_lan up) in
  let t := w_tel (y_world s) in
  (forall up, tally (is_rx up) es
     ≡64 pkts (core t (core_of up)) + b_pkts (sd_batch (side up s)) + in_ring up s + sum (overflowed up) + stop up) /\
  tally (is_rx true) es + tally (is_rx false) es + sum (replied fd_lan)
  ≡64 Z.of_nat (length (w_wire (y_world s))) + drops 2 t + drops 3 t + refused t
      + in_ring true s + in_ring false s + in_shaper true s + in_shaper false s
      + stop true + stop false + sum (abandoned fd_wan fd_lan).
Proof.
  destruct (boot_books _ _ _ _ _ _ _ _ _ _ Hboot) as [Hz Hp].
  destruct (run_balanced kern qt fd_wan fd_lan Hhw es s0 s (boot_inv kern qt _ _ _ _ _ _ _ _ Hboot) Hrun) as [Ha Hb].
  destruct (Hz true) as (Z1 & Z2 & Z3), (Hz false) as (Z4 & Z5 & Z6). unfold kept in Hb. rewrite Hp, Z1, Z3, Z4, Z6 in Hb.
  pose proof (Ha true) as Ht. pose proof (Ha false) as Hf. rewrite Z1, Z2 in Ht. rewrite Z4, Z5 in Hf.
  intros sum stop t. split.
  - intros up. specialize (Ha up). destruct (Hz up) as (E1 & E2 & _). rewrite E1, E2 in Ha.
    symmetry. eapply cong_by; [exact Ha|]. unfold processed, committed, stop, sum, t. lia.
  - unfold placed in Hb. fold t in Hb. symmetry. pose proof (cong_add _ _ Ht _ _ Hf) as Htf. unfold stop, sum. eapply cong_by2; [exact Hb|exact Htf|lia].
Qed.

(** A run with one of nearly everything: a DHCP request that is answered, a packet the
    kernel has no room for, a reply from the WAN sent on, three large packets through the
    shaper of which one is sent, one given up and one waiting, and one frame not yet
    taken from the queue. *)
Definition w_large : list Z := w_udp ++ replicate 1400 0.
Definition w_day : list (event (K := option Z)) :=
  [EvRx true w_discover; EvFrame true; EvRx true w_udp; EvRx true w_large; EvRx true w_large; EvRx true w_large;
   EvRx true w_udp; EvRx false w_answer;
   EvReplies [SendError ENOBUFS; Sent 320; Sent 42; Sent 1442; SendError (EOther 5)];
   EvFrame true; EvTop 3; EvService SvcDhcp PollTimeout; EvFrame false; EvFrame true; EvDrain true; EvFrame true;
   EvDrain true; EvFrame true].
(** Received and answered; sent, dropped, refused; in the frame queues; in the shapers;
    stopped; given up. *)
Definition w_books (s0 s : system (option Z)) : list (list Z) :=
  let sum f := total w_net qt_digits 7 8 f w_day s0 in let t := w_tel (y_world s) in
  [[tally (is_rx true) w_day; tally (is_rx false) w_day; sum (replied 8)];
   [Z.of_nat (length (w_wire (y_world s))); drops 2 t; drops 3 t; refused t];
   [in_ring true s; in_ring false s]; [in_shaper true s; in_shaper false s];
   [sum (stopped 7 8 true); sum (stopped 7 8 false)]; [sum (abandoned 7 8)]].

Definition w_closing : list (list Z) := [[6; 1; 1]; [3; 0; 1; 0]; [1; 0]; [1; 0]; [1; 0]; [1]].
Example w_day_books :
  match w_boot with
  | Some s0 => match sys_run w_net qt_digits 7 8 w_day s0 with
      | Some s => w_books s0 s = w_closing /\ tally (is_rx true) w_day = 6 /\ in_ring true s = 1 /\
          total w_net qt_digits 7 8 (overflowed true) w_day s0 = 0 /\ total w_net qt_digits 7 8 (stopped 7 8 true) w_day s0 = 1
      | None => False end
  | None => False
  end.
Proof. vm_compute. split_and!; reflexivity. Qed.

Lemma every_frame_accounted_witness : exists s0 s,
  w_boot = Some s0 /\ sys_run w_net qt_digits 7 8 w_day s0 = Some s /\ w_books s0 s = w_closing /\
  6 ≡64 pkts (core (w_tel (y_world s)) 3) + b_pkts (sd_batch (y_up s)) + 1 + 0 + 1.
Proof.
  pose proof w_day_books as Hb. destruct w_boot as [s0|] eqn:E0; [|destruct Hb].
  destruct (sys_run w_net qt_digits 7 8 w_day s0) as [s|] eqn:E1; [|destruct Hb]. destruct Hb as (Hb & B1 & B2 & B3 & B4).
  pose proof (proj1 (every_frame_accounted w_net qt_digits 7 8 Config0 None true true None (fun i => Z.of_nat i * 1000000) []
    w_day s0 s w_net_hw E0 E1) true) as H. cbv beta zeta in H. cbn [core_of side] in H. rewrite B1, B2, B3, B4 in H.
  exists s0, s. split; [reflexivity|]. split; [exact E1|]. split; [exact Hb|exact H].
Defined.
