(* ===== verification/Leases.v ===== *)
(** The DHCP server inside the running program: requests reach it in order through the
    data plane, and an acknowledged lease stays exclusive whatever the rest of the program
    does, from one change of the pool to the next. *)
From Stdlib Require Import ZArith Lia Ascii String QArith.
From stdpp Require Import base numbers strings list.
From S2P Require Import Prelude Text Types_util Headers_util Processor Telemetry TxFrame Rings NatEngine DhcpEngine DhcpProofs.
From S2P Require Import Scheduler Config Network_util NetworkConfig ForwardingState Forward QosService NumPad Dashboard App.
From S2P Require Import ControlPlane System EndToEnd TestPackets.
#[local] Open Scope Z_scope.
#[local] Open Scope list_scope.
Import DhcpEngine.

(** * One round of the service *)
(** The requests waiting, in order. *)
Definition requests (e : DhcpEngine.t) : list DhcpMessage :=
  SpscRingBuffer.contents DhcpMessage0 REQUEST_QUEUE (request_queue e).
Definition queue_ok (e : DhcpEngine.t) : Prop := SpscRingBuffer.wf REQUEST_QUEUE (request_queue e).
Lemma request_queue_pos : (1 < REQUEST_QUEUE)%nat.
Proof. unfold REQUEST_QUEUE. lia. Qed.

(** What a round answers: each request it takes, with the grant it leads to. *)
Fixpoint batch (n : nat) (fd : Z) (e : DhcpEngine.t) (w : World) : list (DhcpMessage * list grant) :=
  match n with
  | O => []
  | S n' =>
      match SpscRingBuffer.pop DhcpMessage0 REQUEST_QUEUE (request_queue e) with
      | (None, _) => []
      | (Some msg, q) =>
          let e := set_queue e q in
          (msg, log_entry msg e w) ::
          match handle_dhcp_request msg fd e w with Some (e', w') => batch n' fd e' w' | None => [] end
      end
  end.
Definition grants (b : list (DhcpMessage * list grant)) : list grant := concat (map snd b).

(** What a lease depends on; the rest of the engine may change under it. *)
Definition same_leases (e e' : DhcpEngine.t) : Prop :=
  leases e' = leases e /\ pool_count e' = pool_count e /\ lease_duration e' = lease_duration e.
Lemma honoured_same a e e' tm : same_leases e e' -> honoured a e tm -> honoured a e' tm.
Proof. intros (El & Ec & _). unfold honoured, pool. by rewrite El, Ec. Qed.
Lemma grants_later e e' w w' log : same_leases e e' -> steady_clock (w_clock w) -> w_clock w' = w_clock w ->
  (w_clk w <= w_clk w')%nat -> grants_ok e w log -> grants_ok e' w' log.
Proof.
  intros Hs Hst Ec Hk Hg a Ha Hty Hip. destruct (Hg a Ha Hty Hip) as [H1 H2]. rewrite Ec. pose proof (Hst _ _ Hk) as Ht.
  split; [eapply honoured_same; [exact Hs|]; by eapply honoured_later|].
  destruct Hs as (_ & _ & Ed). unfold duration in *. rewrite Ed. lia.
Qed.

Lemma handle_queue msg fd e w e' w' : lease_inv e -> handle_dhcp_request msg fd e w = Some (e', w') ->
  request_queue e' = request_queue e.
Proof.
  intros He H. destruct (parse_request msg) as [q|] eqn:Hq; [|unfold handle_dhcp_request in H; rewrite Hq in H; by simplify_eq].
  destruct (decide_response msg q e w) as [[r e1] w1] eqn:Hd.
  destruct (handle_decides _ _ _ _ _ _ _ _ _ _ H Hq Hd) as [-> _]. by destruct (decide_response_inv _ _ _ _ _ _ _ He Hd) as (_ & ? & _).
Qed.

Lemma batch_spec n fd e w e' w' log : lease_inv e -> queue_ok e -> steady_clock (w_clock w) ->
  background_loop n fd e w = Some (e', w') -> grants_ok e w log -> exclusive log ->
  queue_ok e' /\ w_clock w' = w_clock w /\
  map fst (batch n fd e w) = take n (requests e) /\ requests e' = drop n (requests e) /\
  grants_ok e' w' (log ++ grants (batch n fd e w)) /\ exclusive (log ++ grants (batch n fd e w)).
Proof.
  revert e w log. induction n as [|n IH]; intros e w log He Hq Hst; cbn [background_loop batch].
  { intros [= <- <-]. unfold grants. cbn [map concat]. by rewrite app_nil_r. }
  destruct (SpscRingBuffer.spsc_pop_refines DhcpMessage0 REQUEST_QUEUE request_queue_pos _ Hq) as (Hwf & Hh & Ht).
  destruct (SpscRingBuffer.pop DhcpMessage0 REQUEST_QUEUE (request_queue e)) as [[msg|] q]; cbn [fst snd] in *.
  - cbv zeta. set (e1 := set_queue e q). destruct (handle_dhcp_request msg fd e1 w) as [[e2 w2]|] eqn:E; [|done].
    intros Hrun Hg Hx. assert (lease_inv e1) as He1 by (by destruct He).
    destruct (serve_step msg fd e1 w e2 w2 log He1 Hst E) as (He2 & Hc & Hg2 & Hx2); [exact Hg|exact Hx|].
    pose proof (handle_queue _ _ _ _ _ _ He1 E) as Eq. change (request_queue e1) with q in Eq.
    destruct (IH e2 w2 (log ++ log_entry msg e1 w) He2) as (I1 & I2 & I3 & I4 & I5 & I6);
      [unfold queue_ok; by rewrite Eq|by rewrite Hc|done..|].
    assert (requests e2 = tail (requests e)) as Er by (unfold requests; rewrite Eq; exact Ht).
    fold (requests e) in Hh. destruct (requests e) as [|m rest]; [done|]. injection Hh as ->. cbn [tail] in Er.
    unfold grants in *. cbn [map concat fst snd take drop]. rewrite app_assoc, I3, I4, Er. split; [done|]. split; [congruence|]. by split_and!.
  - intros [= <- <-] Hg Hx. fold (requests e) in Hh. destruct (requests e) as [|m rest] eqn:Er; [|done].
    unfold grants. cbn [map concat]. rewrite app_nil_r. by split_and!.
Qed.

(** A DHCP frame is copied to the end of the queue, unless the queue is full. *)
Definition message_of (p : ParsedPacket) : DhcpMessage :=
  let len := Nat.min (length (raw_span p)) 512 in MkMsg len (copy_to (replicate 512 0) 0 (take len (raw_span p))).
Definition room (e : DhcpEngine.t) : bool := (length (requests e) <? REQUEST_QUEUE - 1)%nat.
Lemma intercept_spec p e : queue_ok e -> let e' := intercept_request p e in
  queue_ok e' /\ same_leases e e' /\ requests e' = requests e ++ (if room e then [message_of p] else []).
Proof.
  intros Hq e'. unfold e', intercept_request, queue_ok, requests, room. fold (message_of p).
  pose proof (SpscRingBuffer.contents_bounded DhcpMessage0 REQUEST_QUEUE request_queue_pos _ Hq) as Hb.
  destruct (Nat.ltb_spec (length (requests e)) (REQUEST_QUEUE - 1)) as [Hl|Hl]; unfold requests in Hl.
  - destruct (SpscRingBuffer.spsc_push_accept DhcpMessage0 REQUEST_QUEUE request_queue_pos _ (message_of p) Hq Hl) as (q & -> & Hwf & Hc).
    by split_and!.
  - rewrite (SpscRingBuffer.push_refuse DhcpMessage0 REQUEST_QUEUE request_queue_pos _ (message_of p) Hq) by lia.
    cbn [snd set_queue request_queue]. rewrite app_nil_r. by split_and!.
Qed.

(** * One step of the program *)
(** The clock of a world advances, its readings are the same. *)
Definition clock_on (w w' : World) : Prop := w_clock w' = w_clock w /\ (w_clk w <= w_clk w')%nat.
Lemma clock_same w : clock_on w w.
Proof. by split. Qed.
Lemma send_clock fd pkt c p w w' : send_best_effort fd pkt c p w = Some w' -> clock_on w w'.
Proof.
  unfold send_best_effort. destruct (try_send_packet_nonblocking fd pkt w) as [[res w1]|] eqn:E; [|done].
  destruct (try_send_frame _ _ _ _ _ E) as (Hc & Hk & _). unfold clock_on. destruct res; intros [= <-]; cbn; rewrite Hc, Hk; by split.
Qed.
Lemma enqueue_clock pkt s w : clock_on w (snd (Shaper.enqueue_normal pkt s w)).
Proof. unfold Shaper.enqueue_normal. destruct (ZeroAllocRingBuffer.push _ _ _) as [[] q]; [apply clock_same|]. by case_if. Qed.
Lemma consume_clock n b w ok b' w' : TokenBucket.try_consume n b w = (ok, b', w') -> clock_on w w'.
Proof.
  unfold TokenBucket.try_consume, TokenBucket.refill, TokenBucket.apply_new_rate, now, clock_on. intros H.
  repeat (case_match; simplify_eq); simpl; (split; [done|lia]).
Qed.
Lemma drain_clock f fd s w ev s' w' ev' : shaper_ok s -> Shaper.process_loop f fd s w ev = Some (s', w', ev') -> clock_on w w'.
Proof.
  unfold clock_on. revert s w ev. induction f as [|f IH]; intros s w ev Hs; [done|]. intros Hrun.
  apply process_loop_round in Hrun; [|done].
  destruct Hrun as [(_ & _ & -> & _)|(pkt & rest & ok & b & w1 & Hq & Hl & Hc & Hr)]; [by split|].
  destruct (consume_clock _ _ _ _ _ _ Hc) as [C1 K1].
  pose proof (try_consume_ok (Z.of_nat (length pkt)) (Shaper.bucket s) w ltac:(lia) ltac:(apply Hs)) as Hb.
  rewrite Hc in Hb. cbn [fst snd] in Hb. pose proof (shaper_ok_bucket s b Hs Hb) as Hs1.
  destruct Hr as [(_ & _ & -> & _)|(res & w2 & s2 & w3 & _ & Hsend & Hh & Hr)]; [split; [done|lia]|].
  destruct (try_hardware_send_wire _ _ _ _ _ Hsend) as (C2 & K2 & _).
  destruct (handle_result_spec _ _ _ _ _ _ _ Hs1 Hq Hh) as (Hs2 & _ & _ & _ & C3 & K3 & _).
  destruct Hr as [(_ & _ & -> & _)|(_ & Hrec)]; [split; [congruence|lia]|].
  destruct (IH _ _ _ Hs2 Hrec) as [C4 K4]. split; [congruence|lia].
Qed.

(** A frame reaches the server when it is a DHCP frame on the LAN side. *)
Definition for_server (cf : WorkerCfg) (p : ParsedPacket) : bool := (cf_core cf =? 3) && is_dhcp p.
Lemma not_for_server cf p : (cf_core cf = 3 -> is_dhcp p = false) -> for_server cf p = false.
Proof. intros H. unfold for_server. destruct (Z.eqb_spec (cf_core cf) 3) as [E|E]; [by rewrite H|done]. Qed.
Lemma fate_dhcp cf d p d' : cf_events cf = app_events -> fate cf d p d' ->
  d_dhcp d' = (if for_server cf p then option_map (intercept_request p) (d_dhcp d) else d_dhcp d) /\
  clock_on (d_world d) (d_world d').
Proof.
  intros Hev [d1 Hc Hd ->|nat p1 Hno _ _|nat p1 p2 prio d1 Hno _ _ _ Hd].
  - unfold for_server. rewrite Hc, Hd. cbn [Z.eqb andb]. destruct (d_dhcp d) eqn:E; cbn; by rewrite ?E.
  - rewrite not_for_server by done. by split.
  - rewrite not_for_server by done.
    set (dn := noted cf (with_nat d nat) p2 prio) in *. assert (d_dhcp dn = d_dhcp d) as Ed by done.
    assert (d_world dn = d_world d) as Ew by (unfold dn; by rewrite noted_world). clearbody dn.
    destruct Hd as [w' _ Hs|s s' w' _ _ _ Hq|_ _ _]; cbn [d_dhcp d_world set_world set_shaper]; (split; [done|]).
    + rewrite Ew in Hs. by apply send_clock in Hs.
    + rewrite Ew in Hq. pose proof (enqueue_clock (raw_span p2) s (d_world d)) as Hc. by rewrite Hq in Hc.
    + rewrite Ew. apply clock_same.
Qed.

Section Run.
Context {K : Type} (kern : Kernel K) (qt : Qt) (fd_wan fd_lan : Z).
Context (Hhw : forall k i b m, siocgifhwaddr kern i k = Some (b, m) -> (6 <= length m)%nat /\ bytes_ok m).
Implicit Types s : system K.

Definition dhcp_of s : DhcpEngine.t := e_dhcp (y_eng s).
(** What an event hands to the server, and what it answers; whether it changes the pool. *)
Definition asked (ev : event (K := K)) s : list DhcpMessage :=
  match ev with
  | EvFrame true =>
      match next_frame true s with
      | Some copy => let p := parse (frame_of copy) in if is_dhcp p && room (dhcp_of s) then [message_of p] else []
      | None => []
      end
  | _ => []
  end.
Definition served (ev : event (K := K)) s : list (DhcpMessage * list grant) :=
  match ev with
  | EvService SvcDhcp r => if ticks r s then batch kBackgroundTaskBudget fd_lan (dhcp_of s) (y_world s) else []
  | _ => []
  end.
Definition pool_applied (ev : event (K := K)) s : bool :=
  match ev with
  | EvControl None => negb (0 <? ct_stop_efd (y_ctl s)) && (0 <? ct_cfg_efd (y_ctl s)) && ct_running (y_ctl s)
  | _ => false
  end.

(** What a step does to the server. *)
Record lease_step (ev : event (K := K)) s s' : Prop := {
  ls_queue : queue_ok (dhcp_of s');
  ls_fifo : requests (dhcp_of s) ++ asked ev s = map fst (served ev s) ++ requests (dhcp_of s');
  ls_clock : w_clock (y_world s') = w_clock (y_world s);
  ls_grants : pool_applied ev s = false -> forall log,
    grants_ok (dhcp_of s) (y_world s) log -> exclusive log ->
    let log' := log ++ grants (served ev s) in grants_ok (dhcp_of s') (y_world s') log' /\ exclusive log' }.

Lemma lease_quiet ev s s' : queue_ok (dhcp_of s') -> same_leases (dhcp_of s) (dhcp_of s') ->
  requests (dhcp_of s') = requests (dhcp_of s) ++ asked ev s -> served ev s = [] -> steady_clock (w_clock (y_world s)) ->
  clock_on (y_world s) (y_world s') -> lease_step ev s s'.
Proof.
  intros Hq Hs Hr Hv Hst [Hc Hk]. split; [done|by rewrite Hv, Hr|done|].
  intros _ log Hg Hx. cbv zeta. rewrite Hv. unfold grants. cbn [map concat]. rewrite app_nil_r. split; [|done].
  by eapply grants_later.
Qed.

(** An event that leaves server and clock alone. *)
Lemma lease_same ev s s' : queue_ok (dhcp_of s) -> dhcp_of s' = dhcp_of s -> asked ev s = [] -> served ev s = [] ->
  steady_clock (w_clock (y_world s)) -> clock_on (y_world s) (y_world s') -> lease_step ev s s'.
Proof.
  intros Hq E Ha Hv Hst Hc. apply lease_quiet; rewrite ?E, ?Ha, ?app_nil_r; done.
Qed.

Lemma frame_leases up s s' : sys_inv s -> queue_ok (dhcp_of s) -> steady_clock (w_clock (y_world s)) ->
  data_frame fd_wan fd_lan up s = Some s' -> lease_step (EvFrame up) s s'.
Proof.
  intros Hi Hdq Hst. unfold data_frame. pose proof (di_queue _ _ (inv_side up s Hi)) as Hq.
  destruct (SpscRingBuffer.spsc_pop_refines RxFrameCopy0 FRAME_QUEUE frame_queue_pos _ Hq) as (_ & Hh & _).
  destruct (SpscRingBuffer.pop _ _ _) as [[copy|] q]; cbn [fst] in Hh; symmetry in Hh; fold (next_frame up s) in Hh; intros Hrun.
  - set (s1 := put_side up s _) in Hrun.
    assert (consumer up s1 = consumer up s) as Eco by (by destruct up). rewrite Eco in Hrun.
    destruct (proc_frame _ copy _) as [d|] eqn:E; [|done]. cbn [mbind option_bind] in Hrun. injection Hrun as <-.
    apply proc_frame_ends in E as (d1 & f & b & Hf & ->); [|reflexivity]. apply fate_dhcp in Hf as [Ed Hc]; [|reflexivity].
    cbn [consumer d_dhcp d_world] in Ed, Hc. fold (dhcp_of s) in Ed.
    assert (for_server (worker_cfg fd_wan fd_lan up s1) (parse (frame_of copy)) = up && is_dhcp (parse (frame_of copy))) as Efs by (by destruct up).
    rewrite Efs in Ed. set (p := parse (frame_of copy)) in *.
    set (s' := put_consumer up s1 _). assert (dhcp_of s' = if up && is_dhcp p then intercept_request p (dhcp_of s) else dhcp_of s) as Es.
    { unfold dhcp_of at 1, s', put_consumer. cbn [y_eng put_world set_eng e_dhcp d_dhcp set_stats on_tel set_world]. rewrite Ed. by case_if. }
    assert (clock_on (y_world s) (y_world s')) as Hcs by exact Hc.
    assert (asked (EvFrame up) s = if up && is_dhcp p && room (dhcp_of s) then [message_of p] else []) as Ea
      by (unfold asked; destruct up; [by rewrite Hh|done]).
    clearbody s'. destruct (intercept_spec p (dhcp_of s) Hdq) as (I1 & I2 & I3).
    apply lease_quiet; [..|reflexivity|exact Hst|exact Hcs]; rewrite Es, ?Ea; destruct (up && is_dhcp p); try done. by rewrite app_nil_r.
  - injection Hrun as <-. apply lease_same; [done|done| |done|done|apply clock_same]. unfold asked. destruct up; [by rewrite Hh|done].
Qed.
Lemma drain_leases up s s' : sys_inv s -> queue_ok (dhcp_of s) -> steady_clock (w_clock (y_world s)) ->
  data_drain fd_wan fd_lan up s = Some s' -> lease_step (EvDrain up) s s'.
Proof.
  intros Hi Hdq Hst. unfold data_drain, drain_shaper. cbn [consumer d_shaper d_world].
  destruct (Shaper.process_queue _ _ _) as [[[sh w] ev]|] eqn:E; [|done]. cbn [mbind option_bind]. intros [= <-].
  apply lease_same; [done|by destruct up|by destruct up|done|done|].
  apply drain_clock in E; [exact E|]. exact (di_shaper _ _ (inv_side up s Hi)).
Qed.

Lemma dhcp_leases r s s1 s2 : sys_inv s1 -> queue_ok (dhcp_of s) -> steady_clock (w_clock (y_world s)) ->
  ticks r s = true -> dhcp_of s1 = dhcp_of s -> y_world s1 = y_world s ->
  dhcp_tick kern fd_lan s1 = Some s2 -> lease_step (EvService SvcDhcp r) s s2.
Proof.
  intros Hi Hdq Hst Ht Ed Ew. pose proof (ei_dhcp _ _ (si_eng _ Hi)) as He. fold (dhcp_of s1) in He. rewrite Ed in He.
  unfold dhcp_tick. fold (dhcp_of s1). rewrite Ed, Ew. destruct (process_background_tasks _ _ _) as [[e w]|] eqn:E; [|done].
  cbn [mbind option_bind]. intros [= <-].
  match goal with |- context [MkEngines _ ?x _ _] => set (e' := x) end.
  assert (e' = e \/ exists a, e' = set_router_ip a e) as Hr.
  { subst e'. case_if; [|by left]. unfold refresh_dhcp_router. repeat case_match; auto; right; by eexists. }
  assert (same_leases e e' /\ request_queue e' = request_queue e) as [Hs Eq] by (by destruct Hr as [->|[a ->]]).
  assert (served (EvService SvcDhcp r) s = batch kBackgroundTaskBudget fd_lan (dhcp_of s) (y_world s)) as Ev by (unfold served; by rewrite Ht).
  pose proof (fun log => batch_spec _ _ _ _ _ _ log He Hdq Hst E) as Hb.
  destruct (Hb [] ltac:(by intros a Ha%elem_of_nil) ltac:(done)) as (B1 & B2 & B3 & B4 & _).
  split; cbn [y_world y_eng dhcp_of e_dhcp]; rewrite ?Ev.
  - unfold queue_ok, dhcp_of. cbn [y_eng e_dhcp]. rewrite Eq. exact B1.
  - unfold asked. rewrite app_nil_r, B3. unfold requests at 3, dhcp_of. cbn [y_eng e_dhcp]. rewrite Eq. fold (requests e).
    rewrite B4. symmetry. apply take_drop.
  - exact B2.
  - intros _ log Hg Hx. destruct (Hb log Hg Hx) as (_ & _ & _ & _ & B5 & B6). split; [|exact B6].
    apply (grants_later e _ w); [exact Hs|by rewrite B2|done|done|exact B5].
Qed.
Lemma service_leases v r s s' : sys_inv s -> queue_ok (dhcp_of s) -> steady_clock (w_clock (y_world s)) ->
  service_wakes kern fd_lan v r s = Some s' -> lease_step (EvService v r) s s'.
Proof.
  intros Hi Hdq Hst (efd & Hi1 & H)%service_wakes_cases; [|done..].
  assert (ticks r s = false -> served (EvService v r) s = []) as Hv0 by (intros E; unfold served; rewrite E; by destruct v).
  destruct (ticks r s) eqn:Ht; [destruct H as (s2 & E & ->)|subst; apply lease_same; [done|done|done|by apply Hv0|done|apply clock_same]].
  destruct v; cbn [svc_tick] in E; try (injection E as <-; apply lease_same; try done; apply clock_same).
  - unfold l2_tick in E. destruct (refresh_l2 _ _ _ _ _ _) as [st|]; [|done]. injection E as <-. apply lease_same; try done; apply clock_same.
  - eapply dhcp_leases in E; [|exact Hi1|exact Hdq|exact Hst|exact Ht|reflexivity|reflexivity]. destruct E as [H1 H2 H3 H4]. by split.
  - injection E as <-. unfold qos_tick. destruct (qos_tick1Hz _ _) as [t q]. apply lease_same; try done; apply clock_same.
Qed.

(** Applying a pool touches neither the queue nor the clock. *)
Lemma sync_queue c e n k : request_queue (snd (fst (fst (sync kern c e n k)))) = request_queue e.
Proof.
  pose proof (sync_spec kern c e n k) as H. destruct (sync kern c e n k) as [[[[]] d] k']; cbn in *.
  - by destruct H as [-> _].
  - by destruct H as (? & ? & ? & _ & _ & _ & -> & _).
Qed.
Lemma reconfigure_queue cfg e : request_queue (snd (reconfigure cfg e)) = request_queue e.
Proof. unfold reconfigure, init_pool. by repeat case_if. Qed.
Lemma apply_dhcp_queue s : request_queue (dhcp_of (apply_dhcp kern s)) = request_queue (dhcp_of s) /\
  y_world (apply_dhcp kern s) = y_world s.
Proof.
  unfold apply_dhcp, applyDhcpConfig. cbv zeta. fold (dhcp_of s).
  destruct (parse_ip_str (c_dhcp_pool_start (y_cfg s))) as [?|a]; [done|].
  destruct (parse_ip_str (c_dhcp_pool_end (y_cfg s))) as [?|b]; [done|].
  pose proof (reconfigure_queue (MkPool a b (c_dhcp_lease (y_cfg s))) (dhcp_of s)) as Hr.
  destruct (reconfigure _ _) as [[?|?] d1]; cbn [snd] in Hr; [done|].
  pose proof (sync_queue (y_cfg s) d1 (e_netcfg (y_eng s)) (y_kernel s)) as Hs.
  destruct (sync kern _ d1 _ _) as [[[r d2] n2] k2]. cbn [fst snd] in Hs. split; [|done]. cbn. congruence.
Qed.
Lemma control_leases failed s s' : queue_ok (dhcp_of s) -> steady_clock (w_clock (y_world s)) ->
  control_wakes kern failed s = Some s' -> lease_step (EvControl failed) s s'.
Proof.
  intros Hdq Hst. unfold control_wakes. case_if; [done|].
  destruct failed; [intros [= <-]; apply lease_same; try done; apply clock_same|].
  destruct (0 <? ct_stop_efd (y_ctl s)) eqn:E1; [intros [= <-]; apply lease_same; try done; apply clock_same|].
  destruct (0 <? ct_cfg_efd (y_ctl s)) eqn:E2; [|done]. intros [= <-]. destruct (ct_running (y_ctl s)) eqn:E3.
  - destruct (apply_dhcp_queue (set_cfg_efd s 0)) as [Eq Ew]. set (s1 := apply_dhcp kern _) in *.
    change (dhcp_of (set_cfg_efd s 0)) with (dhcp_of s) in Eq. change (y_world (set_cfg_efd s 0)) with (y_world s) in Ew.
    clearbody s1. split.
    + unfold queue_ok. change (dhcp_of (set_thread s1 _ _)) with (dhcp_of s1). by rewrite Eq.
    + cbn [asked served map app]. rewrite app_nil_r. unfold requests. change (dhcp_of (set_thread s1 _ _)) with (dhcp_of s1). by rewrite Eq.
    + change (y_world (set_thread s1 _ _)) with (y_world s1). by rewrite Ew.
    + unfold pool_applied. by rewrite E1, E2, E3.
  - apply lease_same; try done; apply clock_same.
Qed.

Lemma step_leases ev s s' : sys_inv s -> queue_ok (dhcp_of s) -> steady_clock (w_clock (y_world s)) ->
  sys_step kern qt fd_wan fd_lan ev s = Some s' -> lease_step ev s s'.
Proof.
  intros Hi Hdq Hst. destruct ev; cbn [sys_step]; intros H; try (injection H as <-; apply lease_same; try done; apply clock_same).
  - injection H as <-. unfold data_rx. destruct (rx_frame _ _ _ _). apply lease_same; first [done|by destruct up].
  - by apply frame_leases.
  - by apply drain_leases.
  - unfold loop_top in H. destruct (bool_decide _); [|done]. injection H as <-. apply lease_same; try done; apply clock_same.
  - by apply service_leases.
  - by apply control_leases.
  - unfold l2_tick in H. destruct (refresh_l2 _ _ _ _ _ _) as [st|]; [|done]. injection H as <-. apply lease_same; try done; apply clock_same.
  - injection H as <-. unfold gui_switch. destruct (switch_released _ _ _ _). apply lease_same; try done; apply clock_same.
  - injection H as <-. unfold gui_apply_pool. destruct (g_dialog _); [destruct (on_apply _ _ _)|]; apply lease_same; try done; apply clock_same.
Qed.

(** A round takes the oldest requests. *)
Lemma tick_takes r s s' : sys_inv s -> queue_ok (dhcp_of s) -> steady_clock (w_clock (y_world s)) -> ticks r s = true ->
  sys_step kern qt fd_wan fd_lan (EvService SvcDhcp r) s = Some s' ->
  map fst (served (EvService SvcDhcp r) s) = take kBackgroundTaskBudget (requests (dhcp_of s)).
Proof.
  intros Hi Hdq Hst Ht (efd & Hi1 & H)%service_wakes_cases; [|done..]. rewrite Ht in H. destruct H as (s2 & E & _).
  unfold served. rewrite Ht. cbn [svc_tick] in E. unfold dhcp_tick in E. change (e_dhcp (y_eng (set_stop_efd s efd))) with (dhcp_of s) in E.
  change (y_world (set_stop_efd s efd)) with (y_world s) in E.
  destruct (process_background_tasks _ _ _) as [[e w]|] eqn:Eb; [|done].
  destruct (batch_spec _ _ _ _ _ _ [] (ei_dhcp _ _ (si_eng _ Hi)) Hdq Hst Eb) as (_ & _ & H & _); [by intros a Ha%elem_of_nil|done|exact H].
Qed.

(** * Runs *)
Fixpoint gather {A} (f : event (K := K) -> system K -> list A) (es : list (event (K := K))) s : list A :=
  match es with
  | [] => []
  | ev :: es' => f ev s ++ match sys_step kern qt fd_wan fd_lan ev s with Some s' => gather f es' s' | None => [] end
  end.
(** The grants of a run, in periods: a change of the pool begins a new one. *)
Definition extend (g : list grant) (ps : list (list grant)) : list (list grant) :=
  match ps with p :: ps' => (g ++ p) :: ps' | [] => [g] end.
Fixpoint periods (es : list (event (K := K))) s : list (list grant) :=
  match es with
  | [] => [[]]
  | ev :: es' =>
      let rest := match sys_step kern qt fd_wan fd_lan ev s with Some s' => periods es' s' | None => [[]] end in
      if pool_applied ev s then [] :: rest else extend (grants (served ev s)) rest
  end.
Lemma periods_some es s : exists p ps, periods es s = p :: ps.
Proof. destruct es as [|ev es]; cbn [periods]; [by eexists _, _|]. case_if; [by eexists _, _|]. by destruct (match _ with Some _ => _ | None => _ end); eexists _, _. Qed.
Lemma extend_nil es s : extend [] (periods es s) = periods es s.
Proof. by destruct (periods_some es s) as (p & ps & ->). Qed.
Lemma extend_extend g g' ps : extend g (extend g' ps) = extend (g ++ g') ps.
Proof. destruct ps; cbn [extend]; by rewrite ?app_assoc. Qed.

Lemma run_leases es : forall s s' log, sys_inv s -> queue_ok (dhcp_of s) -> steady_clock (w_clock (y_world s)) ->
  grants_ok (dhcp_of s) (y_world s) log -> exclusive log -> sys_run kern qt fd_wan fd_lan es s = Some s' ->
  requests (dhcp_of s) ++ gather asked es s = map fst (gather served es s) ++ requests (dhcp_of s') /\
  Forall exclusive (extend log (periods es s)) /\ queue_ok (dhcp_of s') /\ w_clock (y_world s') = w_clock (y_world s).
Proof.
  induction es as [|ev es IH]; intros s s' log Hi Hdq Hst Hg Hx; cbn [sys_run gather periods].
  - intros [= <-]. rewrite app_nil_r. split; [done|]. cbn [extend]. rewrite app_nil_r. split; [by apply Forall_singleton|done].
  - destruct (sys_step kern qt fd_wan fd_lan ev s) as [s1|] eqn:E; [|done]. intros Hrun.
    destruct (step_leases ev s s1 Hi Hdq Hst E) as [Hq1 Hf Hc Hgr].
    pose proof (sys_step_inv kern qt fd_wan fd_lan Hhw ev s s1 Hi E) as Hi1. rewrite <- Hc in Hst.
    destruct (IH s1 s' [] Hi1 Hq1 Hst ltac:(by intros a Ha%elem_of_nil) ltac:(done) Hrun) as (Hf' & Hp & Hq' & Hc').
    split; [rewrite map_app, app_assoc, Hf, <- !app_assoc; f_equal; exact Hf'|]. split; [|split; [done|congruence]].
    destruct (pool_applied ev s) eqn:Ep.
    + cbn [extend]. rewrite app_nil_r. apply Forall_cons. split; [exact Hx|]. by rewrite extend_nil in Hp.
    + destruct (Hgr eq_refl log Hg Hx) as [Hg1 Hx1]. rewrite extend_extend.
      apply (IH s1 s' (log ++ grants (served ev s)) Hi1 Hq1 Hst Hg1 Hx1 Hrun).
Qed.
End Run.

Lemma boot_requests {K} (kern : Kernel K) qt c mac wan_raw lan_raw k w s :
  boot kern qt c mac wan_raw lan_raw k w = Some s -> requests (dhcp_of s) = [] /\ queue_ok (dhcp_of s).
Proof.
  unfold boot. destruct (app_init kern c wan_raw lan_raw (app_make c mac) k) as [[[e|u] a] k'] eqn:E; [done|].
  assert (request_queue (a_dhcp a) = SpscRingBuffer.empty) as Eq.
  { unfold app_init in E. destruct wan_raw; [|done]. destruct lan_raw; [|done]. cbn [negb] in E.
    pose proof (sync_queue kern c (a_dhcp (app_make c mac)) (a_netcfg (app_make c mac)) k) as Hs.
    assert (request_queue (a_dhcp (app_make c mac)) = SpscRingBuffer.empty) as H0.
    { unfold app_make. cbn [a_dhcp]. unfold make, init_pool. repeat case_match; simplify_eq; done. }
    rewrite H0 in Hs. destruct (sync kern c (a_dhcp (app_make c mac)) _ k) as [[[[e|v] d] n] k1]; [done|]. cbn [fst snd] in Hs.
    destruct (c_enable_nat c); [destruct (resolve_nat_wan_ip kern c k1) as [e|wan]; [done|]|]; by injection E as _ <- _. }
  destruct (app_start _ _ w) as [[[t sdl] sul] w']. intros [= <-]. unfold requests, queue_ok, dhcp_of. cbn [y_eng e_dhcp]. rewrite Eq.
  split; [reflexivity|]. split; cbn; unfold REQUEST_QUEUE; lia.
Qed.

Lemma boot_clock {K} (kern : Kernel K) qt c mac wan_raw lan_raw k clock rs s :
  boot kern qt c mac wan_raw lan_raw k (world0 clock rs) = Some s -> w_clock (y_world s) = clock.
Proof.
  unfold boot. destruct (app_init kern c wan_raw lan_raw (app_make c mac) k) as [[[e|u] a] k']; [done|]. set (w := world0 clock rs).
  unfold app_start. cbn [w_tel w world0]. destruct (Shaper.make _ w) as [sdl w1] eqn:E1, (Shaper.make _ w1) as [sul w2] eqn:E2.
  unfold Shaper.make, TokenBucket.make, TokenBucket.apply_new_rate, now in E1, E2. injection E1 as <- <-. injection E2 as <- <-.
  by intros [= <-].
Qed.

(** C5: an acknowledged lease is exclusive, in the running program.  From a successful
    start, with a clock that does not run backwards, after any sequence of events: the
    DHCP frames taken from the LAN side, but for those a full queue turns away, are the
    requests answered so far followed by those waiting, in order, each once; every round
    of the service takes the oldest, up to 32; and between two changes of the pool an
    address acknowledged to a client is not offered or acknowledged to a client with
    another hardware address before the acknowledged lease time is over, however many
    requests come in between and whoever sends them. *)
Theorem grants_exclusive {K} (kern : Kernel K) (qt : Qt) (fd_wan fd_lan : Z) (c : Config) (mac : option (list Z))
    (wan_raw lan_raw : bool) (k : K) (clock : nat -> Z) (rs : list SendReply) (es : list event) (s0 s : system K)
    (Hhw : forall k i b m, siocgifhwaddr kern i k = Some (b, m) -> (6 <= length m)%nat /\ bytes_ok m)
    (Hsteady : steady_clock clock)
    (Hboot : boot kern qt c mac wan_raw lan_raw k (world0 clock rs) = Some s0)
    (Hrun : sys_run kern qt fd_wan fd_lan es s0 = Some s) :
  let run {A} (f : event -> system K -> list A) := gather kern qt fd_wan fd_lan f es s0 in
  run asked = map fst (run (served fd_lan)) ++ requests (dhcp_of s) /\
  (forall r s', ticks r s = true -> sys_step kern qt fd_wan fd_lan (EvService SvcDhcp r) s = Some s' ->
     map fst (served fd_lan (EvService SvcDhcp r) s) = take kBackgroundTaskBudget (requests (dhcp_of s))) /\
  forall p i j a b, p ∈ periods kern qt fd_wan fd_lan es s0 -> (i < j)%nat -> p !! i = Some a -> p !! j = Some b ->
    g_type a = 5 -> g_type b = 2 \/ g_type b = 5 ->
    g_ip b = g_ip a -> g_ip a <> 0 -> g_mac b <> g_mac a -> g_until a < g_at b.
Proof.
  pose proof (boot_inv kern qt _ _ _ _ _ _ _ _ Hboot) as Hi0. destruct (boot_requests _ _ _ _ _ _ _ _ _ Hboot) as [Hr0 Hq0].
  pose proof (boot_clock _ _ _ _ _ _ _ _ _ _ Hboot) as Hc0. rewrite <- Hc0 in Hsteady.
  destruct (run_leases kern qt fd_wan fd_lan Hhw es s0 s [] Hi0 Hq0 Hsteady ltac:(by intros a Ha%elem_of_nil) ltac:(done) Hrun) as (Hf & Hp & Hq & Hc).
  rewrite Hr0 in Hf. split; [exact Hf|]. split.
  - intros r s' Ht E. apply (tick_takes kern qt fd_wan fd_lan r s s'); [|exact Hq|by rewrite Hc|done..].
    by eapply sys_run_inv.
  - intros p i j a b Hin Hij Ha Hb Hta Htb.
    rewrite extend_nil in Hp. eapply Forall_forall in Hp; [|exact Hin]. apply (Hp i j a b Hij Ha Hb Hta). lia.
Qed.

(** One client is offered and acknowledged 192.168.12.50, another is offered the next
    address; then the dialog's pool is applied as it stands, and the second client is
    offered the first one's address: a change of the pool forgets the leases. *)
Definition w_take : list Z := take 282 (put8 w_discover 284 3) ++ [53; 1; 3; 50; 4; 192; 168; 12; 50; 255].
Definition w_round : list (event (K := option Z)) := [EvTop 3; EvService SvcDhcp PollTimeout].
Definition w_leases : list (event (K := option Z)) :=
  [EvRx true w_discover; EvFrame true; EvRx true w_take; EvFrame true;
   EvReplies [Sent 320; Sent 320; Sent 320; Sent 320]] ++ w_round ++
  [EvRx true w_discover2; EvFrame true] ++ w_round ++
  [EvDialogOpen; EvDialogApply; EvTop 6; EvControl None; EvRx true w_discover2; EvFrame true] ++ w_round.
Definition w_told (ps : list (list grant)) : list (list (Z * Z * Z)) :=
  map (map (fun g => (g_type g, g_ip g, hd 0 (g_mac g)))) ps.
Example w_leases_run :
  match w_boot with
  | Some s0 => match sys_run w_net qt_digits 7 8 w_leases s0 with
      | Some s => Some (w_told (periods w_net qt_digits 7 8 w_leases s0), length (gather w_net qt_digits 7 8 (served 8) w_leases s0))
      | None => None end
  | None => None
  end = Some ([[(2, ip_of 192 168 12 50, 170); (5, ip_of 192 168 12 50, 170); (2, ip_of 192 168 12 51, 16)];
               [(2, ip_of 192 168 12 50, 16)]], 4%nat).
Proof. vm_compute. reflexivity. Qed.

Lemma grants_exclusive_witness : exists s0 s,
  w_boot = Some s0 /\ sys_run w_net qt_digits 7 8 w_leases s0 = Some s /\
  length (gather w_net qt_digits 7 8 asked w_leases s0) = (4 + length (requests (dhcp_of s)))%nat /\
  forall p i j a b, p ∈ periods w_net qt_digits 7 8 w_leases s0 -> (i < j)%nat -> p !! i = Some a -> p !! j = Some b ->
    g_type a = 5 -> g_type b = 2 \/ g_type b = 5 ->
    g_ip b = g_ip a -> g_ip a <> 0 -> g_mac b <> g_mac a -> g_until a < g_at b.
Proof.
  pose proof w_leases_run as Hb.
  destruct w_boot as [s0|] eqn:E0; [|discriminate].
  destruct (sys_run w_net qt_digits 7 8 w_leases s0) as [s|] eqn:E1; [|discriminate].
  destruct (grants_exclusive w_net qt_digits 7 8 Config0 None true true None (fun i => Z.of_nat i * 1000000) []
    w_leases s0 s w_net_hw ltac:(intros i j Hij; lia) E0 E1) as (Hf & _ & Hx).
  apply some_pair in Hb as [_ Hn]. exists s0, s. split; [reflexivity|]. split; [exact E1|]. split; [|exact Hx].
  apply (f_equal length) in Hf. rewrite length_app, length_map, Hn in Hf. exact Hf.
Defined.
