(* ===== verification/Window.v ===== *)
(** The dashboard in the user's hands: what can be touched on the widget trees of
    [Widgets], what each touch does to the window and to the program, and how the window
    and the program stay in step ([GUI/Dashboard.cpp]). *)
From Stdlib Require Import ZArith Lia Ascii String QArith.
From stdpp Require Import base numbers strings list.
From S2P Require Import Prelude Text Types_util Double Telemetry TxFrame Rings DhcpEngine Config Network_util NetworkConfig NumPad Dashboard Widgets StyleSheet.
From S2P Require Import ProcNet ForwardingState Forward Scheduler QosService Collector HostInfo App ControlPlane System.
#[local] Open Scope Z_scope.
#[local] Open Scope list_scope.

(** * The window *)
Inductive modal := DhcpOpen | ExitOpen (saving : bool).
(** The page shown, the tabs' checked flags, the modal dialog, the saving threads that have
    not posted yet, whether [App::stop] has begun, the device page and the program. *)
Record window (K : Type) := Win {
  v_page : nat; v_checked : list bool; v_modal : option modal; v_savers : nat; v_stopped : bool;
  v_devices : DevicePage; v_sys : system K }.
Arguments Win {K}. Arguments v_page {K}. Arguments v_checked {K}. Arguments v_modal {K}. Arguments v_savers {K}.
Arguments v_stopped {K}. Arguments v_devices {K}. Arguments v_sys {K}.

Section Window.
Context {K : Type} (kern : Kernel K) (qt : Qt) (fd_wan fd_lan : Z).
Implicit Types (w : window K) (s : system K).

(** What is on screen: the dialog, which is modal, or the main window. *)
Definition screen w : node :=
  match v_modal w with
  | Some (ExitOpen saving) => ShutdownDialog saving
  | Some DhcpOpen =>
      match g_dialog (y_gui (v_sys w)) with Some d => DhcpConfigDialog d | None => Wid "QDialog" [] [] end
  | None => setup_ui header_info0 (v_checked w) OverviewPage_node (g_page (y_gui (v_sys w))) (v_devices w)
  end.
Definition touch w : list slot := touchable (v_page w) (screen w).

(** Clicking a tab checks it; the group is exclusive. *)
Definition checked_tab (page : Z) : list bool := map (fun t => tab_page t =? page) TABS.
Definition nth_session (us : list session) : session := default (MkSession [] false) (head us).
Definition same (w : window K) (s : system K) : window K :=
  Win (v_page w) (v_checked w) (v_modal w) (v_savers w) (v_stopped w) (v_devices w) s.
Definition with_modal (m : option modal) (w : window K) (s : system K) : window K :=
  Win (v_page w) (v_checked w) m (v_savers w) (v_stopped w) (v_devices w) s.
(** The shutdown callback, [App::stop]: only its first call stops. *)
Definition stop_events w : list (event (K := K)) := if v_stopped w then [] else [EvStop].
Definition stopped (m : option modal) (savers : nat) (w : window K) (s : system K) : window K :=
  Win (v_page w) (v_checked w) m savers true (v_devices w) s.

(** A touch of a widget connected to [sl], with what the user does in the keypads it opens:
    the events the program sees, and the window after them. *)
Definition on_touch (sl : slot) (us : list session) w : option (list (event (K := K)) * (system K -> window K)) :=
  match sl with
  | SlShutdown => Some ([], with_modal (Some (ExitOpen false)) w)
  | SlTab i =>
      Some (if i =? 1 then [EvPageEnter] else [],
            fun s => Win (Z.to_nat i) (checked_tab i) (v_modal w) (v_savers w) (v_stopped w)
                       (if i =? 3 then device_page_refresh (cs_devices (y_info s)) (v_devices w) else v_devices w) s)
  | SlToggleAccel => Some ([EvSwitch true true], same w)
  | SlDlLimit => Some ([EvQosTap (TapDl (nth_session us))], same w)
  | SlUlLimit => Some ([EvQosTap (TapUl (nth_session us))], same w)
  | SlApplyBw => Some ([EvApplyBw], same w)
  | SlSetDhcp => Some ([EvDialogOpen], with_modal (Some DhcpOpen) w)
  | SlPoolStart => Some ([EvDialogTap (TapStart us)], same w)
  | SlPoolEnd => Some ([EvDialogTap (TapEnd us)], same w)
  | SlDays => Some ([EvDialogTap (TapDays (nth_session us))], same w)
  | SlHours => Some ([EvDialogTap (TapHours (nth_session us))], same w)
  | SlMinutes => Some ([EvDialogTap (TapMinutes (nth_session us))], same w)
  | SlApplyPool =>
      Some ([EvDialogApply],
            fun s => with_modal (match g_dialog (y_gui s) with Some _ => Some DhcpOpen | None => None end) w s)
  | SlSave => Some ([], fun s => Win (v_page w) (v_checked w) (Some (ExitOpen true)) (S (v_savers w)) (v_stopped w) (v_devices w) s)
  | SlNoSave => Some (stop_events w, stopped None (v_savers w) w)
  | SlReject => Some ([], with_modal None w)
  | SlKey _ | SlAccept => None
  end.

(** Events of the GUI thread's handlers; all others come from elsewhere. *)
Definition is_gui (e : event (K := K)) : bool :=
  match e with
  | EvPageEnter | EvQosTap _ | EvSwitch _ _ | EvApplyBw | EvDialogOpen | EvDialogTap _ | EvDialogApply
  | EvDialogCancel | EvStop => true
  | _ => false
  end.

(** The window's runs, with the events the program has seen. *)
Inductive win_run (s0 : system K) : list (event (K := K)) -> window K -> Prop :=
  | wr_start : win_run s0 [] (Win 0 (checked_tab 0) None 0 false DevicePage0 s0)
  | wr_touch es w sl us ev k s' : win_run s0 es w -> sl ∈ touch w -> on_touch sl us w = Some (ev, k) ->
      sys_run kern qt fd_wan fd_lan ev (v_sys w) = Some s' -> win_run s0 (es ++ ev) (k s')
  (* a dialog closed by its frame or a key *)
  | wr_dismiss es w m s' : win_run s0 es w -> v_modal w = Some m ->
      sys_run kern qt fd_wan fd_lan (match m with DhcpOpen => [EvDialogCancel] | ExitOpen _ => [] end) (v_sys w) = Some s' ->
      win_run s0 (es ++ match m with DhcpOpen => [EvDialogCancel] | ExitOpen _ => [] end) (with_modal None w s')
  (* the handler a saving thread posts: close its dialog if it is still there, then stop *)
  | wr_posted es w n s' : win_run s0 es w -> v_savers w = S n ->
      sys_run kern qt fd_wan fd_lan (stop_events w) (v_sys w) = Some s' ->
      win_run s0 (es ++ stop_events w)
        (stopped (match v_modal w with Some (ExitOpen _) => None | m => m end) n w s')
  (* the redraw of the device page, while it is shown *)
  | wr_tick es w : win_run s0 es w ->
      win_run s0 es (Win (v_page w) (v_checked w) (v_modal w) (v_savers w) (v_stopped w)
        (if (v_page w =? 3)%nat then device_page_refresh (cs_devices (y_info (v_sys w))) (v_devices w) else v_devices w) (v_sys w))
  | wr_other es w e s' : win_run s0 es w -> is_gui e = false ->
      sys_step kern qt fd_wan fd_lan e (v_sys w) = Some s' -> win_run s0 (es ++ [e]) (same w s').
End Window.

(** * What it comes to *)
(** What can be touched, by page and dialog. *)
Definition page_slots (page : nat) : list slot :=
  match page with
  | 1%nat => [SlToggleAccel; SlDlLimit; SlUlLimit; SlApplyBw]
  | 2%nat => [SlSetDhcp]
  | _ => []
  end.
Definition offered (page : nat) (m : option modal) : list slot :=
  match m with
  | Some DhcpOpen => [SlPoolStart; SlPoolEnd; SlDays; SlHours; SlMinutes; SlApplyPool]
  | Some (ExitOpen false) => [SlSave; SlNoSave; SlReject]
  | Some (ExitOpen true) => []
  | None => SlShutdown :: page_slots page ++ [SlTab 0; SlTab 1; SlTab 2; SlTab 3]
  end.
(** Names that only serve to find a widget. *)
Definition lookup_names : list string := ["dhcp_lease_days"; "dhcp_lease_hours"; "dhcp_lease_minutes"]%string.

(** * What a touch means *)
Section Effect.
Context {K : Type} (qt : Qt).
Implicit Types (w : window K) (s : system K).

(** The limit a field asks for: a text the validator accepts, in range. *)
Definition limit_asked (text : list Z) : option Q :=
  if bw_accepts qt text
  then match toDouble qt (trimmed qt text) with
       | Some x => if Qle_bool k_qos_bw_min_mbps x && Qle_bool x k_qos_bw_max_mbps then Some x else None
       | None => None
       end
  else None.
(** The pool dialog after a field was edited. *)
Definition dialog_edited (s s' : system K) (f : DhcpDialog -> DhcpDialog) : Prop :=
  s' = set_gui s (MkGui (g_page (y_gui s)) (option_map f (g_dialog (y_gui s)))).

(** From the widget touched, what is different in the program and the window afterwards;
    the equations for the program's state say that nothing else is. *)
Definition touch_effect (sl : slot) (us : list session) w w' : Prop :=
  let s := v_sys w in let s' := v_sys w' in
  let page := g_page (y_gui s) in
  let u := nth_session us in
  (match sl with SlTab i => v_page w' = Z.to_nat i | _ => v_page w' = v_page w end) /\
  match sl with
  (* the header and the tabs *)
  | SlShutdown => s' = s /\ v_modal w' = Some (ExitOpen false)
  | SlTab i =>
      v_modal w' = v_modal w /\
      (if i =? 1
       then s' = set_gui s (MkGui (MkQosPage (effective_acceleration (mode (tel s)))
                                     (number_g12 qt (qos_global_dl_mbps_pending (Telemetry.qos (tel s))))
                                     (number_g12 qt (qos_global_ul_mbps_pending (Telemetry.qos (tel s)))))
                              (g_dialog (y_gui s)))
       else s' = s) /\
      v_devices w' = if i =? 3 then device_page_refresh (cs_devices (y_info s)) (v_devices w) else v_devices w
  (* the QoS page: the switch is turned and asks for the mode it shows, a field takes what the
     keypad returns, the button asks for the limits the two fields show if both are valid *)
  | SlToggleAccel =>
      v_modal w' = v_modal w /\
      exists t, s' = put_tel (set_gui s (MkGui (MkQosPage (negb (sw_acceleration page)) (edit_dl_limit page)
                                                  (edit_ul_limit page)) (g_dialog (y_gui s)))) t /\
        t = set_mode (tel s) (MkMode (effective_bridge_mode (mode (tel s))) (effective_acceleration (mode (tel s)))
                                true (negb (sw_acceleration page)))
  | SlDlLimit =>
      v_modal w' = v_modal w /\
      s' = set_gui s (MkGui (MkQosPage (sw_acceleration page) (edit_limit qt (edit_dl_limit page) 500 u)
                               (edit_ul_limit page)) (g_dialog (y_gui s)))
  | SlUlLimit =>
      v_modal w' = v_modal w /\
      s' = set_gui s (MkGui (MkQosPage (sw_acceleration page) (edit_dl_limit page)
                               (edit_limit qt (edit_ul_limit page) 50 u)) (g_dialog (y_gui s)))
  | SlApplyBw =>
      v_modal w' = v_modal w /\
      match limit_asked (edit_dl_limit page), limit_asked (edit_ul_limit page) with
      | Some dl, Some ul =>
          s' = put_tel s (set_qos (tel s) (MkQos true dl ul (effective_qos_global_dl_mbps (Telemetry.qos (tel s)))
                                             (effective_qos_global_ul_mbps (Telemetry.qos (tel s)))))
      | _, _ => s' = put_tel s (tel s)
      end
  (* the services page opens the pool dialog on the configuration *)
  | SlSetDhcp =>
      v_modal w' = Some DhcpOpen /\
      s' = set_gui s (MkGui page (Some (dhcp_dialog_open (y_cfg s))))
  (* the pool dialog: a field takes what the keypads return; Apply stores the pool, tells the
     control thread and closes, or leaves everything as it is when the input is refused *)
  | SlPoolStart => v_modal w' = v_modal w /\ dialog_edited s s' (fun d =>
      MkDlg (default (edit_pool_start d) (numpad_edit_ipv4 qt (edit_pool_start d) us)) (edit_pool_end d)
        (spin_days d) (spin_hours d) (spin_minutes d))
  | SlPoolEnd => v_modal w' = v_modal w /\ dialog_edited s s' (fun d =>
      MkDlg (edit_pool_start d) (default (edit_pool_end d) (numpad_edit_ipv4 qt (edit_pool_end d) us))
        (spin_days d) (spin_hours d) (spin_minutes d))
  | SlDays => v_modal w' = v_modal w /\ dialog_edited s s' (fun d =>
      MkDlg (edit_pool_start d) (edit_pool_end d)
        (default (spin_days d) (set_days <$> get_int qt (spin_days d) 0 365 u)) (spin_hours d) (spin_minutes d))
  | SlHours => v_modal w' = v_modal w /\ dialog_edited s s' (fun d =>
      MkDlg (edit_pool_start d) (edit_pool_end d) (spin_days d)
        (default (spin_hours d) (set_hours <$> get_int qt (spin_hours d) 0 24 u)) (spin_minutes d))
  | SlMinutes => v_modal w' = v_modal w /\ dialog_edited s s' (fun d =>
      MkDlg (edit_pool_start d) (edit_pool_end d) (spin_days d) (spin_hours d)
        (default (spin_minutes d) (set_minutes <$> get_int qt (spin_minutes d) 0 60 u)))
  | SlApplyPool =>
      exists d, g_dialog (y_gui s) = Some d /\
      match on_apply qt d (y_cfg s) with
      | Some c => y_cfg s' = c /\ y_gui s' = MkGui page None /\ ct_cfg_efd (y_ctl s') = ct_cfg_efd (y_ctl s) + 1 /\
          v_modal w' = None
      | None => s' = s /\ v_modal w' = Some DhcpOpen
      end
  (* the shutdown dialog: a saving thread is started, the program is stopped, or nothing *)
  | SlSave => s' = s /\ v_modal w' = Some (ExitOpen true) /\ v_savers w' = S (v_savers w) /\ v_stopped w' = v_stopped w
  | SlNoSave =>
      v_modal w' = None /\ v_savers w' = v_savers w /\ v_stopped w' = true /\
      if v_stopped w then s' = s
      else ct_running (y_ctl s') = false /\ ct_stop_efd (y_ctl s') = ct_stop_efd (y_ctl s) + 7
  | SlReject => s' = s /\ v_modal w' = None
  | SlKey _ | SlAccept => False
  end /\
  (match sl with SlSave => True | _ => v_savers w' = v_savers w end) /\
  (match sl with SlNoSave => True | _ => v_stopped w' = v_stopped w end).

Lemma limit_asked_pos text x : limit_asked text = Some x -> Qle_bool x 0 = false.
Proof.
  unfold limit_asked. case_if; [|done]. destruct (toDouble _ _) as [y|]; [|done].
  destruct (Qle_bool k_qos_bw_min_mbps y) eqn:E; [|done]. case_if; [|done]. intros [= <-].
  apply not_true_iff_false. intros H%Qle_bool_iff. apply Qle_bool_iff in E.
  assert (Qle_bool k_qos_bw_min_mbps 0 = true) as Hx by (apply Qle_bool_iff; by eapply Qle_trans).
  vm_compute in Hx. discriminate.
Qed.
(** The button asks for what the fields show. *)
Lemma apply_bw_asked p (t : Telemetry) :
  on_apply_global_bw qt p t =
  match limit_asked (edit_dl_limit p), limit_asked (edit_ul_limit p) with
  | Some dl, Some ul => set_qos t (MkQos true dl ul (effective_qos_global_dl_mbps (Telemetry.qos t))
                                     (effective_qos_global_ul_mbps (Telemetry.qos t)))
  | _, _ => t
  end.
Proof.
  pose proof (limit_asked_pos (edit_dl_limit p)) as Hd. pose proof (limit_asked_pos (edit_ul_limit p)) as Hu.
  unfold on_apply_global_bw, limit_asked in *.
  destruct (bw_accepts qt (edit_dl_limit p)); cbn [negb orb]; [|done].
  destruct (bw_accepts qt (edit_ul_limit p)); cbn [negb orb].
  2: { destruct (toDouble _ _); [|done]. by case_if. }
  destruct (toDouble qt (trimmed qt (edit_dl_limit p))) as [dl|]; [|done].
  destruct (toDouble qt (trimmed qt (edit_ul_limit p))) as [ul|]; [|by case_if].
  unfold Qltb. destruct (Qle_bool k_qos_bw_min_mbps dl), (Qle_bool dl k_qos_bw_max_mbps); cbn [andb negb];
    rewrite ?orb_true_r; try done;
    destruct (Qle_bool k_qos_bw_min_mbps ul), (Qle_bool ul k_qos_bw_max_mbps); cbn [andb negb];
    rewrite ?orb_true_r; try done.
  rewrite (Hd dl), (Hu ul) by done. done.
Qed.
End Effect.

(** Membership in a concrete list. *)
Ltac in_list := apply (bool_decide_unpack _); vm_compute; exact I.

Section Facts.
Context {K : Type} (kern : Kernel K) (qt : Qt) (fd_wan fd_lan : Z).
Implicit Types (w : window K) (s : system K) (es : list (event (K := K))).

(** The dialog's events come while it is open, those of the pages while it is not. *)
Definition gui_legal (e : event (K := K)) s : Prop :=
  match e with
  | EvDialogTap _ | EvDialogApply | EvDialogCancel => g_dialog (y_gui s) <> None
  | EvDialogOpen | EvPageEnter | EvQosTap _ | EvSwitch _ _ | EvApplyBw => g_dialog (y_gui s) = None
  | _ => True
  end.
Fixpoint legal es s : Prop :=
  match es with
  | [] => True
  | e :: es' => gui_legal e s /\ match sys_step kern qt fd_wan fd_lan e s with Some s' => legal es' s' | None => False end
  end.

Lemma legal_app es1 es2 s s' : legal es1 s -> sys_run kern qt fd_wan fd_lan es1 s = Some s' -> legal es2 s' -> legal (es1 ++ es2) s.
Proof.
  revert s. induction es1 as [|e es1 IH]; intros s; cbn; [by intros _ [= ->]|].
  intros [Hg Hl]. destruct (sys_step _ _ _ _ _ _); [|done]. intros Hr H2. split; [done|]. by apply IH.
Qed.

(** Only the GUI's handlers touch its state. *)
Lemma put_consumer_gui up s d : y_gui (put_consumer up s d) = y_gui s.
Proof. by destruct up. Qed.
Lemma svc_tick_gui v s s' : svc_tick kern fd_lan v s = Some s' -> y_gui s' = y_gui s.
Proof.
  destruct v; cbn [svc_tick]; try (by intros [= <-]).
  - unfold l2_tick. destruct (refresh_l2 _ _ _ _ _ _); [|done]. by intros [= <-].
  - unfold dhcp_tick. destruct (DhcpEngine.process_background_tasks _ _ _) as [[d w]|]; [|done]. by intros [= <-].
  - intros [= <-]. unfold qos_tick. by destruct (qos_tick1Hz _ _).
Qed.
Lemma other_gui e s s' : is_gui e = false \/ e = EvStop -> sys_step kern qt fd_wan fd_lan e s = Some s' -> y_gui s' = y_gui s.
Proof.
  intros [He| ->]; [|by intros [= <-]]. destruct e; try done; cbn [sys_step].
  - intros [= <-]. unfold data_rx. destruct (rx_frame _ _ _ _) as [q t]. by destruct up.
  - unfold data_frame. destruct (SpscRingBuffer.pop _ _ _) as [[c|] q]; [|by intros [= <-]].
    destruct (proc_frame _ _ _); [|done]. cbn. intros [= <-]. rewrite put_consumer_gui. by destruct up.
  - unfold data_drain. destruct (drain_shaper _ _); [|done]. cbn. intros [= <-]. apply put_consumer_gui.
  - by intros [= <-].
  - unfold loop_top. case_if; [|done]. by intros [= <-].
  - unfold service_wakes. case_if; [done|]. destruct (wait_watchdog_period _ _) as [res efd].
    case_if; [by intros [= <-]|]. case_if; [by intros [= <-]|]. destruct (svc_tick kern fd_lan v _) eqn:E; [|done].
    cbn. intros [= <-]. apply svc_tick_gui in E. exact E.
  - unfold control_wakes. case_if; [done|]. destruct failed; [by intros [= <-]|]. case_if; [by intros [= <-]|].
    case_if; [|done]. intros [= <-]. case_if; [|done]. unfold apply_dhcp. by destruct (applyDhcpConfig _ _ _ _ _) as [[[d n] k] [f|]].
  - unfold l2_tick. destruct (refresh_l2 _ _ _ _ _ _); [|done]. by intros [= <-].
  - by intros [= <-].
  - by intros [= <-].
Qed.

(** * The trees offer what they should *)
Lemma cards_touch cur l : concat (map (touchable cur) (map card_node l ++ [AddStretch])) = [].
Proof. induction l as [|c l IH]; [done|]. exact IH. Qed.
Lemma cards_named l : concat (map named (map card_node l ++ [AddStretch])) = [].
Proof. induction l as [|c l IH]; [done|]. exact IH. Qed.

Lemma main_touch page checked q dev : (page < 4)%nat -> length checked = 4%nat ->
  touchable page (setup_ui header_info0 checked OverviewPage_node q dev) = offered page None.
Proof.
  intros Hp Hc. destruct checked as [|a [|b [|c [|d [|]]]]]; try done.
  destruct page as [|[|[|[|]]]]; [reflexivity|reflexivity|reflexivity| |lia].
  cbn -[card_node]. by rewrite cards_touch.
Qed.
Lemma main_named checked q dev : length checked = 4%nat ->
  Forall (fun n => n ∈ styled_names DARK_STYLESHEET) (named (setup_ui header_info0 checked OverviewPage_node q dev)).
Proof.
  intros Hc. destruct checked as [|a [|b [|c [|d [|]]]]]; try done. cbn -[card_node styled_names]. rewrite cards_named.
  cbn [app]. repeat (apply Forall_cons_2; [apply (bool_decide_unpack _); vm_compute; exact I|]). constructor.
Qed.
(** The keypad's buttons are the keys of [NumPad]. *)
Lemma keypad_offers_keys title (p : NumPad) k : SlKey k ∈ touchable 0 (NumPadDialog qt title p) <-> has_key p k = true.
Proof.
  assert (forall d, is_digit d = true -> d ∈ [55; 56; 57; 52; 53; 54; 49; 50; 51; 48]) as Hd.
  { intros d H. unfold is_digit in H. bool2prop.
    assert (d = 48 \/ d = 49 \/ d = 50 \/ d = 51 \/ d = 52 \/ d = 53 \/ d = 54 \/ d = 55 \/ d = 56 \/ d = 57) as Hd by lia.
    repeat destruct Hd as [->|Hd]; try subst d; in_list. }
  destruct p as [t mn mx neg deci]. unfold NumPadDialog, last_row. cbn [allow_negative_ allow_decimal_].
  generalize (fst (update_display qt (MkPad t mn mx neg deci))). intros ok.
  set (keys_there := fun sl => match sl with SlKey k => has_key (MkPad t mn mx neg deci) k | _ => true end).
  destruct ok, neg, deci; cbn [andb negb];
    match goal with |- SlKey k ∈ ?l <-> _ => let l' := eval vm_compute in l in change l with l' end;
    (split; [intros H; apply list_elem_of_In in H; revert H; apply (proj1 (forallb_forall keys_there _)); reflexivity|]);
    destruct k as [d| | |]; cbn [has_key allow_negative_ allow_decimal_ andb negb]; try discriminate;
    try (intros _; in_list; fail);
    intros H%Hd; repeat (apply elem_of_cons in H as [->|H]; [in_list|]); by apply elem_of_nil in H.
Qed.

(** * Invariant *)
Record win_ok (s0 : system K) es w : Prop := {
  wo_run : sys_run kern qt fd_wan fd_lan es s0 = Some (v_sys w);
  wo_legal : legal es s0;
  wo_page : (v_page w < 4)%nat /\ v_checked w = checked_tab (Z.of_nat (v_page w));
  wo_dialog : v_modal w = Some DhcpOpen <-> g_dialog (y_gui (v_sys w)) <> None;
  wo_fresh : v_page w = 1%nat -> EvPageEnter ∈ es }.

Lemma touch_offered s0 es w : win_ok s0 es w -> touch w = offered (v_page w) (v_modal w).
Proof.
  intros [_ _ [Hp Hc] Hd _]. unfold touch, screen. destruct (v_modal w) as [[|[]]|] eqn:Em; [|reflexivity|reflexivity|].
  - destruct (g_dialog (y_gui (v_sys w))) as [d|] eqn:Eg; [reflexivity|]. by destruct (proj1 Hd).
  - apply main_touch; [done|]. by rewrite Hc.
Qed.

(** What each slot needs to be offered. *)
Lemma offered_inv page m sl : sl ∈ offered page m ->
  match sl with
  | SlShutdown | SlTab _ => m = None
  | SlToggleAccel | SlDlLimit | SlUlLimit | SlApplyBw => m = None /\ page = 1%nat
  | SlSetDhcp => m = None /\ page = 2%nat
  | SlPoolStart | SlPoolEnd | SlDays | SlHours | SlMinutes | SlApplyPool => m = Some DhcpOpen
  | SlSave | SlNoSave | SlReject => m = Some (ExitOpen false)
  | SlKey _ | SlAccept => False
  end /\ (forall i, sl = SlTab i -> 0 <= i < 4).
Proof.
  destruct m as [[|[]]|]; cbn [offered]; [|by intros ?%elem_of_nil| |];
    [|intros H; repeat (apply elem_of_cons in H as [->|H]; [done|]); by apply elem_of_nil in H|];
    try (intros H; repeat (apply elem_of_cons in H as [->|H]; [done|]); by apply elem_of_nil in H).
  intros [->|[H|H]%elem_of_app]%elem_of_cons; [done| |].
  - destruct page as [|[|[|page]]]; cbn [page_slots] in H;
      repeat (apply elem_of_cons in H as [->|H]; [done|]); by apply elem_of_nil in H.
  - repeat (apply elem_of_cons in H as [->|H]; [split; [done|intros i [= <-]; lia]|]). by apply elem_of_nil in H.
Qed.

(** Every slot offered has a handler, and it completes. *)
Lemma touch_total s0 es w sl us : win_ok s0 es w -> sl ∈ touch w ->
  exists ev k s', on_touch sl us w = Some (ev, k) /\ sys_run kern qt fd_wan fd_lan ev (v_sys w) = Some s'.
Proof.
  intros Hw Hsl. rewrite (touch_offered _ _ _ Hw) in Hsl. apply offered_inv in Hsl as [Hsl _].
  destruct sl; try done; try (by eexists _, _, _).
  - cbn [on_touch]. destruct (page_idx =? 1); by eexists _, _, _.
  - cbn [on_touch]. unfold stop_events. destruct (v_stopped w); by eexists _, _, _.
Qed.

Lemma apply_pool_gui s : g_dialog (y_gui s) = None -> g_dialog (y_gui (gui_apply_pool qt s)) = None.
Proof. intros E. unfold gui_apply_pool. by rewrite E. Qed.

Lemma switch_gui lb inside s : g_dialog (y_gui (gui_switch lb inside s)) = g_dialog (y_gui s).
Proof. unfold gui_switch. by destruct (switch_released lb inside (g_page (y_gui s)) (tel s)). Qed.

(** Extends a run by events that keep the GUI's state. *)
Lemma win_ok_keep s0 es w ev s' : win_ok s0 es w ->
  sys_run kern qt fd_wan fd_lan ev (v_sys w) = Some s' -> legal ev (v_sys w) ->
  (g_dialog (y_gui s') = None <-> g_dialog (y_gui (v_sys w)) = None) -> win_ok s0 (es ++ ev) (same w s').
Proof.
  intros [H1 H2 H3 H4 H5] Hr Hl Hg. split.
  - by rewrite sys_run_app, H1.
  - by eapply legal_app.
  - exact H3.
  - cbn. rewrite H4. unfold not. by rewrite Hg.
  - intros Hp. apply elem_of_app. left. by apply H5.
Qed.
Lemma win_ok_modal s0 es w ev s' m w' : win_ok s0 es w ->
  sys_run kern qt fd_wan fd_lan ev (v_sys w) = Some s' -> legal ev (v_sys w) ->
  (m = Some DhcpOpen <-> g_dialog (y_gui s') <> None) ->
  v_page w' = v_page w -> v_checked w' = v_checked w -> v_modal w' = m -> v_sys w' = s' -> win_ok s0 (es ++ ev) w'.
Proof.
  intros [H1 H2 H3 H4 H5] Hr Hl Hg Ep Ec Em Es. split; rewrite ?Ep, ?Ec, ?Em, ?Es.
  - by rewrite sys_run_app, H1.
  - by eapply legal_app.
  - exact H3.
  - exact Hg.
  - intros Hp. apply elem_of_app. left. by apply H5.
Qed.
Lemma no_dialog w : (v_modal w = Some DhcpOpen <-> g_dialog (y_gui (v_sys w)) <> None) -> v_modal w <> Some DhcpOpen ->
  g_dialog (y_gui (v_sys w)) = None.
Proof. intros Hd Hm. destruct (g_dialog (y_gui (v_sys w))); [|done]. destruct Hm. by apply Hd. Qed.

Lemma stop_run w s' : sys_run kern qt fd_wan fd_lan (stop_events w) (v_sys w) = Some s' ->
  y_gui s' = y_gui (v_sys w) /\ legal (stop_events w) (v_sys w).
Proof. unfold stop_events. destruct (v_stopped w); cbn; by intros [= <-]. Qed.

Lemma window_touch_ok s0 es w sl us ev k s' : win_ok s0 es w -> sl ∈ touch w -> on_touch sl us w = Some (ev, k) ->
  sys_run kern qt fd_wan fd_lan ev (v_sys w) = Some s' -> win_ok s0 (es ++ ev) (k s').
Proof.
  intros Hw Hsl. pose proof Hw as [H1 H2 [Hp Hc] H4 H5]. rewrite (touch_offered _ _ _ Hw) in Hsl.
  apply offered_inv in Hsl as [Hsl Htab]. destruct sl as [|i| | | | | | | | | | | |k'| | | |]; cbn [on_touch]; intros [= <- <-] Hr; try done.
  - injection Hr as <-. eapply win_ok_modal; [exact Hw|reflexivity|done| |done..]. rewrite (no_dialog _ H4) by congruence. done.
  - specialize (Htab i eq_refl). pose proof (no_dialog _ H4 ltac:(congruence)) as Hn. destruct (Z.eqb_spec i 1) as [->|Hi].
    + injection Hr as <-. split; cbn.
      * by rewrite sys_run_app, H1.
      * by eapply legal_app.
      * split; [lia|reflexivity].
      * rewrite H4, Hn. done.
      * intros _. apply elem_of_app. right. by left.
    + injection Hr as <-. split; cbn; rewrite ?app_nil_r; try done.
      * split; [lia|]. by rewrite Z2Nat.id by lia.
      * intros E. lia.
  - destruct Hsl as [Hm _]. pose proof (no_dialog _ H4 ltac:(congruence)) as Hn.
    apply win_ok_keep; [done|exact Hr|done|]. injection Hr as <-. by rewrite switch_gui.
  - destruct Hsl as [Hm _]. pose proof (no_dialog _ H4 ltac:(congruence)) as Hn.
    apply win_ok_keep; [done|exact Hr|done|]. by injection Hr as <-.
  - destruct Hsl as [Hm _]. pose proof (no_dialog _ H4 ltac:(congruence)) as Hn.
    apply win_ok_keep; [done|exact Hr|done|]. by injection Hr as <-.
  - destruct Hsl as [Hm _]. pose proof (no_dialog _ H4 ltac:(congruence)) as Hn.
    apply win_ok_keep; [done|exact Hr|done|]. by injection Hr as <-.
  - destruct Hsl as [Hm _]. pose proof (no_dialog _ H4 ltac:(congruence)) as Hn.
    eapply win_ok_modal; [exact Hw|exact Hr|done| |done..]. by injection Hr as <-.
  - pose proof (proj1 H4 Hsl) as Hn. apply win_ok_keep; [done|exact Hr|done|]. injection Hr as <-. cbn.
    by destruct (g_dialog (y_gui (v_sys w))).
  - pose proof (proj1 H4 Hsl) as Hn. apply win_ok_keep; [done|exact Hr|done|]. injection Hr as <-. cbn.
    by destruct (g_dialog (y_gui (v_sys w))).
  - pose proof (proj1 H4 Hsl) as Hn. apply win_ok_keep; [done|exact Hr|done|]. injection Hr as <-. cbn.
    by destruct (g_dialog (y_gui (v_sys w))).
  - pose proof (proj1 H4 Hsl) as Hn. apply win_ok_keep; [done|exact Hr|done|]. injection Hr as <-. cbn.
    by destruct (g_dialog (y_gui (v_sys w))).
  - pose proof (proj1 H4 Hsl) as Hn. apply win_ok_keep; [done|exact Hr|done|]. injection Hr as <-. cbn.
    by destruct (g_dialog (y_gui (v_sys w))).
  - pose proof (proj1 H4 Hsl) as Hn. eapply win_ok_modal; [exact Hw|exact Hr|done| |done..].
    by destruct (g_dialog (y_gui s')).
  - injection Hr as <-. eapply win_ok_modal; [exact Hw|reflexivity|done| |done..]. rewrite (no_dialog _ H4) by congruence. done.
  - injection Hr as <-. eapply win_ok_modal; [exact Hw|reflexivity|done| |done..]. rewrite (no_dialog _ H4) by congruence. done.
  - destruct (stop_run _ _ Hr) as [Eg Hl]. eapply win_ok_modal; [exact Hw|exact Hr|exact Hl| |done..].
    rewrite Eg, (no_dialog _ H4) by congruence. done.
Qed.

Lemma win_run_ok s0 es w : g_dialog (y_gui s0) = None -> win_run kern qt fd_wan fd_lan s0 es w -> win_ok s0 es w.
Proof.
  intros H0. induction 1 as [|es w sl us ev k s' _ IH Hsl Ht Hr|es w m s' _ IH Hm Hr|es w n s' _ IH Hn Hr|es w _ IH|es w e s' _ IH He Hr].
  - split; [done|done|split; [cbn; lia|done]|cbn; by rewrite H0|done].
  - by eapply window_touch_ok.
  - pose proof IH as [_ _ _ H4 _]. eapply win_ok_modal; [exact IH|exact Hr| | |done..].
    + destruct m; [|done]. cbn. split; [by apply H4|done].
    + destruct m; injection Hr as <-; [done|]. rewrite (no_dialog _ H4) by congruence. done.
  - pose proof IH as [_ _ _ H4 _]. destruct (stop_run _ _ Hr) as [Eg Hl].
    eapply win_ok_modal; [exact IH|exact Hr|exact Hl| |done..]. rewrite Eg, <- H4. by destruct (v_modal w) as [[|]|].
  - destruct IH as [H1 H2 H3 H4 H5]. by split.
  - apply win_ok_keep; [exact IH|cbn; by rewrite Hr| |].
    + cbn. rewrite Hr. split; [by destruct e|done].
    + by rewrite (other_gui e _ _ (or_introl He) Hr).
Qed.
(** Every touch has its effect. *)
Lemma touch_has_effect s0 es w sl us ev k s' : win_ok s0 es w -> sl ∈ touch w -> on_touch sl us w = Some (ev, k) ->
  sys_run kern qt fd_wan fd_lan ev (v_sys w) = Some s' -> touch_effect qt sl us w (k s').
Proof.
  intros Hw Hsl. pose proof Hw as [_ _ _ H4 _]. rewrite (touch_offered _ _ _ Hw) in Hsl.
  apply offered_inv in Hsl as [Hsl _]. unfold touch_effect.
  destruct sl as [|i| | | | | | | | | | | |k'| | | |]; cbn [on_touch]; intros [= <- <-]; try done.
  - intros [= <-]. done.
  - destruct (i =? 1); intros [= <-]; done.
  - intros [= <-]. split; [done|]. split; [split; [done|]|done]. eexists. split; reflexivity.
  - intros [= <-]. done.
  - intros [= <-]. done.
  - intros [= <-]. split; [done|]. split; [split; [done|]|done]. cbn [v_sys same]. unfold gui_apply_bw.
    rewrite apply_bw_asked. destruct (limit_asked _ _); [|done]. by destruct (limit_asked _ _).
  - intros [= <-]. done.
  - intros [= <-]. split; [done|]. split; [split; [done|]|done]. unfold dialog_edited. cbn [v_sys same].
    unfold gui_dialog. do 2 f_equal. destruct (g_dialog (y_gui (v_sys w))) as [[]|]; [|done]. cbn.
    by destruct (numpad_edit_ipv4 _ _ _).
  - intros [= <-]. split; [done|]. split; [split; [done|]|done]. unfold dialog_edited. cbn [v_sys same].
    unfold gui_dialog. do 2 f_equal. destruct (g_dialog (y_gui (v_sys w))) as [[]|]; [|done]. cbn.
    by destruct (numpad_edit_ipv4 _ _ _).
  - intros [= <-]. split; [done|]. split; [split; [done|]|done]. unfold dialog_edited. cbn [v_sys same].
    unfold gui_dialog. do 2 f_equal. destruct (g_dialog (y_gui (v_sys w))) as [[]|]; [|done]. cbn.
    by destruct (get_int _ _ _ _ _).
  - intros [= <-]. split; [done|]. split; [split; [done|]|done]. unfold dialog_edited. cbn [v_sys same].
    unfold gui_dialog. do 2 f_equal. destruct (g_dialog (y_gui (v_sys w))) as [[]|]; [|done]. cbn.
    by destruct (get_int _ _ _ _ _).
  - intros [= <-]. split; [done|]. split; [split; [done|]|done]. unfold dialog_edited. cbn [v_sys same].
    unfold gui_dialog. do 2 f_equal. destruct (g_dialog (y_gui (v_sys w))) as [[]|]; [|done]. cbn.
    by destruct (get_int _ _ _ _ _).
  - intros [= <-]. split; [done|]. split; [|done]. apply H4 in Hsl as Hd.
    destruct (g_dialog (y_gui (v_sys w))) as [d|] eqn:Ed; [|done]. exists d. split; [done|].
    unfold gui_apply_pool. rewrite Ed. destruct (on_apply qt d (y_cfg (v_sys w))) as [c|]; [done|].
    cbn. by rewrite Ed.
  - intros [= <-]. done.
  - intros [= <-]. done.
  - unfold stop_events. destruct (v_stopped w); intros [= <-]; done.
Qed.
(** Every named widget of the keypad has its rule, whatever its layout. *)
Lemma keypad_named title (p : NumPad) :
  Forall (fun n => n ∈ styled_names DARK_STYLESHEET) (named (NumPadDialog qt title p)).
Proof.
  destruct p as [t mn mx neg deci]. unfold NumPadDialog, last_row. cbn [allow_negative_ allow_decimal_].
  generalize (fst (update_display qt (MkPad t mn mx neg deci))). intros ok.
  destruct neg, deci; cbn -[styled_names];
    repeat (apply Forall_cons_2; [apply (bool_decide_unpack _); vm_compute; exact I|]); constructor.
Qed.
End Facts.

(** C35: the window and the program stay in step.  From a start with no dialog open, in
    every run of touches, dismissed dialogs, posted handlers, redraws and events from
    elsewhere: exactly one tab is marked, that of the page shown; the pool dialog is on
    screen exactly when the program has one open; the program has gone through exactly the
    events the touches stand for, each of them legal where it happened (a dialog's events
    while it is open, a page's while none is), and the QoS page is shown only after having
    been refreshed; what can be touched is exactly what the page or dialog offers, every
    one of these touches has a handler that completes, and changes the program and the
    window as [touch_effect] says, widget by widget, and nothing else: the Apply button of
    the QoS page asks for the limits its two fields show, each field takes what its keypad
    returns, the pool dialog's Apply stores its pool and wakes the control thread, and so
    on; every page is one touch away when no dialog is open; and every named widget on
    screen, and of the keypads, has a rule for its class and name in the style sheet, but
    for the three line edits that are named only to be looked up ([lookup_names]). *)
Theorem window_in_step {K} (kern : Kernel K) (qt : Qt) (fd_wan fd_lan : Z) (s0 : system K)
    (es : list (event (K := K))) (w : window K)
    (H0 : g_dialog (y_gui s0) = None) (Hrun : win_run kern qt fd_wan fd_lan s0 es w) :
  sys_run kern qt fd_wan fd_lan es s0 = Some (v_sys w) /\ legal kern qt fd_wan fd_lan es s0 /\
  (v_page w < 4)%nat /\ (forall j, v_checked w !! j = Some true <-> j = v_page w) /\
  (v_modal w = Some DhcpOpen <-> g_dialog (y_gui (v_sys w)) <> None) /\
  (v_page w = 1%nat -> EvPageEnter ∈ es) /\
  touch w = offered (v_page w) (v_modal w) /\
  (forall sl us, sl ∈ touch w -> exists ev k s',
     on_touch sl us w = Some (ev, k) /\ sys_run kern qt fd_wan fd_lan ev (v_sys w) = Some s' /\
     touch_effect qt sl us w (k s')) /\
  (v_modal w = None -> forall page, (page < 4)%nat -> exists ev w',
     win_run kern qt fd_wan fd_lan s0 (es ++ ev) w' /\ v_page w' = page /\ v_modal w' = None) /\
  Forall (fun n => n ∈ styled_names DARK_STYLESHEET \/ snd n ∈ lookup_names) (named (screen w)) /\
  (forall title p, Forall (fun n => n ∈ styled_names DARK_STYLESHEET) (named (NumPadDialog qt title p))).
Proof.
  pose proof (win_run_ok _ _ _ _ _ _ _ H0 Hrun) as Hw. pose proof Hw as [H1 H2 [Hp Hc] H4 H5].
  pose proof (touch_offered _ _ _ _ _ _ _ Hw) as Ht.
  split; [done|]. split; [done|]. split; [done|]. split; [|split; [done|]; split; [done|]; split; [done|]; split; [|split; [|split]]]; cycle -1.
  - intros title p. apply keypad_named.
  - intros j. rewrite Hc. destruct (v_page w) as [|[|[|[|]]]]; [..|lia];
      (match goal with |- context [checked_tab ?i] => let l := eval vm_compute in (checked_tab i) in change (checked_tab i) with l end;
       destruct j as [|[|[|[|j]]]]; vm_compute; split; congruence).
  - intros sl us Hsl. destruct (touch_total kern qt fd_wan fd_lan s0 es w sl us Hw Hsl) as (ev & k & s' & Ek & Hr).
    exists ev, k, s'. split; [done|]. split; [done|]. by eapply touch_has_effect.
  - intros Hm page Hpage. destruct (touch_total kern qt fd_wan fd_lan s0 es w (SlTab (Z.of_nat page)) [] Hw) as (ev & k & s' & Ek & Hr).
    { rewrite Ht, Hm. cbn [offered]. right. apply elem_of_app. right.
      destruct page as [|[|[|[|]]]]; [..|lia]; in_list. }
    exists ev, (k s'). split; [|cbn in Ek; injection Ek as _ <-; cbn; split; [lia|done]].
    eapply wr_touch; [exact Hrun| |exact Ek|exact Hr]. rewrite Ht, Hm. cbn [offered]. right. apply elem_of_app. right.
    destruct page as [|[|[|[|]]]]; [..|lia]; in_list.
  - unfold screen. destruct (v_modal w) as [[|saving]|].
    + destruct (g_dialog (y_gui (v_sys w))) as [d|]; [|constructor]. cbn -[styled_names].
      repeat (apply Forall_cons_2; [first [right; in_list; fail|left; apply (bool_decide_unpack _); vm_compute; exact I]|]). constructor.
    + destruct saving; cbn -[styled_names];
        repeat (apply Forall_cons_2; [left; apply (bool_decide_unpack _); vm_compute; exact I|]); constructor.
    + eapply Forall_impl; [apply main_named; by rewrite Hc|]. by left.
Qed.

(** Names styled for widgets that no constructor makes. *)
Definition made_names : list string :=
  ["section_title"; "btn_primary"; "btn_danger"; "header_frame"; "header_title"; "btn_header_icon"; "tab_bar_frame"]%string.
Example dead_style_names :
  List.filter (fun n => negb (bool_decide (snd n ∈ made_names))) (styled_names DARK_STYLESHEET)
  = [("QListWidget", "nav_list"); ("QLabel", "field_label"); ("QPushButton", "role_btn"); ("QPushButton", "spin_btn")]%string.
Proof. vm_compute. reflexivity. Qed.

(** The switch asks for a mode change. *)
Lemma gui_switch_dirty {K : Type} (s : system K) : mode_config_dirty (mode (tel (gui_switch true true s))) = true.
Proof. reflexivity. Qed.

(** From the overview to the QoS page, then a touch of the switch. *)
Lemma window_in_step_witness : exists s0 es w,
  boot w_net qt_digits Config0 None true true None (world0 (fun i => Z.of_nat i * 1000000) []) = Some s0 /\
  win_run w_net qt_digits 7 8 s0 es w /\ v_page w = 1%nat /\ mode_config_dirty (mode (tel (v_sys w))) = true /\
  touch w = offered 1 None.
Proof.
  destruct (boot w_net qt_digits Config0 None true true None (world0 (fun i => Z.of_nat i * 1000000) [])) as [s0|] eqn:Eb;
    [|exfalso; vm_compute in Eb; discriminate].
  assert (g_dialog (y_gui s0) = None) as H0 by (vm_compute in Eb; injection Eb as <-; reflexivity).
  pose (w0 := Win 0 (checked_tab 0) None 0 false DevicePage0 s0).
  pose (s1 := gui_page s0 (qos_refresh_from_backend qt_digits (tel s0))).
  pose (w1 := Win 1 (checked_tab 1) None 0 false DevicePage0 s1).
  pose (w2 := same w1 (gui_switch true true s1)).
  assert (win_run w_net qt_digits 7 8 s0 [] w0) as R0 by constructor.
  assert (SlTab 1 ∈ touch w0) as T0.
  { destruct (window_in_step w_net qt_digits 7 8 s0 [] w0 H0 R0) as (_ & _ & _ & _ & _ & _ & -> & _). in_list. }
  assert (win_run w_net qt_digits 7 8 s0 [EvPageEnter] w1) as R1.
  { refine (wr_touch w_net qt_digits 7 8 s0 [] w0 (SlTab 1) [] [EvPageEnter] _ s1 R0 T0 eq_refl eq_refl). }
  assert (SlToggleAccel ∈ touch w1) as T1.
  { destruct (window_in_step w_net qt_digits 7 8 s0 _ w1 H0 R1) as (_ & _ & _ & _ & _ & _ & -> & _). in_list. }
  assert (win_run w_net qt_digits 7 8 s0 [EvPageEnter; EvSwitch true true] w2) as R2.
  { refine (wr_touch w_net qt_digits 7 8 s0 [EvPageEnter] w1 SlToggleAccel [] [EvSwitch true true] _ _ R1 T1 eq_refl eq_refl). }
  exists s0, [EvPageEnter; EvSwitch true true], w2. split; [reflexivity|]. split; [exact R2|]. split; [reflexivity|].
  split; [exact (gui_switch_dirty s1)|].
  exact (proj1 (proj2 (proj2 (proj2 (proj2 (proj2 (proj2 (window_in_step w_net qt_digits 7 8 s0 _ w2 H0 R2)))))))).
Defined.
