(* ===== verification/Ownership.v ===== *)
(** Who owns the packet sockets and eventfds, from [App::App] to [App::~App] ([App.cpp],
    [App.hpp], [ControlPlane.cpp], [main.cpp]).

    A [RawSocketManager] is made by [App::init], moved into the forwarding engine, from
    there into a worker thread's argument and into the closure of its receive thread, whose
    end destroys it. The processing thread of the other direction, and the DHCP service,
    know its descriptor as a number only. The steps of the main thread, of the workers with
    their two threads each, and of the control plane's threads (which open and close
    descriptors of their own) interleave; the process is that of [Descriptors]. *)
From Stdlib Require Import ZArith Lia Ascii String.
From stdpp Require Import base numbers gmap strings list.
From S2P Require Import Prelude Text Descriptors StopTokens App.
#[local] Open Scope Z_scope.
#[local] Open Scope list_scope.

(** * State *)
Inductive tstate := TNone | TRun | TEnd.
(** Where the thread running [worker_event_loop] is: not started, before the start of the
    receive thread, of the processing thread, joining the one, joining the other, ended. *)
Inductive worker_pc := WNone | WArg | WRx | WBoth | WJoinRx | WDone.

(** One direction: down is the worker that receives from the WAN, up from the LAN. *)
Record dir := Dir {
  d_app : option RawSock;   (* [App::iface_wan], [iface_lan] *)
  d_eng : option RawSock;   (* [Forward_Engine::wan_], [lan_] *)
  d_arg : option RawSock;   (* [rx_mgr] of [worker_event_loop] *)
  d_mgr : option RawSock;   (* [mgr] of the receive thread *)
  d_worker : worker_pc; d_rx : tstate; d_proc : tstate }.
Definition dir0 : dir := Dir None None None None WNone TNone TNone.

(** A thread of the control plane, with the descriptor it has open for the moment. *)
Record svc := Svc { sv_alive : bool; sv_tmp : Z }.

(** Who called [stop]: [App::stop] (before or after the event loop), [~App], or the
    destructor of the engine itself. *)
Inductive caller := ByStop (leaving : bool) | ByApp | ByMember.
Inductive main_pc :=
  | MInit | MInitSock (up : bool) | MSync | MStart | MControl | MForward | MSpawn (up : bool) | MLoop
  | MFwdJoin (up : bool) (k : caller) | MFwdClose (k : caller) | MCtlJoin (k : caller) | MCtlClose (k : caller)
  | MMark (leaving : bool) | MDropEng | MDropApp | MEnd
  | MExited.   (* [std::exit] in [ControlPlane::start] *)

Record app := Application {
  a_proc : Process; a_main : main_pc; a_down : dir; a_up : dir;
  a_fd_wan : Z; a_fd_lan : Z;                       (* the numbers handed out *)
  a_fwd : bool; a_sync : list WorkerPollSync;       (* [forward_engine_], [poll_sync_] *)
  a_made : bool; a_ctl : ControlFds; a_svcs : list svc;   (* [control_plane_] *)
  a_life : Lifecycle }.
Definition app0 (p : Process) : app :=
  Application p MInit dir0 dir0 (-1) (-1) false poll_sync0 false ControlFds0 [] Lifecycle0.

Definition dir_of (up : bool) (s : app) : dir := if up then a_up s else a_down s.
Definition put_dir (up : bool) (d : dir) (s : app) : app :=
  Application (a_proc s) (a_main s) (if up then a_down s else d) (if up then d else a_up s) (a_fd_wan s) (a_fd_lan s)
    (a_fwd s) (a_sync s) (a_made s) (a_ctl s) (a_svcs s) (a_life s).
Definition set_proc (p : Process) (s : app) : app :=
  Application p (a_main s) (a_down s) (a_up s) (a_fd_wan s) (a_fd_lan s)
    (a_fwd s) (a_sync s) (a_made s) (a_ctl s) (a_svcs s) (a_life s).
Definition go (m : main_pc) (s : app) : app :=
  Application (a_proc s) m (a_down s) (a_up s) (a_fd_wan s) (a_fd_lan s)
    (a_fwd s) (a_sync s) (a_made s) (a_ctl s) (a_svcs s) (a_life s).
Definition set_fds (wan lan : Z) (s : app) : app :=
  Application (a_proc s) (a_main s) (a_down s) (a_up s) wan lan
    (a_fwd s) (a_sync s) (a_made s) (a_ctl s) (a_svcs s) (a_life s).
Definition set_engine (made : bool) (ws : list WorkerPollSync) (s : app) : app :=
  Application (a_proc s) (a_main s) (a_down s) (a_up s) (a_fd_wan s) (a_fd_lan s)
    made ws (a_made s) (a_ctl s) (a_svcs s) (a_life s).
Definition set_control (made : bool) (c : ControlFds) (s : app) : app :=
  Application (a_proc s) (a_main s) (a_down s) (a_up s) (a_fd_wan s) (a_fd_lan s)
    (a_fwd s) (a_sync s) made c (a_svcs s) (a_life s).
Definition set_svcs (l : list svc) (s : app) : app :=
  Application (a_proc s) (a_main s) (a_down s) (a_up s) (a_fd_wan s) (a_fd_lan s)
    (a_fwd s) (a_sync s) (a_made s) (a_ctl s) l (a_life s).
Definition set_life (l : Lifecycle) (s : app) : app :=
  Application (a_proc s) (a_main s) (a_down s) (a_up s) (a_fd_wan s) (a_fd_lan s)
    (a_fwd s) (a_sync s) (a_made s) (a_ctl s) (a_svcs s) l.

(** * The main thread *)
(** What follows each part of a shutdown; an engine that was never made is skipped. The
    members of [App] are destroyed in reverse order: control plane, forwarding engine,
    sockets. *)
Definition drop_fwd (s : app) : main_pc := if a_fwd s then MFwdJoin false ByMember else MDropApp.
Definition after_ctl (k : caller) (s : app) : main_pc :=
  match k with
  | ByStop leaving => MMark leaving
  | ByApp => if a_made s then MCtlJoin ByMember else drop_fwd s
  | ByMember => drop_fwd s
  end.
Definition ctl_stop (k : caller) (s : app) : main_pc := if a_made s then MCtlJoin k else after_ctl k s.
Definition after_fwd (k : caller) (s : app) : main_pc :=
  match k with ByMember => MDropEng | _ => ctl_stop k s end.
Definition fwd_stop (k : caller) (s : app) : main_pc := if a_fwd s then MFwdJoin false k else after_fwd k s.

(** [App::stop], and the end of [main] once it has stopped. *)
Definition enter_stop (leaving : bool) (s : app) : app :=
  let '(first, l) := begin_stop (a_life s) in
  let s := set_life l s in
  go (if first then fwd_stop (ByStop leaving) s else if leaving then fwd_stop ByApp s else MLoop) s.

Definition destroy (m : option RawSock) (p : Process) : Process :=
  match m with Some s => rawsock_destroy s p | None => p end.
Definition get_fd (m : option RawSock) : Z := from_option rs_fd (-1) m.
Definition joinable (w : worker_pc) : bool := match w with WNone | WDone => false | _ => true end.

Inductive action :=
  | AMain            (* the main thread's next step, where it has no choice *)
  | ASync (ok : bool) | AThrow | AStop | ALeave
  | AWorker (up : bool) | ARxEnd (up : bool) | AProcEnd (up : bool)
  | ASvcOpen (i : nat) | ASvcClose (i : nat) | ASvcEnd (i : nat).

Section Steps.
Context (iface_wan iface_lan : list Z) (nproc : Z).

(** [Forward_Engine::start] up to the first thread; before it, [refresh_l2] may probe. *)
Definition engine_start (s : app) : app :=
  let moved d := Dir None (d_app d) (d_arg d) (d_mgr d) (d_worker d) (d_rx d) (d_proc d) in
  let '(ok, ws, p) := open_poll_fds (a_sync s) (snd (force_arp_resolution (a_proc s))) in
  go (if ok : bool then MSpawn false else MLoop)
    (set_engine true ws (set_proc p (put_dir false (moved (a_down s)) (put_dir true (moved (a_up s)) s)))).

Definition main_step (s : app) : option app :=
  let p := a_proc s in
  match a_main s with
  | MInit =>
      let p := snd (disable_hardware_offloads (snd (disable_hardware_offloads p))) in
      let with_sock d n := Dir (Some (rawsock_make n)) (d_eng d) (d_arg d) (d_mgr d) (d_worker d) (d_rx d) (d_proc d) in
      Some (go (MInitSock false)
        (set_proc p (put_dir false (with_sock (a_down s) iface_wan) (put_dir true (with_sock (a_up s) iface_lan) s))))
  | MInitSock up =>
      let d := dir_of up s in
      m ← d_app d;
      let '(r, m, p) := rawsock_init m p in
      let s := set_proc p (put_dir up (Dir (Some m) (d_eng d) (d_arg d) (d_mgr d) (d_worker d) (d_rx d) (d_proc d)) s) in
      Some (go (match r with inl _ => fwd_stop ByApp s | inr _ => if up then MSync else MInitSock true end) s)
  | MStart =>
      Some (go MControl (set_fds (get_fd (d_app (a_down s))) (get_fd (d_app (a_up s)))
        (set_proc (snd (lock_cpu_frequency nproc p)) s)))
  | MControl =>
      match control_open (a_ctl s) p with
      | None => Some (go MExited s)
      | Some (c, p) =>
          Some (go MForward (set_svcs (replicate (S WATCHDOG_SERVICE_COUNT) (Svc true (-1)))
            (set_control true c (set_proc p s))))
      end
  | MForward => Some (engine_start s)
  | MSpawn up =>
      let d := dir_of up s in
      Some (go (if up then MLoop else MSpawn true)
        (put_dir up (Dir (d_app d) None (d_eng d) (d_mgr d) WArg (d_rx d) (d_proc d)) s))
  | MFwdJoin up k =>
      if joinable (d_worker (dir_of up s)) then None
      else Some (go (if up then MFwdClose k else MFwdJoin true k) s)
  | MFwdClose k =>
      let '(ws, p) := close_poll_fds (a_sync s) p in
      let s := set_engine (a_fwd s) ws (set_proc p s) in Some (go (after_fwd k s) s)
  | MCtlJoin k => if existsb sv_alive (a_svcs s) then None else Some (go (MCtlClose k) s)
  | MCtlClose k =>
      let '(c, p) := control_close (a_ctl s) p in
      let s := set_control (a_made s) c (set_proc p s) in Some (go (after_ctl k s) s)
  | MMark leaving =>
      let s := set_life (mark_complete (a_life s)) s in
      Some (go (if leaving then fwd_stop ByApp s else MLoop) s)
  | MDropEng =>
      let gone d := Dir (d_app d) None (d_arg d) (d_mgr d) (d_worker d) (d_rx d) (d_proc d) in
      let p := destroy (d_eng (a_down s)) (destroy (d_eng (a_up s)) p) in
      Some (go MDropApp (set_engine false (a_sync s)
        (set_proc p (put_dir false (gone (a_down s)) (put_dir true (gone (a_up s)) s)))))
  | MDropApp =>
      let gone d := Dir None (d_eng d) (d_arg d) (d_mgr d) (d_worker d) (d_rx d) (d_proc d) in
      let p := destroy (d_app (a_down s)) (destroy (d_app (a_up s)) p) in
      Some (go MEnd (set_proc p (put_dir false (gone (a_down s)) (put_dir true (gone (a_up s)) s))))
  | MSync | MLoop | MEnd | MExited => None
  end.

(** * The other threads *)
(** [worker_event_loop]: start the receive thread, the processing thread, join both. *)
Definition worker_step (up : bool) (s : app) : option app :=
  let d := dir_of up s in
  match d_worker d, d_proc d, d_rx d with
  | WArg, _, _ => Some (put_dir up (Dir (d_app d) (d_eng d) None (d_arg d) WRx TRun (d_proc d)) s)
  | WRx, _, rx => Some (put_dir up (Dir (d_app d) (d_eng d) (d_arg d) (d_mgr d) WBoth rx TRun) s)
  | WBoth, TEnd, rx => Some (put_dir up (Dir (d_app d) (d_eng d) (d_arg d) (d_mgr d) WJoinRx rx TEnd) s)
  | WJoinRx, pr, TEnd => Some (put_dir up (Dir (d_app d) (d_eng d) (d_arg d) (d_mgr d) WDone TEnd pr) s)
  | _, _, _ => None
  end.
(** The receive thread ends, for whatever reason; its closure destroys the socket. *)
Definition rx_end (up : bool) (s : app) : option app :=
  let d := dir_of up s in
  match d_rx d with
  | TRun => Some (set_proc (destroy (d_mgr d) (a_proc s))
                   (put_dir up (Dir (d_app d) (d_eng d) (d_arg d) None (d_worker d) TEnd (d_proc d)) s))
  | _ => None
  end.
Definition proc_end (up : bool) (s : app) : option app :=
  let d := dir_of up s in
  match d_proc d with
  | TRun => Some (put_dir up (Dir (d_app d) (d_eng d) (d_arg d) (d_mgr d) (d_worker d) (d_rx d) TEnd) s)
  | _ => None
  end.

(** The one-shot descriptors of a service, and its end. *)
Definition svc_open (i : nat) (s : app) : option app :=
  v ← a_svcs s !! i;
  if negb (sv_alive v) || (0 <=? sv_tmp v) then None
  else let '(fd, p) := open_fd (a_proc s) in Some (set_proc p (set_svcs (<[i := Svc true fd]> (a_svcs s)) s)).
Definition svc_close (i : nat) (s : app) : option app :=
  v ← a_svcs s !! i;
  if negb (sv_alive v) || (sv_tmp v <? 0) then None
  else Some (set_proc (close_fd (sv_tmp v) (a_proc s)) (set_svcs (<[i := Svc true (-1)]> (a_svcs s)) s)).
Definition svc_end (i : nat) (s : app) : option app :=
  v ← a_svcs s !! i;
  if negb (sv_alive v) || (0 <=? sv_tmp v) then None
  else Some (set_svcs (<[i := Svc false (-1)]> (a_svcs s)) s).

Definition step (a : action) (s : app) : option app :=
  match a with
  | AMain => main_step s
  | ASync ok => match a_main s with MSync => Some (go (if ok then MStart else fwd_stop ByApp s) s) | _ => None end
  (* an exception between [init] and [start] *)
  | AThrow => match a_main s with MStart => Some (go (fwd_stop ByApp s) s) | _ => None end
  | AStop => match a_main s with MLoop => Some (enter_stop false s) | _ => None end
  | ALeave => match a_main s with MLoop => Some (enter_stop true s) | _ => None end
  | AWorker up => worker_step up s
  | ARxEnd up => rx_end up s
  | AProcEnd up => proc_end up s
  | ASvcOpen i => svc_open i s
  | ASvcClose i => svc_close i s
  | ASvcEnd i => svc_end i s
  end.
Fixpoint run (l : list action) (s : app) : option app :=
  match l with
  | [] => Some s
  | a :: l' => s' ← step a s; run l' s'
  end.
End Steps.

(** * What is owned *)
Definition fd_list (fd : Z) : list nat := if 0 <=? fd then [Z.to_nat fd] else [].
Definition sock_fds (m : option RawSock) : list nat := from_option (fun s => fd_list (rs_fd s)) [] m.
Definition sock_maps (m : option RawSock) : nat :=
  match m with Some s => match rs_ring s with RingMapped => 1 | _ => 0 end | None => 0 end.
Definition dir_fds (d : dir) : list nat := sock_fds (d_app d) ++ sock_fds (d_eng d) ++ sock_fds (d_arg d) ++ sock_fds (d_mgr d).
Definition dir_maps (d : dir) : nat := sock_maps (d_app d) + sock_maps (d_eng d) + sock_maps (d_arg d) + sock_maps (d_mgr d).
Definition zs_fds (l : list Z) : list nat := concat (map fd_list l).
Definition ctl_fds (c : ControlFds) : list nat := fd_list (watchdog_stop_efd_ c) ++ fd_list (dhcp_cfg_efd_ c).
Definition svc_fds (l : list svc) : list nat := concat (map (fun v => fd_list (sv_tmp v)) l).
Definition fds (s : app) : list nat :=
  dir_fds (a_down s) ++ dir_fds (a_up s) ++ zs_fds (sync_fds (a_sync s)) ++ ctl_fds (a_ctl s) ++ svc_fds (a_svcs s).
Definition maps (s : app) : nat := (dir_maps (a_down s) + dir_maps (a_up s))%nat.

(** The process [p] has, over [base], exactly the distinct descriptors [l] and [n] mappings. *)
Record holds (base p : Process) (l : list nat) (n : nat) : Prop := {
  ho_nodup : NoDup l; ho_fresh : forall x, x ∈ l -> x ∉ p_open base;
  ho_open : p_open p = p_open base ∪ list_to_set l; ho_maps : p_maps p = (p_maps base + n)%nat }.

Lemma fd_list_nat n : fd_list (Z.of_nat n) = [n].
Proof. unfold fd_list. assert (0 <=? Z.of_nat n = true) as -> by (apply Z.leb_le; lia). by rewrite Nat2Z.id. Qed.
Lemma holds_perm base p l l' n : l ≡ₚ l' -> holds base p l n -> holds base p l' n.
Proof.
  intros E [H1 H2 H3 H4]. split; [by rewrite <- E|intros x; rewrite <- E; apply H2| |done].
  rewrite H3. apply set_eq. intros x. by rewrite !elem_of_union, !elem_of_list_to_set, E.
Qed.
Lemma holds_same base p p' l n : same_resources p p' -> holds base p l n -> holds base p' l n.
Proof. intros [E1 E2] [H1 H2 H3 H4]. split; [done|done|by rewrite E1|by rewrite E2]. Qed.
(** Descriptors [l'] and mappings [n'] are added. *)
Lemma holds_add base p p' l l' n n' : NoDup l' -> (forall x, x ∈ l' -> x ∉ p_open p) ->
  p_open p' = list_to_set l' ∪ p_open p -> p_maps p' = (p_maps p + n')%nat ->
  holds base p l n -> holds base p' (l' ++ l) (n' + n).
Proof.
  intros Hnd Hf Ho Hm [H1 H2 H3 H4]. rewrite H3 in Ho. assert (forall x, x ∈ l' -> x ∉ p_open base /\ x ∉ l) as Hf'.
  { intros x Hx. specialize (Hf x Hx). rewrite H3 in Hf. set_solver. }
  split.
  - apply NoDup_app. split_and!; [done| |done]. intros x Hx. by apply Hf'.
  - intros x [Hx|Hx]%elem_of_app; [by apply Hf'|by apply H2].
  - rewrite Ho, list_to_set_app_L. set_solver.
  - lia.
Qed.
(** They are given back. *)
Lemma holds_remove base p p' l l' n n' : p_open p' = p_open p ∖ list_to_set l' -> p_maps p = (p_maps p' + n')%nat ->
  holds base p (l' ++ l) (n' + n) -> holds base p' l n.
Proof.
  intros Ho Hm [H1 H2 H3 H4]. apply NoDup_app in H1 as (Hnd' & Hdj & Hnd). split; [done|set_solver| |lia].
  rewrite Ho, H3, list_to_set_app_L. apply set_eq. intros x. specialize (Hdj x). specialize (H2 x). set_solver.
Qed.

Lemma holds_open_fd base p fd p' l n : open_fd p = (fd, p') -> holds base p l n -> holds base p' (fd_list fd ++ l) n.
Proof.
  intros [Hm [[-> Ho]|(k & -> & Hk & Ho)]]%open_fd_spec H.
  - change (fd_list (-1)) with (@nil nat). by apply (holds_same _ _ _ _ _ (conj Ho Hm)).
  - rewrite fd_list_nat. apply (holds_add base p p' l [k] n 0); [apply NoDup_singleton| |set_solver|lia|done].
    by intros x ->%list_elem_of_singleton.
Qed.
Lemma holds_close_fd base p fd l n : 0 <= fd -> holds base p (fd_list fd ++ l) n -> holds base (close_fd fd p) l n.
Proof.
  intros Hfd. apply (holds_remove base p (close_fd fd p) l (fd_list fd) n 0); [|by cbn; lia].
  unfold close_fd, fd_list. rewrite (proj2 (Z.leb_le 0 fd) Hfd). cbn. set_solver.
Qed.
Lemma holds_close base p fd l n : holds base p (fd_list fd ++ l) n -> holds base (close_if_open fd p) l n.
Proof.
  unfold close_if_open. destruct (Z.leb_spec 0 fd) as [H|H]; [by apply holds_close_fd|].
  unfold fd_list. by rewrite (proj2 (Z.leb_gt 0 fd) H).
Qed.

(** A packet socket set up, and destroyed. *)
Lemma holds_sock_init base m p r m' p' l n : rs_fd m = -1 -> rs_ring m = RingNull -> rawsock_init m p = (r, m', p') ->
  holds base p l n -> holds base p' (sock_fds (Some m') ++ l) (sock_maps (Some m') + n) /\ (r = inr tt -> 0 <= rs_fd m').
Proof.
  intros Hfd Hring. unfold rawsock_init. destruct (open_fd p) as [fd p1] eqn:Ef. intros Hinit H.
  pose proof (holds_open_fd _ _ _ _ _ _ Ef H) as H1. apply open_fd_spec in Ef as [Hm [[-> Ho]|(k & -> & Hk & Ho)]].
  { injection Hinit as <- <- <-. cbn. rewrite Hring. done. }
  assert (Z.of_nat k <? 0 = false) as Hk0 by (apply Z.ltb_ge; lia). rewrite Hk0 in Hinit. revert Hinit.
  cbn [rs_fd rs_ring rs_iface rs_ring_size].
  assert (forall u (q : Process), p_open q = p_open p1 -> p_maps q = (p_maps p1 + u)%nat ->
    holds base q (fd_list (Z.of_nat k) ++ l) (u + n)) as Hq.
  { intros u q Eo Em. split; try apply H1; [rewrite Eo; apply H1|rewrite Em, (ho_maps _ _ _ _ H1); lia]. }
  calls; intros [= <- <- <-]; cbn in *; rewrite ?Hring; 
    (split; [first [apply (Hq 0%nat)|apply (Hq 1%nat)]; cbn; first [congruence|lia]|done || (intros; lia)]).
Qed.
Lemma holds_destroy base m p l n : holds base p (sock_fds m ++ l) (sock_maps m + n) -> holds base (destroy m p) l n.
Proof.
  destruct m as [m|]; [|done]. cbn [sock_fds from_option destroy sock_maps]. unfold rawsock_destroy.
  intros H. apply (holds_remove base p _ l (fd_list (rs_fd m)) n (sock_maps (Some m))); [| |done].
  - unfold fd_list. destruct (rs_ring m), (0 <=? rs_fd m); cbn; set_solver.
  - pose proof (ho_maps _ _ _ _ H). cbn in *. destruct (rs_ring m), (0 <=? rs_fd m); cbn in *; lia.
Qed.

(** The eventfds of the workers, and of the control plane. *)
Lemma as_set_zs l : as_set l = list_to_set (zs_fds l).
Proof.
  induction l as [|z l IH]; [done|]. change (z :: l) with ([z] ++ l). rewrite as_set_app, IH.
  unfold zs_fds. cbn. rewrite list_to_set_app_L. f_equal. unfold as_set, fd_list. cbn. by destruct (0 <=? z).
Qed.
Lemma zs_fds_nats ns : zs_fds (map Z.of_nat ns) = ns.
Proof. induction ns as [|n ns IH]; [done|]. unfold zs_fds in *. cbn -[fd_list]. by rewrite fd_list_nat, IH. Qed.
Lemma closed_zs ws : all_closed ws -> zs_fds (sync_fds ws) = [].
Proof. induction 1 as [|w ws -> _ IH]; [done|]. exact IH. Qed.
Lemma holds_open_poll base ws p ok ws' p' l n : all_closed ws -> open_poll_fds ws p = (ok, ws', p') ->
  holds base p l n -> holds base p' (zs_fds (sync_fds ws') ++ l) n /\
  if ok : bool then Forall (fun fd => 0 <= fd) (sync_fds ws') else all_closed ws'.
Proof.
  intros Hc E H. destruct (open_poll_fds_balanced _ _ _ _ _ Hc E) as ([_ Hm] & _ & Hres).
  destruct (close_poll_fds ws' p') as [ws2 p2] eqn:Ec. apply close_poll_fds_spec in Ec as (_ & _ & Em).
  cbn [snd] in Hm. destruct ok.
  - destruct Hres as [[Hnd Hf] Ho]. split; [|eapply Forall_impl; [exact Hf|]; intros ? (k & -> & _); lia].
    assert (exists ns, sync_fds ws' = map Z.of_nat ns /\ Forall (fun k => k ∉ p_open p) ns) as (ns & Ens & Hns).
    { clear -Hf. induction Hf as [|z l (k & -> & Hk) _ (ns & -> & Hns)]; [by exists []|]. exists (k :: ns). split; [done|by constructor]. }
    rewrite as_set_zs in Ho. rewrite Ens, zs_fds_nats in *.
    apply (holds_add base p p' l ns n 0); [by eapply NoDup_fmap_1| |done|lia|done].
    intros x Hx. by eapply Forall_forall in Hns.
  - destruct Hres as [Hcl Ho]. rewrite closed_zs by done. split; [|done]. eapply holds_same; [|exact H]. split; congruence.
Qed.
Lemma holds_close_poll base ws p ws' p' l n : close_poll_fds ws p = (ws', p') ->
  holds base p (zs_fds (sync_fds ws) ++ l) n -> holds base p' l n /\ all_closed ws'.
Proof.
  intros (-> & Ho & Hm)%close_poll_fds_spec H. split; [|apply all_closed_map].
  rewrite as_set_zs in Ho. by apply (holds_remove base p p' l _ n 0 Ho); [lia|].
Qed.
Definition ctl_open (c : ControlFds) : Prop := 0 <= watchdog_stop_efd_ c /\ 0 <= dhcp_cfg_efd_ c.
Lemma holds_ctl_open base p c p' l n : control_open ControlFds0 p = Some (c, p') ->
  holds base p l n -> holds base p' (ctl_fds c ++ l) n /\ ctl_open c.
Proof.
  unfold control_open, open_if_closed. cbn [watchdog_stop_efd_ dhcp_cfg_efd_ ControlFds0].
  change (-1 <? 0) with true. cbv iota. destruct (open_fd p) as [w q1] eqn:E1.
  destruct (Z.ltb_spec w 0) as [|Hw]; [done|]. cbn. destruct (open_fd q1) as [e q2] eqn:E2.
  destruct (Z.ltb_spec e 0) as [|He]; [done|]. cbn. intros [= <- <-] H. split; [|done].
  apply (holds_open_fd _ _ _ _ _ _ E1), (holds_open_fd _ _ _ _ _ _ E2) in H.
  eapply holds_perm; [|exact H]. unfold ctl_fds. cbn. rewrite !app_assoc. apply Permutation_app_tail, Permutation_app_comm.
Qed.
Lemma holds_ctl_close base c p c' p' l n : control_close c p = (c', p') ->
  holds base p (ctl_fds c ++ l) n -> holds base p' l n /\ ctl_fds c' = [].
Proof.
  destruct c as [w e]. unfold control_close, close_watchdog_stop_efd, close_dhcp_cfg_efd, ctl_fds.
  cbn [watchdog_stop_efd_ dhcp_cfg_efd_]. rewrite <- app_assoc. intros E H.
  pose proof (holds_close base p w _ _ H) as H1. pose proof (holds_close base _ e _ _ H1) as H2.
  unfold close_if_open in *. unfold fd_list.
  destruct (0 <=? w) eqn:Ew, (0 <=? e) eqn:Ee; cbn in E; rewrite ?Ee in E; injection E as <- <-;
    cbn; rewrite ?Ew, ?Ee; done.
Qed.

(** * Invariant *)
Definition holders (d : dir) : list RawSock := omap id [d_app d; d_eng d; d_arg d; d_mgr d].
Definition rx_ok (d : dir) : Prop :=
  (d_rx d = TRun /\ is_Some (d_mgr d)) \/ (d_rx d = TEnd /\ d_mgr d = None).
(** Where the socket of a direction can be, by how far its worker is. *)
Definition dir_ok (d : dir) : Prop :=
  match d_worker d with
  | WNone => d_arg d = None /\ d_mgr d = None /\ d_rx d = TNone /\ d_proc d = TNone /\ (d_app d = None \/ d_eng d = None)
  | w => d_app d = None /\ d_eng d = None /\
      match w with
      | WArg => is_Some (d_arg d) /\ d_mgr d = None /\ d_rx d = TNone /\ d_proc d = TNone
      | WRx => d_arg d = None /\ rx_ok d /\ d_proc d = TNone
      | WBoth => d_arg d = None /\ rx_ok d /\ d_proc d <> TNone
      | WJoinRx => d_arg d = None /\ rx_ok d /\ d_proc d = TEnd
      | _ => d_arg d = None /\ d_mgr d = None /\ d_rx d = TEnd /\ d_proc d = TEnd
      end
  end.
(** The socket exists, or its receive thread has ended. *)
Definition has (d : dir) : Prop := holders d <> [] \/ d_rx d = TEnd.

Definition fd_of (up : bool) (s : app) : Z := if up then a_fd_lan s else a_fd_wan s.
Definition recorded (s : app) : Prop :=
  forall up m, m ∈ holders (dir_of up s) -> rs_fd m = fd_of up s /\ 0 <= rs_fd m.
Definition late (s : app) : Prop := recorded s /\ forall up, has (dir_of up s).
Definition unstarted (s : app) : Prop := a_fwd s = false /\ forall up, d_worker (dir_of up s) = WNone.
Definition quiet (s : app) : Prop := forall up, joinable (d_worker (dir_of up s)) = false.
Definition closed (s : app) : Prop := all_closed (a_sync s).
Definition dead (s : app) : Prop := existsb sv_alive (a_svcs s) = false.
Definition noctl (s : app) : Prop := ctl_fds (a_ctl s) = [].
Definition fresh (m : option RawSock) : Prop := exists x, m = Some x /\ rs_fd x = -1 /\ rs_ring x = RingNull.
Definition ready (m : option RawSock) : Prop := exists x, m = Some x /\ 0 <= rs_fd x.

Definition pc_ok (m : main_pc) (s : app) : Prop :=
  match m with
  | MInit => unstarted s /\ a_made s = false /\ forall up, d_app (dir_of up s) = None
  | MInitSock up => unstarted s /\ a_made s = false /\ fresh (d_app (dir_of up s)) /\
      if up then ready (d_app (a_down s)) else fresh (d_app (a_up s))
  | MSync | MStart => unstarted s /\ a_made s = false /\ forall up, ready (d_app (dir_of up s))
  | MControl => unstarted s /\ a_made s = false /\ recorded s /\ forall up, ready (d_app (dir_of up s))
  | MForward => unstarted s /\ recorded s /\ forall up, ready (d_app (dir_of up s))
  | MSpawn up => late s /\ a_fwd s = true /\ Forall (fun fd => 0 <= fd) (sync_fds (a_sync s)) /\
      forall u, u = up \/ up = false -> d_worker (dir_of u s) = WNone /\ is_Some (d_eng (dir_of u s))
  | MLoop => late s
  | MFwdJoin up k => late s /\ a_fwd s = true /\ (up = true -> joinable (d_worker (a_down s)) = false) /\
      (k = ByMember -> dead s /\ noctl s)
  | MFwdClose k => late s /\ a_fwd s = true /\ quiet s /\ (k = ByMember -> dead s /\ noctl s)
  | MCtlJoin _ => late s /\ quiet s /\ closed s
  | MCtlClose _ => late s /\ quiet s /\ closed s /\ dead s
  | MMark _ => late s /\ quiet s /\ closed s /\ dead s /\ noctl s
  | MDropEng => quiet s /\ closed s /\ dead s /\ noctl s
  | MDropApp => quiet s /\ closed s /\ dead s /\ noctl s /\ forall up, d_eng (dir_of up s) = None
  | MEnd => quiet s /\ closed s /\ dead s /\ noctl s /\
      forall up, d_eng (dir_of up s) = None /\ d_app (dir_of up s) = None
  | MExited => unstarted s /\ a_made s = false
  end.

(** What holds wherever the main thread is. *)
Record shape (s : app) : Prop := {
  sh_dir : forall up, dir_ok (dir_of up s);
  sh_nofwd : a_fwd s = false -> quiet s /\ closed s /\ forall up, d_eng (dir_of up s) = None;
  sh_nomade : a_made s = false -> a_ctl s = ControlFds0 /\ dead s;
  sh_sync : forall up, joinable (d_worker (dir_of up s)) = true -> Forall (fun fd => 0 <= fd) (sync_fds (a_sync s));
  sh_ctl : dead s \/ ctl_open (a_ctl s);
  sh_tmp : Forall (fun v => sv_alive v = false -> sv_tmp v < 0) (a_svcs s) }.
Record life_inv (base : Process) (s : app) : Prop := {
  li_holds : holds base (a_proc s) (fds s) (maps s); li_shape : shape s; li_pc : pc_ok (a_main s) s }.

(** A statement about both directions. *)
Ltac dirs := let u := fresh "u" in intros u; destruct u; cbn.
Lemma dead_noctl s : a_made s = false -> shape s -> dead s /\ noctl s.
Proof. intros E H. destruct (sh_nomade s H E) as [Ec Hd]. split; [done|]. unfold noctl. by rewrite Ec. Qed.

(** Where a shutdown goes next. *)
Lemma drop_fwd_ok s : shape s -> late s -> quiet s -> closed s -> dead s -> noctl s -> pc_ok (drop_fwd s) s.
Proof.
  intros Hs Hl Hq Hc Hd Hn. unfold drop_fwd. destruct (a_fwd s) eqn:E; cbn; [done|].
  split_and!; try done. by apply (sh_nofwd s Hs E).
Qed.
Lemma after_ctl_ok k s : shape s -> late s -> quiet s -> closed s -> dead s -> noctl s -> pc_ok (after_ctl k s) s.
Proof.
  intros. destruct k; cbn; [done| |by apply drop_fwd_ok]. destruct (a_made s); [done|by apply drop_fwd_ok].
Qed.
Lemma ctl_stop_ok k s : shape s -> late s -> quiet s -> closed s -> pc_ok (ctl_stop k s) s.
Proof.
  intros Hs Hl Hq Hc. unfold ctl_stop. destruct (a_made s) eqn:E; [done|].
  destruct (dead_noctl s E Hs). by apply after_ctl_ok.
Qed.
Lemma after_fwd_ok k s : shape s -> late s -> quiet s -> closed s -> (k = ByMember -> dead s /\ noctl s) ->
  pc_ok (after_fwd k s) s.
Proof.
  intros Hs Hl Hq Hc Hk. destruct k; cbn; [by apply ctl_stop_ok..|]. by destruct Hk.
Qed.
Lemma fwd_stop_ok k s : shape s -> late s -> k <> ByMember -> pc_ok (fwd_stop k s) s.
Proof.
  intros Hs Hl Hk. unfold fwd_stop. destruct (a_fwd s) eqn:E; cbn; [done|].
  destruct (sh_nofwd s Hs E) as (Hq & Hc & _). by apply after_fwd_ok.
Qed.
(** Before anything was started, [~App] destroys the sockets. *)
Lemma fwd_stop_early s : shape s -> unstarted s -> a_made s = false -> pc_ok (fwd_stop ByApp s) s.
Proof.
  intros Hs [E _] Em. unfold fwd_stop. rewrite E. cbn. unfold ctl_stop. rewrite Em. cbn. rewrite Em. unfold drop_fwd. rewrite E.
  destruct (sh_nofwd s Hs E) as (Hq & Hc & He), (dead_noctl s Em Hs). done.
Qed.

(** [go] changes the main thread's place only. *)
Lemma shape_go m s : shape s -> shape (go m s).
Proof. intros [H1 H2 H3 H4 H5 H6]. by split. Qed.
Lemma pc_ok_go m m' s : pc_ok m s -> pc_ok m (go m' s).
Proof. by destruct m. Qed.
Lemma inv_go base m s : holds base (a_proc s) (fds s) (maps s) -> shape s -> pc_ok m s -> life_inv base (go m s).
Proof. intros. split; [done|by apply shape_go|by apply pc_ok_go]. Qed.

(** * The workers' steps *)
Definition rest (up : bool) (s : app) : list nat :=
  dir_fds (dir_of (negb up) s) ++ zs_fds (sync_fds (a_sync s)) ++ ctl_fds (a_ctl s) ++ svc_fds (a_svcs s).
Lemma fds_rest up s : fds s ≡ₚ dir_fds (dir_of up s) ++ rest up s.
Proof.
  unfold fds, rest. destruct up; cbn [negb dir_of]; [|done]. rewrite !app_assoc. do 3 f_equiv. apply Permutation_app_comm.
Qed.
Lemma maps_rest up s : maps s = (dir_maps (dir_of up s) + dir_maps (dir_of (negb up) s))%nat.
Proof. unfold maps. destruct up; cbn; lia. Qed.
Lemma dir_put up d s : dir_of up (put_dir up d s) = d.
Proof. by destruct up. Qed.
Lemma dir_put_ne up d s : dir_of (negb up) (put_dir up d s) = dir_of (negb up) s.
Proof. by destruct up. Qed.

(** What a step of the worker or of its two threads may do to a direction. *)
Record dir_step (d d' : dir) : Prop := {
  ds_live : joinable (d_worker d) = true; ds_ok : dir_ok d'; ds_has : has d -> has d';
  ds_holders : forall m, m ∈ holders d' -> m ∈ holders d;
  ds_eng : d_app d' = None /\ d_eng d' = None }.

Lemma put_dir_inv base up d p s : life_inv base s -> dir_step (dir_of up s) d ->
  holds base p (dir_fds d ++ rest up s) (dir_maps d + dir_maps (dir_of (negb up) s)) ->
  life_inv base (set_proc p (put_dir up d s)).
Proof.
  intros [Hh [H1 H2 H3 H4 H5 H6] Hpc] [Hl Hok Hhas Hsub [Happ Heng]] Hp.
  set (s' := set_proc p (put_dir up d s)).
  assert (forall u, dir_of u s' = if Bool.eqb u up then d else dir_of u s) as Hdir by (by destruct up; intros []).
  assert (late s -> late s') as Hlate.
  { intros [Hr Hs]. split.
    - intros u m. rewrite Hdir. destruct (Bool.eqb_spec u up) as [->|]; [intros Hm%Hsub; by apply Hr|by apply Hr].
    - intros u. rewrite Hdir. destruct (Bool.eqb_spec u up) as [->|]; [by apply Hhas|by apply Hs]. }
  assert (forall P : Prop, (forall u, joinable (d_worker (dir_of u s)) = false) -> P) as Hnq by (intros P Hq; by rewrite Hq in Hl).
  assert (forall P : Prop, (forall u, d_worker (dir_of u s) = WNone) -> P) as Hns by (intros P Hq; by rewrite Hq in Hl).
  split.
  - eapply holds_perm; [symmetry; apply (fds_rest up)|]. rewrite (maps_rest up). subst s'.
    destruct up; exact Hp.
  - split.
    + intros u. rewrite Hdir. destruct (Bool.eqb u up); [done|by apply H1].
    + intros E. destruct (H2 E) as (Hq & _). by apply Hnq.
    + exact H3.
    + intros u _. by apply (H4 up).
    + exact H5.
    + exact H6.
  - change (a_main s') with (a_main s). destruct (a_main s) as [|u| | | | |u| |u k|k|k|k|l| | | |] eqn:Em; cbn [pc_ok] in *;
      try (destruct Hpc as ((_ & Hq) & _); by apply Hns); try (destruct Hpc as (_ & _ & Hq & _); by apply Hnq);
      try (destruct Hpc as (_ & Hq & _); by apply Hnq); try (destruct Hpc as (Hq & _); by apply Hnq).
    + destruct Hpc as (Hlt & Hf & Hsy & Hsp). split_and!; [by apply Hlate|done|done|]. intros v Hv.
      destruct (Hsp v Hv) as [Hw He]. rewrite Hdir. destruct (Bool.eqb_spec v up) as [->|]; [|done]. by rewrite Hw in Hl.
    + by apply Hlate.
    + destruct Hpc as (Hlt & Hf & Hd & Hk). split_and!; [by apply Hlate|done| |done].
      intros Hu. specialize (Hd Hu). change (a_down s') with (dir_of false s'). rewrite Hdir.
      destruct up; [done|]. cbn in Hl. by rewrite Hd in Hl.
Qed.

Lemma dir_same base up d s : life_inv base s -> dir_step (dir_of up s) d ->
  dir_fds d = dir_fds (dir_of up s) -> dir_maps d = dir_maps (dir_of up s) -> life_inv base (put_dir up d s).
Proof.
  intros Hi Hd Ef Em. apply (put_dir_inv base up d (a_proc s) s Hi Hd). rewrite Ef, Em, <- maps_rest.
  eapply holds_perm; [apply (fds_rest up)|apply Hi].
Qed.
Lemma worker_step_inv base up s s' : life_inv base s -> worker_step up s = Some s' -> life_inv base s'.
Proof.
  intros Hi. pose proof (sh_dir s (li_shape _ _ Hi) up) as Hd. unfold worker_step.
  destruct (dir_of up s) as [ap en ar mg w rx pr] eqn:E. unfold dir_ok, rx_ok in Hd. cbn in *.
  destruct w; try done; [| |destruct pr; try done|destruct rx; try done]; intros [= <-]; destruct Hd as (-> & -> & Hd);
    apply dir_same; try done; rewrite E; try reflexivity.
  - destruct Hd as (Ha & -> & -> & ->). split; try done; cbn.
    + split_and!; try done. by left.
    + unfold has. cbn. by intros [?|?]; [left|].
  - destruct Hd as (_ & -> & _). unfold dir_fds. cbn. by rewrite app_nil_r.
  - destruct Hd as (_ & -> & _). unfold dir_maps. cbn. lia.
  - destruct Hd as (-> & Hr & ->). split; try done; cbn; by split_and!.
  - destruct Hd as (-> & Hr & _). split; try done; cbn; by split_and!.
  - destruct Hd as (-> & Hr & ->). split; try done; cbn; split_and!; try done; by destruct Hr as [[? _]|[_ ?]].
Qed.
Lemma rx_end_inv base up s s' : life_inv base s -> rx_end up s = Some s' -> life_inv base s'.
Proof.
  intros Hi. pose proof (sh_dir s (li_shape _ _ Hi) up) as Hd. pose proof (li_holds _ _ Hi) as Hh.
  rewrite (maps_rest up) in Hh. apply (holds_perm _ _ _ _ _ (fds_rest up s)) in Hh. unfold rx_end.
  destruct (dir_of up s) as [ap en ar mg w rx pr] eqn:E. unfold dir_ok, rx_ok in Hd. cbn in *.
  destruct rx; try done. intros [= <-].
  assert (ap = None /\ en = None /\ ar = None /\ is_Some mg /\ joinable w = true) as (-> & -> & -> & Hmg & Hw) by (destruct w; naive_solver).
  apply put_dir_inv; [done| |].
  - rewrite E. split; cbn; try done.
    + unfold dir_ok, rx_ok. cbn. destruct w; naive_solver.
    + intros _. by right.
    + by intros m Hm%elem_of_nil.
  - unfold dir_fds, dir_maps in *. cbn in *. by apply holds_destroy.
Qed.
Lemma proc_end_inv base up s s' : life_inv base s -> proc_end up s = Some s' -> life_inv base s'.
Proof.
  intros Hi. pose proof (sh_dir s (li_shape _ _ Hi) up) as Hd. unfold proc_end.
  destruct (dir_of up s) as [ap en ar mg w rx pr] eqn:E. unfold dir_ok, rx_ok in Hd. cbn in *.
  destruct pr; try done. intros [= <-]. apply dir_same; [done| |by rewrite E|by rewrite E]. rewrite E.
  split; try done; cbn; [by destruct w; naive_solver|unfold dir_ok, rx_ok; cbn; destruct w; naive_solver|destruct w; naive_solver].
Qed.

(** * The services' steps *)
Lemma svc_fds_insert l i v v' : l !! i = Some v ->
  exists r, svc_fds l ≡ₚ fd_list (sv_tmp v) ++ r /\ svc_fds (<[i := v']> l) ≡ₚ fd_list (sv_tmp v') ++ r.
Proof.
  intros Hi. exists (svc_fds (take i l ++ drop (S i) l)). pose proof (take_drop_middle l i v Hi) as E.
  rewrite <- E at 1. rewrite insert_take_drop by (by eapply lookup_lt_Some).
  unfold svc_fds. rewrite !map_app, !concat_app. cbn. split; by rewrite app_assoc, (Permutation_app_comm _ (fd_list _)), app_assoc_reverse.
Qed.
(** A living service's descriptor changes, or the service ends. *)
Lemma set_svc_inv base i v v' p s : life_inv base s -> a_svcs s !! i = Some v -> sv_alive v = true ->
  (sv_alive v' = false -> sv_tmp v' < 0) ->
  (forall l, holds base (a_proc s) (fd_list (sv_tmp v) ++ l) (maps s) -> holds base p (fd_list (sv_tmp v') ++ l) (maps s)) ->
  life_inv base (set_proc p (set_svcs (<[i := v']> (a_svcs s)) s)).
Proof.
  intros [Hh [H1 H2 H3 H4 H5 H6] Hpc] Hi Hv Hv' Hp. set (s' := set_proc p _).
  assert (~ dead s) as Hnd.
  { intros Hd. unfold dead in Hd. rewrite <- not_true_iff_false in Hd. apply Hd, existsb_exists. exists v.
    split; [|done]. eapply list_elem_of_In, list_elem_of_lookup_2, Hi. }
  split.
  - destruct (svc_fds_insert _ _ _ v' Hi) as (r & E & E'). unfold fds in *. change (maps s') with (maps s).
    set (a := dir_fds (a_down s) ++ dir_fds (a_up s) ++ zs_fds (sync_fds (a_sync s)) ++ ctl_fds (a_ctl s)).
    apply (holds_perm base p (fd_list (sv_tmp v') ++ a ++ r)).
    + subst s' a. cbn. rewrite E', !app_assoc. f_equiv. rewrite <- !app_assoc, Permutation_app_comm, <- !app_assoc. done.
    + apply Hp. eapply holds_perm; [|exact Hh]. subst a. rewrite E, !app_assoc. f_equiv.
      rewrite <- !app_assoc, (Permutation_app_comm (fd_list _)), <- !app_assoc. done.
  - split; [done|done| |done| |].
    + intros E. by destruct (H3 E).
    + destruct H5 as [|H5]; [done|by right].
    + by apply Forall_insert.
  - change (a_main s') with (a_main s).
    destruct (a_main s) as [|u| | | | |u| |u k|k|k|k|l| | | |]; cbn [pc_ok] in *; try done; try naive_solver.
Qed.
Lemma svc_open_inv base i s s' : life_inv base s -> svc_open i s = Some s' -> life_inv base s'.
Proof.
  intros Hi. unfold svc_open. destruct (a_svcs s !! i) as [v|] eqn:E; [|done]. cbn.
  destruct (sv_alive v) eqn:Ev; [|done]. destruct (Z.leb_spec 0 (sv_tmp v)) as [|Ht]; [done|]. cbn.
  destruct (open_fd (a_proc s)) as [fd p] eqn:Ef. intros [= <-]. eapply set_svc_inv; [done|exact E|done|done|].
  intros l. unfold fd_list at 1. rewrite (proj2 (Z.leb_gt 0 (sv_tmp v)) Ht). by apply holds_open_fd.
Qed.
Lemma svc_close_inv base i s s' : life_inv base s -> svc_close i s = Some s' -> life_inv base s'.
Proof.
  intros Hi. unfold svc_close. destruct (a_svcs s !! i) as [v|] eqn:E; [|done]. cbn.
  destruct (sv_alive v) eqn:Ev; [|done]. destruct (Z.ltb_spec (sv_tmp v) 0) as [|Ht]; [done|]. cbn.
  intros [= <-]. eapply set_svc_inv; [done|exact E|done|done|]. intros l. cbn. by apply holds_close_fd.
Qed.
Lemma svc_end_inv base i s s' : life_inv base s -> svc_end i s = Some s' -> life_inv base s'.
Proof.
  intros Hi. unfold svc_end. destruct (a_svcs s !! i) as [v|] eqn:E; [|done]. cbn.
  destruct (sv_alive v) eqn:Ev; [|done]. destruct (Z.leb_spec 0 (sv_tmp v)) as [|Ht]; [done|]. cbn.
  intros [= <-]. apply (set_svc_inv base i v (Svc false (-1)) (a_proc s)); [done..|].
  intros l. unfold fd_list at 1. by rewrite (proj2 (Z.leb_gt 0 (sv_tmp v)) Ht).
Qed.

(** * The main thread's steps *)
(** Both directions are replaced, with workers as far as before. *)
Lemma shape_dirs p dd du s : shape s -> d_worker dd = d_worker (a_down s) -> d_worker du = d_worker (a_up s) ->
  dir_ok dd -> dir_ok du -> (a_fwd s = false -> d_eng dd = None /\ d_eng du = None) ->
  shape (set_proc p (put_dir false dd (put_dir true du s))).
Proof.
  intros [H1 H2 H3 H4 H5 H6] Ed Eu Hd Hu He. split; try done.
  - by dirs.
  - intros E. destruct (H2 E) as (Hq & Hc & _). split_and!; [dirs; [rewrite Eu; apply (Hq true)|rewrite Ed; apply (Hq false)]|done|dirs; by apply He].
  - dirs; [rewrite Eu; apply (H4 true)|rewrite Ed; apply (H4 false)].
Qed.
Lemma none_ok up s : shape s -> d_worker (dir_of up s) = WNone ->
  d_arg (dir_of up s) = None /\ d_mgr (dir_of up s) = None /\ d_rx (dir_of up s) = TNone /\ d_proc (dir_of up s) = TNone.
Proof. intros Hs E. pose proof (sh_dir s Hs up) as H. unfold dir_ok in H. rewrite E in H. naive_solver. Qed.
(** Before the engine: a direction is its socket in [App]. *)
Lemma early_dir s : shape s -> unstarted s -> forall up, dir_of up s = Dir (d_app (dir_of up s)) None None None WNone TNone TNone.
Proof.
  intros Hs [E Hw] up. destruct (none_ok up s Hs (Hw up)) as (E1 & E2 & E3 & E4). specialize (Hw up).
  destruct (sh_nofwd s Hs E) as (_ & _ & He). specialize (He up). destruct (dir_of up s). cbn in *. by subst.
Qed.

Lemma dead_svcs s : shape s -> dead s -> svc_fds (a_svcs s) = [].
Proof.
  intros Hs Hd. pose proof (sh_tmp s Hs) as Ht. unfold dead in Hd. revert Ht Hd.
  induction (a_svcs s) as [|v l IH]; [done|]. intros Ht. inversion Ht as [|? ? Hv Hl]; subst. cbn.
  intros [Ev El]%orb_false_iff. unfold svc_fds in *. cbn. rewrite IH by done. unfold fd_list.
  by rewrite (proj2 (Z.leb_gt 0 (sv_tmp v)) (Hv Ev)).
Qed.

Section MainInv.
Context (iface_wan iface_lan : list Z) (nproc : Z) (base : Process).
Notation step_of := (main_step iface_wan iface_lan nproc).

Lemma same_trans p q r : same_resources p q -> same_resources q r -> same_resources p r.
Proof. intros [? ?] [? ?]. split; congruence. Qed.

Lemma m_init s s' : life_inv base s -> a_main s = MInit -> step_of s = Some s' -> life_inv base s'.
Proof.
  intros [Hh Hs Hpc] Em. rewrite Em in Hpc. destruct Hpc as (Hu & Hm & Ha). unfold main_step. rewrite Em. intros [= <-].
  pose proof (early_dir s Hs Hu false) as Ed. pose proof (early_dir s Hs Hu true) as Eu. rewrite !Ha in *. cbn in Ed, Eu.
  pose proof Hu as [Hf Hw]. pose proof (Hw false) as Hwd. pose proof (Hw true) as Hwu. cbn in Hwd, Hwu. apply inv_go.
  - apply (holds_same _ (a_proc s)); [eapply same_trans; apply offloads_balanced|].
    unfold fds, maps in *. cbn. rewrite Ed, Eu in *. exact Hh.
  - apply shape_dirs; try done; rewrite ?Ed, ?Eu; cbn; try done; unfold dir_ok; cbn; naive_solver.
  - cbn. split_and!; [split; [done|]|done|eexists; split_and!; done..].
    dirs; by rewrite ?Ed, ?Eu.
Qed.

Lemma m_sock up s s' : life_inv base s -> a_main s = MInitSock up -> step_of s = Some s' -> life_inv base s'.
Proof.
  intros [Hh Hs Hpc] Em. rewrite Em in Hpc. destruct Hpc as (Hu & Hm & (m & Ea & Hfd & Hring) & Hr).
  unfold main_step. rewrite Em, Ea. cbn.
  destruct (rawsock_init m (a_proc s)) as [[r m'] p] eqn:Ei.
  assert (holds base (a_proc s) (rest up s) (dir_maps (dir_of (negb up) s))) as Hrest.
  { apply (holds_perm _ _ _ _ _ (fds_rest up s)) in Hh. rewrite (maps_rest up) in Hh.
    rewrite (early_dir s Hs Hu up), Ea in Hh. unfold dir_fds, dir_maps, sock_fds, sock_maps in Hh. cbn in Hh.
    rewrite Hring in Hh. unfold fd_list in Hh. rewrite Hfd in Hh. exact Hh. }
  destruct (holds_sock_init _ _ _ _ _ _ _ _ Hfd Hring Ei Hrest) as [Hh' Hok].
  set (d' := Dir (Some m') _ _ _ _ _ _). set (s1 := set_proc p (put_dir up d' s)). intros [= <-].
  pose proof (early_dir s Hs Hu) as Ed. pose proof Hu as [Hf Hw].
  assert (shape s1) as Hs1.
  { pose proof Hs as [H1 H2 H3 H4 H5 H6]. assert (forall u, d_worker (dir_of u s1) = WNone) as Hw1.
    { subst s1 d'. destruct up; dirs; first [apply (Hw true)|apply (Hw false)]. }
    split; try done.
    - intros u. unfold dir_ok. rewrite Hw1. subst s1 d'. rewrite Ed. destruct (none_ok u s Hs (Hw u)) as (E1 & E2 & E3 & E4).
      destruct up, u; cbn in *; try (by split_and!; auto); split_and!; try done; right;
        destruct (H2 Hf) as (_ & _ & He0); first [apply (He0 true)|apply (He0 false)].
    - intros E. destruct (H2 E) as (Hq & Hc & He). split_and!; [|done|].
      + intros u. by rewrite Hw1.
      + subst s1 d'. rewrite Ed. destruct up; dirs; try done; first [apply (He true)|apply (He false)].
    - intros u. by rewrite Hw1. }
  assert (unstarted s1) as Hu1.
  { split; [done|]. subst s1 d'. destruct up; dirs; first [apply (Hw true)|apply (Hw false)]. }
  apply inv_go; [|done|].
  - eapply holds_perm; [symmetry; apply (fds_rest up)|]. rewrite (maps_rest up). subst s1 d'. rewrite Ed.
    destruct up; cbn in *; unfold dir_fds, dir_maps; cbn; rewrite !app_nil_r, !Nat.add_0_r; exact Hh'.
  - destruct r as [e|[]]; [by apply fwd_stop_early|]. specialize (Hok eq_refl).
    destruct up; cbn; (split; [done|]); (split; [done|]).
    + dirs; [by exists m'|exact Hr].
    + split; [exact Hr|]. by exists m'.
Qed.

Lemma m_start s s' : life_inv base s -> a_main s = MStart -> step_of s = Some s' -> life_inv base s'.
Proof.
  intros [Hh Hs Hpc] Em. rewrite Em in Hpc. destruct Hpc as (Hu & Hm & Ha). unfold main_step. rewrite Em. intros [= <-].
  apply inv_go.
  - eapply holds_same; [|exact Hh]. apply governor_balanced.
  - destruct Hs. by split.
  - cbn. split_and!; [done|done| |done]. intros up m. change (dir_of up _) with (dir_of up s).
    rewrite (early_dir s Hs Hu up). unfold holders. cbn. destruct (Ha up) as (x & Ex & Hx). rewrite Ex. cbn.
    intros ->%list_elem_of_singleton. split; [|done]. unfold fd_of. destruct up; cbn in *; by rewrite Ex.
Qed.
Lemma m_control s s' : life_inv base s -> a_main s = MControl -> step_of s = Some s' -> life_inv base s'.
Proof.
  intros [Hh Hs Hpc] Em. rewrite Em in Hpc. destruct Hpc as (Hu & Hm & Hr & Ha). unfold main_step. rewrite Em.
  pose proof Hs as [H1 H2 H3 H4 H5 H6]. destruct (H3 Hm) as [Ec Hd].
  rewrite Ec. destruct (control_open _ _) as [[c p]|] eqn:E; intros [= <-]; [|by apply inv_go].
  assert (svc_fds (a_svcs s) = []) as Esv by by apply dead_svcs.
  apply inv_go.
  - apply (holds_perm base p (ctl_fds c ++ fds s)); [|exact (proj1 (holds_ctl_open _ _ _ _ _ _ E Hh))].
    unfold fds at 1. rewrite Ec, Esv. change (ctl_fds ControlFds0) with (@nil nat). rewrite !app_nil_r.
    rewrite Permutation_app_comm, <- !app_assoc, <- (app_nil_r (ctl_fds c)). reflexivity.
  - split; try done; cbn; [right; apply (holds_ctl_open _ _ _ _ _ _ E Hh)|by repeat constructor].
  - cbn. done.
Qed.

Lemma m_forward s s' : life_inv base s -> a_main s = MForward -> step_of s = Some s' -> life_inv base s'.
Proof.
  intros [Hh Hs Hpc] Em. rewrite Em in Hpc. destruct Hpc as (Hu & Hr & Ha). unfold main_step, engine_start. rewrite Em.
  pose proof Hs as [H1 H2 H3 H4 H5 H6]. pose proof Hu as [Hf Hw]. destruct (H2 Hf) as (Hq & Hc & He).
  pose proof (early_dir s Hs Hu false) as Ed. pose proof (early_dir s Hs Hu true) as Eu. cbn in Ed, Eu.
  destruct (open_poll_fds _ _) as [[ok ws] p] eqn:E. intros [= <-].
  assert (holds base (snd (force_arp_resolution (a_proc s))) (fds s) (maps s)) as Hh'.
  { eapply holds_same; [apply force_arp_balanced|done]. }
  destruct (holds_open_poll _ _ _ _ _ _ _ _ Hc E Hh') as [Hh2 Hws].
  set (dd := Dir None (d_app (a_down s)) _ _ _ _ _). set (du := Dir None (d_app (a_up s)) _ _ _ _ _).
  assert (dd = Dir None (d_app (a_down s)) None None WNone TNone TNone) as Edd by (unfold dd; by rewrite Ed).
  assert (du = Dir None (d_app (a_up s)) None None WNone TNone TNone) as Edu by (unfold du; by rewrite Eu).
  clearbody dd du. subst dd du.
  set (s1 := set_engine true ws _).
  assert (late s1) as Hl.
  { split; dirs; try (intros m; change (d_app (a_up s)) with (d_app (dir_of true s)); change (d_app (a_down s)) with (d_app (dir_of false s))).
    - intros Hm. apply (Hr true). cbn. rewrite Eu. unfold holders in *. cbn in *. by destruct (d_app (a_up s)).
    - intros Hm. apply (Hr false). cbn. rewrite Ed. unfold holders in *. cbn in *. by destruct (d_app (a_down s)).
    - left. destruct (Ha true) as (x & Ex & _). cbn in Ex. unfold holders. cbn. by rewrite Ex.
    - left. destruct (Ha false) as (x & Ex & _). cbn in Ex. unfold holders. cbn. by rewrite Ex. }
  apply inv_go.
  - assert (maps s1 = maps s) as ->.
    { unfold maps. cbn. rewrite Ed, Eu. unfold dir_maps. cbn. lia. }
    eapply holds_perm; [|exact Hh2]. unfold fds. rewrite (closed_zs (a_sync s)) by done.
    assert (dir_fds (a_down s1) = dir_fds (a_down s) /\ dir_fds (a_up s1) = dir_fds (a_up s)) as [-> ->].
    { subst s1. cbn. rewrite Ed, Eu. unfold dir_fds. cbn. by rewrite !app_nil_r. }
    change (a_sync s1) with ws. change (a_ctl s1) with (a_ctl s). change (a_svcs s1) with (a_svcs s).
    rewrite app_nil_l, (Permutation_app_swap_app (zs_fds _)). f_equiv. apply Permutation_app_swap_app.
  - split; try done; cbn.
    + dirs; unfold dir_ok; cbn; naive_solver.
    + by intros [|].
  - destruct ok; cbn; [|done]. split_and!; try done. intros [] _; cbn; (split; [done|]);
      [destruct (Ha true) as (x & Ex & _)|destruct (Ha false) as (x & Ex & _)]; cbn in Ex; by rewrite Ex.
Qed.

Lemma m_spawn up s s' : life_inv base s -> a_main s = MSpawn up -> step_of s = Some s' -> life_inv base s'.
Proof.
  intros [Hh Hs Hpc] Em. rewrite Em in Hpc. destruct Hpc as ((Hr & Hhas) & Hf & Hsy & Hsp). unfold main_step. rewrite Em.
  intros [= <-]. destruct (Hsp up (or_introl eq_refl)) as [Hw He].
  destruct (none_ok up s Hs Hw) as (E1 & E2 & E3 & E4). pose proof Hs as [H1 H2 H3 H4 H5 H6].
  assert (d_app (dir_of up s) = None) as Ea.
  { pose proof (H1 up) as Hd. unfold dir_ok in Hd. rewrite Hw in Hd. destruct Hd as (_ & _ & _ & _ & [?|E]); [done|].
    rewrite E in He. by destruct He. }
  set (d := Dir _ _ _ _ _ _ _).
  assert (dir_fds d = dir_fds (dir_of up s) /\ dir_maps d = dir_maps (dir_of up s) /\ holders d = holders (dir_of up s))
    as (Ef & Emp & Eh).
  { subst d. unfold dir_fds, dir_maps, holders. rewrite Ea, E1, E2. cbn. rewrite !app_nil_r. split_and!; [done|lia|].
    by destruct (d_eng (dir_of up s)). }
  assert (forall u, dir_of u (put_dir up d s) = if Bool.eqb u up then d else dir_of u s) as Hdir by (by destruct up; intros []).
  assert (late (put_dir up d s)) as Hl.
  { split; [intros u m|intros u]; rewrite Hdir; destruct (Bool.eqb_spec u up) as [->|]; [|by apply Hr| |by apply Hhas].
    - rewrite Eh. destruct up; exact (Hr _ m).
    - unfold has. rewrite Eh. exact (Hhas up). }
  apply inv_go.
  - eapply holds_perm; [symmetry; apply (fds_rest up)|]. rewrite (maps_rest up), dir_put, dir_put_ne, Ef, Emp, <- maps_rest.
    replace (rest up (put_dir up d s)) with (rest up s) by (by destruct up).
    eapply holds_perm; [apply (fds_rest up)|]. destruct up; exact Hh.
  - split; try (destruct up; done).
    + intros u. rewrite Hdir. destruct (Bool.eqb_spec u up) as [->|]; [|by apply H1].
      subst d. unfold dir_ok. cbn. by rewrite E2.
    + intros E. destruct up; cbn in E; by rewrite Hf in E.
  - destruct up; cbn; [exact Hl|]. split_and!; [exact Hl|done|done|]. intros u [->|?]; [|done].
    exact (Hsp true (or_intror eq_refl)).
Qed.

(** The joins, and what follows them. *)
Lemma m_fwd_join up k s s' : life_inv base s -> a_main s = MFwdJoin up k -> step_of s = Some s' -> life_inv base s'.
Proof.
  intros [Hh Hs Hpc] Em. rewrite Em in Hpc. destruct Hpc as (Hl & Hf & Hd & Hk). unfold main_step. rewrite Em.
  destruct (joinable (d_worker (dir_of up s))) eqn:Ej; [done|]. intros [= <-]. apply inv_go; [exact Hh|exact Hs|].
  destruct up; cbn; (split; [exact Hl|]); (split; [exact Hf|]); (split; [|exact Hk]); [|by intros _].
  dirs; [exact Ej|by apply Hd].
Qed.
Lemma m_fwd_close k s s' : life_inv base s -> a_main s = MFwdClose k -> step_of s = Some s' -> life_inv base s'.
Proof.
  intros [Hh Hs Hpc] Em. rewrite Em in Hpc. destruct Hpc as (Hl & Hf & Hq & Hk). unfold main_step. rewrite Em.
  destruct (close_poll_fds (a_sync s) (a_proc s)) as [ws p] eqn:E. intros [= <-].
  set (l := dir_fds (a_down s) ++ dir_fds (a_up s) ++ ctl_fds (a_ctl s) ++ svc_fds (a_svcs s)).
  assert (holds base (a_proc s) (zs_fds (sync_fds (a_sync s)) ++ l) (maps s)) as Hh'.
  { eapply holds_perm; [|exact Hh]. unfold fds, l. symmetry. rewrite (Permutation_app_swap_app (zs_fds _)). apply Permutation_app_head.
    apply Permutation_app_swap_app. }
  destruct (holds_close_poll _ _ _ _ _ _ _ E Hh') as [Hp Hc].
  set (s1 := set_engine _ ws _). assert (shape s1) as Hs1.
  { destruct Hs as [H1 H2 H3 H4 H5 H6]. split; try done.
    - cbn. by rewrite Hf.
    - intros u. change (dir_of u s1) with (dir_of u s). by rewrite Hq. }
  apply inv_go; [|done|].
  - unfold fds. change (a_sync s1) with ws. rewrite (closed_zs ws Hc). exact Hp.
  - by apply after_fwd_ok.
Qed.
Lemma m_ctl_join k s s' : life_inv base s -> a_main s = MCtlJoin k -> step_of s = Some s' -> life_inv base s'.
Proof.
  intros [Hh Hs Hpc] Em. rewrite Em in Hpc. unfold main_step. rewrite Em.
  destruct (existsb _ _) eqn:E; [done|]. intros [= <-]. by apply inv_go; [| |destruct Hpc as (? & ? & ?)].
Qed.
Lemma m_ctl_close k s s' : life_inv base s -> a_main s = MCtlClose k -> step_of s = Some s' -> life_inv base s'.
Proof.
  intros [Hh Hs Hpc] Em. rewrite Em in Hpc. destruct Hpc as (Hl & Hq & Hc & Hd). unfold main_step. rewrite Em.
  destruct (control_close (a_ctl s) (a_proc s)) as [c p] eqn:E. intros [= <-].
  set (l := dir_fds (a_down s) ++ dir_fds (a_up s) ++ zs_fds (sync_fds (a_sync s)) ++ svc_fds (a_svcs s)).
  assert (holds base (a_proc s) (ctl_fds (a_ctl s) ++ l) (maps s)) as Hh'.
  { eapply holds_perm; [|exact Hh]. unfold fds, l. symmetry.
    rewrite (Permutation_app_swap_app (ctl_fds _)). apply Permutation_app_head.
    rewrite (Permutation_app_swap_app (ctl_fds _)). apply Permutation_app_head, Permutation_app_swap_app. }
  destruct (holds_ctl_close _ _ _ _ _ _ _ E Hh') as [Hp Hn].
  set (s1 := set_control _ c _). assert (shape s1) as Hs1.
  { destruct Hs as [H1 H2 H3 H4 H5 H6]. split; try done.
    - intros Em'. destruct (H3 Em') as [Ec _]. rewrite Ec in E. by injection E as <- _.
    - by left. }
  apply inv_go; [|done|].
  - unfold fds. change (a_ctl s1) with c. rewrite Hn. exact Hp.
  - by apply after_ctl_ok.
Qed.
Lemma inv_life l s : life_inv base s -> life_inv base (set_life l s).
Proof.
  intros [Hh [] Hpc]. split; [done|by split|]. change (a_main (set_life l s)) with (a_main s). by destruct (a_main s).
Qed.
Lemma m_mark leaving s s' : life_inv base s -> a_main s = MMark leaving -> step_of s = Some s' -> life_inv base s'.
Proof.
  intros Hi Em. unfold main_step. rewrite Em. intros [= <-].
  destruct (inv_life (mark_complete (a_life s)) s Hi) as [Hh Hs Hpc].
  change (a_main (set_life (mark_complete (a_life s)) s)) with (a_main s) in Hpc. rewrite Em in Hpc. destruct Hpc as (Hl & _).
  apply inv_go; [done|done|]. destruct leaving; [by apply fwd_stop_ok|done].
Qed.

(** Sockets are destroyed, the LAN's first. *)
Lemma destroy_both md mu p l n : holds base p (sock_fds md ++ sock_fds mu ++ l) (sock_maps md + sock_maps mu + n) ->
  holds base (destroy md (destroy mu p)) l n.
Proof.
  intros H. apply holds_destroy, holds_destroy.
  replace (sock_maps mu + (sock_maps md + n))%nat with (sock_maps md + sock_maps mu + n)%nat by lia.
  eapply holds_perm; [|exact H]. apply Permutation_app_swap_app.
Qed.
Lemma dir_fds_eng d : dir_fds d ≡ₚ
  sock_fds (d_eng d) ++ dir_fds (Dir (d_app d) None (d_arg d) (d_mgr d) (d_worker d) (d_rx d) (d_proc d)).
Proof. apply Permutation_app_swap_app. Qed.
Lemma dir_fds_app d : dir_fds d =
  sock_fds (d_app d) ++ dir_fds (Dir None (d_eng d) (d_arg d) (d_mgr d) (d_worker d) (d_rx d) (d_proc d)).
Proof. done. Qed.
Lemma m_drop_eng s s' : life_inv base s -> a_main s = MDropEng -> step_of s = Some s' -> life_inv base s'.
Proof.
  intros [Hh Hs Hpc] Em. rewrite Em in Hpc. destruct Hpc as (Hq & Hc & Hd & Hn). unfold main_step. rewrite Em. intros [= <-].
  pose proof Hs as [H1 H2 H3 H4 H5 H6].
  assert (forall d, dir_ok d -> joinable (d_worker d) = false ->
    dir_ok (Dir (d_app d) None (d_arg d) (d_mgr d) (d_worker d) (d_rx d) (d_proc d))) as Hok.
  { intros d. unfold dir_ok. cbn. destruct (d_worker d); try done; naive_solver. }
  set (s1 := set_engine _ _ _). assert (shape s1) as Hs1.
  { split; try done.
    - dirs; [apply Hok; [apply (H1 true)|apply (Hq true)]|apply Hok; [apply (H1 false)|apply (Hq false)]].
    - intros _. split_and!; [dirs; [apply (Hq true)|apply (Hq false)]|done|by dirs].
    - dirs; [rewrite (Hq true : joinable (d_worker (a_up s)) = _)|rewrite (Hq false : joinable (d_worker (a_down s)) = _)]; done. }
  apply inv_go; [|done|].
  - apply (destroy_both (d_eng (a_down s)) (d_eng (a_up s)) (a_proc s)).
    replace (sock_maps (d_eng (a_down s)) + sock_maps (d_eng (a_up s)) + maps s1)%nat with (maps s)
      by (unfold maps, dir_maps; cbn; lia).
    eapply holds_perm; [|exact Hh]. unfold fds at 1. rewrite (dir_fds_eng (a_down s)), (dir_fds_eng (a_up s)), <- !app_assoc.
    apply Permutation_app_head, Permutation_app_swap_app.
  - cbn. split_and!; [dirs; [apply (Hq true)|apply (Hq false)]|done|done|done|by dirs].
Qed.
Lemma m_drop_app s s' : life_inv base s -> a_main s = MDropApp -> step_of s = Some s' -> life_inv base s'.
Proof.
  intros [Hh Hs Hpc] Em. rewrite Em in Hpc. destruct Hpc as (Hq & Hc & Hd & Hn & He). unfold main_step. rewrite Em. intros [= <-].
  pose proof Hs as [H1 H2 H3 H4 H5 H6].
  assert (forall d, dir_ok d -> joinable (d_worker d) = false ->
    dir_ok (Dir None (d_eng d) (d_arg d) (d_mgr d) (d_worker d) (d_rx d) (d_proc d))) as Hok.
  { intros d. unfold dir_ok. cbn. destruct (d_worker d); try done; naive_solver. }
  set (s1 := set_proc _ _). assert (shape s1) as Hs1.
  { apply shape_dirs; try done; [apply Hok; [apply (H1 false)|apply (Hq false)]|apply Hok; [apply (H1 true)|apply (Hq true)]|].
    intros _. split; [apply (He false)|apply (He true)]. }
  apply inv_go; [|done|].
  - apply (destroy_both (d_app (a_down s)) (d_app (a_up s)) (a_proc s)).
    replace (sock_maps (d_app (a_down s)) + sock_maps (d_app (a_up s)) + maps s1)%nat with (maps s)
      by (unfold maps, dir_maps; cbn; lia).
    eapply holds_perm; [|exact Hh]. unfold fds at 1. rewrite (dir_fds_app (a_down s)), (dir_fds_app (a_up s)), <- !app_assoc.
    apply Permutation_app_head, Permutation_app_swap_app.
  - cbn. split_and!; [dirs; [apply (Hq true)|apply (Hq false)]|done|done|done|].
    dirs; (split; [|done]); [apply (He true)|apply (He false)].
Qed.

Lemma main_step_inv s s' : life_inv base s -> step_of s = Some s' -> life_inv base s'.
Proof.
  intros Hi E. destruct (a_main s) eqn:Em; try (unfold main_step in E; rewrite Em in E; done).
  - by eapply m_init.
  - by eapply m_sock.
  - by eapply m_start.
  - by eapply m_control.
  - by eapply m_forward.
  - by eapply m_spawn.
  - by eapply m_fwd_join.
  - by eapply m_fwd_close.
  - by eapply m_ctl_join.
  - by eapply m_ctl_close.
  - by eapply m_mark.
  - by eapply m_drop_eng.
  - by eapply m_drop_app.
Qed.
Lemma enter_stop_inv leaving s : life_inv base s -> a_main s = MLoop -> life_inv base (enter_stop leaving s).
Proof.
  intros Hi Em. unfold enter_stop, begin_stop.
  destruct (inv_life (MkLife true (complete_ (a_life s))) s Hi) as [Hh Hs Hpc]. set (s1 := set_life _ s) in *.
  change (a_main s1) with (a_main s) in Hpc. rewrite Em in Hpc.
  apply inv_go; [done|done|]. destruct (negb _); [by apply fwd_stop_ok|]. destruct leaving; [by apply fwd_stop_ok|done].
Qed.
Lemma step_inv a s s' : life_inv base s -> step iface_wan iface_lan nproc a s = Some s' -> life_inv base s'.
Proof.
  intros Hi. destruct a; cbn [step].
  - by apply main_step_inv.
  - destruct (a_main s) eqn:Em; try done. intros [= <-]. pose proof Hi as [Hh Hs Hpc]. rewrite Em in Hpc.
    destruct Hpc as (Hu & Hm & Ha). apply inv_go; [done|done|]. destruct ok; [done|by apply fwd_stop_early].
  - destruct (a_main s) eqn:Em; try done. intros [= <-]. pose proof Hi as [Hh Hs Hpc]. rewrite Em in Hpc.
    destruct Hpc as (Hu & Hm & Ha). apply inv_go; [done|done|by apply fwd_stop_early].
  - destruct (a_main s) eqn:Em; try done. intros [= <-]. by apply enter_stop_inv.
  - destruct (a_main s) eqn:Em; try done. intros [= <-]. by apply enter_stop_inv.
  - by apply worker_step_inv.
  - by apply rx_end_inv.
  - by apply proc_end_inv.
  - by apply svc_open_inv.
  - by apply svc_close_inv.
  - by apply svc_end_inv.
Qed.
Lemma app0_inv : life_inv base (app0 base).
Proof.
  split.
  - split; cbn; [apply NoDup_nil_2|by intros x Hx%elem_of_nil|set_solver|lia].
  - split; cbn; [dirs; unfold dir_ok; cbn; by split_and!; auto|intros _; split_and!; [by dirs|repeat constructor|by dirs]
      |done|by dirs|by left|constructor].
  - cbn. split_and!; [split; [done|by dirs]|done|by dirs].
Qed.
Lemma run_inv l s s' : life_inv base s -> run iface_wan iface_lan nproc l s = Some s' -> life_inv base s'.
Proof.
  revert s. induction l as [|a l IH]; intros s Hi; cbn; [by intros [= <-]|].
  destruct (step _ _ _ a s) as [s1|] eqn:E; [|done]. cbn. apply IH. by eapply step_inv.
Qed.
End MainInv.

(** * The program can always end *)
(** How much of the program is left. *)
Definition rank (m : main_pc) : nat :=
  match m with
  | MInit => 40 | MInitSock false => 39 | MInitSock true => 38 | MSync => 37 | MStart => 36 | MControl => 35
  | MForward => 34 | MSpawn false => 33 | MSpawn true => 32 | MLoop => 25
  | MFwdJoin up k =>
      (match k with ByStop false => 30 | ByStop true => 23 | ByApp => 17 | ByMember => 10 end) + (if up then 0 else 1)
  | MFwdClose k => match k with ByStop false => 29 | ByStop true => 22 | ByApp => 16 | ByMember => 9 end
  | MCtlJoin k => match k with ByStop false => 28 | ByStop true => 21 | ByApp => 15 | ByMember => 13 end
  | MCtlClose k => match k with ByStop false => 27 | ByStop true => 20 | ByApp => 14 | ByMember => 12 end
  | MMark leaving => if leaving then 19 else 26
  | MDropEng => 8 | MDropApp => 7 | MEnd | MExited => 0
  end.
Definition busy (t : tstate) : nat := match t with TRun => 1 | _ => 0 end.
Definition dir_left (d : dir) : nat :=
  3 * (match d_worker d with WArg => 4 | WRx => 3 | WBoth => 2 | WJoinRx => 1 | _ => 0 end) + busy (d_rx d) + busy (d_proc d).
Definition svc_left (v : svc) : nat := if sv_alive v then if 0 <=? sv_tmp v then 2 else 1 else 0.
Definition left (s : app) : nat :=
  100 * rank (a_main s) + dir_left (a_down s) + dir_left (a_up s) + sum_list_with svc_left (a_svcs s).

Lemma left_dir up s : left s = (100 * rank (a_main s) + dir_left (dir_of up s) + dir_left (dir_of (negb up) s)
  + sum_list_with svc_left (a_svcs s))%nat.
Proof. unfold left. destruct up; cbn [negb dir_of]; lia. Qed.
Lemma left_put up d p s : (dir_left d < dir_left (dir_of up s))%nat -> (left (set_proc p (put_dir up d s)) < left s)%nat.
Proof. intros H. rewrite !(left_dir up). destruct up; cbn [negb dir_of] in *; unfold set_proc, put_dir in *; cbn in *; lia. Qed.
Lemma left_put_dir up d s : (dir_left d < dir_left (dir_of up s))%nat -> (left (put_dir up d s) < left s)%nat.
Proof. apply (left_put up d (a_proc s)). Qed.
Lemma left_svcs l i v v' : l !! i = Some v -> (svc_left v' < svc_left v)%nat ->
  (sum_list_with svc_left (<[i := v']> l) < sum_list_with svc_left l)%nat.
Proof.
  revert i. induction l as [|x l IH]; intros [|i] Hi Hv; cbn in *; try done; [injection Hi as ->; lia|].
  exact (proj1 (Nat.add_lt_mono_l _ _ _) (IH i Hi Hv)).
Qed.

Section Progress.
Context (iface_wan iface_lan : list Z) (nproc : Z) (base : Process).
Notation stepr := (step iface_wan iface_lan nproc).
Definition advances (s : app) : Prop := exists a s', stepr a s = Some s' /\ (left s' < left s)%nat.

Lemma worker_advances up s : life_inv base s -> joinable (d_worker (dir_of up s)) = true -> advances s.
Proof.
  intros Hi Hj. pose proof (sh_dir s (li_shape _ _ Hi) up) as Hd.
  destruct (d_worker (dir_of up s)) eqn:Ew; try done; unfold dir_ok in Hd; rewrite Ew in Hd.
  - exists (AWorker up). eexists. cbn. unfold worker_step. rewrite Ew. split; [done|]. apply left_put_dir.
    destruct Hd as (_ & _ & _ & _ & E1 & E2). unfold dir_left. cbn. rewrite Ew, E1, E2. cbn. lia.
  - exists (AWorker up). eexists. cbn. unfold worker_step. rewrite Ew. split; [done|]. apply left_put_dir.
    destruct Hd as (_ & _ & _ & _ & E2). unfold dir_left. cbn. rewrite Ew, E2. cbn. lia.
  - destruct Hd as (_ & _ & _ & _ & E2). destruct (d_proc (dir_of up s)) eqn:Ep; [done| |].
    + exists (AProcEnd up). eexists. cbn. unfold proc_end. rewrite Ep. split; [done|]. apply left_put_dir.
      unfold dir_left. cbn. rewrite Ep. cbn. lia.
    + exists (AWorker up). eexists. cbn. unfold worker_step. rewrite Ew, Ep. split; [done|]. apply left_put_dir.
      unfold dir_left. cbn. rewrite Ew, Ep. cbn. lia.
  - destruct Hd as (_ & _ & _ & [[E1 _]|[E1 _]] & E2).
    + exists (ARxEnd up). eexists. cbn. unfold rx_end. rewrite E1. split; [done|]. apply left_put.
      unfold dir_left. cbn. rewrite E1. cbn. lia.
    + exists (AWorker up). eexists. cbn. unfold worker_step. rewrite Ew, E1. split; [done|]. apply left_put_dir.
      unfold dir_left. cbn. rewrite Ew, E1. cbn. lia.
Qed.
Lemma svc_advances s : ~ dead s -> advances s.
Proof.
  intros Hd. apply not_false_is_true, existsb_exists in Hd as (v & Hin & Ev).
  apply list_elem_of_In, list_elem_of_lookup in Hin as [i Hi].
  assert (forall v', (svc_left v' < svc_left v)%nat -> forall p,
    (left (set_proc p (set_svcs (<[i := v']> (a_svcs s)) s)) < left s)%nat) as Hl.
  { intros v' Hv p. unfold left. cbn. pose proof (left_svcs _ _ _ _ Hi Hv). lia. }
  destruct (0 <=? sv_tmp v) eqn:Et.
  - exists (ASvcClose i). eexists. cbn. unfold svc_close. rewrite Hi. cbn. rewrite Ev, Z.ltb_antisym, Et. split; [done|].
    apply Hl. unfold svc_left. cbn. rewrite Ev, Et. vm_compute. lia.
  - exists (ASvcEnd i). eexists. cbn. unfold svc_end. rewrite Hi. cbn. rewrite Ev, Et. split; [done|].
    apply (Hl (Svc false (-1))) with (p := a_proc s). unfold svc_left. cbn. rewrite Ev, Et. lia.
Qed.

Lemma rank_drop s : (rank (drop_fwd s) <= 11)%nat.
Proof. unfold drop_fwd. destruct (a_fwd s); cbn; lia. Qed.
Lemma rank_after_ctl k s : (rank (after_ctl k s) < rank (MCtlClose k))%nat.
Proof.
  pose proof (rank_drop s). destruct k as [[|]| |]; cbn; try lia. destruct (a_made s); cbn; lia.
Qed.
Lemma rank_ctl_stop k s : k <> ByMember -> (rank (ctl_stop k s) <= rank (MCtlJoin k))%nat.
Proof.
  intros _. unfold ctl_stop. pose proof (rank_after_ctl k s). destruct (a_made s); [lia|]. destruct k as [[|]| |]; cbn in *; lia.
Qed.
Lemma rank_after_fwd k s : (rank (after_fwd k s) < rank (MFwdClose k))%nat.
Proof.
  destruct k as [b| |]; cbn [after_fwd]; [pose proof (rank_ctl_stop (ByStop b) s ltac:(done))
    |pose proof (rank_ctl_stop ByApp s ltac:(done))|cbn; lia]; cbn in *; try destruct b; lia.
Qed.
Lemma rank_fwd_stop k s : (rank (fwd_stop k s) <= rank (MFwdJoin false k))%nat.
Proof.
  unfold fwd_stop. pose proof (rank_after_fwd k s). destruct (a_fwd s); [lia|]. destruct k as [[|]| |]; cbn in *; lia.
Qed.

Lemma left_go m s : (rank m < rank (a_main s))%nat -> (left (go m s) < left s)%nat.
Proof. unfold left. cbn. lia. Qed.
Lemma main_advances s : life_inv base s -> quiet s -> dead s -> a_main s <> MEnd -> a_main s <> MExited -> advances s.
Proof.
  intros Hi Hq Hd He Hx. pose proof (li_pc _ _ Hi) as Hpc. pose proof (sh_dir s (li_shape _ _ Hi)) as Hdir.
  assert (dir_left (a_down s) = 0%nat /\ dir_left (a_up s) = 0%nat) as [L1 L2].
  { assert (forall d, joinable (d_worker d) = false -> dir_ok d -> dir_left d = 0%nat) as H.
    { intros d Q D. unfold dir_left, dir_ok in *. destruct (d_worker d); try done;
        [destruct D as (_ & _ & -> & -> & _)|destruct D as (_ & _ & _ & _ & -> & ->)]; done. }
    split; apply H; [apply (Hq false)|apply (Hdir false)|apply (Hq true)|apply (Hdir true)]. }
  assert (forall m s', a_svcs s' = a_svcs s -> dir_left (a_down s') = 0%nat -> dir_left (a_up s') = 0%nat ->
    (rank m < rank (a_main s))%nat -> (left (go m s') < left s)%nat) as Hleft.
  { intros m s' E1 E2 E3 Hr. unfold left. cbn [a_main go a_down a_up a_svcs]. rewrite E1, E2, E3, L1, L2. lia. }
  destruct (a_main s) eqn:Em; try done.
  - exists AMain. eexists. cbn [step]. unfold main_step. rewrite Em. split; [done|]. apply Hleft; try done. cbn; lia.
  - destruct Hpc as (_ & _ & (m & Ea & _) & _). exists AMain. cbn [step]. unfold main_step. rewrite Em, Ea. cbn [mbind option_bind].
    destruct (rawsock_init m (a_proc s)) as [[r m'] p]. eexists. split; [done|].
    pose proof (rank_fwd_stop ByApp) as Hr. apply Hleft; try (by destruct up).
    destruct r as [e|[]]; [|destruct up; cbn; lia]. eapply Nat.le_lt_trans; [apply Hr|]. destruct up; cbn; lia.
  - exists (ASync true). eexists. cbn [step]. rewrite Em. split; [done|]. apply left_go. rewrite Em. cbn. lia.
  - exists AMain. eexists. cbn [step]. unfold main_step. rewrite Em. split; [done|]. apply Hleft; try done. cbn; lia.
  - exists AMain. cbn [step]. unfold main_step. rewrite Em. destruct (control_open _ _) as [[c p]|]; eexists; (split; [done|]).
    + unfold left. cbn [a_main go set_svcs set_control set_proc a_down a_up a_svcs]. rewrite Em.
      change (sum_list_with _ (replicate _ _)) with 7%nat. cbn [rank]. lia.
    + apply left_go. rewrite Em. cbn. lia.
  - exists AMain. cbn [step]. unfold main_step, engine_start. rewrite Em. destruct (open_poll_fds _ _) as [[ok ws] p]. eexists. split; [done|].
    apply Hleft; try done. destruct ok; cbn; lia.
  - exists AMain. eexists. cbn [step]. unfold main_step. rewrite Em. split; [done|].
    destruct Hpc as (_ & _ & _ & Hsp). destruct (Hsp up (or_introl eq_refl)) as [Hw _].
    destruct (none_ok up s (li_shape _ _ Hi) Hw) as (_ & _ & E3 & E4).
    unfold left. destruct up; cbn [dir_of] in *; cbn [a_main go put_dir a_down a_up a_svcs]; rewrite ?L1, ?L2, Em;
      unfold dir_left; cbn [d_worker d_rx d_proc]; rewrite E3, E4; cbn [rank busy]; lia.
  - exists ALeave. eexists. cbn [step]. rewrite Em. split; [done|]. unfold enter_stop, begin_stop.
    set (s1 := set_life _ s). apply Hleft; try done.
    pose proof (rank_fwd_stop (ByStop true) s1). pose proof (rank_fwd_stop ByApp s1). destruct (negb _); cbn in *; lia.
  - exists AMain. eexists. cbn [step]. unfold main_step. rewrite Em, Hq. split; [done|]. apply Hleft; try done. destruct up, k as [[|]| |]; cbn; lia.
  - exists AMain. cbn [step]. unfold main_step. rewrite Em. destruct (close_poll_fds _ _) as [ws p]. eexists. split; [done|].
    apply Hleft; try done. apply rank_after_fwd.
  - exists AMain. cbn [step]. unfold main_step. rewrite Em, Hd. eexists. split; [done|]. apply Hleft; try done.
    destruct k as [[|]| |]; cbn; lia.
  - exists AMain. cbn [step]. unfold main_step. rewrite Em. destruct (control_close _ _) as [c p]. eexists. split; [done|].
    apply Hleft; try done. apply rank_after_ctl.
  - exists AMain. eexists. cbn [step]. unfold main_step. rewrite Em. split; [done|]. set (s1 := set_life _ s). apply Hleft; try done.
    pose proof (rank_fwd_stop ByApp s1). destruct leaving; cbn in *; lia.
  - exists AMain. eexists. cbn [step]. unfold main_step. rewrite Em. split; [done|]. apply Hleft; try done. cbn; lia.
  - exists AMain. eexists. cbn [step]. unfold main_step. rewrite Em. split; [done|]. apply Hleft; try done. cbn; lia.
Qed.
Lemma advances_or_ended s : life_inv base s -> a_main s = MEnd \/ a_main s = MExited \/ advances s.
Proof.
  intros Hi. destruct (joinable (d_worker (dir_of false s))) eqn:J1; [right; right; by eapply worker_advances|].
  destruct (joinable (d_worker (dir_of true s))) eqn:J2; [right; right; by eapply worker_advances|].
  destruct (existsb sv_alive (a_svcs s)) eqn:Hd; [right; right; apply svc_advances; unfold dead; congruence|].
  assert (quiet s) by (by intros []).
  destruct (a_main s) eqn:Em; try (by left); try (by right; left); right; right; apply main_advances; congruence.
Qed.
Lemma can_end s : life_inv base s ->
  exists l s', run iface_wan iface_lan nproc l s = Some s' /\ (a_main s' = MEnd \/ a_main s' = MExited).
Proof.
  induction s as [s IH] using (well_founded_induction (well_founded_ltof app left)). unfold ltof in IH. intros Hi.
  destruct (advances_or_ended s Hi) as [E|[E|(a & s' & E & Hl)]]; [exists [], s; by split; [|left]|exists [], s; by split; [|right]|].
  destruct (IH s' Hl (step_inv _ _ _ _ a s s' Hi E)) as (l & s2 & Hr & Hend). exists (a :: l), s2. cbn. by rewrite E.
Qed.
End Progress.

Lemma run_app wan lan n l1 l2 s : run wan lan n (l1 ++ l2) s = s' ← run wan lan n l1 s; run wan lan n l2 s'.
Proof. revert s. induction l1 as [|a l1 IH]; intros s; [done|]. cbn. destruct (step wan lan n a s); [apply IH|done]. Qed.

(** * What it comes to *)
Lemma held_open base s x : life_inv base s -> x ∈ fds s -> x ∈ p_open (a_proc s).
Proof. intros Hi Hx. rewrite (ho_open _ _ _ _ (li_holds _ _ Hi)). set_solver. Qed.
Lemma holder_held up s m : m ∈ holders (dir_of up s) -> 0 <= rs_fd m -> Z.to_nat (rs_fd m) ∈ fds s.
Proof.
  intros Hm Hfd. rewrite (fds_rest up). apply elem_of_app. left.
  assert (forall o, o = Some m -> Z.to_nat (rs_fd m) ∈ sock_fds o) as Ho.
  { intros o ->. cbn. unfold fd_list. rewrite (proj2 (Z.leb_le 0 _) Hfd). by apply list_elem_of_singleton. }
  unfold holders in Hm. apply list_elem_of_omap in Hm as (o & Hin & Eo). specialize (Ho o Eo).
  unfold dir_fds. rewrite !elem_of_app. rewrite !elem_of_cons, elem_of_nil in Hin.
  destruct Hin as [->|[->|[->|[->|[]]]]]; tauto.
Qed.
(** A direction's socket is open unless its receive thread has ended. *)
Lemma other_open base up s : life_inv base s -> recorded s -> has (dir_of up s) -> d_rx (dir_of up s) <> TEnd ->
  Z.to_nat (fd_of up s) ∈ p_open (a_proc s).
Proof.
  intros Hi Hr [Hh|?] Hx; [|done]. destruct (holders (dir_of up s)) as [|m l] eqn:E; [done|].
  assert (m ∈ holders (dir_of up s)) as Hm by (rewrite E; by left). destruct (Hr up m Hm) as [<- Hfd].
  eapply held_open; [done|]. by eapply holder_held.
Qed.
Lemma live_late base up s : life_inv base s -> joinable (d_worker (dir_of up s)) = true -> late s /\ a_fwd s = true.
Proof.
  intros Hi Hj. pose proof (li_pc _ _ Hi) as Hpc. split.
  - assert (~ quiet s) as Hnq by (intros Hq; by rewrite Hq in Hj).
    assert (~ unstarted s) as Hns by (intros [_ Hw]; by rewrite Hw in Hj).
    destruct (a_main s); cbn [pc_ok] in Hpc; by (repeat match goal with H : _ /\ _ |- _ => destruct H end).
  - destruct (a_fwd s) eqn:E; [done|]. destruct (sh_nofwd s (li_shape _ _ Hi) E) as (Hq & _). by rewrite Hq in Hj.
Qed.
Lemma service_late base s : life_inv base s -> ~ dead s -> recorded s /\ forall up, has (dir_of up s).
Proof.
  intros Hi Hd. pose proof (li_pc _ _ Hi) as Hpc.
  assert (a_made s <> false) as Hm by (intros E; by destruct (sh_nomade s (li_shape _ _ Hi) E)).
  destruct (a_main s); cbn [pc_ok] in Hpc;
    try by (repeat match goal with H : _ /\ _ |- _ => destruct H end).
  destruct Hpc as (_ & Hr & Ha). split; [done|].
  intros up. left. destruct (Ha up) as (x & E & _). unfold holders. by rewrite E.
Qed.
Lemma active_joinable base up s : life_inv base s -> d_rx (dir_of up s) = TRun \/ d_proc (dir_of up s) = TRun ->
  joinable (d_worker (dir_of up s)) = true.
Proof.
  intros Hi Hr. pose proof (sh_dir s (li_shape _ _ Hi) up) as Hd. unfold dir_ok in Hd.
  destruct (d_worker (dir_of up s)); try done;
    [destruct Hd as (_ & _ & E1 & E2 & _)|destruct Hd as (_ & _ & _ & _ & E1 & E2)]; destruct Hr; congruence.
Qed.
Lemma running_holds d : dir_ok d -> d_rx d = TRun -> is_Some (d_mgr d).
Proof.
  unfold dir_ok, rx_ok. intros Hd E. rewrite E in Hd.
  destruct (d_worker d); repeat match goal with H : _ /\ _ |- _ => destruct H | H : _ \/ _ |- _ => destruct H end; done.
Qed.
Lemma one_holder d : dir_ok d -> (length (holders d) <= 1)%nat.
Proof.
  unfold dir_ok, rx_ok, holders. destruct d as [ap en ar mg w rx pr]. cbn.
  destruct w; [intros (-> & -> & _ & _ & [->| ->]); [destruct en|destruct ap]; cbn; lia|..]; intros (-> & -> & H); cbn.
  - destruct H as (_ & -> & _). destruct ar; cbn; lia.
  - destruct H as (-> & _). destruct mg; cbn; lia.
  - destruct H as (-> & _). destruct mg; cbn; lia.
  - destruct H as (-> & _). destruct mg; cbn; lia.
  - destruct H as (-> & -> & _). cbn. lia.
Qed.

(** C22: every descriptor has one owner, from construction to destruction.  However the
    threads interleave and whichever calls fail: at each moment the process has open, beyond
    what it started with, exactly the descriptors and mappings its objects hold, no two
    holding the same; each packet socket has at most one holder; when [~App] is done
    everything has been given back, and every run can be brought to an end.  While a
    receive or processing thread runs, its worker is still there to be joined, the engine
    exists and the workers' eventfds are open; a receive thread holds its socket, under the
    number handed out. The descriptor a processing thread sends to is open unless the
    other direction's receive thread has ended; and while a thread of the control plane
    runs its eventfds are open, and so is the LAN socket the DHCP service answers on,
    unless the LAN's receive thread has ended. *)
Theorem descriptors_have_one_owner (iface_wan iface_lan : list Z) (nproc : Z) (p : Process) (l : list action) (s : app)
    (Hrun : run iface_wan iface_lan nproc l (app0 p) = Some s) :
  holds p (a_proc s) (fds s) (maps s) /\
  (forall up, length (holders (dir_of up s)) <= 1)%nat /\
  (a_main s = MEnd -> same_resources p (a_proc s)) /\
  (exists l' s', run iface_wan iface_lan nproc l' s = Some s' /\ (a_main s' = MEnd \/ a_main s' = MExited)) /\
  (forall up, d_rx (dir_of up s) = TRun \/ d_proc (dir_of up s) = TRun ->
     joinable (d_worker (dir_of up s)) = true /\ a_fwd s = true /\
     Forall (fun fd => 0 <= fd /\ Z.to_nat fd ∈ p_open (a_proc s)) (sync_fds (a_sync s))) /\
  (forall up, d_rx (dir_of up s) = TRun ->
     exists m, d_mgr (dir_of up s) = Some m /\ rs_fd m = fd_of up s /\ Z.to_nat (fd_of up s) ∈ p_open (a_proc s)) /\
  (forall up, d_proc (dir_of up s) = TRun -> d_rx (dir_of (negb up) s) <> TEnd ->
     Z.to_nat (fd_of (negb up) s) ∈ p_open (a_proc s)) /\
  (~ dead s -> (ctl_open (a_ctl s) /\ forall x, x ∈ ctl_fds (a_ctl s) -> x ∈ p_open (a_proc s)) /\
     (d_rx (a_up s) <> TEnd -> Z.to_nat (a_fd_lan s) ∈ p_open (a_proc s))).
Proof.
  pose proof (run_inv _ _ _ _ _ _ _ (app0_inv p) Hrun) as Hi. pose proof Hi as [Hh Hs Hpc].
  split; [done|]. split; [intros up; apply one_holder, Hs|]. split; [|split; [by eapply can_end|split; [|split; [|split]]]].
  - intros Em. rewrite Em in Hpc. destruct Hpc as (Hq & Hc & Hd & Hn & He). destruct Hh as [_ _ Ho Hm].
    assert (forall up, dir_fds (dir_of up s) = [] /\ dir_maps (dir_of up s) = 0%nat) as Hdir.
    { intros up. destruct (He up) as [E1 E2]. pose proof (sh_dir s Hs up) as Hd'. specialize (Hq up).
      unfold dir_fds, dir_maps, dir_ok in *. rewrite E1, E2 in *. destruct (d_worker (dir_of up s)); try done;
        [destruct Hd' as (-> & -> & _)|destruct Hd' as (_ & _ & -> & -> & _)]; done. }
    unfold fds, maps in *. destruct (Hdir false) as [E1 E2], (Hdir true) as [E3 E4]. cbn in E1, E2, E3, E4.
    rewrite E1, E3, (closed_zs _ Hc), Hn, (dead_svcs s Hs Hd) in Ho. rewrite E2, E4 in Hm. cbn in Ho.
    split; [set_solver|lia].
  - intros up Hr. pose proof (active_joinable p up s Hi Hr) as Hj. destruct (live_late p up s Hi Hj) as [_ Hf].
    split; [done|]. split; [done|]. pose proof (sh_sync s Hs up Hj) as Hsy. apply Forall_forall. intros fd Hfd.
    pose proof (proj1 (Forall_forall _ _) Hsy fd Hfd) as Hpos. split; [exact Hpos|]. eapply held_open; [done|].
    unfold fds, zs_fds. rewrite !elem_of_app. right. right. left. apply list_elem_of_In, in_concat.
    exists (fd_list fd). split; [apply in_map, list_elem_of_In, Hfd|]. unfold fd_list.
    rewrite (proj2 (Z.leb_le 0 fd) Hpos). by left.
  - intros up Hr. pose proof (active_joinable p up s Hi (or_introl Hr)) as Hj.
    destruct (live_late p up s Hi Hj) as [[Hrec Hhas] _]. pose proof (sh_dir s Hs up) as Hd.
    assert (is_Some (d_mgr (dir_of up s))) as [m Em].
    { by apply running_holds. }
    exists m. split; [done|]. split; [|by eapply other_open; [| | |congruence]].
    apply Hrec. unfold holders. rewrite Em. cbn. destruct (d_app _), (d_eng _), (d_arg _); cbn;
      rewrite !elem_of_cons; tauto.
  - intros up Hp Hx. pose proof (active_joinable p up s Hi (or_intror Hp)) as Hj.
    destruct (live_late p up s Hi Hj) as [[Hrec Hhas] _]. by eapply other_open.
  - intros Hd. destruct (service_late p s Hi Hd) as [Hrec Hhas]. destruct (sh_ctl s Hs) as [|Hctl]; [done|].
    split; [split; [done|]|intros Hx; exact (other_open p true s Hi Hrec (Hhas true) Hx)].
    intros x Hx. eapply held_open; [done|]. unfold fds. rewrite !elem_of_app. tauto.
Qed.

(** The whole program: two sockets, seven control threads, two workers with two threads
    each, a service's probe, and a shutdown in the course of which the LAN's receive thread
    ends first. *)
Definition w_process : Process := MkProc {[0%nat; 1%nat; 2%nat]} 1 ∅ (replicate 64 true).
Definition w_start : list action :=
  replicate 3 AMain ++ [ASync true] ++ replicate 5 AMain
  ++ [AWorker false; AWorker false; AWorker true; AWorker true; ASvcOpen 1; ASvcClose 1].
Definition w_stop : list action := [AStop; ARxEnd true].
Definition w_rest : list action :=
  [AProcEnd true; AWorker true; AWorker true; AProcEnd false; ARxEnd false; AWorker false; AWorker false]
  ++ replicate 3 AMain ++ map ASvcEnd (seq 0 7) ++ replicate 3 AMain ++ [ALeave] ++ replicate 12 AMain.
Lemma descriptors_have_one_owner_witness : exists s s',
  run (str "eth1"%string) (str "eth0"%string) 4 (w_start ++ w_stop) (app0 w_process) = Some s /\
  run (str "eth1"%string) (str "eth0"%string) 4 w_rest s = Some s' /\ a_main s' = MEnd /\ same_resources w_process (a_proc s').
Proof.
  destruct (run (str "eth1"%string) (str "eth0"%string) 4 (w_start ++ w_stop) (app0 w_process)) as [s|] eqn:E; [|vm_compute in E; discriminate].
  destruct (run (str "eth1"%string) (str "eth0"%string) 4 ((w_start ++ w_stop) ++ w_rest) (app0 w_process)) as [s'|] eqn:E';
    [|vm_compute in E'; discriminate].
  exists s, s'. split; [done|]. split; [by rewrite run_app, E in E'|].
  assert (a_main s' = MEnd) as Em by (vm_compute in E'; injection E' as <-; reflexivity). split; [done|].
  by apply (descriptors_have_one_owner (str "eth1"%string) (str "eth0"%string) 4 w_process _ s' E').
Defined.

(** What the numbers are worth once their socket is gone: during the shutdown the DHCP
    service and the processing thread of the WAN still run, and the number of the LAN socket
    they send to has been given to a probe socket. *)
Example lan_descriptor_reused : exists s,
  run (str "eth1"%string) (str "eth0"%string) 4 (w_start ++ w_stop ++ [ASvcOpen 1]) (app0 w_process) = Some s /\
  d_proc (a_down s) = TRun /\ map sv_alive (a_svcs s) = replicate 7 true /\
  (sv_tmp <$> a_svcs s !! 1%nat) = Some (a_fd_lan s).
Proof. eexists. split; [vm_compute; reflexivity|]. vm_compute. done. Qed.
